(* ===== verification/_CoqProject ===== *)
-Q . S2P
Prelude.v
Wire.v
Messages.v
CString.v
Format.v
Transport.v
Peer.v
FileServer.v
FileServerWin.v
AmigaFs.v
AmigaActions.v
AmigaMount.v
AmigaSafety.v
AmigaIo.v
AmigaSession.v
AmigaTypes.v
AmigaDir.v
AmigaOutput.v
AmigaLocks.v
Names.v
AmigaLink.v
AmigaRequests.v
AmigaContract.v
ServerLink.v
Controller.v
Target.v
Serve.v
ServeEnd.v
OneController.v
Session.v
Programs.v
Startup.v
SessionEnd.v
Network.v
NetworkRead.v
NetworkDir.v
NetworkPrint.v
WholeSession.v
