(* ===== verification/Prelude.v ===== *)
(** * rlaunch, verified

    rlaunch runs a program that lives on a development host on an Amiga.  The
    host runs a controller, the Amiga a target.  The controller connects, asks
    the target to launch an executable and then serves files: the target mounts
    the directory of the controller as an AmigaDOS volume, turns the packets of
    AmigaDOS clients into requests, and completes the packets when the answers
    arrive.  This library is a model of the C sources under src/src/, function
    by function, with theorems about it.

    ** The files, from the bottom up

    - Prelude (this file): machine integers, memory, byte order, C strings,
      tactics.
    - Wire: protocol.h and protocol.c, the encoding of integers, strings and
      arrays.
    - Messages: mkmsg.py as a function from the message description rlnet.msg
      to emitted statements, the meaning of these statements, and the typed
      messages [rl_msg].  rlnet.c is not in the repository; [rl_decode_msg] and
      [rl_encode_msg] are what the generator makes of the description.
    - CString: the string and memory functions of util.c, and its string
      buffers.
    - Format: the format engine of util.c, [rl_format_msg], and the log.
    - Transport: transport.c, the buffers and the queue of a connection, the
      reassembly of messages.  [malloc] and the socket are the classes
      [Allocator] and [Socket], whose laws are what POSIX says of them.
    - Peer: peer.c, the state machine of a connection.  The class
      [PeerCallbacks] is what a peer asks of its owner, the class [PeerLink]
      what the owner may rely on when it transmits; [peer_link] shows that a
      peer keeps the promise, [log_link] is the simplest implementation.
    - FileServer: file_server.c and controller.h, over any [PeerLink] and any
      [Posix] system; FileServerWin: the branches of file_server.c for Windows,
      over any [Win32] system.
    - AmigaFs: amigafs.h and the helpers of amigafs.c: the structures shared
      with AmigaDOS by address, client memory, locks, pending operations.
    - AmigaActions: the packet handlers, the completions and the two
      dispatchers of amigafs.c.
    - AmigaMount: the volume and the life of the file system, over the class
      [Dos], which is what the code uses of AmigaDOS and exec.
    - AmigaSafety: no packet is lost and none is answered twice.
    - AmigaIo: reads, writes and seeks together with a controller that answers.
    - AmigaSession, AmigaDir and AmigaOutput: the file system of the target
      together with the file server of the controller, joined by a list of
      messages, for files, for directories and for what a program prints.
    - AmigaTypes: the heap of the file system stays well typed.
    - AmigaLocks: what locks stand for: names relative to them, their parents,
      their duplicates.
    - Names: the names of states, actions, handles and packets in the log.
    - AmigaLink, AmigaRequests and ServerLink: the file system and the file
      server do the same over every link, and send only what can be sent.
    - AmigaContract: what clients and the controller owe the file system, and
      that under this contract it never leaves its memory.
    - Controller: controller.c, callbacks, command line, set-up, main loop.
    - Target: target.c, launching, callbacks, and the walk over the peers.
    - Serve: target.c, accepting connections, the loop of the server, the
      destruction of its peers; ServeEnd: how the server ends, with work left to
      do; OneController: what becomes of the list of peers when controllers come one
      after the other.
    - Session: the controller and the target over a network, up to the launch;
      SessionEnd: the end of the program and its exit code.
    - Programs: connecting and the two main programs; Startup: the start and the
      end of the target's, with its libraries, memory pool and arguments.
    - Network: every call of a client over the list of messages is one over the
      network; NetworkRead, NetworkDir and NetworkPrint: a file is read, a
      directory listed and text printed over the network; WholeSession: from the
      connection to the exit code.

    ** How the code is modelled

    A function of the source is a definition of the same name (with a final
    underscore where a constructor has the name already).  State is passed
    explicitly; [None] is undefined behaviour of the C program (an access
    outside an object, a wild pointer) or fuel that ran out, never an error that
    the code reports: those are values.  Integers are [Z] with the conversions
    [u8], [u16], [u32] and [s32] where the source converts.  A constant buffer
    is the list of bytes from the pointer to the end of its object, a written
    one the list of all its bytes and an index.  Linked structures (output
    buffers, peers) are nodes in a map from addresses.  The controller side uses
    the POSIX branches and the target side the Amiga branches; functions of both
    take the platform from the class [Host], with byte order and word size.

    Loops that the kernel cannot see end take fuel, computed from the state and
    shown to be enough: [output_fuel] is one turn for each byte in the queue;
    [update_loop] takes one turn for each byte of the input buffer;
    [format_loop] one for each character of the format; [digit_loop] one for
    each digit; [invoke_at] two levels, since only transmissions nest; the walk
    over the peers one for each node, and so do the other walks of the
    server.  [exchange] in AmigaIo takes any fuel above the length of the
    request, one answer for each byte at worst; [list_directory] takes one turn
    for each entry and one more, and so does [find_loop] on Windows.  [lock_dos_list] waits for other programs: its
    fuel is a hypothesis, the number of attempts after which the list is given.

    ** What the theorems show

    - Streams: messages survive encoding and decoding between hosts of any byte
      order ([rl_msg_roundtrip]); what is queued leaves the socket whole and in
      order ([on_output_possible_spec]), and a connected peer hands its owner
      what the other end sent, however the network splits it ([peer_stream]);
      all buffers are freed in the end ([rl_transport_destroy_spec]);
      connections are made by handshakes only ([connected_by_handshake],
      [receive_handshake_spec]) and end when they are silent or lost
      ([update_connected_spec]).
    - File serving: each well-formed request has one answer, only the close of a
      handle none, and the handle table stays well formed, whatever the peer sends
      ([rl_file_serve_spec], and for Windows [rl_file_serve_win_spec]; both also
      show the one request that is undefined with the debug log on); a directory of Windows is listed entry by entry
      ([listing_win]); opening and reading gives the bytes of the file
      ([open_then_read]).
    - The Amiga file system: packets are accounted for ([packets_accounted]);
      reads, writes and seeks mean what AmigaDOS says ([action_read_fills],
      [action_write_sends], [action_seek_spec]); names are joined to the names of
      locks ([normalize_object_path_spec]); mounting takes one volume and
      one port or nothing ([rl_amigafs_init_spec]); as long as clients keep
      the operands of their packets in place and answers fit, no step is undefined
      and the heap keeps its types ([heap_well_typed], which also shows that the
      bound on the answers is exact).
    - Both together: what file system and file server do over a list of
      messages they do over the network ([calls_are_networked]); a file is read
      ([read_file_over_network]); a directory is listed
      ([list_directory_over_network]) and text is printed ([print_over_network]).
    - The programs: launching ([async_spawn_spec], [on_message_received_spec]),
      every command line of the controller ([parse_options_spec]) and its set-up
      ([setup_spec]), the pass over
      the peers ([serve_pass_spec]), accepting ([accept_peer_spec]), one
      controller after the other ([one_controller_list]) and the end of the
      server, in the turn of the break whatever else it brings
      ([serve_break_spec]), and of the program ([main_spec]);
      connecting ([connect_to_target_spec]); two programs that connect come to
      serve files ([session_launches]), and from the connection to the exit code
      the session means what it should ([whole_session]).
    - Helpers: formatting, logging, string and memory functions against their
      specifications.
    - Defects, each as a theorem about the code as it is:
      [rl_decode_array_overread], [format_b_overrun], [close_leaks_descriptor],
      [launch_failure_ignored], [serve_pass_dangling],
      [rl_amigafs_destroy_spec], [parent_lists_root], [copied_lock_closes],
      [fix_path_win_spec]; [accept_peer_spec] shows a descriptor closed twice,
      [rl_file_serve_spec] a null pointer read by a log line, and
      [heap_well_typed] an answer that overruns a read buffer.

    ** What is not modelled

    The Windows branches outside the file server; the log lines, except that
    [write_file_request_], the text of the log itself and the names in it are
    modelled; msgcompiler.lua, which the build does not use, and fstest.c, which
    the build does not use and which does not compile; the [main] of the target
    outside the Amiga, which the source keeps for debugging.  What the socket
    library answers is data in Programs; what [WaitSelect], [accept] and the
    clients of a device do is an argument of [serve_turn].
    [action_findinput] and [action_findoutput] read a handle of the second
    argument's lock that only a log line uses; the read is left out.

    ** Order of the development, and its end

    The data path came first, from bytes to messages to peers, then the two
    owners of a peer, file server and file system, then the programs around them
    and the network between them.  All of it is done.  What the theorems leave
    open: a server with several controllers at once, where [serve_pass_dangling]
    shows that the walk over the peers can go wrong, and a peer that closes the
    connection while the program still runs, beyond what [rl_amigafs_destroy_spec]
    says of it. *)

From Stdlib Require Export ZArith Lia.
From stdpp Require Export base option gmap strings numbers list_numbers list.

#[global] Open Scope Z_scope.

Declare Scope rl_scope.
Delimit Scope rl_scope with rl.

(** ** Machine integers *)

(** [u8], [u16] and [u32] are the conversions to the fixed-size unsigned types
    of util.h; [s32] is the conversion of a 32-bit pattern to [int]. *)
Definition wrap (w : Z) (z : Z) : Z := z mod 2 ^ w.
Definition u8 (z : Z) : Z := wrap 8 z.
Definition u16 (z : Z) : Z := wrap 16 z.
Definition u32 (z : Z) : Z := wrap 32 z.
Definition swrap (w : Z) (z : Z) : Z := (z + 2 ^ (w - 1)) mod 2 ^ w - 2 ^ (w - 1).
Definition s32 (z : Z) : Z := swrap 32 z.

Definition is_byte (b : Z) : Prop := 0 <= b < 256.
Definition is_u32 (z : Z) : Prop := 0 <= z < 4294967296.

#[export] Instance is_byte_dec b : Decision (is_byte b).
Proof. unfold is_byte; apply _. Defined.
#[export] Instance is_u32_dec b : Decision (is_u32 b).
Proof. unfold is_u32; apply _. Defined.

Create HintDb rl discriminated.
Create Rewrite HintDb rl_rw.

Lemma u8_id z : is_byte z → u8 z = z.
Proof. unfold is_byte, u8, wrap. intros. apply Z.mod_small. lia. Qed.
Lemma u16_id z : 0 <= z < 65536 → u16 z = z.
Proof. unfold u16, wrap. intros. apply Z.mod_small. lia. Qed.
Lemma u32_id z : is_u32 z → u32 z = z.
Proof. unfold is_u32, u32, wrap. intros. apply Z.mod_small. lia. Qed.
Lemma u32_range z : is_u32 (u32 z).
Proof. unfold is_u32, u32, wrap. apply Z.mod_pos_bound. lia. Qed.
Lemma s32_id z : -2147483648 <= z < 2147483648 → s32 z = z.
Proof. unfold s32, swrap. cbn. intros. rewrite Z.mod_small; lia. Qed.
Lemma s32_high z : 2147483648 <= z < 4294967296 → s32 z = z - 4294967296.
Proof.
  unfold s32, swrap. intros. change (2 ^ 32) with 4294967296.
  change (2 ^ (32 - 1)) with 2147483648.
  replace (z + 2147483648) with ((z - 2147483648) + 1 * 4294967296) by lia.
  rewrite Z.mod_add by lia. rewrite Z.mod_small; lia.
Qed.
Lemma u32_neg z : -4294967296 <= z < 0 → u32 z = z + 4294967296.
Proof.
  intros Hz. unfold u32, wrap. change (2 ^ 32) with 4294967296.
  rewrite <- (Z_mod_plus_full z 1). apply Z.mod_small. lia.
Qed.
Lemma s32_u32 z : -2147483648 <= z < 2147483648 → s32 (u32 z) = z.
Proof.
  intros Hz. destruct (Z.le_gt_cases 0 z).
  - rewrite u32_id by (unfold is_u32; lia). apply s32_id. lia.
  - rewrite u32_neg by lia. rewrite s32_high; lia.
Qed.
#[export] Hint Resolve u32_range : rl.

(** ** Memory

    A constant buffer is read through a pointer, modelled as the list of bytes
    from the pointer to the end of the object it points into; reading past the
    end of the object gives [None].  A buffer that is written is the list of
    all its bytes, with an index. *)
Abbreviation ptr := (list Z) (only parsing).

(** [put_bytes buf pos bs] stores [bs] at index [pos] of [buf]; a store past
    the end of [buf] is undefined behaviour. *)
Definition put_bytes (buf : list Z) (pos : nat) (bs : list Z) : option (list Z) :=
  if decide (pos + length bs ≤ length buf)%nat
  then Some (take pos buf ++ bs ++ drop (pos + length bs) buf)
  else None.

Lemma put_bytes_length buf pos bs buf' :
  put_bytes buf pos bs = Some buf' → length buf' = length buf.
Proof.
  unfold put_bytes. case_decide; [|done]. intros [= <-].
  rewrite !length_app, length_take, length_drop. lia.
Qed.

Lemma put_bytes_Some buf pos bs :
  (pos + length bs ≤ length buf)%nat →
  put_bytes buf pos bs = Some (take pos buf ++ bs ++ drop (pos + length bs) buf).
Proof. intros. unfold put_bytes. by rewrite decide_True. Qed.

Lemma put_bytes_spec buf pos bs buf' :
  put_bytes buf pos bs = Some buf' →
  take pos buf' = take pos buf ∧
  take (pos + length bs) buf' = take pos buf ++ bs.
Proof.
  unfold put_bytes. case_decide; [|done]. intros [= <-]. split.
  - rewrite take_app_le by (rewrite length_take; lia).
    rewrite take_take. f_equal. lia.
  - rewrite app_assoc, take_app_length'; [done|].
    rewrite length_app, length_take. lia.
Qed.

(** ** Integers in memory *)

(** [be_combine bs] is the value of a big-endian (network order) byte string,
    [le_combine bs] of a little-endian one. *)
Fixpoint le_combine (bs : list Z) : Z :=
  match bs with [] => 0 | b :: bs => b + 256 * le_combine bs end.
Definition be_combine (bs : list Z) : Z := le_combine (rev bs).

Fixpoint le_split (n : nat) (z : Z) : list Z :=
  match n with O => [] | S n => z mod 256 :: le_split n (z / 256) end.
Definition be_split (n : nat) (z : Z) : list Z := rev (le_split n z).

Lemma length_le_split n z : length (le_split n z) = n.
Proof. revert z; induction n; intros; cbn; auto. Qed.
Lemma length_be_split n z : length (be_split n z) = n.
Proof. unfold be_split. by rewrite length_rev, length_le_split. Qed.

Lemma le_combine_split n z :
  0 <= z < 256 ^ Z.of_nat n → le_combine (le_split n z) = z.
Proof.
  revert z; induction n as [|n IH]; intros z Hz; cbn [le_combine le_split].
  { change (256 ^ Z.of_nat 0) with 1 in Hz. lia. }
  rewrite Nat2Z.inj_succ, Z.pow_succ_r in Hz by lia.
  rewrite IH.
  - rewrite Z.add_comm. symmetry. apply Z.div_mod. lia.
  - split; [apply Z.div_pos; lia|]. apply Z.div_lt_upper_bound; lia.
Qed.
Lemma be_combine_split n z :
  0 <= z < 256 ^ Z.of_nat n → be_combine (be_split n z) = z.
Proof.
  intros. unfold be_combine, be_split. rewrite rev_involutive.
  by apply le_combine_split.
Qed.
Lemma le_split_bytes n z : Forall is_byte (le_split n z).
Proof.
  revert z; induction n; intros; cbn; constructor; auto.
  apply Z.mod_pos_bound. lia.
Qed.
Lemma be_split_bytes n z : Forall is_byte (be_split n z).
Proof. unfold be_split. apply Forall_rev, le_split_bytes. Qed.

(** An integer object of the host: [load] reads its bytes, [store] gives them. *)
Definition load (big_endian : bool) (bs : list Z) : Z :=
  if big_endian then be_combine bs else le_combine bs.
Definition store (big_endian : bool) (n : nat) (z : Z) : list Z :=
  if big_endian then be_split n z else le_split n z.

#[export] Hint Rewrite length_le_split length_be_split : rl_rw.

(** ** Strings *)

(** [cstr s] is the object holding the C literal [s], null byte included;
    [chars s] its characters. *)
Definition chars (s : string) : list Z :=
  (λ a, Z.of_N (Ascii.N_of_ascii a)) <$> String.list_ascii_of_string s.
Definition cstr (s : string) : list Z := chars s ++ [0].

(** A string without null bytes, as [strlen] counts them. *)
Definition no_nul (s : list Z) : Prop := Forall (λ c, c ≠ 0) s.
#[export] Instance no_nul_dec s : Decision (no_nul s).
Proof. unfold no_nul. apply _. Defined.

(** [cstr_at p] is the string that the pointer [p] designates: the bytes up to
    the first null byte; [None] when the object has none. *)
Fixpoint cstr_at (p : list Z) : option (list Z) :=
  match p with
  | [] => None
  | c :: p => if decide (c = 0) then Some [] else s ← cstr_at p; Some (c :: s)
  end.

Lemma cstr_at_app s p : no_nul s → cstr_at (s ++ 0 :: p) = Some s.
Proof.
  induction 1 as [|c s Hc Hs IH]; cbn; [done|].
  rewrite decide_False by done. by rewrite IH.
Qed.

Lemma cstr_at_Some p s : cstr_at p = Some s → no_nul s ∧ ∃ q, p = s ++ 0 :: q.
Proof.
  revert s; induction p as [|c p IH]; intros s; cbn; [done|].
  case_decide as Hc; subst.
  { intros [= <-]. split; [constructor|]. by eexists. }
  destruct (cstr_at p) as [t|] eqn:E; cbn; [|done]. intros [= <-].
  destruct (IH t eq_refl) as (? & q & ->). split; [by constructor|]. by exists q.
Qed.

Lemma cstr_at_prefix p q s : cstr_at p = Some s → cstr_at (p ++ q) = Some s.
Proof.
  intros (Hs & r & ->)%cstr_at_Some. rewrite <-app_assoc. cbn.
  by apply cstr_at_app.
Qed.

(** ** Automation *)

(** [inv_option] decomposes a run of the option monad found in the context. *)
Ltac inv_option :=
  repeat (simplify_option_eq; try (case_match; try done; []));
  simplify_option_eq.

(** [ztest] decides the boolean comparisons of the goal with [lia]. *)
Ltac ztest :=
  repeat match goal with
  | |- context [(?a <? ?b)%Z] =>
      first [ rewrite (proj2 (Z.ltb_lt a b)) by lia
            | rewrite (proj2 (Z.ltb_ge a b)) by lia ]
  | |- context [(?a <=? ?b)%Z] =>
      first [ rewrite (proj2 (Z.leb_le a b)) by lia
            | rewrite (proj2 (Z.leb_gt a b)) by lia ]
  | |- context [(?a =? ?b)%Z] =>
      first [ rewrite (proj2 (Z.eqb_eq a b)) by lia
            | rewrite (proj2 (Z.eqb_neq a b)) by lia ]
  end; cbn [andb orb negb].

(** [llen] computes the lengths of the goal and calls [lia]. *)
Ltac llen :=
  repeat first [ rewrite length_app | rewrite length_be_split | rewrite length_le_split
               | rewrite length_take | rewrite length_drop | rewrite length_replicate
               | rewrite length_fmap | rewrite length_rev | rewrite length_insert
               | progress cbn [length] ];
  try lia.
