(* ===== verification/Wire.v ===== *)
(** * Wire: the primitive encodings of protocol.h and protocol.c

    Integers in network order, length-prefixed null-terminated strings and
    length-prefixed byte arrays.  A decoder reads through a [cursor] (the bytes
    from the cursor to the end of the object that holds the message) and keeps
    [size], the number of message bytes it believes are left.  The outer
    [option] of a result is [None] when the C code reads or writes outside the
    object; the inner one is [None] when it returns -1. *)

From S2P Require Import Prelude.

(** ** Constants of protocol.h *)
Definition RL_FILEHANDLE_VIRTUAL_INPUT : Z := 0x7ffffffe.
Definition RL_FILEHANDLE_VIRTUAL_OUTPUT : Z := 0x7ffffffd.

Definition RL_OPENFLAG_READ : Z := Z.shiftl 1 0.
Definition RL_OPENFLAG_WRITE : Z := Z.shiftl 1 1.
Definition RL_OPENFLAG_CREATE : Z := Z.shiftl 1 2.

Definition RL_NODE_TYPE_FILE : Z := 1.
Definition RL_NODE_TYPE_DIRECTORY : Z := 2.

Definition RL_NETERR_SUCCESS : Z := 0.
Definition RL_NETERR_ACCESS_DENIED : Z := 1.
Definition RL_NETERR_NOT_FOUND : Z := 2.
Definition RL_NETERR_NOT_A_FILE : Z := 3.
Definition RL_NETERR_NOT_A_DIRECTORY : Z := 4.
Definition RL_NETERR_IO_ERROR : Z := 5.
Definition RL_NETERR_INVALID_VALUE : Z := 6.
Definition RL_NETERR_BAD_REQUEST : Z := 128.
Definition RL_NETERR_TOO_MANY_FILES_OPEN : Z := 129.
Definition RL_NETERR_SPAWN_FAILURE : Z := 254.
Definition RL_NETERR_UNKNOWN : Z := 255.

(** A received or transmitted array: [length] bytes at [base]. *)
Record rl_net_array := NetArray { na_base : list Z; na_length : Z }.

(** The bytes an array stands for, when the object holds that many. *)
Definition na_bytes (a : rl_net_array) : option (list Z) :=
  if decide (na_length a ≤ Z.of_nat (length (na_base a)))
  then Some (take (Z.to_nat (na_length a)) (na_base a)) else None.

(** ** Output cursors: a buffer and the index of the next byte *)
Definition ocursor : Type := list Z * nat.

Definition put (c : ocursor) (bs : list Z) : option ocursor :=
  buf ← put_bytes c.1 c.2 bs; Some (buf, (c.2 + length bs)%nat).

Section Endian.
(** Whether the host compiles the code with [BIG_ENDIAN] defined. *)
Context (BIG_ENDIAN : bool).

(** ** Integers (protocol.h) *)
Definition rl_decode_int1 (cursor : list Z) : option (Z * list Z) :=
  match cursor with
  | c0 :: rest => Some (c0, rest)
  | _ => None
  end.

Definition rl_decode_int2 (cursor : list Z) : option (Z * list Z) :=
  match cursor with
  | c0 :: c1 :: rest =>
      let dest := if BIG_ENDIAN then [c0; c1] else [c1; c0] in
      Some (load BIG_ENDIAN dest, rest)
  | _ => None
  end.

Definition rl_decode_int4 (cursor : list Z) : option (Z * list Z) :=
  match cursor with
  | c0 :: c1 :: c2 :: c3 :: rest =>
      let dest := if BIG_ENDIAN then [c0; c1; c2; c3] else [c3; c2; c1; c0] in
      Some (load BIG_ENDIAN dest, rest)
  | _ => None
  end.

Definition rl_encode_int1 (cursor : ocursor) (v : Z) : option ocursor :=
  put cursor [u8 v].

Definition rl_encode_int2 (cursor : ocursor) (v : Z) : option ocursor :=
  match store BIG_ENDIAN 2 v with
  | [s0; s1] => put cursor (if BIG_ENDIAN then [s0; s1] else [s1; s0])
  | _ => None
  end.

Definition rl_encode_int4 (cursor : ocursor) (v : Z) : option ocursor :=
  match store BIG_ENDIAN 4 v with
  | [s0; s1; s2; s3] =>
      put cursor (if BIG_ENDIAN then [s0; s1; s2; s3] else [s3; s2; s1; s0])
  | _ => None
  end.

(** ** Strings (protocol.c) *)
Definition rl_decode_string (cursor : list Z) (size : Z)
  : option (option (list Z * list Z * Z)) :=
  if size <? 2 then Some None else
  my_len ← cursor !! 0%nat;
  if size <=? my_len then Some None else
  nul ← cursor !! (1 + Z.to_nat my_len)%nat;
  if negb (nul =? 0) then Some None else
  Some (Some (drop 1 cursor, drop (Z.to_nat my_len + 2) cursor, size - (my_len + 2))).

Definition rl_encode_string (cursor : ocursor) (size : Z) (string : list Z)
  : option (option (ocursor * Z)) :=
  s ← cstr_at string;
  let string_len := Z.of_nat (length s) in
  if size <? 2 then Some None else
  if size <? s32 (string_len + 2) then Some None else
  if 255 <? string_len then Some None else
  c ← put cursor (u8 string_len :: take (length s + 1) string);
  Some (Some (c, size - (string_len + 2))).

(** ** Arrays (protocol.c) *)
Definition rl_decode_array (cursor : list Z) (size : Z)
  : option (option (rl_net_array * list Z * Z)) :=
  if size <? 4 then Some None else
  '(len, cursor) ← rl_decode_int4 cursor;
  if size <? s32 len then Some None else
  Some (Some (NetArray cursor len, drop (Z.to_nat len) cursor,
              s32 (u32 (size - u32 (len + 4))))).

Definition rl_encode_array (cursor : ocursor) (size : Z) (array : rl_net_array)
  : option (option (ocursor * Z)) :=
  if size <? s32 (u32 (4 + na_length array)) then Some None else
  c ← rl_encode_int4 cursor (na_length array);
  bs ← na_bytes array;
  c ← put c bs;
  Some (Some (c, size - s32 (u32 (4 + na_length array)))).
End Endian.

(** ** The wire format of strings and arrays *)
Definition str_bytes (s : list Z) : list Z := Z.of_nat (length s) :: s ++ [0].
Definition arr_bytes (bs : list Z) : list Z := be_split 4 (Z.of_nat (length bs)) ++ bs.

(** ** Output cursors *)
Lemma put_Some buf pos bs buf' pos' :
  put (buf, pos) bs = Some (buf', pos') →
  pos' = (pos + length bs)%nat ∧ (pos' ≤ length buf)%nat ∧
  buf' = take pos buf ++ bs ++ drop pos' buf.
Proof.
  unfold put, put_bytes; cbn. case_decide; cbn; [|done].
  intros [= <- <-]. eauto.
Qed.

Lemma put_ok buf pos bs :
  (pos + length bs ≤ length buf)%nat →
  put (buf, pos) bs =
    Some (take pos buf ++ bs ++ drop (pos + length bs) buf, (pos + length bs)%nat).
Proof. intros. unfold put. cbn. by rewrite put_bytes_Some. Qed.

Lemma put_fail buf pos bs :
  (length buf < pos + length bs)%nat → put (buf, pos) bs = None.
Proof. intros. unfold put, put_bytes. cbn. by rewrite decide_False by lia. Qed.

(** Two stores in a row are one store. *)
Lemma put_put c bs1 bs2 : (c ← put c bs1; put c bs2) = put c (bs1 ++ bs2).
Proof.
  destruct c as [buf pos].
  destruct (decide (pos + length (bs1 ++ bs2) ≤ length buf)%nat) as [H|H];
    rewrite length_app in H.
  - rewrite put_ok by lia. cbn [mbind option_bind].
    rewrite !put_ok; [|rewrite length_app; lia|rewrite !length_app, length_take, length_drop; lia].
    f_equal. f_equal; [|rewrite length_app; lia].
    rewrite (app_assoc (take pos buf) bs1), take_app_length'
      by (rewrite length_app, length_take; lia).
    rewrite drop_app_ge by (rewrite length_app, length_take; lia).
    rewrite drop_drop, <-!app_assoc. do 3 f_equal. f_equal.
    rewrite !length_app, length_take; lia.
  - rewrite (put_fail _ _ (bs1 ++ bs2)) by (rewrite length_app; lia).
    destruct (put (buf, pos) bs1) as [[b p]|] eqn:E; [|done]. cbn.
    apply put_Some in E as (-> & ? & ->). apply put_fail.
    rewrite !length_app, length_take, length_drop. lia.
Qed.

Lemma put_put' c c' bs1 bs2 :
  put c bs1 = Some c' → put c' bs2 = put c (bs1 ++ bs2).
Proof. intros H. rewrite <-put_put, H. done. Qed.

(** ** Integers: both host orders put network order on the wire *)
Section Integers.
Context (be : bool).

Lemma rl_encode_int2_spec c v : rl_encode_int2 be c v = put c (be_split 2 v).
Proof. by destruct be. Qed.
Lemma rl_encode_int4_spec c v : rl_encode_int4 be c v = put c (be_split 4 v).
Proof. by destruct be. Qed.

Lemma rl_decode_int1_spec v rest :
  is_byte v → rl_decode_int1 (u8 v :: rest) = Some (v, rest).
Proof. intros. cbn. by rewrite u8_id. Qed.
Lemma rl_decode_int2_spec v rest :
  0 <= v < 65536 → rl_decode_int2 be (be_split 2 v ++ rest) = Some (v, rest).
Proof.
  intros. transitivity (Some (be_combine (be_split 2 v), rest)); [by destruct be|].
  by rewrite be_combine_split.
Qed.
Lemma rl_decode_int4_spec v rest :
  is_u32 v → rl_decode_int4 be (be_split 4 v ++ rest) = Some (v, rest).
Proof.
  intros. transitivity (Some (be_combine (be_split 4 v), rest)); [by destruct be|].
  by rewrite be_combine_split.
Qed.

Lemma rl_decode_int4_ok cursor :
  (4 ≤ length cursor)%nat →
  ∃ v, rl_decode_int4 be cursor = Some (v, drop 4 cursor).
Proof.
  destruct cursor as [|c0 [|c1 [|c2 [|c3 r]]]]; cbn; intros; try lia. eauto.
Qed.
End Integers.
#[export] Hint Rewrite rl_encode_int2_spec rl_encode_int4_spec : rl_rw.

(** ** Strings *)
Lemma length_str_bytes s : length (str_bytes s) = (length s + 2)%nat.
Proof. unfold str_bytes. cbn. rewrite length_app. cbn. lia. Qed.

Lemma rl_encode_string_spec c size p s :
  cstr_at p = Some s → Z.of_nat (length s) + 2 < 2147483648 →
  rl_encode_string c size p =
    if decide (Z.of_nat (length s) + 2 <= size ∧ Z.of_nat (length s) <= 255)
    then c ← put c (str_bytes s); Some (Some (c, size - (Z.of_nat (length s) + 2)))
    else Some None.
Proof.
  intros Hs Hlt. unfold rl_encode_string. rewrite Hs. cbn [mbind option_bind].
  rewrite s32_id by lia. case_decide as H.
  - ztest. apply cstr_at_Some in Hs as (Hs & q & ->).
    replace (take (length s + 1) (s ++ 0 :: q)) with (s ++ [0]).
    + rewrite u8_id by (unfold is_byte; lia). done.
    + rewrite take_app_ge by lia. replace (length s + 1 - length s)%nat with 1%nat by lia. done.
  - destruct (Z.ltb_spec size 2); [done|].
    destruct (Z.ltb_spec size (Z.of_nat (length s) + 2)); [done|]. by ztest.
Qed.

Lemma rl_decode_string_spec s rest size :
  no_nul s → Z.of_nat (length s) + 2 <= size →
  rl_decode_string (str_bytes s ++ rest) size =
    Some (Some (s ++ 0 :: rest, rest, size - (Z.of_nat (length s) + 2))).
Proof.
  intros Hs Hsize. unfold rl_decode_string, str_bytes. cbn. ztest.
  rewrite Nat2Z.id, <-!app_assoc. cbn [app].
  rewrite (lookup_app_r s _ (length s)), Nat.sub_diag by lia. cbn.
  rewrite drop_0. do 4 f_equal.
  replace (length s + 2)%nat with (S (length s + 1)) by lia. cbn.
  rewrite drop_app_ge by lia.
  by replace (length s + 1 - length s)%nat with 1%nat by lia.
Qed.

(** ** Arrays *)
Lemma rl_decode_array_spec be bs rest size :
  Z.of_nat (length bs) + 4 <= size → size < 2147483648 →
  rl_decode_array be (arr_bytes bs ++ rest) size =
    Some (Some (NetArray (bs ++ rest) (Z.of_nat (length bs)), rest,
                size - (Z.of_nat (length bs) + 4))).
Proof.
  intros. unfold rl_decode_array, arr_bytes. ztest.
  rewrite <-app_assoc, rl_decode_int4_spec by (unfold is_u32; lia).
  cbn [mbind option_bind]. rewrite s32_id by lia. ztest.
  rewrite Nat2Z.id, drop_app_length.
  rewrite (u32_id (_ + 4)), u32_id, s32_id by (unfold is_u32; lia). done.
Qed.

Lemma rl_encode_array_spec be c size a bs :
  na_bytes a = Some bs → na_length a = Z.of_nat (length bs) →
  Z.of_nat (length bs) < 2147483644 →
  rl_encode_array be c size a =
    if decide (Z.of_nat (length bs) + 4 <= size)
    then c ← put c (arr_bytes bs); Some (Some (c, size - (Z.of_nat (length bs) + 4)))
    else Some None.
Proof.
  intros Hb Hl Hlt. unfold rl_encode_array.
  rewrite rl_encode_int4_spec, Hl, u32_id by (unfold is_u32; lia). rewrite s32_id by lia.
  case_decide; ztest; [|done]. rewrite Hb. cbn [mbind option_bind].
  unfold arr_bytes. rewrite <-put_put, Z.add_comm.
  destruct (put c (be_split 4 _)); done.
Qed.

(** ** What the decoders promise, and where they read too far *)

(** Network order is independent of the two hosts. *)
Theorem int4_roundtrip (be_sender be_receiver : bool) buf pos v buf' pos' :
  is_u32 v →
  rl_encode_int4 be_sender (buf, pos) v = Some (buf', pos') →
  rl_decode_int4 be_receiver (drop pos buf') = Some (v, drop pos' buf') ∧
  take pos buf' = take pos buf ∧ pos' = (pos + 4)%nat.
Proof.
  intros Hv. rewrite rl_encode_int4_spec. intros (-> & Hle & ->)%put_Some.
  rewrite length_be_split in *.
  assert (length (take pos buf) = pos) as Hp by (rewrite length_take; lia).
  rewrite drop_app_length', rl_decode_int4_spec, take_app_length' by done.
  split_and!; [|done|done]. do 2 f_equal.
  rewrite app_assoc, drop_app_length'; [done|].
  rewrite length_app, length_be_split. lia.
Qed.

(** The successful result of [rl_decode_string] in terms of the bytes read. *)
Lemma rl_decode_string_inv cursor size p rest size' :
  rl_decode_string cursor size = Some (Some (p, rest, size')) →
  ∃ len, cursor !! 0%nat = Some len ∧ len < size ∧ 2 <= size ∧
    cursor !! (1 + Z.to_nat len)%nat = Some 0 ∧
    p = drop 1 cursor ∧ rest = drop (Z.to_nat len + 2) cursor ∧
    size' = size - (len + 2).
Proof.
  unfold rl_decode_string. destruct (Z.ltb_spec size 2); [done|].
  destruct (cursor !! 0%nat) as [len|]; cbn [mbind option_bind]; [|done].
  destruct (Z.leb_spec size len); [done|].
  destruct (cursor !! _) as [nul|] eqn:E; cbn [mbind option_bind]; [|done].
  destruct (Z.eqb_spec nul 0); cbn; [|done]. intros [= <- <- <-].
  exists len. subst. eauto 10 with lia.
Qed.

Lemma cstr_at_lookup p n :
  p !! n = Some 0 → ∃ s, cstr_at p = Some s ∧ (length s ≤ n)%nat.
Proof.
  revert n; induction p as [|c p IH]; intros n; [done|].
  cbn. case_decide as Hc; subst.
  { intros _. exists []. cbn. split; [done|lia]. }
  destruct n as [|n]; cbn; [intros [= ->]; done|].
  intros (s & -> & ?)%IH. exists (c :: s). cbn. split; [done|lia].
Qed.

(** C36: [rl_decode_string] on a hostile message: with one byte of the object
    behind the message it never reads outside the object; what it accepts is
    null-terminated and at most 255 characters long, but the size it leaves can
    be -1, one byte more than the message had. *)
Theorem rl_decode_string_safe cursor size :
  Forall is_byte cursor → 0 <= size < Z.of_nat (length cursor) →
  ∃ r, rl_decode_string cursor size = Some r ∧
    ∀ p rest size', r = Some (p, rest, size') →
      (∃ s, cstr_at p = Some s ∧ Z.of_nat (length s) <= 255) ∧
      -1 <= size' < size - 1 ∧
      Z.of_nat (length rest) = Z.of_nat (length cursor) - size + size'.
Proof.
  intros Hb [Hs Hl].
  destruct (rl_decode_string cursor size) as [r|] eqn:E.
  - exists r. split; [done|]. intros p rest size' ->.
    apply rl_decode_string_inv in E as (len & H0 & ? & ? & Hn & -> & -> & ->).
    assert (is_byte len) as [? ?] by (by eapply Forall_lookup_1).
    split_and!; [|lia..|].
    + rewrite <-(lookup_drop cursor 1) in Hn.
      destruct (cstr_at_lookup _ _ Hn) as (s & ? & ?). exists s. split; [done|lia].
    + apply lookup_lt_Some in Hn. rewrite length_drop. lia.
  - exfalso. unfold rl_decode_string in E. destruct (Z.ltb_spec size 2); [done|].
    destruct (lookup_lt_is_Some_2 cursor 0) as [len Hlen]; [lia|].
    rewrite Hlen in E. cbn [mbind option_bind] in E.
    destruct (Z.leb_spec size len); [done|].
    assert (is_byte len) as [? ?] by (by eapply Forall_lookup_1).
    destruct (lookup_lt_is_Some_2 cursor (1 + Z.to_nat len)) as [nul Hnul]; [lia|].
    rewrite Hnul in E. cbn in E. by destruct (nul =? 0).
Qed.

(** A string whose length byte is one less than the bytes left makes the
    decoder look at the byte after them: at the end of an object, outside it. *)
Theorem rl_decode_string_overread cursor size :
  2 <= size → Z.of_nat (length cursor) = size →
  cursor !! 0%nat = Some (size - 1) →
  rl_decode_string cursor size = None.
Proof.
  intros. unfold rl_decode_string. ztest.
  simplify_option_eq. ztest.
  by rewrite lookup_ge_None_2 by lia.
Qed.

(** [rl_decode_array] compares the length with the size before it consumed
    the four length bytes: a length up to four bytes too large is accepted, and
    so is any length that is negative as an [int]. *)
Theorem rl_decode_array_overread be len cursor :
  is_u32 len →
  s32 len <= 4 + Z.of_nat (length cursor) →
  Z.of_nat (length cursor) < len →
  ∃ a rest size',
    rl_decode_array be (be_split 4 len ++ cursor) (4 + Z.of_nat (length cursor))
      = Some (Some (a, rest, size')) ∧
    na_length a = len ∧ na_bytes a = None.
Proof.
  intros Hl Hs Hc. unfold rl_decode_array. ztest.
  rewrite rl_decode_int4_spec by done. cbn [mbind option_bind]. ztest.
  do 3 eexists. split; [done|]. cbn. split; [done|].
  unfold na_bytes. cbn. by rewrite decide_False by lia.
Qed.

(** ** The theorems at concrete inputs *)
Lemma int4_roundtrip_witness :
  rl_decode_int4 false (drop 1 [9; 1; 2; 3; 4]) = Some (16909060, drop 5 [9; 1; 2; 3; 4]) ∧
  take 1 [9; 1; 2; 3; 4] = take 1 [9; 0; 0; 0; 0] ∧ 5%nat = (1 + 4)%nat.
Proof.
  exact (int4_roundtrip true false [9; 0; 0; 0; 0] 1 16909060 [9; 1; 2; 3; 4] 5
    ltac:(vm_compute; split; congruence) eq_refl).
Defined.

Lemma rl_decode_string_safe_witness :
  ∃ r, rl_decode_string [2; 104; 105; 0; 7] 4 = Some r ∧
    ∀ p rest size', r = Some (p, rest, size') →
      (∃ s, cstr_at p = Some s ∧ Z.of_nat (length s) <= 255) ∧ -1 <= size' < 4 - 1 ∧
      Z.of_nat (length rest) = Z.of_nat (length [2; 104; 105; 0; 7]) - 4 + size'.
Proof.
  exact (rl_decode_string_safe [2; 104; 105; 0; 7] 4
    ltac:(repeat constructor; discriminate) ltac:(cbn; lia)).
Defined.

Lemma rl_decode_string_overread_witness : rl_decode_string [2; 104; 105] 3 = None.
Proof. exact (rl_decode_string_overread [2; 104; 105] 3 ltac:(lia) eq_refl eq_refl). Defined.

Lemma rl_decode_array_overread_witness :
  ∃ a rest size',
    rl_decode_array true (be_split 4 4294967295 ++ [1; 2]) (4 + Z.of_nat (length [1; 2])) =
      Some (Some (a, rest, size')) ∧ na_length a = 4294967295 ∧ na_bytes a = None.
Proof.
  exact (rl_decode_array_overread true 4294967295 [1; 2]
    ltac:(vm_compute; split; congruence) ltac:(vm_compute; discriminate) ltac:(vm_compute; reflexivity)).
Defined.
