(* ===== verification/Messages.v ===== *)
(** * Messages: the network messages of rlnet.msg and the code mkmsg.py emits

    rlnet.c is generated by mkmsg.py from rlnet.msg, so the model has both: the
    description as data, mkmsg.py's computation of the message layouts, the
    statements it writes into each decoder and encoder, and an interpreter that
    gives those statements their C meaning.  [rl_decode_msg] and
    [rl_encode_msg] then run the emitted code. *)

From S2P Require Import Prelude Wire.

(** ** mkmsg.py: message descriptions *)
Inductive net_type := T_string | T_array | T_byte | T_word | T_longword.

Definition variable_length (t : net_type) : bool :=
  match t with T_string | T_array => true | _ => false end.

(** [NetType.size]; the variable-length types have no size (-1 there). *)
Definition type_size (t : net_type) : Z :=
  match t with
  | T_string | T_array => -1
  | T_byte => 1
  | T_word => 2
  | T_longword => 4
  end.

Inductive msg_dir := request | answer.

Record field := Field { f_key : string; f_type : net_type }.

Record Message := MkMessage {
  m_name : string;
  m_type : msg_dir;
  all_fields : list field;
  fixed_fields : list field;
  var_fields : list field;
  fixed_size : Z
}.

Definition new_message (name : string) (type : msg_dir) : Message :=
  MkMessage name type [] [] [] 0.

Definition append_or_prepend {A} (lst : list A) (value : A) (append : bool) : list A :=
  if append then lst ++ [value] else value :: lst.

Definition insert_field (m : Message) (f : field) (app : bool) : Message :=
  if variable_length (f_type f)
  then MkMessage (m_name m) (m_type m)
         (append_or_prepend (all_fields m) f app) (fixed_fields m)
         (append_or_prepend (var_fields m) f app) (fixed_size m)
  else MkMessage (m_name m) (m_type m)
         (append_or_prepend (all_fields m) f app)
         (append_or_prepend (fixed_fields m) f app) (var_fields m)
         (fixed_size m + type_size (f_type f)).

Definition prepend_field (m : Message) (f : field) : Message := insert_field m f false.
Definition add_field (m : Message) (f : field) : Message := insert_field m f true.

(** A line of rlnet.msg after [strip]: comments and blank lines are gone. *)
Inductive line :=
  | L_header (name : string) (type : msg_dir)
  | L_field (key : string) (type : net_type).

(** The loop over the lines.  [current] is an alias of one of the three places
    a message object lives in. *)
Inductive current := C_none | C_request | C_answer | C_last.

Record parse_state := ParseState {
  ps_current : current;
  ps_request : Message;
  ps_answer : Message;
  ps_messages : list Message   (* most recent first *)
}.

Definition parse_line (st : parse_state) (l : line) : option parse_state :=
  let '(ParseState cur req ans msgs) := st in
  match l with
  | L_header name type =>
      Some (if String.eqb name "*"
            then match type with
                 | request => ParseState C_request req ans msgs
                 | answer => ParseState C_answer req ans msgs
                 end
            else ParseState C_last req ans (new_message name type :: msgs))
  | L_field key type =>
      let f := Field key type in
      match cur, msgs with
      | C_request, _ => Some (ParseState cur (add_field req f) ans msgs)
      | C_answer, _ => Some (ParseState cur req (add_field ans f) msgs)
      | C_last, m :: ms => Some (ParseState cur req ans (add_field m f :: ms))
      | _, _ => None
      end
  end.

Fixpoint parse_lines (st : parse_state) (ls : list line) : option parse_state :=
  match ls with
  | [] => Some st
  | l :: ls => st ← parse_line st l; parse_lines st ls
  end.

(** Distribution of the common fields: their list is reversed and each is
    inserted in front. *)
Definition distribute (common_request common_answer msg : Message) : Message :=
  let common := match m_type msg with
                | request => common_request
                | answer => common_answer
                end in
  fold_left prepend_field (rev (all_fields common)) msg.

Definition mkmsg (desc : list line) : option (list Message) :=
  st ← parse_lines (ParseState C_none (new_message "*common*" request)
                      (new_message "*common*" answer) []) desc;
  Some (distribute (ps_request st) (ps_answer st) <$> rev (ps_messages st)).

(** ** rlnet.msg *)
Definition rlnet_msg : list line :=
  [ L_header "*" request;
      L_field "hdr_type" T_byte; L_field "hdr_flags" T_byte;
      L_field "hdr_length" T_word; L_field "hdr_sequence_num" T_longword;
    L_header "*" answer;
      L_field "hdr_type" T_byte; L_field "hdr_flags" T_byte;
      L_field "hdr_length" T_word; L_field "hdr_in_reply_to" T_longword;
    L_header "error" answer; L_field "error_code" T_longword;
    L_header "ping" request;
    L_header "ping" answer;
    L_header "handshake" request;
      L_field "version_major" T_byte; L_field "version_minor" T_byte;
      L_field "node_name" T_string; L_field "platform_name" T_string;
      L_field "platform_version" T_string; L_field "password_hash" T_string;
    L_header "handshake" answer;
      L_field "version_major" T_byte; L_field "version_minor" T_byte;
      L_field "host_name" T_string; L_field "platform_name" T_string;
      L_field "platform_version" T_string;
    L_header "open_handle" request;
      L_field "path" T_string; L_field "mode" T_longword;
    L_header "open_handle" answer;
      L_field "handle" T_longword; L_field "size" T_longword; L_field "type" T_byte;
    L_header "close_handle" request; L_field "handle" T_longword;
    L_header "read_file" request;
      L_field "handle" T_longword; L_field "offset_hi" T_longword;
      L_field "offset_lo" T_longword; L_field "length" T_longword;
    L_header "read_file" answer; L_field "data" T_array;
    L_header "write_file" request;
      L_field "handle" T_longword; L_field "data" T_array;
    L_header "write_file" answer;
    L_header "find_next_file" request;
      L_field "handle" T_longword; L_field "reset" T_byte;
    L_header "find_next_file" answer;
      L_field "end_of_sequence" T_byte; L_field "type" T_byte;
      L_field "name" T_string; L_field "size" T_longword;
    L_header "launch_executable" request;
      L_field "path" T_string; L_field "arguments" T_string;
    L_header "launch_executable" answer;
    L_header "executable_done" request; L_field "result_code" T_longword;
    L_header "executable_done" answer ].

Definition messages : list Message := default [] (mkmsg rlnet_msg).

Definition RL_MSG_MAX : Z := Z.of_nat (length messages) - 1.

(** ** Values of the generated structs *)
Inductive value :=
  | V_int (z : Z)
  | V_string (p : list Z)
  | V_array (a : rl_net_array).

(** A message struct: the fields that have been assigned, latest first.
    Reading a field that was never assigned is undefined. *)
Definition struct : Type := list (string * value).

Fixpoint get_field (key : string) (s : struct) : option value :=
  match s with
  | [] => None
  | (k, v) :: s => if String.eqb k key then Some v else get_field key s
  end.

Definition get_int (key : string) (s : struct) : option Z :=
  match get_field key s with Some (V_int z) => Some z | _ => None end.
Definition get_string (key : string) (s : struct) : option (list Z) :=
  match get_field key s with Some (V_string p) => Some p | _ => None end.
Definition get_array (key : string) (s : struct) : option rl_net_array :=
  match get_field key s with Some (V_array a) => Some a | _ => None end.

(** ** The emitted decoder *)
Inductive dstmt :=
  | D_check (n : Z)                         (* if (size < n) return -1; *)
  | D_int (t : net_type) (key : string)     (* rl_decode_int<n>(&buffer, &target->key); *)
  | D_size_sub (n : Z)                      (* size -= n; *)
  | D_var (t : net_type) (key : string).    (* if (0 != rl_decode_<t>(...)) return -1; *)

Definition emit_decoder (msg : Message) : list dstmt :=
  D_check (fixed_size msg) ::
  ((λ f, D_int (f_type f) (f_key f)) <$> fixed_fields msg) ++
  (if (0 <? Z.of_nat (length (var_fields msg)))
   then D_size_sub (fixed_size msg) ::
        ((λ f, D_var (f_type f) (f_key f)) <$> var_fields msg)
   else []).

(** ** The emitted encoder *)
Inductive estmt :=
  | E_skip_length (n : Z)                   (* length_pos = buffer; buffer += n; *)
  | E_int (t : net_type) (key : string)     (* rl_encode_int<n>(&buffer, source->key); *)
  | E_size_sub (n : Z)                      (* size -= n; *)
  | E_var (t : net_type) (key : string)     (* if (0 != rl_encode_<t>(...)) return -1; *)
  | E_patch_length (t : net_type).          (* rl_encode_int<n>(&length_pos, initial_size - size); *)

(** The type of the last fixed field called [hdr_length]; mkmsg.py fails when
    there is none. *)
Definition length_type (msg : Message) : option net_type :=
  '(_, f) ← list_find (λ f, String.eqb (f_key f) "hdr_length" = true) (rev (fixed_fields msg));
  Some (f_type f).

Definition emit_encoder (msg : Message) : option (list estmt) :=
  lt ← length_type msg;
  Some (((λ f, if String.eqb (f_key f) "hdr_length" then E_skip_length (type_size (f_type f))
         else E_int (f_type f) (f_key f)) <$> fixed_fields msg) ++
  E_size_sub (fixed_size msg) ::
  ((λ f, E_var (f_type f) (f_key f)) <$> var_fields msg) ++
  [E_patch_length lt]).

Section Generated.
Context (BIG_ENDIAN : bool).

(** *** Meaning of the emitted statements *)
Definition decode_int (t : net_type) (buffer : list Z) : option (Z * list Z) :=
  match t with
  | T_byte => rl_decode_int1 buffer
  | T_word => rl_decode_int2 BIG_ENDIAN buffer
  | T_longword => rl_decode_int4 BIG_ENDIAN buffer
  | _ => None
  end.

Definition decode_var (t : net_type) (buffer : list Z) (size : Z)
  : option (option (value * list Z * Z)) :=
  match t with
  | T_string =>
      r ← rl_decode_string buffer size;
      Some (match r with Some (p, b, s) => Some (V_string p, b, s) | None => None end)
  | T_array =>
      r ← rl_decode_array BIG_ENDIAN buffer size;
      Some (match r with Some (a, b, s) => Some (V_array a, b, s) | None => None end)
  | _ => None
  end.

(** [None]: undefined behaviour; [Some None]: the decoder returns -1. *)
Fixpoint run_decoder (ss : list dstmt) (buffer : list Z) (size : Z) (target : struct)
  : option (option struct) :=
  match ss with
  | [] => Some (Some target)
  | D_check n :: ss =>
      if size <? n then Some None else run_decoder ss buffer size target
  | D_int t key :: ss =>
      '(v, buffer) ← decode_int t buffer;
      run_decoder ss buffer size ((key, V_int v) :: target)
  | D_size_sub n :: ss => run_decoder ss buffer (size - n) target
  | D_var t key :: ss =>
      r ← decode_var t buffer size;
      match r with
      | None => Some None
      | Some (v, buffer, size) => run_decoder ss buffer size ((key, v) :: target)
      end
  end.

Definition encode_int (t : net_type) (c : ocursor) (v : Z) : option ocursor :=
  match t with
  | T_byte => rl_encode_int1 c v
  | T_word => rl_encode_int2 BIG_ENDIAN c v
  | T_longword => rl_encode_int4 BIG_ENDIAN c v
  | _ => None
  end.

Definition encode_var (t : net_type) (c : ocursor) (size : Z) (v : value)
  : option (option (ocursor * Z)) :=
  match t, v with
  | T_string, V_string p => rl_encode_string c size p
  | T_array, V_array a => rl_encode_array BIG_ENDIAN c size a
  | _, _ => None
  end.

(** The result is the buffer and the bytes used, or [None] for -1. *)
Fixpoint run_encoder (ss : list estmt) (source : struct) (initial_size : Z)
    (c : ocursor) (size : Z) (length_pos : option nat)
  : option (list Z * option Z) :=
  match ss with
  | [] => Some (c.1, Some (initial_size - size))
  | E_skip_length n :: ss =>
      run_encoder ss source initial_size (c.1, (c.2 + Z.to_nat n)%nat) size (Some c.2)
  | E_int t key :: ss =>
      v ← get_int key source;
      c ← encode_int t c v;
      run_encoder ss source initial_size c size length_pos
  | E_size_sub n :: ss => run_encoder ss source initial_size c (size - n) length_pos
  | E_var t key :: ss =>
      v ← get_field key source;
      r ← encode_var t c size v;
      match r with
      | None => Some (c.1, None)
      | Some (c, size) => run_encoder ss source initial_size c size length_pos
      end
  | E_patch_length t :: ss =>
      pos ← length_pos;
      c' ← encode_int t (c.1, pos) (wrap (8 * type_size t) (initial_size - size));
      run_encoder ss source initial_size (c'.1, c.2) size length_pos
  end.

(** *** peek_msg_kind and the dispatch tables *)
Definition peek_msg_kind (buffer : list Z) (size : Z) : option (option Z) :=
  if size <? 4 then Some None else
  val ← buffer !! 0%nat;
  if RL_MSG_MAX <? val then Some None else Some (Some val).

Definition decode_struct (buffer : list Z) (size : Z) : option (option (Z * struct)) :=
  kind ← peek_msg_kind buffer size;
  match kind with
  | None => Some None
  | Some kind =>
      msg ← messages !! Z.to_nat kind;
      r ← run_decoder (emit_decoder msg) buffer size [];
      Some (option_map (pair kind) r)
  end.

Definition encode_struct (kind : Z) (source : struct) (buffer : list Z) (size : Z)
  : option (list Z * option Z) :=
  msg ← messages !! Z.to_nat kind;
  ss ← emit_encoder msg;
  run_encoder ss source size (buffer, 0%nat) size None.
End Generated.

(** ** Typed messages: the union [rl_msg_t]

    Every struct of the union begins with the same header, so the header
    fields are read without knowing which member is active; [hdr_seq] is the
    longword that requests call [hdr_sequence_num] and answers
    [hdr_in_reply_to].  A string field is the text it points to. *)
Inductive rl_body :=
  | error_answer (error_code : Z)
  | ping_request
  | ping_answer
  | handshake_request (version_major version_minor : Z)
      (node_name platform_name platform_version password_hash : list Z)
  | handshake_answer (version_major version_minor : Z)
      (host_name platform_name platform_version : list Z)
  | open_handle_request (path : list Z) (mode : Z)
  | open_handle_answer (handle size type : Z)
  | close_handle_request (handle : Z)
  | read_file_request (handle offset_hi offset_lo length : Z)
  | read_file_answer (data : rl_net_array)
  | write_file_request (handle : Z) (data : rl_net_array)
  | write_file_answer
  | find_next_file_request (handle reset : Z)
  | find_next_file_answer (end_of_sequence type : Z) (name : list Z) (size : Z)
  | launch_executable_request (path arguments : list Z)
  | launch_executable_answer
  | executable_done_request (result_code : Z)
  | executable_done_answer.

Record rl_msg := Msg {
  hdr_type : Z;
  hdr_flags : Z;
  hdr_length : Z;
  hdr_seq : Z;
  body : rl_body
}.

Definition RL_MSG_ERROR_ANSWER : Z := 0.
Definition RL_MSG_PING_REQUEST : Z := 1.
Definition RL_MSG_PING_ANSWER : Z := 2.
Definition RL_MSG_HANDSHAKE_REQUEST : Z := 3.
Definition RL_MSG_HANDSHAKE_ANSWER : Z := 4.
Definition RL_MSG_OPEN_HANDLE_REQUEST : Z := 5.
Definition RL_MSG_OPEN_HANDLE_ANSWER : Z := 6.
Definition RL_MSG_CLOSE_HANDLE_REQUEST : Z := 7.
Definition RL_MSG_READ_FILE_REQUEST : Z := 8.
Definition RL_MSG_READ_FILE_ANSWER : Z := 9.
Definition RL_MSG_WRITE_FILE_REQUEST : Z := 10.
Definition RL_MSG_WRITE_FILE_ANSWER : Z := 11.
Definition RL_MSG_FIND_NEXT_FILE_REQUEST : Z := 12.
Definition RL_MSG_FIND_NEXT_FILE_ANSWER : Z := 13.
Definition RL_MSG_LAUNCH_EXECUTABLE_REQUEST : Z := 14.
Definition RL_MSG_LAUNCH_EXECUTABLE_ANSWER : Z := 15.
Definition RL_MSG_EXECUTABLE_DONE_REQUEST : Z := 16.
Definition RL_MSG_EXECUTABLE_DONE_ANSWER : Z := 17.

(** The member of the union that is active in a body. *)
Definition body_kind (b : rl_body) : Z :=
  match b with
  | error_answer _ => RL_MSG_ERROR_ANSWER
  | ping_request => RL_MSG_PING_REQUEST
  | ping_answer => RL_MSG_PING_ANSWER
  | handshake_request _ _ _ _ _ _ => RL_MSG_HANDSHAKE_REQUEST
  | handshake_answer _ _ _ _ _ => RL_MSG_HANDSHAKE_ANSWER
  | open_handle_request _ _ => RL_MSG_OPEN_HANDLE_REQUEST
  | open_handle_answer _ _ _ => RL_MSG_OPEN_HANDLE_ANSWER
  | close_handle_request _ => RL_MSG_CLOSE_HANDLE_REQUEST
  | read_file_request _ _ _ _ => RL_MSG_READ_FILE_REQUEST
  | read_file_answer _ => RL_MSG_READ_FILE_ANSWER
  | write_file_request _ _ => RL_MSG_WRITE_FILE_REQUEST
  | write_file_answer => RL_MSG_WRITE_FILE_ANSWER
  | find_next_file_request _ _ => RL_MSG_FIND_NEXT_FILE_REQUEST
  | find_next_file_answer _ _ _ _ => RL_MSG_FIND_NEXT_FILE_ANSWER
  | launch_executable_request _ _ => RL_MSG_LAUNCH_EXECUTABLE_REQUEST
  | launch_executable_answer => RL_MSG_LAUNCH_EXECUTABLE_ANSWER
  | executable_done_request _ => RL_MSG_EXECUTABLE_DONE_REQUEST
  | executable_done_answer => RL_MSG_EXECUTABLE_DONE_ANSWER
  end.

(** [rl_msg_kind_of] is the header type byte. *)
Definition rl_msg_kind_of (m : rl_msg) : Z := hdr_type m.

(** [RL_MSG_INIT] followed by the assignment of the reply or sequence number
    and of the body fields: flags and length stay zero. *)
Definition RL_MSG_INIT (b : rl_body) (seq : Z) : rl_msg := Msg (body_kind b) 0 0 seq b.

Definition is_answer (b : rl_body) : bool :=
  match b with
  | error_answer _ | ping_answer | handshake_answer _ _ _ _ _ | open_handle_answer _ _ _
  | read_file_answer _ | write_file_answer | find_next_file_answer _ _ _ _
  | launch_executable_answer | executable_done_answer => true
  | _ => false
  end.

(** *** Typed messages as structs and back *)
Definition VS (s : list Z) : value := V_string (s ++ [0]).

Definition body_struct (b : rl_body) : struct :=
  match b with
  | error_answer c => [("error_code", V_int c)]
  | ping_request | ping_answer | write_file_answer
  | launch_executable_answer | executable_done_answer => []
  | handshake_request ma mi nn pn pv ph =>
      [("version_major", V_int ma); ("version_minor", V_int mi); ("node_name", VS nn);
       ("platform_name", VS pn); ("platform_version", VS pv); ("password_hash", VS ph)]
  | handshake_answer ma mi hn pn pv =>
      [("version_major", V_int ma); ("version_minor", V_int mi); ("host_name", VS hn);
       ("platform_name", VS pn); ("platform_version", VS pv)]
  | open_handle_request p m => [("path", VS p); ("mode", V_int m)]
  | open_handle_answer h s t => [("handle", V_int h); ("size", V_int s); ("type", V_int t)]
  | close_handle_request h => [("handle", V_int h)]
  | read_file_request h hi lo l =>
      [("handle", V_int h); ("offset_hi", V_int hi); ("offset_lo", V_int lo); ("length", V_int l)]
  | read_file_answer d => [("data", V_array d)]
  | write_file_request h d => [("handle", V_int h); ("data", V_array d)]
  | find_next_file_request h r => [("handle", V_int h); ("reset", V_int r)]
  | find_next_file_answer e t n s =>
      [("end_of_sequence", V_int e); ("type", V_int t); ("name", VS n); ("size", V_int s)]
  | launch_executable_request p a => [("path", VS p); ("arguments", VS a)]
  | executable_done_request c => [("result_code", V_int c)]
  end.

Definition to_struct (m : rl_msg) : struct :=
  [("hdr_type", V_int (hdr_type m)); ("hdr_flags", V_int (hdr_flags m));
   ("hdr_length", V_int (hdr_length m));
   (if is_answer (body m) then "hdr_in_reply_to"%string else "hdr_sequence_num"%string,
    V_int (hdr_seq m))]
  ++ body_struct (body m).

(** Reading a string field of a received message: the text at the pointer. *)
Definition get_text (key : string) (s : struct) : option (list Z) :=
  p ← get_string key s; cstr_at p.

Definition of_body (kind : Z) (s : struct) : option rl_body :=
  match kind with
  | 0 => c ← get_int "error_code" s; Some (error_answer c)
  | 1 => Some ping_request
  | 2 => Some ping_answer
  | 3 => ma ← get_int "version_major" s; mi ← get_int "version_minor" s;
         nn ← get_text "node_name" s; pn ← get_text "platform_name" s;
         pv ← get_text "platform_version" s; ph ← get_text "password_hash" s;
         Some (handshake_request ma mi nn pn pv ph)
  | 4 => ma ← get_int "version_major" s; mi ← get_int "version_minor" s;
         hn ← get_text "host_name" s; pn ← get_text "platform_name" s;
         pv ← get_text "platform_version" s;
         Some (handshake_answer ma mi hn pn pv)
  | 5 => p ← get_text "path" s; m ← get_int "mode" s; Some (open_handle_request p m)
  | 6 => h ← get_int "handle" s; sz ← get_int "size" s; t ← get_int "type" s;
         Some (open_handle_answer h sz t)
  | 7 => h ← get_int "handle" s; Some (close_handle_request h)
  | 8 => h ← get_int "handle" s; hi ← get_int "offset_hi" s; lo ← get_int "offset_lo" s;
         l ← get_int "length" s; Some (read_file_request h hi lo l)
  | 9 => d ← get_array "data" s; Some (read_file_answer d)
  | 10 => h ← get_int "handle" s; d ← get_array "data" s; Some (write_file_request h d)
  | 11 => Some write_file_answer
  | 12 => h ← get_int "handle" s; r ← get_int "reset" s; Some (find_next_file_request h r)
  | 13 => e ← get_int "end_of_sequence" s; t ← get_int "type" s; n ← get_text "name" s;
          sz ← get_int "size" s; Some (find_next_file_answer e t n sz)
  | 14 => p ← get_text "path" s; a ← get_text "arguments" s;
          Some (launch_executable_request p a)
  | 15 => Some launch_executable_answer
  | 16 => c ← get_int "result_code" s; Some (executable_done_request c)
  | 17 => Some executable_done_answer
  | _ => None
  end.

Definition of_struct (kind : Z) (s : struct) : option rl_msg :=
  ty ← get_int "hdr_type" s; fl ← get_int "hdr_flags" s; len ← get_int "hdr_length" s;
  b ← of_body kind s;
  seq ← get_int (if is_answer b then "hdr_in_reply_to" else "hdr_sequence_num") s;
  Some (Msg ty fl len seq b).

(** [rl_decode_msg] and [rl_encode_msg]: [None] is undefined behaviour. *)
Definition rl_decode_msg (be : bool) (buffer : list Z) (size : Z) : option (option rl_msg) :=
  r ← decode_struct be buffer size;
  match r with
  | None => Some None
  | Some (kind, s) => m ← of_struct kind s; Some (Some m)
  end.

Definition rl_encode_msg (be : bool) (message : rl_msg) (buffer : list Z) (size : Z)
  : option (list Z * option Z) :=
  encode_struct be (rl_msg_kind_of message) (to_struct message) buffer size.


(** ** The wire format, stated independently of the generator *)
Definition array_contents (a : rl_net_array) : list Z := default [] (na_bytes a).

Definition body_bytes (b : rl_body) : list Z :=
  match b with
  | error_answer c => be_split 4 c
  | ping_request | ping_answer | write_file_answer
  | launch_executable_answer | executable_done_answer => []
  | handshake_request ma mi nn pn pv ph =>
      [ma; mi] ++ str_bytes nn ++ str_bytes pn ++ str_bytes pv ++ str_bytes ph
  | handshake_answer ma mi hn pn pv =>
      [ma; mi] ++ str_bytes hn ++ str_bytes pn ++ str_bytes pv
  | open_handle_request p m => be_split 4 m ++ str_bytes p
  | open_handle_answer h s t => be_split 4 h ++ be_split 4 s ++ [t]
  | close_handle_request h => be_split 4 h
  | read_file_request h hi lo l =>
      be_split 4 h ++ be_split 4 hi ++ be_split 4 lo ++ be_split 4 l
  | read_file_answer d => arr_bytes (array_contents d)
  | write_file_request h d => be_split 4 h ++ arr_bytes (array_contents d)
  | find_next_file_request h r => be_split 4 h ++ [r]
  | find_next_file_answer e t n s => [e; t] ++ be_split 4 s ++ str_bytes n
  | launch_executable_request p a => str_bytes p ++ str_bytes a
  | executable_done_request c => be_split 4 c
  end.

Definition wire_length (m : rl_msg) : Z := 8 + Z.of_nat (length (body_bytes (body m))).

Definition wire_bytes (m : rl_msg) : list Z :=
  [hdr_type m; hdr_flags m] ++ be_split 2 (wire_length m) ++ be_split 4 (hdr_seq m)
  ++ body_bytes (body m).

(** The values a message may carry: integers in the range of their type,
    strings of at most 255 non-null characters, arrays that hold the bytes
    they claim. *)
Definition wf_string (s : list Z) : Prop := no_nul s ∧ (length s ≤ 255)%nat.
Definition wf_array (a : rl_net_array) : Prop :=
  0 <= na_length a <= Z.of_nat (length (na_base a)) ∧ na_length a < 2147483644.

Definition wf_body (b : rl_body) : Prop :=
  match b with
  | error_answer c => is_u32 c
  | ping_request | ping_answer | write_file_answer
  | launch_executable_answer | executable_done_answer => True
  | handshake_request ma mi nn pn pv ph =>
      is_byte ma ∧ is_byte mi ∧ wf_string nn ∧ wf_string pn ∧ wf_string pv ∧ wf_string ph
  | handshake_answer ma mi hn pn pv =>
      is_byte ma ∧ is_byte mi ∧ wf_string hn ∧ wf_string pn ∧ wf_string pv
  | open_handle_request p m => wf_string p ∧ is_u32 m
  | open_handle_answer h s t => is_u32 h ∧ is_u32 s ∧ is_byte t
  | close_handle_request h => is_u32 h
  | read_file_request h hi lo l => is_u32 h ∧ is_u32 hi ∧ is_u32 lo ∧ is_u32 l
  | read_file_answer d => wf_array d
  | write_file_request h d => is_u32 h ∧ wf_array d
  | find_next_file_request h r => is_u32 h ∧ is_byte r
  | find_next_file_answer e t n s => is_byte e ∧ is_byte t ∧ wf_string n ∧ is_u32 s
  | launch_executable_request p a => wf_string p ∧ wf_string a
  | executable_done_request c => is_u32 c
  end.

Record wf_msg (m : rl_msg) : Prop := {
  wf_type : hdr_type m = body_kind (body m);
  wf_flags : is_byte (hdr_flags m);
  wf_seq : is_u32 (hdr_seq m);
  wf_msg_body : wf_body (body m)
}.

(** Received arrays point into the receive buffer, so two messages are the
    same when their arrays hold the same bytes. *)
#[export] Instance array_equiv : Equiv rl_net_array := λ a b,
  na_length a = na_length b ∧ na_bytes a = na_bytes b.
#[export] Instance body_equiv : Equiv rl_body := λ b1 b2,
  match b1, b2 with
  | read_file_answer d1, read_file_answer d2 => d1 ≡ d2
  | write_file_request h1 d1, write_file_request h2 d2 => h1 = h2 ∧ d1 ≡ d2
  | b1, b2 => b1 = b2
  end.
#[export] Instance msg_equiv : Equiv rl_msg := λ m1 m2,
  hdr_type m1 = hdr_type m2 ∧ hdr_flags m1 = hdr_flags m2 ∧
  hdr_length m1 = hdr_length m2 ∧ hdr_seq m1 = hdr_seq m2 ∧ body m1 ≡ body m2.

#[export] Instance array_equivalence : Equivalence (≡@{rl_net_array}).
Proof.
  split; repeat intro; unfold equiv, array_equiv in *; intuition congruence.
Qed.
#[export] Instance body_equivalence : Equivalence (≡@{rl_body}).
Proof.
  split.
  - by intros [].
  - intros [] []; unfold equiv, body_equiv; try done; naive_solver.
  - intros [] [] []; unfold equiv, body_equiv; try done; try congruence.
    + intros H1 H2. by etransitivity.
    + intros [-> H1] [-> H2]. split; [done|]. by etransitivity.
Qed.
#[export] Instance msg_equivalence : Equivalence (≡@{rl_msg}).
Proof.
  split.
  - intros m. by repeat split.
  - intros m1 m2 (?&?&?&?&?). by repeat split.
  - intros m1 m2 m3 (?&?&?&?&?) (?&?&?&?&?). repeat split; etransitivity; eauto.
Qed.

#[export] Instance body_bytes_proper : Proper ((≡) ==> (=)) body_bytes.
Proof.
  intros [] []; unfold equiv, body_equiv; intros H; simplify_eq; try done;
    cbn; unfold array_contents.
  - destruct H as [_ H]. by rewrite H.
  - destruct H as [-> [_ H]]. by rewrite H.
Qed.
#[export] Instance wire_bytes_proper : Proper ((≡) ==> (=)) wire_bytes.
Proof.
  intros m1 m2 (Ht & Hf & _ & Hs & Hb). unfold wire_bytes, wire_length.
  by rewrite Ht, Hf, Hs, Hb.
Qed.

(** ** Field values on the wire *)
Definition value_bytes (t : net_type) (v : value) : list Z :=
  match t, v with
  | T_byte, V_int z => [z]
  | T_word, V_int z => be_split 2 z
  | T_longword, V_int z => be_split 4 z
  | T_string, V_string p => str_bytes (default [] (cstr_at p))
  | T_array, V_array a => arr_bytes (array_contents a)
  | _, _ => []
  end.

Definition value_ok (t : net_type) (v : value) : Prop :=
  match t, v with
  | T_byte, V_int z => is_byte z
  | T_word, V_int z => 0 <= z < 65536
  | T_longword, V_int z => is_u32 z
  | T_string, V_string p => ∃ s, cstr_at p = Some s ∧ (length s ≤ 255)%nat
  | T_array, V_array a => wf_array a
  | _, _ => False
  end.

(** What a decoder stores for a value whose encoding is followed by [rest]. *)
Definition decoded (t : net_type) (v : value) (rest : list Z) : value :=
  match t, v with
  | T_string, V_string p => V_string (default [] (cstr_at p) ++ 0 :: rest)
  | T_array, V_array a => V_array (NetArray (array_contents a ++ rest) (na_length a))
  | _, v => v
  end.

Lemma array_contents_wf a :
  wf_array a → na_bytes a = Some (array_contents a) ∧
               na_length a = Z.of_nat (length (array_contents a)).
Proof.
  intros [[? ?] ?]. unfold array_contents, na_bytes.
  rewrite decide_True by lia. cbn. split; [done|]. rewrite length_take. lia.
Qed.

Section Codec.
Context (be : bool).

Lemma encode_int_spec t c z :
  value_ok t (V_int z) → encode_int be t c z = put c (value_bytes t (V_int z)).
Proof.
  destruct t; cbn [value_ok encode_int value_bytes]; try done; intros.
  - unfold rl_encode_int1. by rewrite u8_id.
  - apply rl_encode_int2_spec.
  - apply rl_encode_int4_spec.
Qed.

Lemma decode_int_spec t z rest :
  value_ok t (V_int z) →
  decode_int be t (value_bytes t (V_int z) ++ rest) = Some (z, rest).
Proof.
  destruct t; cbn [value_ok decode_int value_bytes]; try done; intros.
  - by apply rl_decode_int2_spec.
  - by apply rl_decode_int4_spec.
Qed.

Lemma encode_var_spec t c size v :
  value_ok t v → variable_length t = true →
  encode_var be t c size v =
    if decide (Z.of_nat (length (value_bytes t v)) <= size)
    then c ← put c (value_bytes t v);
         Some (Some (c, size - Z.of_nat (length (value_bytes t v))))
    else Some None.
Proof.
  destruct t, v; cbn [value_ok variable_length encode_var value_bytes]; try done.
  - intros (s & Hs & Hl) _. rewrite Hs. cbn [from_option id].
    rewrite (rl_encode_string_spec _ _ _ s) by (done || lia).
    rewrite length_str_bytes, Nat2Z.inj_add. change (Z.of_nat 2) with 2.
    repeat case_decide; try done; exfalso; lia.
  - intros Ha _. destruct (array_contents_wf _ Ha) as [Hb Hl].
    rewrite (rl_encode_array_spec be _ _ _ (array_contents a)) by (done || destruct Ha; lia).
    unfold arr_bytes. rewrite length_app, length_be_split, Nat2Z.inj_add.
    replace (Z.of_nat 4 + Z.of_nat (length (array_contents a)))
      with (Z.of_nat (length (array_contents a)) + 4) by lia. done.
Qed.

Lemma decode_var_spec t v rest size :
  value_ok t v → variable_length t = true →
  Z.of_nat (length (value_bytes t v)) <= size → size < 2147483648 →
  decode_var be t (value_bytes t v ++ rest) size =
    Some (Some (decoded t v rest, rest, size - Z.of_nat (length (value_bytes t v)))).
Proof.
  destruct t, v; cbn [value_ok variable_length decode_var value_bytes decoded]; try done.
  - intros (s & Hs & Hl) _. rewrite Hs. cbn [from_option id].
    rewrite length_str_bytes, Nat2Z.inj_add. intros.
    rewrite rl_decode_string_spec; [done| |lia].
    by apply cstr_at_Some in Hs as [].
  - intros Ha _. destruct (array_contents_wf _ Ha) as [Hb Hl].
    unfold arr_bytes. rewrite length_app, length_be_split, Nat2Z.inj_add. intros.
    change (be_split 4 ?x ++ ?b) with (arr_bytes b).
    rewrite rl_decode_array_spec by lia. cbn [mbind option_bind]. rewrite <-Hl.
    do 4 f_equal. lia.
Qed.

(** The bytes of a list of fields with values [val]. *)
Definition fields_bytes (val : field → value) (fs : list field) : list Z :=
  concat ((λ f, value_bytes (f_type f) (val f)) <$> fs).

Lemma fields_bytes_cons val f fs :
  fields_bytes val (f :: fs) = value_bytes (f_type f) (val f) ++ fields_bytes val fs.
Proof. done. Qed.

Lemma put_nil buf pos : (pos ≤ length buf)%nat → put (buf, pos) [] = Some (buf, pos).
Proof.
  intros. rewrite put_ok by (cbn; lia). cbn. by rewrite Nat.add_0_r, take_drop.
Qed.

Definition in_buffer (c : ocursor) : Prop := (c.2 ≤ length c.1)%nat.

Lemma put_in_buffer c bs c' : put c bs = Some c' → in_buffer c'.
Proof.
  destruct c as [buf pos], c' as [buf' pos']. intros (-> & ? & ->)%put_Some.
  unfold in_buffer; cbn. rewrite !length_app, length_take, length_drop. lia.
Qed.

(** A field whose value [val f] the struct [src] holds. *)
Definition field_ok (src : struct) (val : field → value) (f : field) : Prop :=
  get_field (f_key f) src = Some (val f) ∧ value_ok (f_type f) (val f).

Lemma get_int_ok src val f :
  field_ok src val f → variable_length (f_type f) = false →
  ∃ z, get_int (f_key f) src = Some z ∧ val f = V_int z.
Proof.
  intros [Hg Hok] Hv. unfold get_int. rewrite Hg.
  destruct (f_type f), (val f); cbn in *; try done; eauto.
Qed.

Lemma run_encoder_fixed src val fs k isz c size lp :
  Forall (field_ok src val) fs → Forall (λ f, variable_length (f_type f) = false) fs →
  in_buffer c →
  run_encoder be (((λ f, E_int (f_type f) (f_key f)) <$> fs) ++ k) src isz c size lp =
    c' ← put c (fields_bytes val fs); run_encoder be k src isz c' size lp.
Proof.
  intros Hfs. revert c. induction Hfs as [|f fs Hf _ IH]; intros c Hvs Hc.
  - destruct c. by rewrite put_nil.
  - inversion Hvs as [|? ? Hv Hvs']; subst.
    destruct (get_int_ok _ _ _ Hf Hv) as (z & Hg & Hz).
    destruct Hf as [_ Hok]. rewrite Hz in Hok.
    rewrite fields_bytes_cons, <-put_put, Hz.
    cbn [fmap list_fmap app run_encoder]. rewrite Hg. cbn [mbind option_bind].
    rewrite encode_int_spec by done.
    destruct (put c _) as [c1|] eqn:E; cbn [mbind option_bind]; [|done].
    apply IH; [done|]. by eapply put_in_buffer.
Qed.

Lemma run_encoder_var src val fs k isz c size lp :
  Forall (field_ok src val) fs → Forall (λ f, variable_length (f_type f) = true) fs →
  in_buffer c → Z.of_nat (length (fields_bytes val fs)) <= size →
  run_encoder be (((λ f, E_var (f_type f) (f_key f)) <$> fs) ++ k) src isz c size lp =
    c' ← put c (fields_bytes val fs);
    run_encoder be k src isz c' (size - Z.of_nat (length (fields_bytes val fs))) lp.
Proof.
  intros Hfs. revert c size. induction Hfs as [|f fs [Hg Hok] _ IH]; intros c size Hvs Hc Hsz.
  - destruct c. rewrite put_nil by done. cbn. by rewrite Z.sub_0_r.
  - inversion Hvs as [|? ? Hv Hvs']; subst.
    rewrite fields_bytes_cons in *. rewrite length_app, Nat2Z.inj_add in *.
    rewrite <-put_put. cbn [fmap list_fmap app run_encoder].
    rewrite Hg. cbn [mbind option_bind].
    rewrite encode_var_spec, decide_True by (done || lia).
    destruct (put c _) as [c1|] eqn:E; cbn [mbind option_bind]; [|done].
    rewrite IH; [|done|by eapply put_in_buffer|lia].
    by rewrite Z.sub_add_distr.
Qed.

Lemma run_decoder_fixed src val fs k rest size tgt :
  Forall (field_ok src val) fs → Forall (λ f, variable_length (f_type f) = false) fs →
  run_decoder be (((λ f, D_int (f_type f) (f_key f)) <$> fs) ++ k)
      (fields_bytes val fs ++ rest) size tgt =
    run_decoder be k rest size (rev ((λ f, (f_key f, val f)) <$> fs) ++ tgt).
Proof.
  intros Hfs. revert tgt. induction Hfs as [|f fs Hf _ IH]; intros tgt Hvs; [done|].
  inversion Hvs as [|? ? Hv Hvs']; subst.
  destruct (get_int_ok _ _ _ Hf Hv) as (z & Hg & Hz).
  destruct Hf as [_ Hok]. rewrite fields_bytes_cons, Hz in *.
  cbn [fmap list_fmap app run_decoder rev].
  rewrite <-app_assoc, decode_int_spec by done. cbn [mbind option_bind].
  rewrite IH, Hz, <-app_assoc by done. done.
Qed.

(** The variable fields a decoder stores, latest first. *)
Fixpoint decoded_fields (val : field → value) (fs : list field) (rest : list Z)
    (tgt : struct) : struct :=
  match fs with
  | [] => tgt
  | f :: fs => decoded_fields val fs rest
                 ((f_key f, decoded (f_type f) (val f) (fields_bytes val fs ++ rest)) :: tgt)
  end.

Lemma run_decoder_var src val fs rest size tgt :
  Forall (field_ok src val) fs → Forall (λ f, variable_length (f_type f) = true) fs →
  Z.of_nat (length (fields_bytes val fs)) <= size < 2147483648 →
  run_decoder be ((λ f, D_var (f_type f) (f_key f)) <$> fs)
      (fields_bytes val fs ++ rest) size tgt =
    Some (Some (decoded_fields val fs rest tgt)).
Proof.
  intros Hfs. revert tgt size. induction Hfs as [|f fs [Hg Hok] _ IH];
    intros tgt size Hvs Hsz; [done|].
  inversion Hvs as [|? ? Hv Hvs']; subst.
  rewrite fields_bytes_cons in *. rewrite length_app, Nat2Z.inj_add in Hsz.
  cbn [fmap list_fmap app run_decoder decoded_fields].
  rewrite <-app_assoc, decode_var_spec by (done || lia). cbn [mbind option_bind].
  apply IH; [done|lia].
Qed.
End Codec.

(** ** Layout of the generated structs *)
Definition seq_key (t : msg_dir) : string :=
  match t with request => "hdr_sequence_num" | answer => "hdr_in_reply_to" end.

Definition hdr_fields (t : msg_dir) : list field :=
  [Field "hdr_type" T_byte; Field "hdr_flags" T_byte; Field "hdr_length" T_word;
   Field (seq_key t) T_longword].

Definition body_fixed (msg : Message) : list field := drop 4 (fixed_fields msg).

Record layout_ok (msg : Message) : Prop := {
  lo_hdr : fixed_fields msg = hdr_fields (m_type msg) ++ body_fixed msg;
  lo_fixed : Forall (λ f, variable_length (f_type f) = false) (fixed_fields msg);
  lo_keys : Forall (λ f, String.eqb (f_key f) "hdr_length" = false) (body_fixed msg);
  lo_var : Forall (λ f, variable_length (f_type f) = true) (var_fields msg);
  lo_size : fixed_size msg = foldr Z.add 0 ((λ f, type_size (f_type f)) <$> fixed_fields msg);
  lo_length : length_type msg = Some T_word
}.

(** mkmsg.py puts the four header fields in front of every message of
    rlnet.msg, in order, and counts the fixed bytes correctly. *)
Lemma messages_layout : Forall layout_ok messages.
Proof.
  assert (messages = default [] (mkmsg rlnet_msg)) as -> by done.
  vm_compute. repeat (constructor; [split; vm_compute; repeat constructor|]). constructor.
Qed.

Lemma length_value_bytes t v :
  value_ok t v → variable_length t = false →
  Z.of_nat (length (value_bytes t v)) = type_size t.
Proof. by destruct t, v. Qed.

Lemma length_fields_bytes src val fs :
  Forall (field_ok src val) fs → Forall (λ f, variable_length (f_type f) = false) fs →
  Z.of_nat (length (fields_bytes val fs)) = foldr Z.add 0 ((λ f, type_size (f_type f)) <$> fs).
Proof.
  intros Hfs. induction Hfs as [|f fs [_ Hok] _ IH]; intros Hvs; [done|].
  inversion Hvs; subst. rewrite fields_bytes_cons, length_app, Nat2Z.inj_add.
  cbn. rewrite IH by done. by rewrite length_value_bytes.
Qed.

Lemma put_skip buf pos n :
  (pos + n ≤ length buf)%nat →
  put (buf, pos) (take n (drop pos buf)) = Some (buf, (pos + n)%nat).
Proof.
  intros. assert (length (take n (drop pos buf)) = n) as Hn.
  { rewrite length_take, length_drop. lia. }
  rewrite put_ok by lia. rewrite Hn. do 2 f_equal.
  rewrite <-drop_drop. by rewrite !take_drop.
Qed.

Lemma put_length buf pos bs c : put (buf, pos) bs = Some c → length c.1 = length buf.
Proof.
  destruct c as [buf' pos']. intros (-> & ? & ->)%put_Some. cbn.
  rewrite !length_app, length_take, length_drop. lia.
Qed.

Lemma put_total buf bs :
  (length bs ≤ length buf)%nat → put (buf, 0%nat) bs = Some (bs ++ drop (length bs) buf, length bs).
Proof. intros. rewrite put_ok by lia. by rewrite take_0. Qed.

Lemma put_patch buf a old new b c :
  put (buf, 0%nat) (a ++ old ++ b) = Some c → length old = length new →
  put (c.1, length a) new =
    Some (a ++ new ++ b ++ drop (length (a ++ old ++ b)) buf, (length a + length new)%nat).
Proof.
  destruct c as [buf' pos']. intros (-> & Hl & ->)%put_Some Hlen. cbn [fst].
  rewrite !length_app in *. cbn [Nat.add take app] in *.
  rewrite put_ok by (rewrite !length_app, length_drop; lia).
  do 2 f_equal. rewrite <-!app_assoc, take_0, app_nil_l, take_app_length. do 2 f_equal.
  rewrite (app_assoc a old), drop_app_length'; [done|]. rewrite length_app. lia.
Qed.

(** The image of a message: its fixed fields with the total length in
    [hdr_length], then its variable fields. *)
Section Image.
Context (be : bool) (msg : Message) (src : struct) (ty fl seq : Z).
Context (val : field → value).
Hypothesis Hlo : layout_ok msg.
Hypothesis Hty : get_int "hdr_type" src = Some ty ∧ is_byte ty.
Hypothesis Hfl : get_int "hdr_flags" src = Some fl ∧ is_byte fl.
Hypothesis Hseq : get_int (seq_key (m_type msg)) src = Some seq ∧ is_u32 seq.
Hypothesis Hfix : Forall (field_ok src val) (body_fixed msg).
Hypothesis Hvar : Forall (field_ok src val) (var_fields msg).

Definition payload : list Z :=
  fields_bytes val (body_fixed msg) ++ fields_bytes val (var_fields msg).
Definition total : Z := 8 + Z.of_nat (length payload).
Definition image (len : Z) : list Z :=
  [ty; fl] ++ be_split 2 len ++ be_split 4 seq ++ payload.

Lemma length_image len : Z.of_nat (length (image len)) = total.
Proof. unfold image, total. rewrite !length_app, !length_be_split. cbn. lia. Qed.

Lemma body_fixed_fixed : Forall (λ f, variable_length (f_type f) = false) (body_fixed msg).
Proof. apply Forall_drop, Hlo. Qed.

Lemma fixed_size_eq :
  fixed_size msg = 8 + Z.of_nat (length (fields_bytes val (body_fixed msg))).
Proof.
  rewrite (lo_size _ Hlo), (lo_hdr _ Hlo).
  rewrite (length_fields_bytes src) by (done || apply body_fixed_fixed).
  cbn. lia.
Qed.

Lemma emit_encoder_eq :
  emit_encoder msg = Some
    ([E_int T_byte "hdr_type"; E_int T_byte "hdr_flags"; E_skip_length 2;
      E_int T_longword (seq_key (m_type msg))] ++
     ((λ f, E_int (f_type f) (f_key f)) <$> body_fixed msg) ++
     E_size_sub (fixed_size msg) ::
     ((λ f, E_var (f_type f) (f_key f)) <$> var_fields msg) ++ [E_patch_length T_word]).
Proof.
  unfold emit_encoder. rewrite (lo_length _ Hlo). cbn [mbind option_bind]. f_equal.
  rewrite (lo_hdr _ Hlo), fmap_app, <-app_assoc. f_equal; [by destruct (m_type msg)|].
  f_equal. apply list_fmap_ext. intros i f Hf.
  by rewrite (Forall_lookup_1 _ _ _ _ (lo_keys _ Hlo) Hf).
Qed.

(** The header statements leave the length bytes as they were. *)
Lemma run_encoder_header k buf size :
  8 <= Z.of_nat (length buf) →
  ∃ old c, length old = 2%nat ∧
    put (buf, 0%nat) ([ty; fl] ++ old ++ be_split 4 seq) = Some c ∧
    run_encoder be (E_int T_byte "hdr_type" :: E_int T_byte "hdr_flags" ::
                    E_skip_length 2 :: E_int T_longword (seq_key (m_type msg)) :: k)
        src size (buf, 0%nat) size None
      = run_encoder be k src size c size (Some 2%nat).
Proof.
  intros Hbuf. destruct Hty as [Hty1 Hty2], Hfl as [Hfl1 Hfl2], Hseq as [Hseq1 Hseq2].
  cbn [run_encoder]. rewrite Hty1, Hfl1, Hseq1. cbn [mbind option_bind].
  rewrite (encode_int_spec be T_byte) by done. cbn [value_bytes].
  pose proof (put_total buf [ty]) as E1. rewrite E1 by (cbn; lia). cbn [mbind option_bind].
  rewrite (encode_int_spec be T_byte) by done. cbn [value_bytes].
  rewrite (put_put' (buf, 0%nat) _ [ty]) by (apply E1; cbn; lia). cbn [app].
  destruct (put (buf, 0%nat) [ty; fl]) as [[buf2 pos2]|] eqn:E2;
    [|by rewrite put_total in E2 by (cbn; lia)].
  pose proof (put_length _ _ _ _ E2) as Hl2. pose proof (put_Some _ _ _ _ _ E2) as [-> _].
  cbn [mbind option_bind fst snd Nat.add length] in *. change (Z.to_nat 2) with 2%nat.
  set (old := take 2 (drop 2 buf2)). exists old.
  assert (length old = 2%nat) as Hold by (unfold old; rewrite length_take, length_drop; lia).
  assert (put (buf, 0%nat) ([ty; fl] ++ old) = Some (buf2, 4%nat)) as E3.
  { rewrite <-(put_put' _ _ _ old E2). apply put_skip. lia. }
  rewrite (encode_int_spec be T_longword) by done. cbn [value_bytes].
  rewrite (put_put' _ _ _ _ E3), <-app_assoc.
  eexists. split_and!; [done|apply put_total|].
  { llen. }
  rewrite put_total by llen. done.
Qed.

Lemma run_encoder_image buf size ss :
  emit_encoder msg = Some ss →
  total <= size → total <= Z.of_nat (length buf) → total < 65536 →
  run_encoder be ss src size (buf, 0%nat) size None =
    Some (image total ++ drop (Z.to_nat total) buf, Some total).
Proof.
  intros Hss Hsz Hbuf Hmax. rewrite emit_encoder_eq in Hss. injection Hss as <-.
  assert (8 <= total) as H8 by (unfold total; lia).
  destruct (run_encoder_header
    (((λ f, E_int (f_type f) (f_key f)) <$> body_fixed msg) ++
     E_size_sub (fixed_size msg) ::
     ((λ f, E_var (f_type f) (f_key f)) <$> var_fields msg) ++ [E_patch_length T_word])
    buf size) as (old & c & Hold & Hc & Hrun); [lia|].
  cbn [app] in *. rewrite Hrun.
  assert (length payload = length (fields_bytes val (body_fixed msg)) +
                           length (fields_bytes val (var_fields msg)))%nat as Hpay.
  { unfold payload. by rewrite length_app. }
  rewrite (run_encoder_fixed be _ val) by
    (done || apply body_fixed_fixed || by eapply put_in_buffer).
  rewrite (put_put' _ _ _ _ Hc). clear Hc Hrun.
  destruct (put (buf, 0%nat) _) as [c5|] eqn:E5; cbn [mbind option_bind];
    [|exfalso; revert E5; rewrite put_total; [done|]; llen; unfold total in *; lia].
  cbn [run_encoder]. rewrite fixed_size_eq.
  rewrite (run_encoder_var be _ val); [|done|apply Hlo|by eapply put_in_buffer|unfold total in *; lia].
  rewrite (put_put' _ _ _ _ E5). clear E5.
  destruct (put (buf, 0%nat) _) as [c6|] eqn:E6; cbn [mbind option_bind];
    [|exfalso; revert E6; rewrite put_total; [done|]; llen; unfold total in *; lia].
  cbn [run_encoder mbind option_bind].
  replace (size - (size - _ - _)) with total by (unfold total; lia).
  cbn [type_size]. change (wrap (8 * 2) total) with (u16 total). rewrite u16_id by lia.
  rewrite (encode_int_spec be T_word) by (cbn; lia). cbn [value_bytes].
  assert (put (buf, 0%nat) ([ty; fl] ++ old ++ be_split 4 seq ++ payload) = Some c6) as E7.
  { rewrite <-E6. f_equal. unfold payload. cbn [app]. by rewrite <-!app_assoc. }
  pose proof (put_patch _ [ty; fl] old (be_split 2 total) _ _ E7) as Hp.
  cbn [length] in Hp. rewrite Hp by (by rewrite length_be_split).
  cbn [mbind option_bind fst]. do 2 f_equal.
  unfold image. rewrite <-!app_assoc. do 5 f_equal.
  llen. unfold total. lia.
Qed.

(** What the emitted decoder stores when it reads the image. *)
Definition decoded_struct (len : Z) (rest : list Z) : struct :=
  decoded_fields val (var_fields msg) rest
    (rev ((λ f, (f_key f, val f)) <$> body_fixed msg) ++
     [(seq_key (m_type msg), V_int seq); ("hdr_length"%string, V_int len);
      ("hdr_flags"%string, V_int fl); ("hdr_type"%string, V_int ty)]).

Lemma run_decoder_image len size rest :
  0 <= len < 65536 → total <= size < 2147483648 →
  run_decoder be (emit_decoder msg) (image len ++ rest) size [] =
    Some (Some (decoded_struct len rest)).
Proof.
  intros Hlen Hsz. destruct Hty as [_ Hty2], Hfl as [_ Hfl2], Hseq as [_ Hseq2].
  assert (length payload = length (fields_bytes val (body_fixed msg)) +
                           length (fields_bytes val (var_fields msg)))%nat as Hpay.
  { unfold payload. by rewrite length_app. }
  unfold emit_decoder, decoded_struct, image, payload.
  rewrite (lo_hdr _ Hlo), fmap_app, <-!app_assoc.
  cbn [fmap list_fmap hdr_fields app run_decoder decode_int f_type f_key].
  rewrite fixed_size_eq. unfold total in Hsz. ztest.
  cbn [rl_decode_int1 mbind option_bind].
  rewrite rl_decode_int2_spec by done. cbn [mbind option_bind].
  rewrite rl_decode_int4_spec by done. cbn [mbind option_bind].
  rewrite (run_decoder_fixed be src) by (done || apply body_fixed_fixed).
  destruct (var_fields msg) as [|f fs] eqn:Ev; [done|].
  rewrite <-Ev in *. rewrite (proj2 (Z.ltb_lt 0 _)) by (rewrite Ev; cbn [length]; lia).
  cbn [run_decoder]. apply (run_decoder_var be src); [done|apply Hlo|lia].
Qed.
End Image.

(** ** The codec of typed messages *)
Definition val_of (m : rl_msg) (f : field) : value :=
  default (V_int 0) (get_field (f_key f) (to_struct m)).

Definition dir_of (b : rl_body) : msg_dir := if is_answer b then answer else request.

Lemma VS_text s : no_nul s → cstr_at (s ++ [0]) = Some s.
Proof. apply cstr_at_app. Qed.

Lemma VS_ok s : wf_string s → value_ok T_string (VS s).
Proof. intros [? ?]. exists s. split; [by apply VS_text|done]. Qed.

Lemma VS_bytes s : wf_string s → value_bytes T_string (VS s) = str_bytes s.
Proof. intros [? ?]. cbn. by rewrite VS_text. Qed.

Lemma VS_decoded s rest :
  wf_string s → decoded T_string (VS s) rest = V_string (s ++ 0 :: rest).
Proof. intros [? ?]. cbn. by rewrite VS_text. Qed.

Ltac split_fields :=
  repeat match goal with
  | |- Forall _ [] => constructor
  | |- Forall _ (_ :: _) => constructor; [split; [reflexivity|]|]
  end.

Ltac solve_value_ok :=
  match goal with
  | H : _ |- _ => exact H
  | H : wf_string ?s |- _ => exact (VS_ok s H)
  end.

(** The struct that the decoder fills gives the message back. *)
Record msg_layout (m : rl_msg) (msg : Message) : Prop := {
  ml_lookup : messages !! Z.to_nat (body_kind (body m)) = Some msg;
  ml_type : m_type msg = dir_of (body m);
  ml_fixed : Forall (field_ok (to_struct m) (val_of m)) (body_fixed msg);
  ml_var : Forall (field_ok (to_struct m) (val_of m)) (var_fields msg);
  ml_payload : payload msg (val_of m) = body_bytes (body m);
  ml_decoded len rest : ∃ b,
    of_struct (body_kind (body m))
      (decoded_struct msg (hdr_type m) (hdr_flags m) (hdr_seq m) (val_of m) len rest)
    = Some (Msg (hdr_type m) (hdr_flags m) len (hdr_seq m) b) ∧ b ≡ body m
}.

Lemma array_equiv_decoded a rest :
  wf_array a → NetArray (array_contents a ++ rest) (na_length a) ≡ a.
Proof.
  intros Ha. destruct (array_contents_wf _ Ha) as [Hb Hl]. split; [done|].
  rewrite Hb. unfold na_bytes. cbn [na_length na_base].
  rewrite decide_True by (rewrite length_app; lia).
  by rewrite Hl, Nat2Z.id, take_app_length.
Qed.

Lemma body_layout m : wf_msg m → ∃ msg, msg_layout m msg.
Proof.
  intros [Hty Hfl Hseq Hb]. destruct m as [ty fl hl seq b]. cbn in *. subst ty.
  destruct b; cbn [wf_body] in Hb; destruct_and?; eexists.
  all: split; [vm_compute; reflexivity|reflexivity| | | |].
  all: cbn [body_fixed var_fields fixed_fields drop].
  all: try (split_fields; solve_value_ok).
  all: try (unfold payload, fields_bytes; cbn [body_fixed var_fields fixed_fields drop];
            cbn -[be_split str_bytes arr_bytes array_contents cstr_at];
            rewrite ?app_nil_r, ?VS_text by (unfold wf_string in *; tauto);
            rewrite <-?app_assoc; reflexivity).
  all: intros len rest; unfold decoded_struct; cbn [body_fixed var_fields fixed_fields drop].
  all: cbn -[be_split str_bytes arr_bytes array_contents cstr_at equiv].
  all: unfold get_text, get_string, get_int, get_array;
       cbn -[be_split str_bytes arr_bytes array_contents cstr_at equiv].
  all: rewrite ?VS_text by (unfold wf_string in *; tauto); cbn [from_option id].
  all: rewrite ?cstr_at_app by (unfold wf_string in *; tauto).
  all: eexists; split; [reflexivity|].
  all: try done.
  - by apply array_equiv_decoded.
  - split; [done|]. by apply array_equiv_decoded.
Qed.

Lemma msg_layout_ok m msg : msg_layout m msg → layout_ok msg.
Proof. intros Hm. eapply Forall_lookup_1; [apply messages_layout|apply Hm]. Qed.

Section TypedCodec.
Context (be : bool) (m : rl_msg).
Hypothesis Hwf : wf_msg m.

Lemma wire_image msg :
  msg_layout m msg →
  total msg (val_of m) = wire_length m ∧
  image msg (hdr_type m) (hdr_flags m) (hdr_seq m) (val_of m) (wire_length m) = wire_bytes m.
Proof.
  intros Hm. unfold total, image, wire_bytes, wire_length. by rewrite (ml_payload _ _ Hm).
Qed.

Lemma header_ok msg :
  msg_layout m msg →
  (get_int "hdr_type" (to_struct m) = Some (hdr_type m) ∧ is_byte (hdr_type m)) ∧
  (get_int "hdr_flags" (to_struct m) = Some (hdr_flags m) ∧ is_byte (hdr_flags m)) ∧
  (get_int (seq_key (m_type msg)) (to_struct m) = Some (hdr_seq m) ∧ is_u32 (hdr_seq m)).
Proof.
  intros Hm. destruct Hwf as [Hty Hfl Hseq _]. split_and!; try done.
  - rewrite Hty. destruct (body m); vm_compute; split; (done || discriminate).
  - rewrite (ml_type _ _ Hm). unfold to_struct, dir_of. by destruct (is_answer (body m)).
Qed.

Lemma kind_range : 0 <= body_kind (body m) <= 17.
Proof. destruct (body m); vm_compute; split; discriminate. Qed.

(** An encoded message has the wire format, and its length is the
    message size recorded in the header. *)
Lemma rl_encode_msg_spec buf size :
  wire_length m <= size → wire_length m <= Z.of_nat (length buf) → wire_length m < 65536 →
  rl_encode_msg be m buf size =
    Some (wire_bytes m ++ drop (Z.to_nat (wire_length m)) buf, Some (wire_length m)).
Proof.
  intros Hsz Hbuf Hmax. destruct (body_layout _ Hwf) as [msg Hm].
  destruct (header_ok _ Hm) as (H1 & H2 & H3). destruct (wire_image _ Hm) as [Ht Hi].
  unfold rl_encode_msg, encode_struct, rl_msg_kind_of. rewrite (wf_type _ Hwf).
  rewrite (ml_lookup _ _ Hm). cbn [mbind option_bind].
  pose proof (msg_layout_ok _ _ Hm) as Hlo.
  rewrite (emit_encoder_eq _ _ _ Hlo H3). cbn [mbind option_bind].
  rewrite <-Hi, <-Ht in *.
  eapply run_encoder_image; eauto using emit_encoder_eq; apply Hm.
Qed.

(** The wire format of a message is decoded to that message, whatever
    bytes follow it in the receive buffer. *)
Lemma rl_decode_msg_spec rest :
  wire_length m < 65536 →
  ∃ m', rl_decode_msg be (wire_bytes m ++ rest) (wire_length m) = Some (Some m') ∧
        m' ≡ Msg (hdr_type m) (hdr_flags m) (wire_length m) (hdr_seq m) (body m).
Proof.
  intros Hmax. destruct (body_layout _ Hwf) as [msg Hm].
  destruct (header_ok _ Hm) as (H1 & H2 & H3). destruct (wire_image _ Hm) as [Ht Hi].
  pose proof (msg_layout_ok _ _ Hm) as Hlo. pose proof kind_range as Hk.
  destruct (ml_decoded _ _ Hm (wire_length m) rest) as (b & Hb & Hbe).
  exists (Msg (hdr_type m) (hdr_flags m) (wire_length m) (hdr_seq m) b).
  split; [|by repeat split].
  assert (8 <= wire_length m) by (unfold wire_length; lia).
  assert (peek_msg_kind (wire_bytes m ++ rest) (wire_length m) =
          Some (Some (body_kind (body m)))) as Hpeek.
  { unfold peek_msg_kind. ztest. unfold wire_bytes.
    cbn [app lookup list_lookup mbind option_bind].
    rewrite (wf_type _ Hwf). change RL_MSG_MAX with 17. by ztest. }
  unfold rl_decode_msg, decode_struct. rewrite Hpeek. cbn [mbind option_bind].
  rewrite (ml_lookup _ _ Hm). cbn [mbind option_bind]. rewrite <-Hi.
  erewrite run_decoder_image by (eauto || apply Hm || lia).
  cbn [mbind option_bind option_map]. by rewrite Hb.
Qed.
End TypedCodec.

(** C2: a message that one host encodes into a buffer with room for it is the
    message the other host decodes, whatever the byte orders of the two and
    whatever follows in the receive buffer; the size reported to the sender and
    the size in the header are the number of bytes written. *)
Theorem rl_msg_roundtrip be_sender be_receiver m buf size rest :
  wf_msg m → wire_length m <= size → wire_length m <= Z.of_nat (length buf) →
  wire_length m < 65536 →
  ∃ buf' m', rl_encode_msg be_sender m buf size = Some (buf', Some (wire_length m)) ∧
    length buf' = length buf ∧
    rl_decode_msg be_receiver (take (Z.to_nat (wire_length m)) buf' ++ rest) (wire_length m) =
      Some (Some m') ∧
    m' ≡ Msg (hdr_type m) (hdr_flags m) (wire_length m) (hdr_seq m) (body m).
Proof.
  intros Hwf Hs Hb Hl.
  assert (length (wire_bytes m) = Z.to_nat (wire_length m)) as Hlen.
  { unfold wire_bytes, wire_length. llen. }
  destruct (rl_decode_msg_spec be_receiver m Hwf rest Hl) as (m' & Hd & Heq).
  exists (wire_bytes m ++ drop (Z.to_nat (wire_length m)) buf), m'.
  split; [by apply rl_encode_msg_spec|]. split; [llen|]. split; [|done].
  by rewrite take_app_length'.
Qed.

Definition demo_message : rl_msg :=
  RL_MSG_INIT (find_next_file_answer 0 1 (chars "dir") 77) 5.

Lemma rl_msg_roundtrip_witness :
  ∃ buf' m', rl_encode_msg true demo_message (replicate 32 0) 32 =
      Some (buf', Some (wire_length demo_message)) ∧
    length buf' = length (replicate 32 0) ∧
    rl_decode_msg false (take (Z.to_nat (wire_length demo_message)) buf' ++ [1; 2])
      (wire_length demo_message) = Some (Some m') ∧
    m' ≡ Msg (hdr_type demo_message) (hdr_flags demo_message) (wire_length demo_message)
           (hdr_seq demo_message) (body demo_message).
Proof.
  refine (rl_msg_roundtrip true false demo_message (replicate 32 0) 32 [1; 2] _ _ _ _);
    try (vm_compute; congruence).
  split; [reflexivity|vm_compute; split; congruence..|].
  split; [vm_compute; split; congruence|]. split; [vm_compute; split; congruence|].
  split; [|vm_compute; split; congruence].
  split; [repeat constructor; discriminate|vm_compute; lia].
Defined.
