(* ===== verification/CString.v ===== *)
(** * CString: the string and memory routines of util.c

    The routines the Amiga build uses instead of the C library ([NO_C_LIB]),
    the bounded string copy and the string buffer.  Reads go through pointers
    (the bytes from the pointer to the end of the object); writes go to an
    object [mem] at an index. *)

From S2P Require Import Prelude.

(** ** Memory routines

    [mem] is the object that holds source and destination: two regions of one
    object may overlap, which is what [rl_memmove] is about. *)
Definition store_byte (mem : list Z) (i : nat) (b : Z) : option (list Z) :=
  if decide (i < length mem)%nat then Some (<[i := b]> mem) else None.

Fixpoint rl_memcpy (mem : list Z) (dest src len : nat) : option (list Z) :=
  match len with
  | O => Some mem
  | S len =>
      b ← mem !! src;
      mem ← store_byte mem dest b;
      rl_memcpy mem (S dest) (S src) len
  end.

(** The branch of [rl_memmove] that copies from the end; [dst] and [src] are
    the ends of the regions. *)
Fixpoint memmove_down (mem : list Z) (dst src len : nat) : option (list Z) :=
  match len, dst, src with
  | O, _, _ => Some mem
  | S len, S dst, S src =>
      b ← mem !! src;
      mem ← store_byte mem dst b;
      memmove_down mem dst src len
  | S _, _, _ => None
  end.

Definition rl_memmove (mem : list Z) (dst src len : nat) : option (list Z) :=
  if (src <? dst)%nat then memmove_down mem (dst + len) (src + len) len
  else if (dst <? src)%nat then rl_memcpy mem dst src len
  else Some mem.

Fixpoint rl_memset (mem : list Z) (dest : nat) (value : Z) (len : nat) : option (list Z) :=
  match len with
  | O => Some mem
  | S len => mem ← store_byte mem dest (u8 value); rl_memset mem (S dest) value len
  end.

Definition byte_swap2 (ptr : list Z) : option (list Z) :=
  match ptr with
  | c0 :: c1 :: rest => Some (c1 :: c0 :: rest)
  | _ => None
  end.

Definition byte_swap4 (ptr : list Z) : option (list Z) :=
  match ptr with
  | c0 :: c1 :: c2 :: c3 :: rest => Some (c3 :: c2 :: c1 :: c0 :: rest)
  | _ => None
  end.

(** ** Strings *)
Fixpoint rl_strlen (str : list Z) : option nat :=
  match str with
  | [] => None
  | c :: str => if c =? 0 then Some 0%nat else n ← rl_strlen str; Some (S n)
  end.

(** The pointer to the first [ch], or a null pointer. *)
Fixpoint rl_strchr (input : list Z) (ch : Z) : option (option (list Z)) :=
  match input with
  | [] => None
  | test :: rest =>
      if ch =? test then Some (Some input)
      else if test =? 0 then Some None
      else rl_strchr rest ch
  end.

Fixpoint rl_strcmp (s1 s2 : list Z) : option Z :=
  match s1, s2 with
  | c1 :: s1, c2 :: s2 =>
      if c1 =? c2 then if c1 =? 0 then Some 0 else rl_strcmp s1 s2
      else Some (c1 - c2)
  | _, _ => None
  end.

Definition rl_isdigit (ch : Z) : bool := (48 <=? ch) && (ch <=? 57).
Definition rl_char_int_value (ch : Z) : Z := ch - 48.

(** [rl_string_copy] with [dest] at index [dest] of [mem], [room] bytes before
    [dest_max]. *)
Fixpoint string_copy_loop (mem : list Z) (dest room : nat) (source : list Z)
  : option (list Z * nat * nat) :=
  match room with
  | O => Some (mem, dest, O)
  | S room' =>
      match source with
      | [] => None
      | ch :: source =>
          if ch =? 0 then Some (mem, dest, room)
          else mem ← store_byte mem dest ch; string_copy_loop mem (S dest) room' source
      end
  end.

Definition rl_string_copy (dest_size : nat) (mem : list Z) (source : list Z)
  : option (list Z * Z) :=
  '(mem, dest, room) ← string_copy_loop mem 0 (dest_size - 1) source;
  mem ← store_byte mem dest 0;
  Some (mem, if (room =? 0)%nat then -1 else 0).

(** ** String buffers: [sb_buffer] and [sb_max] are indices into [sb_mem] *)
Record rl_strbuf := StrBuf { sb_mem : list Z; sb_buffer : nat; sb_max : nat }.

Definition strbuf_append_ch (buf : rl_strbuf) (ch : Z) : option rl_strbuf :=
  if (sb_buffer buf =? sb_max buf)%nat then Some buf
  else mem ← store_byte (sb_mem buf) (sb_buffer buf) ch;
       Some (StrBuf mem (S (sb_buffer buf)) (sb_max buf)).

Definition strbuf_null_terminate (buf : rl_strbuf) : option rl_strbuf :=
  if (sb_buffer buf =? sb_max buf)%nat then
    match sb_max buf with
    | O => None
    | S last => mem ← store_byte (sb_mem buf) last 0;
                Some (StrBuf mem (sb_buffer buf) (sb_max buf))
    end
  else mem ← store_byte (sb_mem buf) (sb_buffer buf) 0;
       Some (StrBuf mem (sb_buffer buf) (sb_max buf)).

Definition rl_strbuf_init (buffer : list Z) (size : nat) : option rl_strbuf :=
  strbuf_null_terminate (StrBuf buffer 0 size).

Definition strbuf_result (buf : rl_strbuf) : Z :=
  if (sb_buffer buf =? sb_max buf)%nat then 0 else 1.

Fixpoint strbuf_append_loop (buf : rl_strbuf) (str : list Z) : option rl_strbuf :=
  match str with
  | [] => None
  | ch :: str =>
      if ch =? 0 then Some buf
      else buf ← strbuf_append_ch buf ch; strbuf_append_loop buf str
  end.

Definition rl_strbuf_append (buf : rl_strbuf) (str : list Z) : option (rl_strbuf * Z) :=
  buf ← strbuf_append_loop buf str;
  buf ← strbuf_null_terminate buf;
  Some (buf, strbuf_result buf).

Fixpoint strbuf_append_len_loop (buf : rl_strbuf) (str : list Z) (len : nat)
  {struct len} : option rl_strbuf :=
  match len with
  | O => Some buf
  | S len =>
      match str with
      | [] => None
      | ch :: str => buf ← strbuf_append_ch buf ch; strbuf_append_len_loop buf str len
      end
  end.

Definition rl_strbuf_append_str_len (buf : rl_strbuf) (str : list Z) (len : nat)
  : option (rl_strbuf * Z) :=
  buf ← strbuf_append_len_loop buf str len;
  buf ← strbuf_null_terminate buf;
  Some (buf, strbuf_result buf).

(** ** Stores *)
Lemma store_byte_Some mem i b :
  (i < length mem)%nat → store_byte mem i b = Some (<[i := b]> mem).
Proof. intros. unfold store_byte. by rewrite decide_True. Qed.

Lemma put_bytes_cons mem d b bs :
  (d < length mem)%nat →
  put_bytes mem d (b :: bs) = put_bytes (<[d := b]> mem) (S d) bs.
Proof.
  intros Hd. unfold put_bytes. rewrite length_insert. cbn [length].
  replace (S d + length bs)%nat with (d + S (length bs))%nat by lia.
  destruct (decide (d + S (length bs) ≤ length mem)%nat); [|done]. f_equal.
  rewrite drop_insert_lt by lia.
  assert (take (S d) (<[d:=b]> mem) = take d mem ++ [b]) as ->; [|by rewrite <-app_assoc].
  rewrite (take_S_r _ _ b) by (apply list_lookup_insert_eq; lia).
  by rewrite take_insert_ge by lia.
Qed.

Lemma put_bytes_nil mem d : (d ≤ length mem)%nat → put_bytes mem d [] = Some mem.
Proof.
  intros. rewrite put_bytes_Some by (cbn; lia). cbn.
  by rewrite Nat.add_0_r, take_drop.
Qed.

(** ** Copies: region [src..src+len) of [mem] arrives at [dst] *)
Definition copied (mem mem' : list Z) (dst src len : nat) : Prop :=
  length mem' = length mem ∧
  ∀ i, mem' !! i = if decide (dst ≤ i < dst + len)%nat then mem !! (src + (i - dst))%nat
                   else mem !! i.

Lemma copied_unique mem m1 m2 dst src len :
  copied mem m1 dst src len → copied mem m2 dst src len → m1 = m2.
Proof. intros [_ H1] [_ H2]. apply list_eq. intros i. by rewrite H1, H2. Qed.

Lemma put_bytes_copied mem dst src len :
  (src + len ≤ length mem)%nat → (dst + len ≤ length mem)%nat →
  ∃ mem', put_bytes mem dst (take len (drop src mem)) = Some mem' ∧
    copied mem mem' dst src len.
Proof.
  intros Hs Hd. rewrite put_bytes_Some by llen. eexists. split; [done|].
  split; [llen|]. intros i.
  replace (dst + length (take len (drop src mem)))%nat with (dst + len)%nat by llen.
  destruct (decide (dst ≤ i < dst + len)%nat) as [Hi|Hi].
  - rewrite lookup_app_r by llen. rewrite lookup_app_l by llen.
    rewrite lookup_take_lt by llen. rewrite lookup_drop. f_equal. llen.
  - destruct (decide (i < dst)%nat).
    + rewrite lookup_app_l by llen. apply lookup_take_lt. lia.
    + rewrite lookup_app_r by llen. rewrite lookup_app_r by llen.
      rewrite lookup_drop. f_equal. llen.
Qed.

Lemma rl_memcpy_copied len : ∀ mem dst src,
  (dst ≤ src ∨ src + len ≤ dst)%nat →
  (src + len ≤ length mem)%nat → (dst + len ≤ length mem)%nat →
  ∃ mem', rl_memcpy mem dst src len = Some mem' ∧ copied mem mem' dst src len.
Proof.
  induction len as [|len IH]; intros mem dst src Ho Hs Hd; cbn [rl_memcpy].
  { exists mem. split; [done|]. split; [done|]. intros i. by rewrite decide_False by lia. }
  destruct (lookup_lt_is_Some_2 mem src) as [b Hb]; [lia|]. rewrite Hb.
  cbn [mbind option_bind]. rewrite store_byte_Some by lia. cbn [mbind option_bind].
  destruct (IH (<[dst:=b]> mem) (S dst) (S src)) as (mem' & Hrun & Hl & Hm);
    [lia|rewrite length_insert; lia..|].
  exists mem'. split; [done|]. rewrite length_insert in Hl. split; [done|].
  intros i. rewrite Hm. destruct (decide (i = dst)) as [->|Hne].
  - rewrite decide_False, decide_True by lia. rewrite list_lookup_insert_eq by lia.
    by rewrite Nat.sub_diag, Nat.add_0_r.
  - case_decide as H1.
    + rewrite decide_True by lia. rewrite list_lookup_insert_ne by lia. f_equal. lia.
    + rewrite decide_False by lia. by rewrite list_lookup_insert_ne by lia.
Qed.

Lemma memmove_down_copied len : ∀ mem dst src,
  (src < dst)%nat → (dst + len ≤ length mem)%nat →
  ∃ mem', memmove_down mem (dst + len) (src + len) len = Some mem' ∧
    copied mem mem' dst src len.
Proof.
  induction len as [|len IH]; intros mem dst src Ho Hd.
  { exists mem. rewrite !Nat.add_0_r. split; [by destruct dst|]. split; [done|].
    intros i. by rewrite decide_False by lia. }
  rewrite !Nat.add_succ_r. cbn [memmove_down].
  destruct (lookup_lt_is_Some_2 mem (src + len)) as [b Hb]; [lia|]. rewrite Hb.
  cbn [mbind option_bind]. rewrite store_byte_Some by lia. cbn [mbind option_bind].
  destruct (IH (<[(dst + len)%nat:=b]> mem) dst src) as (mem' & Hrun & Hl & Hm);
    [lia|rewrite length_insert; lia|].
  exists mem'. split; [done|]. rewrite length_insert in Hl. split; [done|].
  intros i. rewrite Hm. case_decide as H1.
  - rewrite decide_True by lia. by rewrite list_lookup_insert_ne by lia.
  - destruct (decide (i = dst + len)%nat) as [->|].
    + rewrite decide_True by lia. rewrite list_lookup_insert_eq by lia.
      rewrite <-Hb. f_equal. lia.
    + rewrite decide_False by lia. by rewrite list_lookup_insert_ne by lia.
Qed.

(** C40: [rl_memmove] stores the bytes the source region had before the call,
    however the two regions overlap. *)
Theorem rl_memmove_spec mem dst src len :
  (src + len ≤ length mem)%nat → (dst + len ≤ length mem)%nat →
  rl_memmove mem dst src len = put_bytes mem dst (take len (drop src mem)).
Proof.
  intros Hs Hd. destruct (put_bytes_copied mem dst src len Hs Hd) as (m1 & -> & H1).
  unfold rl_memmove. destruct (Nat.ltb_spec src dst).
  { destruct (memmove_down_copied len mem dst src) as (m2 & -> & H2); [lia..|].
    by rewrite (copied_unique _ _ _ _ _ _ H1 H2). }
  destruct (Nat.ltb_spec dst src).
  { destruct (rl_memcpy_copied len mem dst src) as (m2 & -> & H2); [lia..|].
    by rewrite (copied_unique _ _ _ _ _ _ H1 H2). }
  f_equal. eapply copied_unique; [|done]. split; [done|].
  intros i. case_decide; f_equal; lia.
Qed.

Lemma rl_memmove_spec_witness :
  rl_memmove [1; 2; 3; 4; 5] 1 0 4 = put_bytes [1; 2; 3; 4; 5] 1 [1; 2; 3; 4] ∧
  rl_memcpy [1; 2; 3; 4; 5] 1 0 4 = Some [1; 1; 1; 1; 1].
Proof.
  split; [|reflexivity].
  exact (rl_memmove_spec [1; 2; 3; 4; 5] 1 0 4 ltac:(cbn; lia) ltac:(cbn; lia)).
Defined.

(** ** Strings *)
Lemma rl_strlen_spec p : rl_strlen p = match cstr_at p with
                                       | Some s => Some (length s)
                                       | None => None
                                       end.
Proof.
  induction p as [|c p IH]; [done|]. cbn.
  destruct (Z.eqb_spec c 0); [by rewrite decide_True|]. rewrite decide_False by done.
  rewrite IH. by destruct (cstr_at p).
Qed.

(** [rl_strchr] splits the string at the first occurrence of [ch]. *)
Lemma rl_strchr_found pre ch p :
  ch ∉ pre → no_nul pre → rl_strchr (pre ++ ch :: p) ch = Some (Some (ch :: p)).
Proof.
  intros Hn. induction 1 as [|c pre Hc Hp IH]; cbn; [by rewrite Z.eqb_refl|].
  rewrite (proj2 (Z.eqb_neq ch c)) by set_solver. rewrite (proj2 (Z.eqb_neq c 0)) by done.
  apply IH. set_solver.
Qed.

Lemma rl_strchr_null s ch p :
  ch ∉ s → no_nul s → ch ≠ 0 → rl_strchr (s ++ 0 :: p) ch = Some None.
Proof.
  intros Hn Hs Hc. induction Hs as [|c s Hc' Hp IH]; cbn.
  { by rewrite (proj2 (Z.eqb_neq ch 0)). }
  rewrite (proj2 (Z.eqb_neq ch c)) by set_solver. rewrite (proj2 (Z.eqb_neq c 0)) by done.
  apply IH. set_solver.
Qed.

Lemma no_nul_cons c s : no_nul (c :: s) ↔ c ≠ 0 ∧ no_nul s.
Proof. unfold no_nul. by rewrite Forall_cons. Qed.

(** The lexicographic order that [rl_strcmp] decides. *)
Fixpoint str_cmp (s1 s2 : list Z) : Z :=
  match s1, s2 with
  | [], [] => 0
  | [], c2 :: _ => - c2
  | c1 :: _, [] => c1
  | c1 :: s1, c2 :: s2 => if c1 =? c2 then str_cmp s1 s2 else c1 - c2
  end.

Lemma rl_strcmp_cmp s1 s2 p1 p2 :
  no_nul s1 → no_nul s2 →
  rl_strcmp (s1 ++ 0 :: p1) (s2 ++ 0 :: p2) = Some (str_cmp s1 s2).
Proof.
  intros H1. revert s2. induction H1 as [|c1 s1 Hc1 H1 IH]; intros [|c2 s2] H2; cbn; [done|..].
  - apply no_nul_cons in H2 as [? _]. by destruct c2.
  - rewrite (proj2 (Z.eqb_neq c1 0)) by done. f_equal. lia.
  - apply no_nul_cons in H2 as [Hc2 H2]. destruct (Z.eqb_spec c1 c2); [|done].
    rewrite (proj2 (Z.eqb_neq c1 0)) by done. by apply IH.
Qed.

Lemma str_cmp_eq s1 s2 : no_nul s1 → no_nul s2 → str_cmp s1 s2 = 0 ↔ s1 = s2.
Proof.
  intros H1. revert s2. induction H1 as [|c1 s1 Hc1 H1 IH]; intros [|c2 s2] H2; cbn; [done|..].
  - apply no_nul_cons in H2 as [? _]. split; [lia|done].
  - split; [lia|done].
  - apply no_nul_cons in H2 as [? H2]. destruct (Z.eqb_spec c1 c2) as [->|].
    + rewrite (IH s2 H2). split; [by intros ->|by intros [=]].
    + split; [lia|by intros [=]].
Qed.

(** [rl_strcmp] decides equality of C strings. *)
Lemma rl_strcmp_eq p1 p2 s1 s2 :
  cstr_at p1 = Some s1 → cstr_at p2 = Some s2 →
  ∃ n, rl_strcmp p1 p2 = Some n ∧ (n = 0 ↔ s1 = s2).
Proof.
  intros (H1 & q1 & ->)%cstr_at_Some (H2 & q2 & ->)%cstr_at_Some.
  eexists. rewrite rl_strcmp_cmp by done. split; [done|]. by apply str_cmp_eq.
Qed.

(** ** The bounded copy *)
Lemma put_bytes_snoc_length mem bs :
  (length bs ≤ length mem)%nat →
  put_bytes mem 0 bs = Some (bs ++ drop (length bs) mem).
Proof. intros. rewrite put_bytes_Some by lia. done. Qed.

Lemma string_copy_loop_spec room : ∀ mem dest s p,
  no_nul s → (dest + room < length mem)%nat →
  string_copy_loop mem dest room (s ++ 0 :: p) =
    (m ← put_bytes mem dest (take room s);
     Some (m, (dest + length (take room s))%nat, (room - length s)%nat)).
Proof.
  induction room as [|room IH]; intros mem dest s p Hs Hd.
  { rewrite take_0, put_bytes_nil by lia. cbn. by rewrite Nat.add_0_r. }
  destruct s as [|c s]; cbn [string_copy_loop app].
  { rewrite take_nil, put_bytes_nil by lia. cbn. by rewrite Nat.add_0_r. }
  apply no_nul_cons in Hs as [Hc Hs]. rewrite (proj2 (Z.eqb_neq c 0)) by done.
  rewrite store_byte_Some by lia. cbn [mbind option_bind].
  rewrite IH by (done || rewrite length_insert; lia).
  cbn [take]. rewrite put_bytes_cons by lia.
  destruct (put_bytes _ (S dest) (take room s)); cbn; [|done]. do 2 f_equal. f_equal. lia.
Qed.

Lemma cstr_at_exists (l : list Z) i : l !! i = Some 0 → ∃ s, cstr_at l = Some s.
Proof.
  revert i; induction l as [|c l IH]; intros i; [done|]. cbn [cstr_at].
  destruct (decide (c = 0)); [by eexists|]. destruct i; cbn; [congruence|].
  intros Hi. destruct (IH i Hi) as [s ->]. by eexists.
Qed.

Lemma rl_string_copy_ok dest_size mem source s :
  cstr_at source = Some s → (1 < dest_size ≤ length mem)%nat →
  let out := take (dest_size - 1) s ++ [0] in
  rl_string_copy dest_size mem source =
    Some (out ++ drop (length out) mem,
          if decide (length s < dest_size - 1)%nat then 0 else -1).
Proof.
  intros (Hs & p & ->)%cstr_at_Some Hd. cbn zeta. unfold rl_string_copy.
  set (t := take (dest_size - 1) s).
  assert (length t ≤ dest_size - 1)%nat as Ht by (unfold t; llen).
  rewrite string_copy_loop_spec by (done || lia). fold t.
  rewrite put_bytes_snoc_length by lia. cbn [mbind option_bind].
  rewrite store_byte_Some by llen. cbn [mbind option_bind].
  rewrite Nat.add_0_l. do 2 f_equal.
  - rewrite insert_app_r_alt by lia. rewrite Nat.sub_diag, <-app_assoc. f_equal.
    rewrite length_app. cbn [length app].
    destruct (drop (length t) mem) as [|x l] eqn:E.
    { apply (f_equal length) in E. rewrite length_drop in E. cbn in E. lia. }
    cbn. f_equal. by rewrite <-drop_drop, E.
  - destruct (Nat.eqb_spec (dest_size - 1 - length s) 0);
      [rewrite decide_False by lia|rewrite decide_True by lia]; done.
Qed.

(** [rl_string_copy] writes the first [dest_size - 1] characters of the
    string and a null byte, never more than [dest_size] bytes, and answers 0
    exactly when at least one byte of room is left over: a string of
    [dest_size - 1] characters is copied whole and still reported as
    truncated. *)
Theorem rl_string_copy_spec dest_size mem source s :
  cstr_at source = Some s → (1 < dest_size ≤ length mem)%nat →
  let out := take (dest_size - 1) s ++ [0] in
  rl_string_copy dest_size mem source =
    Some (out ++ drop (length out) mem,
          if decide (length s < dest_size - 1)%nat then 0 else -1).
Proof. apply rl_string_copy_ok. Qed.

Lemma rl_string_copy_spec_witness :
  rl_string_copy 4 (replicate 6 9) (cstr "abc") = Some (chars "abc" ++ [0; 9; 9], -1) ∧
  rl_string_copy 5 (replicate 6 9) (cstr "abc") = Some (chars "abc" ++ [0; 9; 9], 0).
Proof.
  split.
  - exact (rl_string_copy_spec 4 (replicate 6 9) (cstr "abc") (chars "abc")
             eq_refl ltac:(cbn; lia)).
  - exact (rl_string_copy_spec 5 (replicate 6 9) (cstr "abc") (chars "abc")
             eq_refl ltac:(cbn; lia)).
Defined.

(** ** String buffers

    [strbuf_rep buf size text]: [text] is what has been appended, cut at
    [size] characters; the null byte replaces the last character of a full
    buffer. *)
Record strbuf_open (buf : rl_strbuf) (size : nat) (text : list Z) : Prop := {
  sr_max : sb_max buf = size;
  sr_pos : sb_buffer buf = length text;
  sr_len : (length text ≤ size)%nat;
  sr_size : (0 < size ≤ length (sb_mem buf))%nat;
  sr_mem : take (size - 1) text = take (length text `min` (size - 1)) (sb_mem buf)
}.
Record strbuf_rep (buf : rl_strbuf) (size : nat) (text : list Z) : Prop := {
  sr_open : strbuf_open buf size text;
  sr_nul : sb_mem buf !! (length text `min` (size - 1))%nat = Some 0
}.

Lemma strbuf_null_terminate_spec buf size text :
  strbuf_open buf size text →
  ∃ buf', strbuf_null_terminate buf = Some buf' ∧ strbuf_rep buf' size text.
Proof.
  intros [Hm Hp Hl Hs Ht]. unfold strbuf_null_terminate. rewrite Hm, Hp.
  destruct (Nat.eqb_spec (length text) size) as [E|E].
  - destruct size as [|last]; [lia|]. rewrite store_byte_Some by lia. cbn [mbind option_bind].
    eexists. split; [done|]. replace (S last - 1)%nat with last in * by lia.
    rewrite Nat.min_r in Ht by lia. repeat split; cbn [sb_max sb_buffer sb_mem]; try done.
    all: try rewrite length_insert; replace (S last - 1)%nat with last by lia;
      rewrite ?Nat.min_r by lia; try lia.
    + by rewrite take_insert_ge by lia.
    + apply list_lookup_insert_eq. lia.
  - rewrite store_byte_Some by lia. cbn [mbind option_bind].
    eexists. split; [done|]. rewrite Nat.min_l in Ht by lia.
    repeat split; cbn [sb_max sb_buffer sb_mem]; try done.
    all: try rewrite length_insert; rewrite ?Nat.min_l by lia; try lia.
    + by rewrite take_insert_ge by lia.
    + apply list_lookup_insert_eq. lia.
Qed.

Lemma strbuf_append_ch_spec buf size text ch :
  strbuf_open buf size text →
  ∃ buf', strbuf_append_ch buf ch = Some buf' ∧
    strbuf_open buf' size (take size (text ++ [ch])).
Proof.
  intros H. pose proof H as [Hm Hp Hl Hs Ht]. unfold strbuf_append_ch. rewrite Hm, Hp.
  destruct (Nat.eqb_spec (length text) size) as [E|E].
  - exists buf. split; [done|]. by rewrite take_app_length' by done.
  - rewrite store_byte_Some by lia. cbn [mbind option_bind]. eexists. split; [done|].
    rewrite (take_ge (text ++ [ch])) by llen. rewrite Nat.min_l in Ht by lia.
    repeat split; cbn [sb_max sb_buffer sb_mem]; try done; try llen.
    rewrite take_ge in Ht by lia. destruct (decide (S (length text) = size)) as [E'|E'].
    + rewrite take_app_length' by lia. rewrite Nat.min_r by lia.
      rewrite take_insert_ge by lia. rewrite Ht at 1. f_equal. lia.
    + rewrite take_ge by llen. rewrite Nat.min_l by lia.
      rewrite Nat.add_1_r, (take_S_r _ _ ch) by (apply list_lookup_insert_eq; lia).
      rewrite take_insert_ge by lia. by rewrite <-Ht.
Qed.

Lemma take_app_take {A} n (l k : list A) : take n (take n l ++ k) = take n (l ++ k).
Proof.
  destruct (decide (length l ≤ n)%nat); [by rewrite (take_ge l) by lia|].
  rewrite take_app_le by (rewrite length_take; lia). rewrite take_take, Nat.min_id.
  by rewrite take_app_le by lia.
Qed.

Lemma strbuf_append_loop_spec s p : ∀ buf size text,
  no_nul s → strbuf_open buf size text →
  ∃ buf', strbuf_append_loop buf (s ++ 0 :: p) = Some buf' ∧
    strbuf_open buf' size (take size (text ++ s)).
Proof.
  induction s as [|c s IH]; intros buf size text Hs H; cbn.
  { exists buf. split; [done|]. rewrite app_nil_r, take_ge; [done|]. apply (sr_len _ _ _ H). }
  apply no_nul_cons in Hs as [Hc Hs]. rewrite (proj2 (Z.eqb_neq c 0)) by done.
  destruct (strbuf_append_ch_spec _ _ _ c H) as (b1 & -> & H1). cbn [mbind option_bind].
  destruct (IH _ _ _ Hs H1) as (b2 & -> & H2). exists b2. split; [done|].
  by rewrite take_app_take, <-app_assoc in H2.
Qed.

(** Both appends do the same: the second one reads [len] characters. *)
Lemma strbuf_append_len_loop_spec s p : ∀ buf size text,
  strbuf_open buf size text →
  ∃ buf', strbuf_append_len_loop buf (s ++ p) (length s) = Some buf' ∧
    strbuf_open buf' size (take size (text ++ s)).
Proof.
  induction s as [|c s IH]; intros buf size text H; cbn.
  { exists buf. split; [done|]. rewrite app_nil_r, take_ge; [done|]. apply (sr_len _ _ _ H). }
  destruct (strbuf_append_ch_spec _ _ _ c H) as (b1 & -> & H1). cbn [mbind option_bind].
  destruct (IH _ _ _ H1) as (b2 & -> & H2). exists b2. split; [done|].
  by rewrite take_app_take, <-app_assoc in H2.
Qed.

Lemma strbuf_result_spec buf size text :
  strbuf_rep buf size text →
  strbuf_result buf = if decide (length text = size) then 0 else 1.
Proof.
  intros [[Hm Hp _ _ _] _]. unfold strbuf_result. rewrite Hm, Hp.
  destruct (Nat.eqb_spec (length text) size); by case_decide.
Qed.

Lemma rl_strbuf_append_ok buf size text str s :
  strbuf_rep buf size text → cstr_at str = Some s →
  let text' := take size (text ++ s) in
  let rc := if decide (length text' = size) then 0 else 1 in
  ∃ buf', rl_strbuf_append buf str = Some (buf', rc) ∧
    rl_strbuf_append_str_len buf str (length s) = Some (buf', rc) ∧
    strbuf_rep buf' size text'.
Proof.
  intros [H _] (Hs & p & ->)%cstr_at_Some. cbn zeta.
  unfold rl_strbuf_append, rl_strbuf_append_str_len.
  assert (strbuf_append_len_loop buf (s ++ 0 :: p) (length s) =
          strbuf_append_loop buf (s ++ 0 :: p)) as ->.
  { clear H. revert buf. induction s as [|c s IH]; intros buf; [done|]. cbn.
    apply no_nul_cons in Hs as [Hc Hs]. rewrite (proj2 (Z.eqb_neq c 0)) by done.
    destruct (strbuf_append_ch buf c); [by apply IH|done]. }
  destruct (strbuf_append_loop_spec s p _ _ _ Hs H) as (b1 & -> & H1). cbn [mbind option_bind].
  destruct (strbuf_null_terminate_spec _ _ _ H1) as (b2 & -> & H2). cbn [mbind option_bind].
  rewrite (strbuf_result_spec _ _ _ H2). by exists b2.
Qed.

(** A string buffer holds the concatenation of what was appended, cut at
    its size; it stays null-terminated and inside its memory, and the result
    is 0 exactly when the buffer has filled up. *)
Theorem rl_strbuf_append_spec buf size text str s :
  strbuf_rep buf size text → cstr_at str = Some s →
  let text' := take size (text ++ s) in
  let rc := if decide (length text' = size) then 0 else 1 in
  ∃ buf', rl_strbuf_append buf str = Some (buf', rc) ∧
    rl_strbuf_append_str_len buf str (length s) = Some (buf', rc) ∧
    strbuf_rep buf' size text'.
Proof. apply rl_strbuf_append_ok. Qed.

(** The string in the memory of a buffer. *)
Lemma strbuf_rep_text buf size text :
  strbuf_rep buf size text → no_nul text → cstr_at (sb_mem buf) = Some (take (size - 1) text).
Proof.
  intros [[_ _ _ _ Ht] Hn] Htext. rewrite Ht.
  rewrite <- (take_drop_middle _ _ _ Hn) at 1. apply cstr_at_app.
  rewrite <- Ht. by apply Forall_take.
Qed.

Lemma rl_strbuf_init_spec buffer size :
  (0 < size ≤ length buffer)%nat →
  ∃ buf, rl_strbuf_init buffer size = Some buf ∧ strbuf_rep buf size [].
Proof.
  intros Hs. apply strbuf_null_terminate_spec.
  repeat split; cbn [sb_max sb_buffer sb_mem length]; try (done || lia).
  by rewrite take_nil, take_0.
Qed.

Lemma rl_strbuf_append_spec_witness :
  let buf := StrBuf [97; 0; 9; 9; 9] 1 4 in
  strbuf_rep buf 4 (chars "a") ∧
  ∃ buf', rl_strbuf_append buf (cstr "bcd") = Some (buf', 0) ∧
    rl_strbuf_append_str_len buf (cstr "bcd") 3 = Some (buf', 0) ∧
    strbuf_rep buf' 4 (chars "abcd").
Proof.
  assert (strbuf_rep (StrBuf [97; 0; 9; 9; 9] 1 4) 4 (chars "a")) as H
    by (repeat split; vm_compute; (reflexivity || lia)).
  split; [exact H|].
  exact (rl_strbuf_append_spec _ 4 (chars "a") (cstr "bcd") (chars "bcd") H eq_refl).
Defined.
