(* ===== verification/Format.v ===== *)
(** * Format: the formatting engine and the log of util.c

    [format_message] interprets a format string and hands the pieces of its
    output to a writer: [safe_format_writer] fills a bounded buffer
    ([rl_format_msg]), [write_log] a line buffer that is flushed to the console
    ([rl_log_message]). *)

From S2P Require Import Prelude CString.

(** The variable arguments; a conversion that asks for an argument of another
    kind, or for one more than there are, is undefined. *)
Inductive va_item :=
  | VInt (n : Z)           (* int *)
  | VUInt (n : Z)          (* unsigned int *)
  | VStr (s : list Z)      (* const char *, and the BSTR pointers of %B and %Q *)
  | VPtr (n : Z).          (* const void *, as an address *)

Section Format.
(** The target: bits of [size_t] and [ssize_t], and whether %B and %Q exist. *)
Context (word : Z) (RL_AMIGA : bool).
(** The writer: it is given a pointer and a number of bytes. *)
Context {W : Type} (wf : list Z → nat → W → option W).

(** [padding] turns of [while (padding-- > 0) ( *wf)(&fill, 1, writer_state)] *)
Fixpoint pad (padding : nat) (fill : Z) (st : W) : option W :=
  match padding with
  | O => Some st
  | S padding => st ← wf [fill] 1 st; pad padding fill st
  end.

Definition format_string (value : list Z) (len : nat) (falign_left : bool)
    (fwidth fill : Z) (st : W) : option W :=
  let padding := fwidth - Z.of_nat len in
  if falign_left then
    st ← wf value len st; pad (Z.to_nat padding) fill st
  else
    st ← pad (Z.to_nat padding) fill st; wf value len st.

(** The 64-byte buffer that is filled from its end: the number of bytes below
    [p] and at it, and the bytes after [p]. *)
Definition digit_buffer : Type := nat * list Z.
Definition buffer_push (b : digit_buffer) (c : Z) : option digit_buffer :=
  match b.1 with O => None | S n => Some (n, c :: b.2) end.
Definition digits_empty : digit_buffer := (63%nat, [0]).

Definition format_base_digits : list Z := chars "0123456789abcdefghijklmnopqrstuvwxyz".

(** The [do ... while (v > 0)] loop; [fuel] bounds its turns. *)
Fixpoint digit_loop (fuel : nat) (v base : Z) (b : digit_buffer) : option digit_buffer :=
  match fuel with
  | O => None
  | S fuel =>
      c ← format_base_digits !! Z.to_nat (v mod base);
      b ← buffer_push b c;
      if 0 <? v / base then digit_loop fuel (v / base) base b else Some b
  end.

Definition format_digits (b : digit_buffer) (falign_left : bool) (fwidth fill : Z) (st : W)
  : option W :=
  len ← rl_strlen b.2;
  format_string b.2 len falign_left fwidth fill st.

Definition format_integer_signed (value base : Z) (falign_left : bool)
    (fwidth fill : Z) (st : W) : option W :=
  if value =? - 2 ^ (word - 1) then None else
  let v := if value <? 0 then - value else value in
  b ← digit_loop 65 v base digits_empty;
  b ← (if value <? 0 then buffer_push b 45 else Some b);
  format_digits b falign_left fwidth fill st.

Definition format_integer_unsigned (value base : Z) (falign_left : bool)
    (fwidth fill : Z) (st : W) : option W :=
  b ← digit_loop 65 value base digits_empty;
  format_digits b falign_left fwidth fill st.

(** Flags and width of a conversion: alignment, fill character, width, and
    the cursor at the conversion character. *)
Fixpoint parse_width (cursor : list Z) (fwidth : Z) : option (Z * list Z) :=
  match cursor with
  | [] => None
  | c :: rest =>
      if rl_isdigit c then
        let fwidth := fwidth * 10 + rl_char_int_value c in
        if 2147483647 <? fwidth then None else parse_width rest fwidth
      else Some (fwidth, cursor)
  end.

Definition parse_flags (cursor : list Z) : option (bool * Z * Z * list Z) :=
  c ← cursor !! 0%nat;
  let '(falign_left, cursor) := if c =? 45 then (true, drop 1 cursor) else (false, cursor) in
  c ← cursor !! 0%nat;
  let '(fill, cursor) := if c =? 48 then (48, drop 1 cursor) else (32, cursor) in
  '(fwidth, cursor) ← parse_width cursor 0;
  Some (falign_left, fill, fwidth, cursor).

(** A BSTR: a length byte and the characters. *)
Definition format_bstr (bstr : list Z) (l : bool) (fwidth fill : Z) (st : W) : option W :=
  length ← bstr !! 0%nat;
  format_string (drop 1 bstr) (Z.to_nat length) l fwidth fill st.

(** The [switch] on the conversion character. *)
Definition convert (c : Z) (l : bool) (fill fwidth : Z) (args : list va_item) (st : W)
  : option (W * list va_item) :=
  if c =? 100 (* d *) then
    match args with
    | VInt n :: args =>
        st ← format_integer_signed n 10 l fwidth fill st; Some (st, args)
    | _ => None
    end
  else if c =? 117 (* u *) then
    match args with
    | VUInt n :: args =>
        st ← format_integer_unsigned n 10 l fwidth fill st; Some (st, args)
    | _ => None
    end
  else if c =? 120 (* x *) then
    match args with
    | VInt n :: args =>
        st ← format_integer_unsigned (wrap word n) 16 l fwidth fill st; Some (st, args)
    | _ => None
    end
  else if c =? 98 (* b *) then
    match args with
    | VInt n :: args =>
        st ← format_integer_unsigned (wrap word n) 2 l fwidth fill st; Some (st, args)
    | _ => None
    end
  else if c =? 115 (* s *) then
    match args with
    | VStr s :: args =>
        len ← rl_strlen s;
        st ← format_string s len l fwidth fill st; Some (st, args)
    | _ => None
    end
  else if RL_AMIGA && ((c =? 66) || (c =? 81)) (* B, Q *) then
    match args with
    | VStr s :: args => st ← format_bstr s l fwidth fill st; Some (st, args)
    | _ => None
    end
  else if c =? 99 (* c *) then
    match args with
    | VInt n :: args => st ← format_string [u8 n; 0] 1 l fwidth fill st; Some (st, args)
    | _ => None
    end
  else if c =? 112 (* p *) then
    match args with
    | VPtr n :: args =>
        st ← wf (cstr "<") 1 st;
        st ← format_integer_unsigned n 16 l (word / 8 * 2) 48 st;
        st ← wf (cstr ">") 1 st; Some (st, args)
    | _ => None
    end
  else if c =? 37 (* % *) then st ← wf (cstr "%") 1 st; Some (st, args)
  else Some (st, args).

(** One [%] of the format is one turn, so the length of [format] bounds the
    turns. *)
Fixpoint format_loop (fuel : nat) (cursor : list Z) (args : list va_item) (st : W)
  : option W :=
  match fuel with
  | O => None
  | S fuel =>
    fmt_pos ← rl_strchr cursor 37;
    match fmt_pos with
    | None => len ← rl_strlen cursor; wf cursor len st
    | Some fmt_pos =>
        st ← wf cursor (length cursor - length fmt_pos) st;
        '(l, fill, fwidth, cursor) ← parse_flags (drop 1 fmt_pos);
        c ← cursor !! 0%nat;
        '(st, args) ← convert c l fill fwidth args st;
        format_loop fuel (drop 1 cursor) args st
    end
  end.

Definition format_message (format : list Z) (args : list va_item) (st : W) : option W :=
  format_loop (S (length format)) format args st.
End Format.

(** ** Writing into a bounded buffer *)
Record safe_format_state := SafeState { sf_mem : list Z; next_char : nat; space_left : nat }.

Definition safe_format_writer (input : list Z) (amount : nat) (state : safe_format_state)
  : option safe_format_state :=
  let amount := if (space_left state <? amount)%nat then space_left state else amount in
  if (length input <? amount)%nat then None else
  mem ← put_bytes (sf_mem state) (next_char state) (take amount input);
  Some (SafeState mem (next_char state + amount) (space_left state - amount)).

Definition rl_format_msg (word : Z) (RL_AMIGA : bool) (buffer : list Z) (buffer_size : nat)
    (fmt : list Z) (args : list va_item) : option (list Z * nat) :=
  st ← format_message word RL_AMIGA safe_format_writer fmt args
         (SafeState buffer 0 (buffer_size - 1));
  mem ← store_byte (sf_mem st) (next_char st) 0;
  Some (mem, next_char st).

(** ** The log *)
Definition RL_DEBUG : Z := 1.
Definition RL_NETWORK : Z := 2.
Definition RL_INFO : Z := 4.
Definition RL_WARNING : Z := 8.
Definition RL_CONSOLE : Z := 16.
Definition RL_PACKET : Z := 32.
Definition RL_ALL_LOG_BITS : Z :=
  Z.lor (Z.lor (Z.lor (Z.lor (Z.lor RL_DEBUG RL_NETWORK) RL_INFO) RL_WARNING) RL_CONSOLE)
    RL_PACKET.
Definition RL_SERIAL_OUT : Z := 64.

Definition log_bit (c : Z) : Z :=
  if c =? 100 then RL_DEBUG else if c =? 110 then RL_NETWORK
  else if c =? 105 then RL_INFO else if c =? 119 then RL_WARNING
  else if c =? 99 then RL_CONSOLE else if c =? 112 then RL_PACKET
  else if c =? 115 then RL_SERIAL_OUT else 0.

(** The new value of [rl_log_bits]; the message about an invalid character is
    not part of it. *)
Fixpoint rl_toggle_log_bits (argument : list Z) (rl_log_bits : Z) : option Z :=
  match argument with
  | [] => None
  | c :: argument =>
      if c =? 0 then Some rl_log_bits else
      let rl_log_bits :=
        if c =? 97 then RL_ALL_LOG_BITS else if c =? 48 then 0 else rl_log_bits in
      rl_toggle_log_bits argument (Z.lxor rl_log_bits (log_bit c))
  end.

(** The bytes before the cursor of [log_buffer], and what has been given to
    [fputs]. *)
Record log_state := LogState { log_chars : list Z; log_console : list Z }.

Definition log_max : nat := 255.

Definition log_flush (st : log_state) : option log_state :=
  s ← cstr_at (log_chars st ++ [0]);
  Some (LogState [] (log_console st ++ s)).

Fixpoint write_log (str : list Z) (len : nat) (st : log_state) {struct len} : option log_state :=
  match len with
  | O => Some st
  | S len =>
      match str with
      | [] => None
      | ch :: str =>
          if (log_max <=? length (log_chars st))%nat then None else
          let st := LogState (log_chars st ++ [ch]) (log_console st) in
          st ← (if (length (log_chars st) =? log_max)%nat || (ch =? 10)
                then log_flush st else Some st);
          write_log str len st
      end
  end.

Definition do_log (word : Z) (RL_AMIGA : bool) (fmt : list Z) (args : list va_item)
    (st : log_state) : option log_state :=
  format_message word RL_AMIGA write_log fmt args st.

Definition rl_log_message (word : Z) (RL_AMIGA : bool) (fmt : list Z) (args : list va_item)
    (st : log_state) : option log_state :=
  st ← format_message word RL_AMIGA write_log fmt args st;
  write_log [10; 0] 1 st.

Fixpoint dump_loop (word : Z) (RL_AMIGA : bool) (i : nat) (p : list Z) (st : log_state)
  : option log_state :=
  match p with
  | [] => Some st
  | b :: p =>
      st ← (if (i mod 8 =? 0)%nat
            then do_log word RL_AMIGA (10 :: cstr "%08x   ") [VInt (Z.of_nat i)] st
            else Some st);
      st ← do_log word RL_AMIGA (cstr "%02x ") [VInt b] st;
      dump_loop word RL_AMIGA (S i) p st
  end.

Definition rl_dump_buffer (word : Z) (RL_AMIGA : bool) (ptr : list Z) (size : nat)
    (st : log_state) : option log_state :=
  if (length ptr <? size)%nat then None else
  st ← dump_loop word RL_AMIGA 0 (take size ptr) st;
  do_log word RL_AMIGA [10; 0] [] st.

(** ** One engine, many writers

    A relation between two writer states that the writers preserve is preserved
    by [format_message]. *)
Section Simulation.
Context (word : Z) (RL_AMIGA : bool).
Context {W1 W2 : Type} (wf1 : list Z → nat → W1 → option W1)
  (wf2 : list Z → nat → W2 → option W2) (R : W1 → W2 → Prop).

Definition sim (o1 : option W1) (o2 : option W2) : Prop :=
  ∀ s1, o1 = Some s1 → ∃ s2, o2 = Some s2 ∧ R s1 s2.

Hypothesis writers : ∀ i n s1 s2, R s1 s2 → sim (wf1 i n s1) (wf2 i n s2).

Lemma sim_bind o1 o2 (k1 : W1 → option W1) (k2 : W2 → option W2) :
  sim o1 o2 → (∀ s1 s2, R s1 s2 → sim (k1 s1) (k2 s2)) → sim (o1 ≫= k1) (o2 ≫= k2).
Proof.
  intros Ho Hk s1 (m1 & -> & H)%bind_Some.
  destruct (Ho m1 eq_refl) as (m2 & -> & HR). exact (Hk _ _ HR _ H).
Qed.

Lemma sim_ret s1 s2 : R s1 s2 → sim (Some s1) (Some s2).
Proof. intros H s1' [= <-]. eauto. Qed.

Lemma pad_sim n fill s1 s2 : R s1 s2 → sim (pad wf1 n fill s1) (pad wf2 n fill s2).
Proof.
  revert s1 s2; induction n as [|n IH]; intros s1 s2 H; cbn [pad]; [by apply sim_ret|].
  apply sim_bind; [by apply writers|apply IH].
Qed.

Lemma format_string_sim v n l fw fill s1 s2 :
  R s1 s2 → sim (format_string wf1 v n l fw fill s1) (format_string wf2 v n l fw fill s2).
Proof.
  intros H. unfold format_string. destruct l; apply sim_bind;
    intros; auto using pad_sim.
Qed.

Lemma sim_const {A} (o : option A) (k1 : A → option W1) (k2 : A → option W2) :
  (∀ a, sim (k1 a) (k2 a)) → sim (o ≫= k1) (o ≫= k2).
Proof. intros H. destruct o; [apply H|done]. Qed.

Lemma format_unsigned_sim v b l fw fill s1 s2 :
  R s1 s2 → sim (format_integer_unsigned wf1 v b l fw fill s1)
                (format_integer_unsigned wf2 v b l fw fill s2).
Proof.
  intros H. unfold format_integer_unsigned, format_digits.
  do 2 (apply sim_const; intros). by apply format_string_sim.
Qed.

Lemma format_signed_sim v b l fw fill s1 s2 :
  R s1 s2 → sim (format_integer_signed word wf1 v b l fw fill s1)
                (format_integer_signed word wf2 v b l fw fill s2).
Proof.
  intros H. unfold format_integer_signed, format_digits. case_match; [done|].
  do 3 (apply sim_const; intros). by apply format_string_sim.
Qed.

(** The same, for a conversion and the arguments it leaves. *)
Definition sim_args (o1 : option (W1 * list va_item)) (o2 : option (W2 * list va_item)) : Prop :=
  ∀ s1 args, o1 = Some (s1, args) → ∃ s2, o2 = Some (s2, args) ∧ R s1 s2.

Lemma sim_args_ret o1 o2 args :
  sim o1 o2 → sim_args (st ← o1; Some (st, args)) (st ← o2; Some (st, args)).
Proof.
  intros Ho s1 a (m1 & -> & [= -> ->])%bind_Some.
  destruct (Ho s1 eq_refl) as (m2 & -> & HR). cbn. eauto.
Qed.

Lemma convert_sim c l fill fw args s1 s2 :
  R s1 s2 → sim_args (convert word RL_AMIGA wf1 c l fill fw args s1)
                     (convert word RL_AMIGA wf2 c l fill fw args s2).
Proof.
  intros H. unfold convert.
  repeat match goal with |- context [if ?b then _ else _] => destruct b end.
  all: try (destruct args as [|[] args]; try done).
  all: try (apply sim_args_ret;
    auto using format_signed_sim, format_unsigned_sim, format_string_sim).
  all: try (intros ? ? [= <- <-]; eauto; done).
  - destruct (rl_strlen s); cbn [mbind option_bind]; [|done].
    apply sim_args_ret. by apply format_string_sim.
  - unfold format_bstr. apply sim_const; intros. by apply format_string_sim.
  - intros s1' a (m1 & E1 & H1)%bind_Some.
    destruct (writers _ _ _ _ H _ E1) as (m2 & -> & HR). cbn [mbind option_bind].
    apply bind_Some in H1 as (m3 & E3 & H3).
    destruct (format_unsigned_sim _ _ _ _ _ _ _ HR _ E3) as (m4 & -> & HR').
    cbn [mbind option_bind]. revert H3. apply sim_args_ret. by apply writers.
Qed.

Lemma format_loop_sim fuel : ∀ cursor args s1 s2,
  R s1 s2 → sim (format_loop word RL_AMIGA wf1 fuel cursor args s1)
                (format_loop word RL_AMIGA wf2 fuel cursor args s2).
Proof.
  induction fuel as [|fuel IH]; intros cursor args s1 s2 H; [done|]. cbn [format_loop].
  apply sim_const; intros [fmt_pos|].
  - apply sim_bind; [by apply writers|]. intros t1 t2 Ht.
    apply sim_const; intros [[[l fill] fw] cur]. apply sim_const; intros c.
    intros r1 ([m1 a1] & E1 & H1)%bind_Some.
    destruct (convert_sim c l fill fw args t1 t2 Ht _ _ E1) as (m2 & -> & HR).
    cbn [mbind option_bind]. revert H1. by apply IH.
  - apply sim_const; intros n. by apply writers.
Qed.

Lemma format_message_sim fmt args s1 s2 :
  R s1 s2 → sim (format_message word RL_AMIGA wf1 fmt args s1)
                (format_message word RL_AMIGA wf2 fmt args s2).
Proof. apply format_loop_sim. Qed.
End Simulation.

(** ** The specification writer: the whole text *)
Definition text_writer (input : list Z) (amount : nat) (st : list Z) : option (list Z) :=
  if (length input <? amount)%nat then None else Some (st ++ take amount input).

(** The text that a format and its arguments denote. *)
Definition render (word : Z) (RL_AMIGA : bool) (fmt : list Z) (args : list va_item)
  : option (list Z) := format_message word RL_AMIGA text_writer fmt args [].

(** *** The bounded buffer holds a prefix of the text *)
Definition safe_rep (buffer : list Z) (size : nat) (text : list Z) (st : safe_format_state)
  : Prop :=
  next_char st = length (take size text) ∧
  space_left st = (size - length (take size text))%nat ∧
  sf_mem st = take size text ++ drop (length (take size text)) buffer.

Lemma safe_writer_sim buffer size i n text st :
  (size < length buffer)%nat → safe_rep buffer size text st →
  sim (safe_rep buffer size) (text_writer i n text) (safe_format_writer i n st).
Proof.
  intros Hs (Hn & Hsp & Hm) t. unfold text_writer, safe_format_writer.
  destruct (Nat.ltb_spec (length i) n); [done|]. intros [= <-].
  set (m := if (space_left st <? n)%nat then space_left st else n).
  assert (m = n `min` space_left st)%nat as Em
    by (unfold m; destruct (Nat.ltb_spec (space_left st) n); lia).
  destruct (Nat.ltb_spec (length i) m); [lia|].
  pose proof (length_take text size) as Hl.
  rewrite put_bytes_Some by (rewrite Hn, Hm; llen). cbn [mbind option_bind].
  eexists. split; [done|].
  assert (take size (text ++ take n i) = take size text ++ take m i) as E.
  { rewrite take_app. f_equal. rewrite take_take. f_equal. rewrite Em, Hsp.
    lia. }
  split_and!; cbn [next_char space_left sf_mem]; rewrite E.
  - rewrite Hn. llen.
  - rewrite Hsp. llen.
  - rewrite length_app, (length_take i).
    rewrite Hm, Hn, take_app_length, <-app_assoc. f_equal. f_equal.
    rewrite drop_app_ge by lia. rewrite drop_drop. f_equal. lia.
Qed.

Lemma rl_format_msg_ok word amiga buffer size fmt args text :
  render word amiga fmt args = Some text → (0 < size ≤ length buffer)%nat →
  let out := take (size - 1) text in
  rl_format_msg word amiga buffer size fmt args =
    Some (out ++ 0 :: drop (length out + 1) buffer, length out).
Proof.
  intros Hr Hs. cbn zeta. unfold rl_format_msg.
  destruct (format_message_sim word amiga text_writer safe_format_writer
    (safe_rep buffer (size - 1))
    ltac:(intros; apply safe_writer_sim; (done || lia)) fmt args []
    (SafeState buffer 0 (size - 1))) with (s1 := text) as (st & -> & Hn & _ & Hm).
  { unfold safe_rep. rewrite take_nil. cbn. by rewrite Nat.sub_0_r. }
  { done. }
  cbn [mbind option_bind]. rewrite store_byte_Some by (rewrite Hn, Hm; llen).
  cbn [mbind option_bind]. rewrite Hn, Hm. do 2 f_equal.
  set (out := take (size - 1) text). assert (length out ≤ size - 1)%nat by (unfold out; llen).
  rewrite insert_app_r_alt by lia. rewrite Nat.sub_diag. f_equal.
  destruct (drop (length out) buffer) as [|x l] eqn:E.
  { apply (f_equal length) in E. rewrite length_drop in E. cbn in E. lia. }
  cbn. f_equal. by rewrite <-drop_drop, E.
Qed.

(** C39: [rl_format_msg] never writes outside the buffer: it stores as much of
    the text as fits before the null byte, terminates it and returns its
    length. *)
Theorem rl_format_msg_spec word amiga buffer size fmt args text :
  render word amiga fmt args = Some text → (0 < size ≤ length buffer)%nat →
  let out := take (size - 1) text in
  rl_format_msg word amiga buffer size fmt args =
    Some (out ++ 0 :: drop (length out + 1) buffer, length out).
Proof. apply rl_format_msg_ok. Qed.

Lemma rl_format_msg_spec_witness :
  rl_format_msg 32 true (replicate 16 9) 16 (cstr "[%-4s|%03x]") [VStr (cstr "ab"); VInt 10] =
    Some (chars "[ab  |00a]" ++ [0; 9; 9; 9; 9; 9], 10%nat) ∧
  rl_format_msg 32 true (replicate 6 9) 6 (cstr "[%-4s|%03x]") [VStr (cstr "ab"); VInt 10] =
    Some (chars "[ab  " ++ [0], 5%nat).
Proof.
  split.
  - exact (rl_format_msg_spec 32 true (replicate 16 9) 16 (cstr "[%-4s|%03x]")
      [VStr (cstr "ab"); VInt 10] (chars "[ab  |00a]") eq_refl ltac:(cbn; lia)).
  - exact (rl_format_msg_spec 32 true (replicate 6 9) 6 (cstr "[%-4s|%03x]")
      [VStr (cstr "ab"); VInt 10] (chars "[ab  |00a]") eq_refl ltac:(cbn; lia)).
Defined.

(** ** Integers *)
Definition digit_char (i : Z) : Z := if i <? 10 then 48 + i else 87 + i.
Definition digit_val (c : Z) : Z := if c <? 58 then c - 48 else c - 87.

(** The value of a numeral, most significant digit first. *)
Definition numeral (base : Z) (ds : list Z) : Z :=
  foldl (λ acc c, acc * base + digit_val c) 0 ds.

Lemma base_digits_lookup i :
  0 <= i < 36 → format_base_digits !! Z.to_nat i = Some (digit_char i).
Proof.
  intros Hi.
  assert (forallb (λ n, bool_decide (format_base_digits !! n = Some (digit_char (Z.of_nat n))))
            (seq 0 36) = true) as H by (vm_compute; reflexivity).
  rewrite forallb_forall in H. specialize (H (Z.to_nat i)).
  rewrite in_seq, bool_decide_eq_true in H. rewrite H by lia. by rewrite Z2Nat.id by lia.
Qed.

Lemma digit_val_char i : 0 <= i < 36 → digit_val (digit_char i) = i ∧ digit_char i ≠ 0.
Proof.
  intros. unfold digit_val, digit_char.
  destruct (Z.ltb_spec i 10); ztest; lia.
Qed.

Lemma numeral_app base ds c : numeral base (ds ++ [c]) = numeral base ds * base + digit_val c.
Proof. unfold numeral. by rewrite foldl_app. Qed.

(** Shape of a numeral: no null byte, no sign, no needless leading zero. *)
Definition canonical (ds : list Z) : Prop :=
  Forall (λ c, ∃ i, 0 <= i < 36 ∧ c = digit_char i) ds ∧
  (length ds = 1%nat ∨ head ds ≠ Some 48) ∧ ds ≠ [].

(** The loop writes the numeral of [v] when it has room for it ... *)
Lemma digit_loop_ok base fuel : ∀ k v room rest,
  2 <= base <= 36 → 0 <= v < base ^ Z.of_nat k →
  (0 < k ≤ room)%nat → (k ≤ fuel)%nat →
  ∃ ds, digit_loop fuel v base (room, rest) = Some ((room - length ds)%nat, ds ++ rest) ∧
    numeral base ds = v ∧ (length ds ≤ k)%nat ∧ canonical ds ∧ (0 < v → head ds ≠ Some 48).
Proof.
  induction fuel as [|fuel IH]; intros k v room rest Hb Hv Hk Hf; [lia|]. cbn [digit_loop].
  assert (0 <= v mod base < base) as Hm by (apply Z.mod_pos_bound; lia).
  rewrite base_digits_lookup by lia. cbn [mbind option_bind].
  destruct room as [|room]; [lia|]. cbn [buffer_push fst snd mbind option_bind].
  destruct (digit_val_char (v mod base)) as [Hdv _]; [lia|].
  pose proof (Z.div_mod v base) as Hdm.
  destruct (Z.ltb_spec 0 (v / base)) as [Hq|Hq].
  - destruct k as [|[|k]]; [lia| |].
    { change (base ^ Z.of_nat 1) with (base ^ 1) in Hv. rewrite Z.pow_1_r in Hv.
      rewrite Z.div_small in Hq by lia. lia. }
    destruct (IH (S k) (v / base) room (digit_char (v mod base) :: rest))
      as (ds & -> & Hn & Hl & (Hd & Hh & Hnil) & Hpos); [done| |lia..|].
    { split; [lia|]. apply Z.div_lt_upper_bound; [lia|].
      rewrite <-Z.pow_succ_r, <-Nat2Z.inj_succ by lia. lia. }
    exists (ds ++ [digit_char (v mod base)]). rewrite <-app_assoc, length_app. cbn [length].
    split; [do 2 f_equal; lia|]. rewrite numeral_app, Hn, Hdv. split; [lia|]. split; [lia|].
    assert (head (ds ++ [digit_char (v mod base)]) ≠ Some 48) as Hhead.
    { specialize (Hpos Hq). destruct ds; [done|exact Hpos]. }
    split; [|done]. split; [|split; [by right|by intros []%app_nil]].
    apply Forall_app. split; [done|]. constructor; [|done].
    exists (v mod base). split; [lia|done].
  - assert (v / base = 0) as E by (apply Z.le_antisymm; [lia|apply Z.div_pos; lia]).
    exists [digit_char (v mod base)]. cbn [length app]. split; [do 2 f_equal; lia|].
    unfold numeral. cbn [foldl]. rewrite Hdv. split; [lia|]. split; [lia|]. split.
    + split; [|split; [by left|done]]. constructor; [|done].
      exists (v mod base). split; [lia|done].
    + intros Hpos. cbn. intros [= Hz]. unfold digit_char in Hz.
      destruct (Z.ltb_spec (v mod base) 10); lia.
Qed.

(** ... and runs below the buffer when it has not. *)
Lemma digit_loop_overrun base fuel : ∀ v room rest,
  2 <= base <= 36 → base ^ Z.of_nat room <= v → digit_loop fuel v base (room, rest) = None.
Proof.
  induction fuel as [|fuel IH]; intros v room rest Hb Hv; [done|]. cbn [digit_loop].
  destruct (format_base_digits !! _); [|done]. cbn [mbind option_bind].
  destruct room as [|room]; [done|]. cbn [buffer_push fst snd mbind option_bind].
  rewrite Nat2Z.inj_succ, Z.pow_succ_r in Hv by lia.
  assert (base ^ Z.of_nat room <= v / base) by (apply Z.div_le_lower_bound; lia).
  assert (0 < base ^ Z.of_nat room) by (apply Z.pow_pos_nonneg; lia).
  ztest. by apply IH.
Qed.

Lemma rl_strlen_app s p : no_nul s → rl_strlen (s ++ 0 :: p) = Some (length s).
Proof. intros. by rewrite rl_strlen_spec, cstr_at_app. Qed.

Lemma canonical_no_nul ds : canonical ds → no_nul ds.
Proof.
  intros [H _]. eapply Forall_impl; [exact H|]. cbn. intros c (i & Hi & ->).
  by apply digit_val_char.
Qed.

(** The text that [%d] writes, read back. *)
Definition parse_int (s : list Z) : Z :=
  match s with
  | c :: s' => if c =? 45 then - numeral 10 s' else numeral 10 s
  | [] => 0
  end.

Lemma parse_int_pos ds : canonical ds → parse_int ds = numeral 10 ds.
Proof.
  intros [H [_ Hn]]. destruct H as [|c ds (i & Hi & ->) _]; [done|]. cbn.
  unfold digit_char at 1. destruct (Z.ltb_spec i 10); ztest; done.
Qed.

Lemma format_signed_digits {W} (wf : list Z → nat → W → option W) word n l fw fill st :
  32 <= word → -2147483648 < n < 2147483648 →
  ∃ ds, no_nul ds ∧ parse_int ds = n ∧ (length ds ≤ 11)%nat ∧
    format_integer_signed word wf n 10 l fw fill st =
      format_string wf (ds ++ [0]) (length ds) l fw fill st.
Proof.
  intros Hw Hn. unfold format_integer_signed.
  assert (2147483648 <= 2 ^ (word - 1)) as Hp.
  { change 2147483648 with (2 ^ 31). apply Z.pow_le_mono_r; lia. }
  ztest. set (v := if n <? 0 then - n else n).
  assert (v = Z.abs n) as Hv by (unfold v; destruct (Z.ltb_spec n 0); lia).
  destruct (digit_loop_ok 10 65 10 v 63 [0]) as (ds & Hd & Hval & Hl & Hc & _);
    [lia|change (10 ^ Z.of_nat 10) with 10000000000; lia|lia..|].
  unfold digits_empty. rewrite Hd. cbn [mbind option_bind].
  pose proof (canonical_no_nul _ Hc) as Hnn.
  destruct (Z.ltb_spec n 0).
  - unfold buffer_push. cbn [fst snd].
    destruct (63 - length ds)%nat as [|m] eqn:E; [lia|]. cbn [mbind option_bind].
    exists (45 :: ds). split; [apply no_nul_cons; split; [lia|done]|].
    split; [cbn; rewrite Hval; lia|]. split; [cbn; lia|].
    unfold format_digits. cbn [snd]. change (45 :: ds ++ [0]) with ((45 :: ds) ++ [0]).
    rewrite rl_strlen_app by (apply no_nul_cons; split; [lia|done]). done.
  - exists ds. split; [done|]. split; [rewrite parse_int_pos by done; lia|]. split; [lia|].
    unfold format_digits. cbn [snd mbind option_bind]. by rewrite rl_strlen_app by done.
Qed.

Lemma text_pad padding fill st :
  pad text_writer padding fill st = Some (st ++ replicate padding fill).
Proof.
  revert st; induction padding as [|k IH]; intros st; cbn.
  - by rewrite app_nil_r.
  - rewrite IH, <-app_assoc. done.
Qed.

Lemma text_writer_app s x st : text_writer (s ++ x) (length s) st = Some (st ++ s).
Proof.
  unfold text_writer. rewrite length_app, (proj2 (Nat.ltb_ge _ _)) by lia.
  by rewrite take_app_length.
Qed.

(** [%s] without width. *)
Lemma convert_s word amiga p s args st :
  cstr_at p = Some s →
  convert word amiga text_writer 115 false 32 0 (VStr p :: args) st = Some (st ++ s, args).
Proof.
  intros Hp. unfold convert. cbn [Z.eqb Pos.eqb]. rewrite rl_strlen_spec, Hp.
  apply cstr_at_Some in Hp as (_ & q & ->). cbn [mbind option_bind].
  unfold format_string. rewrite Z2Nat.nonpos by lia. cbn [pad mbind option_bind].
  by rewrite text_writer_app.
Qed.

(** The formats that join strings: ["%s"], ["c%s"] and ["%sc%s"]. *)
Section Strings.
Context (word : Z) (amiga : bool).

Lemma format_loop_s fuel r args p s st :
  cstr_at p = Some s →
  format_loop word amiga text_writer (S (S fuel)) (37 :: 115 :: r) (VStr p :: args) st =
  format_loop word amiga text_writer (S fuel) r args (st ++ s).
Proof.
  intros Hs. remember (S fuel) as k. cbn [format_loop].
  cbn [rl_strchr Z.eqb Pos.eqb mbind option_bind]. rewrite Nat.sub_diag. cbn [drop].
  change (text_writer ?x 0 st) with (Some (st ++ @nil Z)). rewrite app_nil_r.
  cbn [mbind option_bind].
  change (parse_flags (115 :: r)) with (Some (false, 32, 0, 115 :: r)).
  cbn [mbind option_bind lookup list_lookup].
  rewrite (convert_s _ _ p s) by done. cbn [mbind option_bind drop]. done.
Qed.

Lemma format_loop_char fuel c p s args st :
  c ≠ 37 → c ≠ 0 → cstr_at p = Some s →
  format_loop word amiga text_writer (S (S (S fuel))) (c :: [37; 115; 0])
    (VStr p :: args) st = Some (st ++ c :: s).
Proof.
  intros H1 H0 Hs. remember (S (S fuel)) as k. cbn [format_loop].
  cbn [rl_strchr]. rewrite (proj2 (Z.eqb_neq 37 c)), (proj2 (Z.eqb_neq c 0)) by done.
  cbn [Z.eqb Pos.eqb mbind option_bind length Nat.sub drop].
  change (text_writer (c :: ?x) 1 st) with (Some (st ++ [c])). cbn [mbind option_bind].
  change (parse_flags [115; 0]) with (Some (false, 32, 0, [115; 0])).
  cbn [mbind option_bind lookup list_lookup].
  rewrite (convert_s _ _ p s) by done. cbn [mbind option_bind drop]. subst k.
  cbn [format_loop rl_strchr Z.eqb Pos.eqb mbind option_bind rl_strlen].
  change (text_writer [0] 0 ?st) with (Some (st ++ @nil Z)).
  by rewrite app_nil_r, <- app_assoc.
Qed.

Lemma render_s p s : cstr_at p = Some s → render word amiga [37; 115; 0] [VStr p] = Some s.
Proof.
  intros Hs. unfold render, format_message. cbn [length]. rewrite (format_loop_s _ _ _ _ s) by done.
  cbn [format_loop rl_strchr Z.eqb Pos.eqb mbind option_bind rl_strlen].
  change (text_writer [0] 0 ?st) with (Some (st ++ @nil Z)). by rewrite app_nil_r.
Qed.

Lemma render_char_s c p s :
  c ≠ 37 → c ≠ 0 → cstr_at p = Some s →
  render word amiga [c; 37; 115; 0] [VStr p] = Some (c :: s).
Proof. intros. unfold render, format_message. cbn [length]. by rewrite (format_loop_char _ _ _ s). Qed.

Lemma render_s_char_s c p1 p2 s1 s2 :
  c ≠ 37 → c ≠ 0 → cstr_at p1 = Some s1 → cstr_at p2 = Some s2 →
  render word amiga [37; 115; c; 37; 115; 0] [VStr p1; VStr p2] =
    Some (s1 ++ c :: s2).
Proof.
  intros. unfold render, format_message. cbn [length].
  by rewrite (format_loop_s _ _ _ _ s1), (format_loop_char _ _ _ s2).
Qed.
End Strings.

Lemma parse_flags_width fwidth :
  0 < fwidth < 10 → parse_flags [48 + fwidth; 100; 0] = Some (false, 32, fwidth, [100; 0]).
Proof.
  intros. unfold parse_flags. cbn [lookup list_lookup mbind option_bind]. ztest.
  cbn [lookup list_lookup mbind option_bind]. ztest. cbn [parse_width].
  unfold rl_isdigit, rl_char_int_value. ztest.
  replace (0 * 10 + (48 + fwidth - 48)) with fwidth by lia. ztest. done.
Qed.

(** [%d] with a field width: the text is the decimal numeral of the
    argument, which reads back as the argument, padded on the left with
    [fwidth - length] spaces; it is written for every [int] but the smallest. *)
Theorem format_d_roundtrip word amiga n fwidth :
  32 <= word → -2147483648 < n < 2147483648 → 0 < fwidth < 10 →
  ∃ ds, render word amiga [37; 48 + fwidth; 100; 0] [VInt n] =
      Some (replicate (Z.to_nat fwidth - length ds) 32 ++ ds) ∧
    parse_int ds = n ∧ no_nul ds.
Proof.
  intros Hw Hn Hf. unfold render, format_message. cbn [length]. remember 3%nat as k.
  cbn [format_loop].
  change (rl_strchr [37; 48 + fwidth; 100; 0] 37) with
    (Some (Some [37; 48 + fwidth; 100; 0])).
  cbn [mbind option_bind length Nat.sub drop].
  change (text_writer _ 0 []) with (Some (@nil Z)). cbn [mbind option_bind].
  rewrite parse_flags_width by done.
  cbn [mbind option_bind lookup list_lookup]. unfold convert. cbn [Z.eqb Pos.eqb].
  destruct (format_signed_digits text_writer word n false fwidth 32 [] Hw Hn)
    as (ds & Hnn & Hp & _ & ->).
  unfold format_string. rewrite text_pad. cbn [mbind option_bind app].
  rewrite text_writer_app. cbn [mbind option_bind drop rl_strchr Z.eqb rl_strlen].
  change (text_writer [0] 0 ?st) with (Some (st ++ [])). rewrite app_nil_r.
  exists ds. split; [|done]. do 3 f_equal. lia.
Qed.

Lemma format_d_roundtrip_witness :
  ∃ ds, render 32 true [37; 48 + 6; 100; 0] [VInt (-42)] =
      Some (replicate (Z.to_nat 6 - length ds) 32 ++ ds) ∧ parse_int ds = -42 ∧ no_nul ds.
Proof. exact (format_d_roundtrip 32 true (-42) 6 ltac:(lia) ltac:(lia) ltac:(lia)). Defined.

(** A binary numeral does not fit: for a negative argument of [%b] where
    [size_t] has 64 bits, the 64 digits and the null byte need 65 bytes, and
    the loop stores below its 64-byte buffer. *)
Theorem format_b_overrun n amiga :
  -2147483648 <= n < 0 → render 64 amiga (cstr "%b") [VInt n] = None.
Proof.
  intros Hn. unfold render, format_message. cbn [cstr chars].
  change (format_loop 64 amiga text_writer _ (cstr "%b") [VInt n] []) with
    ('(st, args) ← convert 64 amiga text_writer 98 false 32 0 [VInt n] [];
     format_loop 64 amiga text_writer 3 [0] args st).
  unfold convert. cbn [Z.eqb Pos.eqb]. unfold format_integer_unsigned.
  unfold digits_empty. rewrite digit_loop_overrun; [done|lia|].
  unfold wrap. change (2 ^ Z.of_nat 63) with 9223372036854775808.
  change (2 ^ 64) with 18446744073709551616.
  rewrite <-(Z.mod_unique n 18446744073709551616 (-1) (n + 18446744073709551616)); lia.
Qed.

Lemma format_b_overrun_witness :
  -2147483648 <= -1 < 0 ∧ render 64 false (cstr "%b") [VInt (-1)] = None.
Proof. split; [lia|]. exact (format_b_overrun (-1) false ltac:(lia)). Defined.

(** A format that ends in a percent sign: the scan steps over its null byte. *)
Lemma format_trailing_percent_overread word amiga args :
  render word amiga (cstr "100%") args = None.
Proof. by destruct amiga. Qed.

(** ** The log *)
Definition log_ok (st : log_state) : Prop :=
  (length (log_chars st) < log_max)%nat ∧ no_nul (log_chars st).

(** Everything that was written so far: on the console or in the buffer. *)
Definition logged (st : log_state) : list Z := log_console st ++ log_chars st.

Lemma log_flush_spec st :
  no_nul (log_chars st) → log_flush st = Some (LogState [] (logged st)).
Proof. intros. unfold log_flush. by rewrite cstr_at_app. Qed.

Lemma write_log_spec len : ∀ str st,
  log_ok st → (len ≤ length str)%nat → no_nul (take len str) →
  ∃ st', write_log str len st = Some st' ∧ log_ok st' ∧
    logged st' = logged st ++ take len str.
Proof.
  induction len as [|len IH]; intros str st Hok Hl Hs.
  { exists st. by rewrite take_0, app_nil_r. }
  destruct str as [|ch str]; [cbn in Hl; lia|]. cbn [take] in *.
  apply no_nul_cons in Hs as [Hc Hs]. cbn [length] in Hl. cbn [write_log].
  destruct Hok as [Hlen Hnn]. rewrite (proj2 (Nat.leb_gt _ _)) by done.
  set (st1 := LogState _ _).
  assert (no_nul (log_chars st1)) as Hn1 by (apply Forall_app; split; [done|by constructor]).
  assert (logged st1 = logged st ++ [ch]) as Hlog by (unfold logged; by rewrite <-app_assoc).
  assert (∃ st2, (if (length (log_chars st1) =? log_max)%nat || (ch =? 10)
                  then log_flush st1 else Some st1) = Some st2 ∧ log_ok st2 ∧
                 logged st2 = logged st1) as (st2 & -> & Hok2 & Hlog2).
  { destruct (Nat.eqb_spec (length (log_chars st1)) log_max); cbn [orb];
      [|destruct (Z.eqb_spec ch 10)].
    1,2: rewrite log_flush_spec by done; eexists; split; [done|];
      split; [split; [cbn; unfold log_max; lia|constructor]|]; unfold logged; by rewrite app_nil_r.
    exists st1. split; [done|]. split; [|done]. split; [|done].
    cbn in *. rewrite length_app in *. cbn in *. lia. }
  cbn [mbind option_bind].
  destruct (IH str st2 Hok2) as (st' & -> & Hok' & Hl'); [lia|done|].
  exists st'. split; [done|]. split; [done|].
  by rewrite Hl', Hlog2, Hlog, <-app_assoc.
Qed.

Lemma write_log_newline st :
  log_ok st → write_log [10; 0] 1 st = Some (LogState [] (logged st ++ [10])).
Proof.
  intros [Hl Hn]. cbn [write_log]. rewrite (proj2 (Nat.leb_gt _ _)) by done.
  rewrite orb_true_r, log_flush_spec; [|apply Forall_app; split; [done|by constructor]].
  cbn [mbind option_bind]. unfold logged. cbn. by rewrite app_assoc.
Qed.

(** The line buffer never overflows, whatever is written. *)
Lemma write_log_total len : ∀ str st,
  (length (log_chars st) < log_max)%nat → (len ≤ length str)%nat →
  ∃ st', write_log str len st = Some st' ∧ (length (log_chars st') < log_max)%nat.
Proof.
  induction len as [|len IH]; intros str st Hok Hl; [by exists st|].
  destruct str as [|ch str]; [cbn in Hl; lia|]. cbn [length] in Hl. cbn [write_log].
  rewrite (proj2 (Nat.leb_gt _ _)) by done.
  set (st1 := LogState _ _).
  assert (∃ st2, (if (length (log_chars st1) =? log_max)%nat || (ch =? 10)
                  then log_flush st1 else Some st1) = Some st2 ∧
                 (length (log_chars st2) < log_max)%nat) as (st2 & -> & Hok2).
  { assert (∃ s, cstr_at (log_chars st1 ++ [0]) = Some s) as [s Hs].
    { generalize (log_chars st1). intros l. induction l as [|c l [s IHl]]; [by eexists|].
      cbn. case_decide; [by eexists|]. rewrite IHl. by eexists. }
    unfold log_flush. rewrite Hs.
    destruct (Nat.eqb_spec (length (log_chars st1)) log_max); cbn [orb mbind option_bind];
      [|destruct (Z.eqb_spec ch 10)].
    1,2: eexists; split; [done|]; cbn; unfold log_max; lia.
    exists st1. split; [done|]. cbn in *. rewrite length_app in *. cbn in *. lia. }
  apply IH; [done|lia].
Qed.

(** The console and the line buffer together follow the text. *)
Definition log_rep (st0 : log_state) (text : list Z) (st : log_state) : Prop :=
  (length (log_chars st) < log_max)%nat ∧
  (no_nul text → log_ok st ∧ logged st = logged st0 ++ text).

Lemma write_log_sim st0 i n text st :
  log_rep st0 text st → sim (log_rep st0) (text_writer i n text) (write_log i n st).
Proof.
  intros [Hb H] t. unfold text_writer. destruct (Nat.ltb_spec (length i) n); [done|].
  intros [= <-]. destruct (write_log_total n i st) as (st' & Hrun & Hb'); [done|done|].
  exists st'. split; [done|]. split; [done|]. intros [Ht Hi]%Forall_app.
  destruct (H Ht) as (Hok & Hl).
  destruct (write_log_spec n i st Hok) as (st2 & Hrun2 & Hok' & Hl'); [done|done|].
  simplify_eq. split; [done|]. by rewrite Hl', Hl, <-app_assoc.
Qed.

(** A log message reaches the console whole: what was waiting in the line
    buffer, then its text and a newline; the 256-byte line buffer never
    overflows and is left empty. *)
Theorem rl_log_message_spec word amiga fmt args text st :
  render word amiga fmt args = Some text → no_nul text → log_ok st →
  rl_log_message word amiga fmt args st = Some (LogState [] (logged st ++ text ++ [10])).
Proof.
  intros Hr Hn Hok. unfold rl_log_message.
  destruct (format_message_sim word amiga text_writer write_log (log_rep st)
    ltac:(intros; by apply write_log_sim) fmt args [] st) with (s1 := text)
    as (st' & -> & _ & H); [|done|].
  { split; [apply Hok|]. intros _. by rewrite app_nil_r. }
  destruct (H Hn) as [Hok' Hl]. cbn [mbind option_bind].
  by rewrite write_log_newline, Hl, <-app_assoc by done.
Qed.

Lemma rl_log_message_spec_witness :
  rl_log_message 32 true (cstr "%d files") [VInt 12] (LogState (chars "> ") []) =
    Some (LogState [] (chars "> 12 files" ++ [10])).
Proof.
  refine (rl_log_message_spec 32 true (cstr "%d files") [VInt 12] (chars "12 files")
    (LogState (chars "> ") []) eq_refl _ _).
  - repeat constructor; vm_compute; discriminate.
  - split; [vm_compute; lia|]. repeat constructor; vm_compute; discriminate.
Defined.

(** ** Log switches: every bit has one letter, which flips it *)
Lemma rl_toggle_log_bits_involutive c p bits :
  c ∈ chars "dniwcps" → rl_toggle_log_bits (c :: c :: 0 :: p) bits = Some bits.
Proof.
  intros Hc. assert (c ≠ 0 ∧ c ≠ 97 ∧ c ≠ 48) as (? & ? & ?).
  { vm_compute in Hc. repeat (apply elem_of_cons in Hc as [->|Hc]; [lia|]).
    by apply not_elem_of_nil in Hc. }
  cbn [rl_toggle_log_bits]. ztest. by rewrite Z.lxor_assoc, Z.lxor_nilpotent, Z.lxor_0_r.
Qed.

(** Letter [a] selects everything but the serial output. *)
Lemma rl_toggle_log_bits_all bits :
  rl_toggle_log_bits (cstr "a") bits = Some RL_ALL_LOG_BITS ∧
  Z.land RL_ALL_LOG_BITS RL_SERIAL_OUT = 0.
Proof. by split. Qed.
