(* ===== verification/Transport.v ===== *)
(** * Transport: transport.h and transport.c

    A transport reassembles messages from a byte stream and keeps a queue of
    encoded messages to write.  Both the output queue and the pool of free
    buffers are intrusive singly linked lists, so the model keeps the heap the
    buffers live in; a null or dangling access is [None]. *)

From S2P Require Import Prelude.

Definition addr : Type := positive.

(** ** Data *)
Record rl_transport_buf := TBuf {
  total_size : Z;
  userdata : Z;                 (* opaque pointer, set by the peer *)
  used_size : Z;
  remaining : Z;
  next : option addr;
  buffer_size : Z;
  buffer : list Z
}.

(** The input buffer: its memory, and the cursors as offsets from
    [base_address]; [end_address] is the end of the memory. *)
Record rl_iobuf := IOBuf {
  memory : list Z;
  read_cursor : nat;
  write_cursor : nat;
  valid : bool
}.

Record rl_transport := Transport {
  inbuf : rl_iobuf;
  heap : gmap addr rl_transport_buf;     (* the allocated buffers *)
  out_queue : option addr;
  out_tail : option addr;
  num_free_buffers : Z;
  next_free_buffer : option addr;
  error : bool;
  disconnect : bool
}.

(** *** Field updates *)
Definition set_next (p : option addr) (b : rl_transport_buf) : rl_transport_buf :=
  TBuf (total_size b) (userdata b) (used_size b) (remaining b) p (buffer_size b) (buffer b).
Definition set_remaining (r : Z) (b : rl_transport_buf) : rl_transport_buf :=
  TBuf (total_size b) (userdata b) (used_size b) r (next b) (buffer_size b) (buffer b).
Definition set_message (buf : list Z) (used : Z) (b : rl_transport_buf) : rl_transport_buf :=
  TBuf (total_size b) (userdata b) used (remaining b) (next b) (buffer_size b) buf.
Definition set_userdata (u : Z) (b : rl_transport_buf) : rl_transport_buf :=
  TBuf (total_size b) u (used_size b) (remaining b) (next b) (buffer_size b) (buffer b).

Definition set_inbuf (i : rl_iobuf) (t : rl_transport) : rl_transport :=
  Transport i (heap t) (out_queue t) (out_tail t) (num_free_buffers t)
    (next_free_buffer t) (error t) (disconnect t).
Definition set_heap (h : gmap addr rl_transport_buf) (t : rl_transport) : rl_transport :=
  Transport (inbuf t) h (out_queue t) (out_tail t) (num_free_buffers t)
    (next_free_buffer t) (error t) (disconnect t).
Definition set_queue (head tail : option addr) (t : rl_transport) : rl_transport :=
  Transport (inbuf t) (heap t) head tail (num_free_buffers t)
    (next_free_buffer t) (error t) (disconnect t).
Definition set_free (n : Z) (p : option addr) (t : rl_transport) : rl_transport :=
  Transport (inbuf t) (heap t) (out_queue t) (out_tail t) n p (error t) (disconnect t).
Definition set_error (t : rl_transport) : rl_transport :=
  Transport (inbuf t) (heap t) (out_queue t) (out_tail t) (num_free_buffers t)
    (next_free_buffer t) true (disconnect t).
Definition set_disconnect (t : rl_transport) : rl_transport :=
  Transport (inbuf t) (heap t) (out_queue t) (out_tail t) (num_free_buffers t)
    (next_free_buffer t) (error t) true.

Definition RL_TRANSPORT_MAX_POOLED_BUFFERS : Z := 4.
Definition RL_TRANSPORT_NEED_OUTPUT : Z := Z.shiftl 1 0.
Definition RL_TRANSPORT_DISCONNECTED : Z := Z.shiftl 1 14.
Definition RL_TRANSPORT_ERROR : Z := Z.shiftl 1 15.

(** ** The environment: allocator and sockets

    [malloc] gives the address of a fresh block or none.  A socket accepts a
    prefix of the bytes it is offered and delivers received bytes; [sk_out] and
    [sk_in] are the streams, and only appear in the laws. *)
Class Allocator := {
  malloc : gmap addr rl_transport_buf → option addr;
  malloc_fresh h a : malloc h = Some a → h !! a = None
}.

Class Socket (S : Type) := {
  send : S → list Z → S * Z;
  recv : S → nat → S * (Z * list Z);
  wouldblock : S → bool;           (* RL_LAST_SOCKET_ERROR == EWOULDBLOCK *)
  sk_out : S → list Z;
  sk_in : S → list Z;
  send_range s bs : -1 <= (send s bs).2 <= Z.of_nat (length bs);
  send_out s bs :
    sk_out (send s bs).1 = sk_out s ++ take (Z.to_nat (send s bs).2) bs;
  recv_in s n :
    let '(s', (rc, bs)) := recv s n in
    sk_in s = bs ++ sk_in s' ∧ (length bs ≤ n)%nat ∧
    ((0 < rc ∧ rc = Z.of_nat (length bs)) ∨ ((rc = 0 ∨ rc = -1) ∧ bs = []))
}.

Section Transport.
Context `{Alloc : Allocator}.

(** ** Input buffer *)
Definition rl_iobuf_init (block : option (list Z)) : rl_iobuf * Z :=
  match block with
  | Some mem => (IOBuf mem 0 0 true, 0)
  | None => (IOBuf [] 0 0 false, 1)
  end.

Definition rl_iobuf_destroy (b : rl_iobuf) : rl_iobuf :=
  IOBuf (if valid b then [] else memory b) (read_cursor b) (write_cursor b) false.

(** ** Buffer pool *)
Definition rl_transport_free_buffer (self : rl_transport) (buf : addr) : option rl_transport :=
  b ← heap self !! buf;
  if RL_TRANSPORT_MAX_POOLED_BUFFERS <=? num_free_buffers self
  then Some (set_heap (delete buf (heap self)) self)
  else Some (set_free (num_free_buffers self + 1) (Some buf)
               (set_heap (<[buf := set_next (next_free_buffer self) b]> (heap self)) self)).

(** [calloc] of [sizeof(rl_transport_buf_t) + 8192] bytes; [header_size] is
    that [sizeof]. *)
Definition fresh_buffer (header_size : Z) : rl_transport_buf :=
  TBuf (header_size + 8192) 0 0 0 None 8192 (replicate (Z.to_nat 8192) 0).

(** The result is the buffer, or [None] for a null pointer. *)
Definition rl_transport_alloc_buffer (header_size : Z) (self : rl_transport)
  : option (option addr * rl_transport) :=
  if negb (num_free_buffers self =? 0) then
    result ← next_free_buffer self;
    b ← heap self !! result;
    Some (Some result,
          set_free (num_free_buffers self - 1) (next b)
            (set_heap (<[result := set_next None b]> (heap self)) self))
  else
    match malloc (heap self) with
    | None => Some (None, self)
    | Some a => Some (Some a, set_heap (<[a := fresh_buffer header_size]> (heap self)) self)
    end.

(** ** Output queue *)
Definition rl_transport_add_output_message (self : rl_transport) (buf : addr)
  : option (rl_transport * Z) :=
  b ← heap self !! buf;
  let h := <[buf := set_remaining (used_size b) b]> (heap self) in
  match out_queue self with
  | None => Some (set_queue (Some buf) (Some buf) (set_heap h self), 0)
  | Some _ =>
      tail ← out_tail self;
      tb ← h !! tail;
      Some (set_queue (out_queue self) (Some buf)
              (set_heap (<[tail := set_next (Some buf) tb]> h) self), 0)
  end.

(** The bytes [send] is given: [remaining] bytes at
    [buffer + (used_size - remaining)], inside the buffer. *)
Definition unsent (b : rl_transport_buf) : option (list Z) :=
  let off := used_size b - remaining b in
  if (0 <=? off) && (0 <=? remaining b) && (used_size b <=? Z.of_nat (length (buffer b)))
  then Some (take (Z.to_nat (remaining b)) (drop (Z.to_nat off) (buffer b)))
  else None.

Section Sockets.
Context {S : Type} `{Sock : Socket S}.

(** Each turn of the loop is one [send]; [None] when the fuel runs out. *)
Fixpoint output_loop (fuel : nat) (t : rl_transport) (sock : S)
  : option (rl_transport * S) :=
  match fuel with
  | O => None
  | Datatypes.S fuel =>
    match out_queue t with
    | None => Some (t, sock)
    | Some msg =>
        b ← heap t !! msg;
        bytes ← unsent b;
        let '(sock, write_rc) := send sock bytes in
        if write_rc <? 0 then Some (if wouldblock sock then t else set_error t, sock)
        else if write_rc =? 0 then Some (t, sock)
        else
          let b := set_remaining (remaining b - write_rc) b in
          let t := set_heap (<[msg := b]> (heap t)) t in
          if remaining b =? 0 then
            t ← rl_transport_free_buffer (set_queue (next b) (out_tail t) t) msg;
            output_loop fuel t sock
          else output_loop fuel t sock
    end
  end.

(** The bytes in the queue bound the number of turns. *)
Definition output_fuel (t : rl_transport) : nat :=
  1 + Z.to_nat (map_fold (λ _ b n, Z.max 0 (remaining b) + n) 0 (heap t)).

Definition rl_transport_on_output_possible (t : rl_transport) (sock : S)
  : option (rl_transport * S) := output_loop (output_fuel t) t sock.

Definition rl_transport_on_input_arrived (t : rl_transport) (sock : S)
  : option (rl_transport * S) :=
  let b := inbuf t in
  let max_buffer_left := (length (memory b) - write_cursor b)%nat in
  let '(sock, (read_result, bytes)) := recv sock max_buffer_left in
  if read_result =? 0 then Some (set_disconnect t, sock)
  else if read_result =? -1 then Some (if wouldblock sock then t else set_error t, sock)
  else
    mem ← put_bytes (memory b) (write_cursor b) bytes;
    Some (set_inbuf (IOBuf mem (read_cursor b)
                       (write_cursor b + Z.to_nat read_result)%nat (valid b)) t, sock).
End Sockets.

(** ** Delivery of complete messages *)
Section Update.
(** The callbacks, and the state of their owner [U]. *)
Context {U : Type}.
Context (peek_incoming : list Z → Z → Z).
Context (deliver_incoming : rl_transport → U → list Z → Z → option (rl_transport * U * Z)).

(** The loop of [rl_transport_update]: [inl] is the early return of an
    error status, [inr] the state in which the loop ends. *)
Fixpoint update_loop (fuel : nat) (t : rl_transport) (u : U)
  : option ((rl_transport * U) * bool) :=
  match fuel with
  | O => None
  | Datatypes.S fuel =>
    let b := inbuf t in
    if negb (read_cursor b <? write_cursor b)%nat then Some ((t, u), true) else
    let avail_size := Z.of_nat (write_cursor b) - Z.of_nat (read_cursor b) in
    let msg_size := peek_incoming (drop (read_cursor b) (memory b)) avail_size in
    if msg_size <=? 0 then
      if msg_size <? 0 then Some ((set_error t, u), false) else Some ((t, u), true)
    else if Z.of_nat (length (memory b)) <? msg_size then Some ((set_error t, u), false)
    else if avail_size <? msg_size then Some ((t, u), true)
    else
      '(t, u, rc) ← deliver_incoming t u (drop (read_cursor b) (memory b)) msg_size;
      if negb (rc =? 0) then Some ((set_error t, u), false)
      else
        let b := inbuf t in
        update_loop fuel
          (set_inbuf (IOBuf (memory b) (read_cursor b + Z.to_nat msg_size)%nat
                        (write_cursor b) (valid b)) t) u
  end.

(** Move the remaining bytes to the front of the buffer. *)
Definition compact (b : rl_iobuf) : option rl_iobuf :=
  if (read_cursor b =? 0)%nat then Some b else
  let trim := (write_cursor b - read_cursor b)%nat in
  mem ← put_bytes (memory b) 0 (take trim (drop (read_cursor b) (memory b)));
  Some (IOBuf mem 0 trim (valid b)).

Definition rl_transport_update (t : rl_transport) (u : U)
  : option (rl_transport * U * Z) :=
  if error t then Some (t, u, RL_TRANSPORT_ERROR)
  else if disconnect t then Some (t, u, RL_TRANSPORT_DISCONNECTED)
  else
    '(t, u, ok) ← update_loop (Datatypes.S (write_cursor (inbuf t))) t u;
    if negb ok then Some (t, u, RL_TRANSPORT_ERROR)
    else
      b ← compact (inbuf t);
      let t := set_inbuf b t in
      Some (t, u, match out_queue t with
                  | Some _ => RL_TRANSPORT_NEED_OUTPUT
                  | None => 0
                  end).
End Update.

(** ** Construction and destruction *)
Definition rl_transport_zero : rl_transport :=
  Transport (IOBuf [] 0 0 false) ∅ None None 0 None false false.

Fixpoint free_queue (fuel : nat) (msg : option addr) (t : rl_transport) : option rl_transport :=
  match msg, fuel with
  | None, _ => Some t
  | Some _, O => None
  | Some m, Datatypes.S fuel =>
      b ← heap t !! m;
      t ← rl_transport_free_buffer t m;
      free_queue fuel (next b) t
  end.

Fixpoint free_pool (fuel : nat) (msg : option addr) (t : rl_transport) : option rl_transport :=
  match msg, fuel with
  | None, _ => Some t
  | Some _, O => None
  | Some m, Datatypes.S fuel =>
      b ← heap t !! m;
      free_pool fuel (next b) (set_heap (delete m (heap t)) t)
  end.

Definition rl_transport_destroy (t : rl_transport) : option rl_transport :=
  t ← free_queue (size (heap t)) (out_queue t) t;
  t ← free_pool (size (heap t)) (next_free_buffer t) t;
  Some (set_inbuf (rl_iobuf_destroy (inbuf t)) t).

(** [block] is what the allocation of [buffer_size] bytes gives. *)
Definition rl_transport_init (block : option (list Z)) : option (rl_transport * Z) :=
  let '(b, rc) := rl_iobuf_init block in
  let t := set_inbuf b rl_transport_zero in
  if negb (rc =? 0) then t ← rl_transport_destroy t; Some (t, 1)
  else Some (t, 0).
End Transport.

(** ** Representation of the two lists *)

(** [chain h p l]: following [next] from [p] visits exactly the buffers [l]
    and ends in a null pointer. *)
Fixpoint chain (h : gmap addr rl_transport_buf) (p : option addr) (l : list addr) : Prop :=
  match l with
  | [] => p = None
  | a :: l => p = Some a ∧ ∃ b, h !! a = Some b ∧ chain h (next b) l
  end.

Lemma chain_insert_ne h p l a b : a ∉ l → chain h p l → chain (<[a := b]> h) p l.
Proof.
  revert p; induction l as [|x l IH]; cbn; intros p Hn; [done|].
  intros (-> & bx & Hx & Hc). split; [done|]. exists bx.
  rewrite lookup_insert_ne by set_solver. split; [done|]. apply IH; set_solver.
Qed.

Lemma chain_delete_ne h p l a : a ∉ l → chain h p l → chain (delete a h) p l.
Proof.
  revert p; induction l as [|x l IH]; cbn; intros p Hn; [done|].
  intros (-> & bx & Hx & Hc). split; [done|]. exists bx.
  rewrite lookup_delete_ne by set_solver. split; [done|]. apply IH; set_solver.
Qed.

(** A change of a buffer that keeps its [next] field keeps every chain. *)
Lemma chain_update h p l a b b' :
  h !! a = Some b → next b' = next b → chain h p l → chain (<[a := b']> h) p l.
Proof.
  intros Ha Hn. revert p; induction l as [|x l IH]; cbn; intros p; [done|].
  intros (-> & bx & Hx & Hc). split; [done|]. destruct (decide (x = a)) as [->|].
  - exists b'. rewrite lookup_insert_eq. split; [done|]. rewrite Hn. simplify_eq. auto.
  - exists bx. rewrite lookup_insert_ne by done. auto.
Qed.

(** Linking a new last buffer behind the old one. *)
Lemma chain_snoc h p l last a bl b :
  a ∉ l ++ [last] → NoDup (l ++ [last]) →
  chain h p (l ++ [last]) → h !! last = Some bl → h !! a = Some b → next b = None →
  chain (<[last := set_next (Some a) bl]> h) p ((l ++ [last]) ++ [a]).
Proof.
  intros Ha Hnd Hc Hl Hb Hn. revert p Hc. induction l as [|x l IH]; cbn; intros p.
  - intros (-> & bx & Hx & Hc). split; [done|]. eexists. rewrite lookup_insert_eq.
    split; [done|]. cbn. split; [done|]. exists b.
    rewrite lookup_insert_ne by set_solver. done.
  - intros (-> & bx & Hx & Hc). split; [done|]. exists bx. cbn in Hnd.
    apply NoDup_cons in Hnd as [Hx1 Hnd]. rewrite lookup_insert_ne by set_solver.
    split; [done|]. apply IH; [set_solver|done|done].
Qed.

(** The invariant of a transport: [q] is the output queue and [f] the pool. *)
Definition queued_ok (b : rl_transport_buf) : Prop :=
  0 < remaining b <= used_size b ∧ used_size b <= Z.of_nat (length (buffer b)).

Record transport_ok (t : rl_transport) (q f : list addr) : Prop := {
  ok_queue : chain (heap t) (out_queue t) q;
  ok_free : chain (heap t) (next_free_buffer t) f;
  ok_nodup : NoDup (q ++ f);
  ok_count : num_free_buffers t = Z.of_nat (length f);
  ok_pool : num_free_buffers t <= RL_TRANSPORT_MAX_POOLED_BUFFERS;
  ok_tail : q ≠ [] → last q = out_tail t;
  ok_bufs : ∀ a, a ∈ q → ∃ b, heap t !! a = Some b ∧ queued_ok b
}.

(** The bytes a queued buffer still has to send, and those of the whole queue:
    the abstract output queue is this byte stream. *)
Definition buf_bytes (h : gmap addr rl_transport_buf) (a : addr) : list Z :=
  default [] (b ← h !! a; unsent b).
Definition pending (t : rl_transport) (q : list addr) : list Z :=
  concat (buf_bytes (heap t) <$> q).

Lemma unsent_ok b :
  queued_ok b →
  ∃ bs, unsent b = Some bs ∧ Z.of_nat (length bs) = remaining b ∧
        bs = take (Z.to_nat (remaining b))
               (drop (Z.to_nat (used_size b - remaining b)) (buffer b)).
Proof.
  intros [[? ?] ?]. unfold unsent. ztest. eexists. split; [done|]. split; [|done]. llen.
Qed.

Lemma buf_bytes_insert_ne h a b x : x ≠ a → buf_bytes (<[a := b]> h) x = buf_bytes h x.
Proof. intros. unfold buf_bytes. by rewrite lookup_insert_ne by done. Qed.
Lemma buf_bytes_delete_ne h a x : x ≠ a → buf_bytes (delete a h) x = buf_bytes h x.
Proof. intros. unfold buf_bytes. by rewrite lookup_delete_ne by done. Qed.

Lemma pending_ext h1 h2 (q : list addr) :
  (∀ a, a ∈ q → buf_bytes h1 a = buf_bytes h2 a) →
  concat (buf_bytes h1 <$> q) = concat (buf_bytes h2 <$> q).
Proof.
  induction q as [|a q IH]; intros H; [done|]. cbn.
  rewrite (H a), IH by set_solver. done.
Qed.

(** ** The pool and the queue *)
Section Lists.
Context `{Alloc : Allocator}.
Implicit Types (t : rl_transport) (q f : list addr).

(** A buffer outside both lists, as the caller of
    [rl_transport_alloc_buffer] holds it. *)
Definition owned t q f (a : addr) (b : rl_transport_buf) : Prop :=
  heap t !! a = Some b ∧ a ∉ q ++ f.

(** The pool keeps at most [RL_TRANSPORT_MAX_POOLED_BUFFERS] buffers; the
    others are returned to the allocator. *)
Lemma free_buffer_spec t q f a b :
  transport_ok t q f → owned t q f a b →
  ∃ t' f', rl_transport_free_buffer t a = Some t' ∧ transport_ok t' q f' ∧
    pending t' q = pending t q ∧ inbuf t' = inbuf t ∧
    out_queue t' = out_queue t ∧ error t' = error t ∧ disconnect t' = disconnect t ∧
    (f' = f ∧ heap t' = delete a (heap t) ∨
     f' = a :: f ∧ heap t' = <[a := set_next (next_free_buffer t) b]> (heap t)).
Proof.
  intros [Hq Hf Hnd Hc Hp Ht Hb] [Ha Hn]. unfold rl_transport_free_buffer.
  rewrite Ha. cbn [mbind option_bind].
  assert ((a ∉ q) ∧ (a ∉ f)) as [Hnq Hnf] by set_solver.
  destruct (Z.leb_spec RL_TRANSPORT_MAX_POOLED_BUFFERS (num_free_buffers t)) as [Hfull|Hroom].
  - eexists _, f. split; [done|]. split_and!; try done; [|by apply pending_ext; intros;
      apply buf_bytes_delete_ne; set_solver|by left].
    split; cbn; try done; [by apply chain_delete_ne..|].
    intros x Hx. rewrite lookup_delete_ne by set_solver. auto.
  - eexists _, (a :: f). split; [done|]. split_and!; try done; [|by apply pending_ext; intros;
      apply buf_bytes_insert_ne; set_solver|by right].
    split; cbn; try done.
    + by apply chain_insert_ne.
    + split; [done|]. eexists. rewrite lookup_insert_eq. split; [done|].
      by apply chain_insert_ne.
    + rewrite <-Permutation_middle. apply NoDup_cons. done.
    + lia.
    + lia.
    + intros x Hx. rewrite lookup_insert_ne by set_solver. auto.
Qed.

Lemma alloc_buffer_spec hs t q f :
  transport_ok t q f →
  ∃ r t', rl_transport_alloc_buffer hs t = Some (r, t') ∧
    inbuf t' = inbuf t ∧ pending t' q = pending t q ∧
    error t' = error t ∧ disconnect t' = disconnect t ∧
    match r with
    | None => t' = t ∧ malloc (heap t) = None
    | Some a => ∃ b f', owned t' q f' a b ∧ next b = None ∧ transport_ok t' q f' ∧
        (fresh_buffer hs = b ∨ (∃ b0, heap t !! a = Some b0 ∧ a ∈ f ∧ b = set_next None b0)) ∧
        (dom (heap t) = list_to_set (q ++ f) → dom (heap t') = {[a]} ∪ list_to_set (q ++ f'))
    end.
Proof.
  intros [Hq Hf Hnd Hc Hp Ht Hb]. unfold rl_transport_alloc_buffer.
  destruct (Z.eqb_spec (num_free_buffers t) 0) as [H0|H0]; cbn [negb].
  - destruct (malloc (heap t)) as [a|] eqn:Hm; [|by eexists _, _].
    apply malloc_fresh in Hm. eexists _, _. split; [done|].
    assert ((a ∉ q) ∧ (a ∉ f)) as [Hnq Hnf].
    { split; intros Hin.
      - destruct (Hb a Hin) as (? & ? & _). congruence.
      - assert (f = []) as -> by (destruct f; [done|cbn in Hc; lia]). set_solver. }
    split_and!; try done.
    { apply pending_ext. intros. apply buf_bytes_insert_ne. set_solver. }
    exists (fresh_buffer hs), f. split_and!; [split; cbn; [by rewrite lookup_insert_eq|set_solver]|done| |by left|].
    2:{ intros Hd. cbn. by rewrite dom_insert_L, Hd. }
    split; cbn; try done; [by apply chain_insert_ne..|].
    intros x Hx. rewrite lookup_insert_ne by set_solver. auto.
  - destruct f as [|a f]; [cbn in Hc; lia|]. cbn [chain] in Hf.
    destruct Hf as (Hfree & b & Ha & Hf). rewrite Hfree. cbn [mbind option_bind].
    rewrite Ha. cbn [mbind option_bind]. eexists _, _. split; [done|].
    rewrite <-Permutation_middle in Hnd. apply NoDup_cons in Hnd as [Hna Hnd].
    assert ((a ∉ q) ∧ (a ∉ f)) as [Hnq Hnf] by set_solver.
    split_and!; try done.
    { apply pending_ext. intros. apply buf_bytes_insert_ne. set_solver. }
    exists (set_next None b), f.
    split_and!; [split; cbn; [by rewrite lookup_insert_eq|done]|done| |right; set_solver|].
    2:{ intros Hd. cbn. rewrite dom_insert_L, Hd. set_solver. }
    split; cbn; try done; [by apply chain_insert_ne..| | |].
    + cbn in Hc. lia.
    + lia.
    + intros x Hx. rewrite lookup_insert_ne by set_solver. auto.
Qed.

Lemma chain_nil_head h p q : chain h p q → p = None ↔ q = [].
Proof. destruct q; cbn; [done|]. intros [-> _]. done. Qed.

(** Adding a message appends its bytes to the stream to be sent. *)
Lemma add_output_spec t q f a b bs :
  transport_ok t q f → owned t q f a b → next b = None →
  0 < used_size b <= Z.of_nat (length (buffer b)) →
  bs = take (Z.to_nat (used_size b)) (buffer b) →
  ∃ t', rl_transport_add_output_message t a = Some (t', 0) ∧
    transport_ok t' (q ++ [a]) f ∧ pending t' (q ++ [a]) = pending t q ++ bs ∧
    inbuf t' = inbuf t ∧ error t' = error t ∧ disconnect t' = disconnect t ∧
    dom (heap t') = dom (heap t).
Proof.
  intros [Hq Hf Hnd Hc Hp Ht Hb] [Ha Hn] Hnext Hu ->.
  assert ((a ∉ q) ∧ (a ∉ f)) as [Hnq Hnf] by set_solver.
  unfold rl_transport_add_output_message. rewrite Ha. cbn [mbind option_bind].
  set (b' := set_remaining (used_size b) b).
  assert (queued_ok b') as Hb' by (unfold queued_ok, b'; cbn; lia).
  assert (unsent b' = Some (take (Z.to_nat (used_size b)) (buffer b))) as Hun.
  { destruct (unsent_ok _ Hb') as (bs & -> & _ & ->). cbn.
    by rewrite Z.sub_diag, drop_0. }
  assert (NoDup ((q ++ [a]) ++ f)) as Hnd'.
  { rewrite <-app_assoc. cbn. rewrite <-Permutation_middle.
    apply NoDup_cons. done. }
  set (h := <[a := b']> (heap t)).
  assert (chain h (out_queue t) q) as Hq1 by (apply chain_insert_ne; done).
  assert (chain h (next_free_buffer t) f) as Hf1 by (apply chain_insert_ne; done).
  assert (h !! a = Some b') as Ha1 by apply lookup_insert_eq.
  assert (dom h = dom (heap t)) as Hdom.
  { unfold h. rewrite dom_insert_L. apply elem_of_dom_2 in Ha. set_solver. }
  assert (∀ x, x ∈ q → h !! x = heap t !! x) as Hh.
  { intros x Hx. apply lookup_insert_ne. set_solver. }
  destruct (out_queue t) as [hd|] eqn:Ehd.
  - assert (q ≠ []) as Hne by (intros ->; done).
    rewrite <-Ht by done. destruct (@exists_last _ q Hne) as (l & z & ->).
    rewrite last_snoc. cbn [mbind option_bind].
    destruct (Hb z) as (bz & Hz & Hzok); [set_solver|].
    rewrite Hh, Hz by set_solver. cbn [mbind option_bind].
    assert (z ∉ f) as Hzf by (intros ?; apply NoDup_app in Hnd as (_ & Hd & _);
      apply (Hd z); set_solver).
    eexists. split; [done|]. split_and!; try done.
    + split; cbn; try done.
      * eapply chain_snoc; try done; [by apply NoDup_app in Hnd as []|].
        rewrite Hh by set_solver. done.
      * apply chain_insert_ne; [|done]. set_solver.
      * intros _. by rewrite last_snoc.
      * intros x Hx. destruct (decide (x = z)) as [->|].
        { rewrite lookup_insert_eq. eexists. split; [done|exact Hzok]. }
        rewrite lookup_insert_ne by done. apply elem_of_app in Hx as [Hx|Hx].
        { rewrite Hh by done. auto. }
        apply list_elem_of_singleton in Hx as ->. eauto.
    + unfold pending. cbn [heap set_queue set_heap].
      rewrite (fmap_app _ (l ++ [z]) [a]), concat_app. f_equal.
      * apply pending_ext. intros x Hx. unfold buf_bytes.
        destruct (decide (x = z)) as [->|].
        { rewrite lookup_insert_eq, Hz. done. }
        rewrite lookup_insert_ne, Hh by done. done.
      * cbn. rewrite app_nil_r. unfold buf_bytes. rewrite lookup_insert_ne by set_solver.
        rewrite Ha1. cbn. by rewrite Hun.
    + cbn [heap set_queue set_heap]. rewrite dom_insert_L, <- Hdom.
      assert (h !! z = Some bz) as Hz1 by (rewrite Hh by set_solver; done).
      apply elem_of_dom_2 in Hz1. set_solver.
  - assert (q = []) as -> by (by eapply chain_nil_head).
    eexists. split; [done|]. split_and!; try done.
    + split; cbn; try done.
      * split; [done|]. exists b'. done.
      * intros x ->%list_elem_of_singleton. eauto.
    + unfold pending; cbn. unfold buf_bytes. rewrite Ha1. cbn. by rewrite Hun, app_nil_r.
Qed.
End Lists.

(** ** Writing the queue to a socket *)
Section Output.
Context `{Alloc : Allocator} {S : Type} `{Sock : Socket S}.
Implicit Types (t : rl_transport) (q f : list addr) (s : S).

(** One successful [send] of [n] bytes of the first buffer. *)
Lemma send_step t a q f b bs n :
  transport_ok t (a :: q) f → heap t !! a = Some b → unsent b = Some bs →
  0 < n <= Z.of_nat (length bs) →
  let b' := set_remaining (remaining b - n) b in
  let t' := set_heap (<[a := b']> (heap t)) t in
  pending t (a :: q) = take (Z.to_nat n) bs ++ drop (Z.to_nat n) bs ++ pending t q ∧
  (remaining b' ≠ 0 →
     transport_ok t' (a :: q) f ∧
     pending t' (a :: q) = drop (Z.to_nat n) bs ++ pending t q) ∧
  (remaining b' = 0 →
     drop (Z.to_nat n) bs = [] ∧
     transport_ok (set_queue (next b) (out_tail t) t') q f ∧
     owned (set_queue (next b) (out_tail t) t') q f a b' ∧
     pending (set_queue (next b) (out_tail t) t') q = pending t q).
Proof.
  intros [Hq Hf Hnd Hc Hp Ht Hb] Ha Hun Hn b' t'.
  destruct (Hb a) as (b0 & Hb0 & Hok); [set_solver|]. simplify_eq.
  destruct (unsent_ok _ Hok) as (bs0 & Hun0 & Hlen & Hbs).
  rewrite Hun in Hun0. injection Hun0 as <-.
  destruct Hok as [[? ?] ?].
  cbn [app] in Hnd. apply NoDup_cons in Hnd as [Hna Hnd].
  assert ((a ∉ q) ∧ (a ∉ f)) as [Hnq Hnf] by set_solver.
  assert (pending t' q = pending t q) as Hpq.
  { apply pending_ext. intros. apply buf_bytes_insert_ne. set_solver. }
  split_and!.
  - rewrite app_assoc, take_drop. unfold pending. cbn. unfold buf_bytes at 1.
    rewrite Ha. cbn. by rewrite Hun.
  - intros Hne. cbn in Hne. assert (queued_ok b') as Hb' by (unfold queued_ok, b'; cbn; lia).
    split.
    + split; cbn [set_heap heap out_queue next_free_buffer num_free_buffers out_tail t']; try done.
      * by eapply chain_update.
      * by apply chain_insert_ne.
      * by apply NoDup_cons.
      * intros x Hx. destruct (decide (x = a)) as [->|].
        { rewrite lookup_insert_eq. eauto. }
        rewrite lookup_insert_ne by done. auto.
    + unfold pending. cbn [fmap list_fmap concat]. f_equal; [|done].
      destruct (unsent_ok _ Hb') as (bs' & Hun' & _ & Hbs').
      unfold buf_bytes, t'. cbn [heap set_heap]. rewrite lookup_insert_eq. cbn.
      rewrite Hun'. cbn. subst bs bs'. unfold b'; cbn [remaining used_size buffer set_remaining].
      rewrite skipn_firstn_comm, drop_drop. f_equal; [|f_equal]; lia.
  - intros Hz. cbn in Hz. cbn [chain] in Hq. destruct Hq as (_ & b1 & Hb1 & Hq).
    simplify_eq. split_and!.
    + apply drop_ge. lia.
    + split; cbn [set_heap set_queue heap out_queue next_free_buffer num_free_buffers out_tail t']; try done.
      * by apply chain_insert_ne.
      * by apply chain_insert_ne.
      * intros Hne. rewrite <-Ht by done. by destruct q.
      * intros x Hx. rewrite lookup_insert_ne by set_solver. apply Hb. set_solver.
    + split; cbn; [by rewrite lookup_insert_eq|done].
    + exact Hpq.
Qed.

Lemma output_loop_spec fuel t s q f :
  transport_ok t q f → (length (pending t q) < fuel)%nat →
  ∃ t' s' q' f', output_loop fuel t s = Some (t', s') ∧ transport_ok t' q' f' ∧
    sk_out s' ++ pending t' q' = sk_out s ++ pending t q ∧
    q' `suffix_of` q ∧ inbuf t' = inbuf t ∧ disconnect t' = disconnect t.
Proof.
  revert t s q f. induction fuel as [|fuel IH]; intros t s q f Hok Hfuel; [lia|].
  cbn [output_loop]. destruct (out_queue t) as [a|] eqn:Eq.
  2:{ exists t, s, q, f. done. }
  destruct q as [|a' q]; [by destruct Hok as [Hq]; cbn in Hq; congruence|].
  assert (a' = a) as ->.
  { destruct Hok as [Hq]. cbn [chain] in Hq. destruct Hq as [Hq _]. congruence. }
  destruct (ok_bufs _ _ _ Hok a) as (b & Hb & Hbok); [set_solver|].
  destruct (unsent_ok _ Hbok) as (bs & Hun & Hlen & _).
  rewrite Hb. cbn [mbind option_bind]. rewrite Hun. cbn [mbind option_bind].
  pose proof (send_range s bs) as Hr. pose proof (send_out s bs) as Ho.
  destruct (send s bs) as [s' rc]. cbn [fst snd] in *.
  destruct (Z.ltb_spec rc 0).
  { exists (if wouldblock s' then t else set_error t), s', (a :: q), f.
    replace (Z.to_nat rc) with 0%nat in Ho by lia. rewrite take_0, app_nil_r in Ho.
    rewrite Ho. split_and!; try (by destruct (wouldblock s')).
    destruct (wouldblock s'); [done|]. destruct Hok; by split. }
  destruct (Z.eqb_spec rc 0) as [->|Hrc].
  { exists t, s', (a :: q), f. rewrite Ho. cbn. by rewrite take_0, app_nil_r. }
  destruct (send_step _ _ _ _ _ _ rc Hok Hb Hun) as (Hp & Hmore & Hdone); [lia|].
  set (b' := set_remaining (remaining b - rc) b) in *.
  assert (length (take (Z.to_nat rc) bs) = Z.to_nat rc) as Htl by (rewrite length_take; lia).
  destruct (Z.eqb_spec (remaining b') 0) as [H0|H0].
  - destruct (Hdone H0) as (Hnil & Hok' & Hown & Hp').
    destruct (free_buffer_spec _ _ _ _ _ Hok' Hown)
      as (t' & f' & Hfree & Hok'' & Hp'' & Hin & _ & _ & Hd & _).
    assert (rl_transport_free_buffer
      (set_queue (next b') (out_tail (set_heap (<[a := b']> (heap t)) t))
         (set_heap (<[a := b']> (heap t)) t)) a = Some t') as -> by exact Hfree.
    cbn [mbind option_bind].
    rewrite Hnil in Hp.
    destruct (IH t' s' q f' Hok'') as (t2 & s2 & q2 & f2 & Hrun & Hok2 & Hs & Hsuf & Hi2 & Hd2).
    { rewrite Hp, length_app, Htl in Hfuel. rewrite Hp'', Hp'. cbn in Hfuel. lia. }
    exists t2, s2, q2, f2. split_and!; try done.
    + rewrite Hs, Hp'', Hp', Ho, Hp. cbn [app]. by rewrite <-app_assoc.
    + by apply suffix_cons_r.
    + by rewrite Hi2, Hin.
    + by rewrite Hd2, Hd.
  - destruct (Hmore H0) as (Hok' & Hp').
    destruct (IH _ s' (a :: q) f Hok') as (t2 & s2 & q2 & f2 & Hrun & Hok2 & Hs & Hsuf & Hi2 & Hd2).
    { rewrite Hp, length_app, Htl in Hfuel. rewrite Hp'. lia. }
    exists t2, s2, q2, f2. split_and!; try done.
    by rewrite Hs, Hp', Ho, Hp, <-app_assoc.
Qed.

Definition heap_load (h : gmap addr rl_transport_buf) : Z :=
  map_fold (λ _ b n, Z.max 0 (remaining b) + n) 0 h.

Lemma heap_load_delete h a b :
  h !! a = Some b → heap_load h = Z.max 0 (remaining b) + heap_load (delete a h).
Proof.
  intros Ha. unfold heap_load.
  rewrite (map_fold_delete_L (λ _ b n, Z.max 0 (remaining b) + n) 0 a b h); [done| |done].
  intros. lia.
Qed.

Lemma heap_load_nonneg h : 0 <= heap_load h.
Proof.
  unfold heap_load. apply (map_fold_weak_ind (λ n _, 0 <= n)); [done|]. intros. lia.
Qed.

Lemma pending_load h q :
  NoDup q → (∀ a, a ∈ q → ∃ b, h !! a = Some b ∧ queued_ok b) →
  Z.of_nat (length (concat (buf_bytes h <$> q))) <= heap_load h.
Proof.
  intros Hnd. revert h. induction Hnd as [|a q Ha Hnd IH]; intros h Hb; cbn.
  { apply heap_load_nonneg. }
  destruct (Hb a) as (b & Hab & Hok); [set_solver|].
  destruct (unsent_ok _ Hok) as (bs & Hun & Hl & _).
  rewrite length_app, Nat2Z.inj_add, (heap_load_delete _ _ _ Hab).
  unfold buf_bytes at 1. rewrite Hab. cbn [mbind option_bind from_option]. rewrite Hun.
  cbn [from_option id]. specialize (IH (delete a h)).
  rewrite (pending_ext _ h) in IH
    by (intros; apply buf_bytes_delete_ne; set_solver).
  enough (Z.of_nat (length (concat (buf_bytes h <$> q))) <= heap_load (delete a h)) by lia.
  apply IH. intros x Hx. rewrite lookup_delete_ne by set_solver. apply Hb. set_solver.
Qed.

Lemma output_fuel_enough t q f : transport_ok t q f → (length (pending t q) < output_fuel t)%nat.
Proof.
  intros [_ _ Hnd _ _ _ Hb]. unfold output_fuel. fold (heap_load (heap t)).
  apply NoDup_app in Hnd as [Hnd _]. pose proof (pending_load _ _ Hnd Hb).
  unfold pending. lia.
Qed.

(** C13: output neither loses, duplicates nor reorders bytes: what the socket
    has taken followed by what is still pending is unchanged, the loop ends,
    and the queue and the pool stay well formed. *)
Theorem on_output_possible_spec t s q f :
  transport_ok t q f →
  ∃ t' s' q' f', rl_transport_on_output_possible t s = Some (t', s') ∧
    transport_ok t' q' f' ∧ sk_out s' ++ pending t' q' = sk_out s ++ pending t q ∧
    q' `suffix_of` q ∧ inbuf t' = inbuf t ∧ disconnect t' = disconnect t.
Proof.
  intros Hok. apply (output_loop_spec _ _ _ q f); [done|]. by apply (output_fuel_enough _ _ f).
Qed.
End Output.

(** ** Reassembly of the input stream *)

(** The received bytes that no message has consumed yet. *)
Definition content (t : rl_transport) : list Z :=
  take (write_cursor (inbuf t) - read_cursor (inbuf t))
       (drop (read_cursor (inbuf t)) (memory (inbuf t))).

Record inbuf_ok (b : rl_iobuf) : Prop := {
  ib_order : (read_cursor b ≤ write_cursor b)%nat;
  ib_end : (write_cursor b ≤ length (memory b))%nat
}.

(** The output side of two transports is the same. *)
Definition same_output (t t' : rl_transport) : Prop :=
  heap t' = heap t ∧ out_queue t' = out_queue t ∧ out_tail t' = out_tail t ∧
  num_free_buffers t' = num_free_buffers t ∧ next_free_buffer t' = next_free_buffer t.

Section Reassembly.
Context {S : Type} `{Sock : Socket S} {U : Type}.
Context (peek : list Z → Z → Z).
Context (deliver : rl_transport → U → list Z → Z → option (rl_transport * U * Z)).
(** The messages the owner has seen. *)
Context (log : U → list (list Z)).
(** What holds of transport and owner between deliveries, and the messages
    the owner accepts. *)
Context (inv : rl_transport → U → Prop) (good : list Z → Prop).
(** The capacity of the input buffer. *)
Context (cap : Z).

Definition peek_of (bs : list Z) : Z := peek bs (Z.of_nat (length bs)).

(** [peek] looks at the available bytes only, and once it has seen enough
    of a message to answer, more bytes do not change the answer. *)
Hypothesis peek_avail : ∀ bs ext, peek (bs ++ ext) (Z.of_nat (length bs)) = peek_of bs.
Hypothesis peek_stable : ∀ bs ext, bs ≠ [] →
  peek_of (bs ++ ext) = peek_of bs ∨ Z.of_nat (length bs) < peek_of bs <= cap.
Hypothesis deliver_ok : ∀ t u p n,
  inv t u → good (take (Z.to_nat n) p) → 0 <= n <= Z.of_nat (length p) →
  ∃ t' u', deliver t u p n = Some (t', u', 0) ∧ inbuf t' = inbuf t ∧ inv t' u' ∧
    error t' = error t ∧ disconnect t' = disconnect t ∧
    log u' = log u ++ [take (Z.to_nat n) p].
Hypothesis inv_output : ∀ t t' u, same_output t t' → inv t u → inv t' u.

(** The specification: a byte string is a sequence of messages [ms] and an
    incomplete rest. *)
Inductive frames : list Z → list (list Z) → list Z → Prop :=
  | frames_wait bs :
      bs = [] ∨ Z.of_nat (length bs) < peek_of bs <= cap → frames bs [] bs
  | frames_msg bs ms rest :
      0 < peek_of bs <= cap → peek_of bs <= Z.of_nat (length bs) →
      good (take (Z.to_nat (peek_of bs)) bs) →
      frames (drop (Z.to_nat (peek_of bs)) bs) ms rest →
      frames bs (take (Z.to_nat (peek_of bs)) bs :: ms) rest.

(** No complete message is left in the buffer. *)
Definition stuck (bs : list Z) : Prop :=
  bs = [] ∨ Z.of_nat (length bs) < peek_of bs.

Lemma frames_stuck bs ms rest : frames bs ms rest → stuck bs → ms = [] ∧ rest = bs.
Proof. intros [] [|]; subst; cbn in *; (done || lia). Qed.

Lemma length_content t :
  inbuf_ok (inbuf t) →
  length (content t) = (write_cursor (inbuf t) - read_cursor (inbuf t))%nat.
Proof. intros [? ?]. unfold content. llen. Qed.

Lemma drop_memory t :
  inbuf_ok (inbuf t) →
  ∃ ext, drop (read_cursor (inbuf t)) (memory (inbuf t)) = content t ++ ext.
Proof. intros _. unfold content. eexists. by rewrite take_drop. Qed.

(** The loop of [rl_transport_update] delivers the complete messages of the
    stream that the buffer begins, in order. *)
Lemma update_loop_spec fuel t u suf ms rest :
  inv t u → inbuf_ok (inbuf t) → Z.of_nat (length (memory (inbuf t))) = cap →
  (length (content t) < fuel)%nat →
  frames (content t ++ suf) ms rest →
  ∃ t' u' ms1 ms2, update_loop peek deliver fuel t u = Some ((t', u'), true) ∧
    ms = ms1 ++ ms2 ∧ log u' = log u ++ ms1 ∧
    frames (content t' ++ suf) ms2 rest ∧ stuck (content t') ∧
    inv t' u' ∧ inbuf_ok (inbuf t') ∧ memory (inbuf t') = memory (inbuf t) ∧
    error t' = error t ∧ disconnect t' = disconnect t.
Proof.
  revert t u ms. induction fuel as [|fuel IH]; intros t u ms Hinv Hok Hcap Hfuel Hfr; [lia|].
  cbn [update_loop]. pose proof (length_content _ Hok) as Hl.
  assert (stuck (content t) → ∃ t' u' ms1 ms2, Some ((t, u), true) = Some ((t', u'), true) ∧
    ms = ms1 ++ ms2 ∧ log u' = log u ++ ms1 ∧
    frames (content t' ++ suf) ms2 rest ∧ stuck (content t') ∧
    inv t' u' ∧ inbuf_ok (inbuf t') ∧ memory (inbuf t') = memory (inbuf t) ∧
    error t' = error t ∧ disconnect t' = disconnect t) as Hdone.
  { intros Hst. exists t, u, [], ms. by rewrite app_nil_r. }
  destruct (Nat.ltb_spec (read_cursor (inbuf t)) (write_cursor (inbuf t))) as [Hlt|Hge];
    cbn [negb]; [|apply Hdone; left; apply length_zero_iff_nil; lia].
  destruct (drop_memory _ Hok) as [ext Hext]. rewrite Hext.
  replace (Z.of_nat _ - Z.of_nat _) with (Z.of_nat (length (content t))) by lia.
  rewrite peek_avail, Hcap.
  assert (content t ≠ []) as Hne by (intros E; rewrite E in Hl; cbn in Hl; lia).
  destruct (peek_stable (content t) suf Hne) as [Hst|Hinc].
  2:{ ztest. apply Hdone. right. lia. }
  inversion Hfr as [bs [Hnil|Hw]|bs ms' rest' Hn Hle Hgood Hfr']; subst.
  { by apply app_nil in Hnil as []. }
  { rewrite Hst in Hw. rewrite length_app in Hw. ztest. apply Hdone. right. lia. }
  rewrite Hst in *. ztest.
  destruct (Z.ltb_spec (Z.of_nat (length (content t))) (peek_of (content t))).
  { apply Hdone. by right. }
  set (n := peek_of (content t)) in *.
  assert (take (Z.to_nat n) (content t ++ ext) = take (Z.to_nat n) (content t ++ suf))
    as Htk by (rewrite !take_app_le by lia; done).
  destruct (deliver_ok t u (content t ++ ext) n Hinv)
    as (t1 & u1 & Hd & Hin & Hinv1 & He & Hdi & Hlog).
  { by rewrite Htk. }
  { rewrite length_app. lia. }
  rewrite Hd. cbn [mbind option_bind Z.eqb negb]. rewrite Hin.
  rewrite take_app_le in Hlog by lia.
  set (t2 := set_inbuf _ t1).
  assert (content t2 = drop (Z.to_nat n) (content t)) as Hc2.
  { unfold content at 1. cbn [t2 set_inbuf inbuf read_cursor write_cursor memory].
    unfold content. rewrite skipn_firstn_comm, drop_drop. f_equal. lia. }
  assert (inbuf_ok (inbuf t2)) as Hok2.
  { destruct Hok. split; cbn [t2 set_inbuf inbuf read_cursor write_cursor memory]; lia. }
  rewrite drop_app_le in Hfr' by lia.
  assert (inv t2 u1) as Hinv2 by (eapply inv_output; [|exact Hinv1]; by repeat split).
  destruct (IH t2 u1 ms' Hinv2 Hok2 Hcap) as (t' & u' & ms1 & ms2 & Hrun & -> & Hlog' & Hfr2 & Hst2 & H3).
  { rewrite Hc2, length_drop. lia. }
  { by rewrite Hc2. }
  exists t', u', (take (Z.to_nat n) (content t) :: ms1), ms2. split; [done|].
  rewrite (take_app_le (content t)) by lia. split; [done|].
  split; [by rewrite Hlog', Hlog, <-app_assoc|]. split; [done|]. split; [done|].
  destruct H3 as (? & ? & Hm & He' & Hd'). cbn in Hm, He', Hd'.
  split_and!; congruence.
Qed.

Lemma compact_spec b :
  inbuf_ok b →
  ∃ b', compact b = Some b' ∧ inbuf_ok b' ∧ length (memory b') = length (memory b) ∧
    take (write_cursor b' - read_cursor b') (drop (read_cursor b') (memory b')) =
    take (write_cursor b - read_cursor b) (drop (read_cursor b) (memory b)) ∧
    read_cursor b' = 0%nat.
Proof.
  intros [? ?]. unfold compact. destruct (Nat.eqb_spec (read_cursor b) 0); [by exists b|].
  rewrite put_bytes_Some by llen. eexists. split; [done|]. cbn. split_and!; try done.
  - split; cbn; [lia|llen].
  - llen.
  - rewrite Nat.sub_0_r, drop_0, take_0, app_nil_l. apply take_app_length'. llen.
Qed.

Lemma update_spec t u suf ms rest :
  inv t u → inbuf_ok (inbuf t) → Z.of_nat (length (memory (inbuf t))) = cap →
  frames (content t ++ suf) ms rest →
  ∃ t' u' st ms1 ms2, rl_transport_update peek deliver t u = Some (t', u', st) ∧
    ms = ms1 ++ ms2 ∧ log u' = log u ++ ms1 ∧
    frames (content t' ++ suf) ms2 rest ∧ inv t' u' ∧
    inbuf_ok (inbuf t') ∧ length (memory (inbuf t')) = length (memory (inbuf t)) ∧
    error t' = error t ∧ disconnect t' = disconnect t ∧
    (error t = false → disconnect t = false →
       stuck (content t') ∧ read_cursor (inbuf t') = 0%nat).
Proof.
  intros Hinv Hok Hcap Hfr. unfold rl_transport_update.
  destruct (error t) eqn:Ee.
  { exists t, u, RL_TRANSPORT_ERROR, [], ms. rewrite app_nil_r. naive_solver. }
  destruct (disconnect t) eqn:Ed.
  { exists t, u, RL_TRANSPORT_DISCONNECTED, [], ms. rewrite app_nil_r. naive_solver. }
  destruct (update_loop_spec (Datatypes.S (write_cursor (inbuf t))) t u suf ms rest)
    as (t1 & u1 & ms1 & ms2 & Hrun & Hms & Hlog & Hfr1 & Hst & Hinv1 & Hok1 & Hm & He & Hd);
    [done|done|done|rewrite length_content by done; lia|done|].
  rewrite Hrun. cbn [mbind option_bind negb].
  destruct (compact_spec _ Hok1) as (b' & Hb & Hok' & Hlm & Hcont & Hrd).
  rewrite Hb. cbn [mbind option_bind].
  assert (content (set_inbuf b' t1) = content t1) as Hc by exact Hcont.
  eexists _, _, _, ms1, ms2. split; [done|]. rewrite Hc. cbn [inbuf set_inbuf error disconnect].
  split_and!; try done; try congruence.
  eapply inv_output; [|exact Hinv1]. by repeat split.
Qed.

Context `{Alloc : Allocator}.

Lemma input_arrived_spec t s :
  inbuf_ok (inbuf t) →
  ∃ t' s' bs, rl_transport_on_input_arrived t s = Some (t', s') ∧
    sk_in s = bs ++ sk_in s' ∧ content t' = content t ++ bs ∧ same_output t t' ∧
    inbuf_ok (inbuf t') ∧ length (memory (inbuf t')) = length (memory (inbuf t)).
Proof.
  intros [? ?]. unfold rl_transport_on_input_arrived.
  pose proof (recv_in s (length (memory (inbuf t)) - write_cursor (inbuf t))) as Hr.
  destruct (recv s _) as [s' [rc bs]]. destruct Hr as (Hs & Hl & Hrc).
  destruct (Z.eqb_spec rc 0) as [->|].
  { destruct Hrc as [[? ?]|[_ ->]]; [lia|]. exists (set_disconnect t), s', [].
    rewrite app_nil_r. by repeat split. }
  destruct (Z.eqb_spec rc (-1)) as [->|].
  { destruct Hrc as [[? ?]|[_ ->]]; [lia|].
    exists (if wouldblock s' then t else set_error t), s', [].
    rewrite app_nil_r. by destruct (wouldblock s'); repeat split. }
  destruct Hrc as [[? ->]|[[|] _]]; [|lia..].
  rewrite put_bytes_Some by lia. cbn [mbind option_bind]. eexists _, s', bs.
  split; [done|]. split; [done|]. rewrite Nat2Z.id.
  unfold content. cbn [inbuf set_inbuf read_cursor write_cursor memory]. split_and!.
  - set (w := write_cursor (inbuf t)) in *. set (r := read_cursor (inbuf t)) in *.
    set (m := memory (inbuf t)) in *.
    rewrite drop_app_le by llen. rewrite skipn_firstn_comm, app_assoc.
    rewrite take_app_length' by llen. done.
  - by repeat split.
  - split; cbn; llen.
  - llen.
Qed.

(** [k] turns of an event loop that finds the socket readable. *)
Fixpoint rounds (k : nat) (t : rl_transport) (u : U) (s : S)
  : option (rl_transport * U * S) :=
  match k with
  | O => Some (t, u, s)
  | Datatypes.S k =>
      '(t, s) ← rl_transport_on_input_arrived t s;
      '(t, u, _) ← rl_transport_update peek deliver t u;
      rounds k t u s
  end.

(** However the network splits the byte stream, the messages are
    delivered exactly once, in order and whole: after any number of turns the
    owner has seen a prefix of the messages of the stream, the rest of the
    stream still holds the others, and nothing complete is left behind when
    the stream has been read. *)
Lemma rounds_spec k t u s ms rest :
  inv t u → inbuf_ok (inbuf t) → Z.of_nat (length (memory (inbuf t))) = cap →
  frames (content t ++ sk_in s) ms rest →
  ∃ t' u' s' ms1 ms2, rounds k t u s = Some (t', u', s') ∧
    ms = ms1 ++ ms2 ∧ log u' = log u ++ ms1 ∧
    frames (content t' ++ sk_in s') ms2 rest ∧
    inv t' u' ∧ inbuf_ok (inbuf t') ∧
    ((0 < k)%nat → error t' = false → disconnect t' = false → sk_in s' = [] →
       ms2 = [] ∧ content t' = rest).
Proof.
  revert t u s ms. induction k as [|k IH]; intros t u s ms Hinv Hok Hcap Hfr.
  { exists t, u, s, [], ms. rewrite app_nil_r. split_and!; try done. lia. }
  cbn [rounds].
  destruct (input_arrived_spec t s Hok) as (t1 & s1 & bs & Harr & Hs & Hc & Hso & Hok1 & Hl1).
  rewrite Harr. cbn [mbind option_bind].
  assert (frames (content t1 ++ sk_in s1) ms rest) as Hfr1
    by (rewrite Hc, <-app_assoc, <-Hs; done).
  destruct (update_spec t1 u (sk_in s1) ms rest (inv_output _ _ _ Hso Hinv) Hok1) as
    (t2 & u2 & st & ms1 & ms2 & Hup & -> & Hlog & Hfr2 & Hinv2 & Hok2 & Hl2 & He & Hd & Hst);
    [lia|done|].
  rewrite Hup. cbn [mbind option_bind].
  destruct k as [|k].
  { exists t2, u2, s1, ms1, ms2. split_and!; try done. intros _ He' Hd' Hnil.
    rewrite Hnil, app_nil_r in Hfr2.
    destruct (frames_stuck _ _ _ Hfr2) as [-> ->]; [|done].
    apply Hst; congruence. }
  destruct (IH t2 u2 s1 ms2 Hinv2 Hok2) as
    (t3 & u3 & s3 & ms3 & ms4 & Hrun & -> & Hlog3 & Hfr3 & Hinv3 & Hok3 & Hend); [lia|done|].
  exists t3, u3, s3, (ms1 ++ ms3), ms4.
  split_and!; try done; [by rewrite app_assoc|by rewrite Hlog3, Hlog, app_assoc|].
  intros _. apply Hend. lia.
Qed.
End Reassembly.

(** ** Buffer sizes: every buffer has [buffer_size] bytes *)
Definition buf_sized (b : rl_transport_buf) : Prop :=
  buffer_size b = 8192 ∧ Z.of_nat (length (buffer b)) = 8192.
Definition buffers_ok (t : rl_transport) : Prop := map_Forall (λ _, buf_sized) (heap t).

Section Sizes.
Context `{Alloc : Allocator}.

Lemma buffers_ok_insert t a b :
  buffers_ok t → buf_sized b → buffers_ok (set_heap (<[a := b]> (heap t)) t).
Proof. intros. by apply map_Forall_insert_2. Qed.

Lemma buffers_ok_lookup t a b : buffers_ok t → heap t !! a = Some b → buf_sized b.
Proof. intros H. apply H. Qed.

Lemma buffers_ok_free t a t' :
  rl_transport_free_buffer t a = Some t' → buffers_ok t → buffers_ok t'.
Proof.
  unfold rl_transport_free_buffer. destruct (heap t !! a) as [b|] eqn:E; [|done].
  cbn [mbind option_bind]. intros Hf Hok. case_match; injection Hf as <-.
  - by apply map_Forall_delete.
  - apply map_Forall_insert_2; [|done]. exact (Hok a b E).
Qed.

Lemma buffers_ok_alloc hs t r t' :
  rl_transport_alloc_buffer hs t = Some (r, t') → buffers_ok t → buffers_ok t'.
Proof.
  unfold rl_transport_alloc_buffer. intros Hf Hok. case_match.
  - apply bind_Some in Hf as (a & _ & Hf). apply bind_Some in Hf as (b & E & [= <- <-]).
    apply map_Forall_insert_2; [|done]. exact (Hok a b E).
  - case_match; injection Hf as <- <-; [|done].
    apply map_Forall_insert_2; [|done]. split; [done|]. cbn [buffer fresh_buffer].
    by rewrite length_replicate, Z2Nat.id.
Qed.

Lemma buffers_ok_add t a t' rc :
  rl_transport_add_output_message t a = Some (t', rc) → buffers_ok t → buffers_ok t'.
Proof.
  unfold rl_transport_add_output_message. destruct (heap t !! a) as [b|] eqn:E; [|done].
  cbn [mbind option_bind]. intros Hf Hok.
  assert (map_Forall (λ _, buf_sized) (<[a:=set_remaining (used_size b) b]> (heap t))) as H
    by (apply map_Forall_insert_2; [exact (Hok a b E)|done]).
  case_match; [|by injection Hf as <- <-].
  apply bind_Some in Hf as (tl & _ & Hf). apply bind_Some in Hf as (tb & Et & [= <- <-]).
  apply map_Forall_insert_2; [|done]. exact (H tl tb Et).
Qed.

Lemma buffers_ok_output {S} `{Sock : Socket S} fuel t (s : S) t' s' :
  output_loop fuel t s = Some (t', s') → buffers_ok t → buffers_ok t'.
Proof.
  revert t s; induction fuel as [|fuel IH]; intros t s; [done|]. cbn [output_loop].
  destruct (out_queue t) as [a|]; [|by intros [= -> ->]].
  destruct (heap t !! a) as [b|] eqn:E; [|done]. cbn [mbind option_bind].
  destruct (unsent b) as [bs|]; [|done]. cbn [mbind option_bind].
  destruct (send s bs) as [s1 rc]. intros Hf Hok.
  destruct (rc <? 0). { injection Hf as <- <-. by destruct (wouldblock s1). }
  destruct (rc =? 0). { by injection Hf as <- <-. }
  set (t1 := set_heap _ t) in Hf.
  assert (buffers_ok t1) as H1 by (apply map_Forall_insert_2; [exact (Hok a b E)|done]).
  destruct (remaining _ =? 0); [|by eapply IH].
  apply bind_Some in Hf as (t2 & Hfree & Hf). eapply IH; [done|].
  by eapply buffers_ok_free.
Qed.

(** A socket that takes all it is offered empties the queue. *)
Lemma output_all {S} `{Sock : Socket S} t (s : S) q f :
  (∀ s bs, Z.of_nat (length bs) <= 8192 → (send s bs).2 = Z.of_nat (length bs)) →
  transport_ok t q f → buffers_ok t →
  ∃ t' s' f', rl_transport_on_output_possible t s = Some (t', s') ∧ transport_ok t' [] f' ∧
    sk_out s' = sk_out s ++ pending t q ∧ buffers_ok t' ∧ inbuf t' = inbuf t ∧
    error t' = error t ∧ disconnect t' = disconnect t.
Proof.
  intros Htake Hok Hsz. unfold rl_transport_on_output_possible.
  pose proof (output_fuel_enough t q f Hok) as Hfuel.
  revert Hfuel. generalize (output_fuel t). revert t s f Hok Hsz.
  induction q as [|a q IH]; intros t s f Hok Hsz fuel Hfuel; (destruct fuel as [|fuel]; [lia|]).
  { exists t, s, f. pose proof (ok_queue _ _ _ Hok) as Hq. cbn in Hq. cbn [output_loop].
    rewrite Hq. by rewrite app_nil_r. }
  cbn [output_loop]. pose proof (ok_queue _ _ _ Hok) as [-> _].
  destruct (ok_bufs _ _ _ Hok a) as (b & Hb & Hbok); [set_solver|].
  destruct (unsent_ok _ Hbok) as (bs & Hun & Hlen & _).
  rewrite Hb. cbn [mbind option_bind]. rewrite Hun. cbn [mbind option_bind].
  destruct (Hsz _ _ Hb) as [_ Hbs], Hbok as [Hrem Hused].
  pose proof (Htake s bs ltac:(lia)) as Hrc. pose proof (send_out s bs) as Ho.
  destruct (send s bs) as [s' rc]. cbn [fst snd] in *. subst rc.
  rewrite Nat2Z.id, take_ge in Ho by lia. ztest.
  destruct (send_step _ _ _ _ _ _ (Z.of_nat (length bs)) Hok Hb Hun) as (Hp & _ & Hdone); [lia|].
  set (b' := set_remaining (remaining b - Z.of_nat (length bs)) b) in *.
  assert (H0 : remaining b' = 0) by (cbn; lia). rewrite H0. cbn [Z.eqb].
  destruct (Hdone H0) as (Hnil & Hok' & Hown & Hp').
  destruct (free_buffer_spec _ _ _ _ _ Hok' Hown)
    as (t' & f' & Hfree & Hok'' & Hp'' & Hin & _ & He & Hd & Hh).
  assert (rl_transport_free_buffer
    (set_queue (next b') (out_tail (set_heap (<[a := b']> (heap t)) t))
       (set_heap (<[a := b']> (heap t)) t)) a = Some t') as -> by exact Hfree.
  cbn [mbind option_bind]. rewrite Nat2Z.id, take_ge, drop_ge in Hp by lia. cbn [app] in Hp.
  assert (Hsz1 : buffers_ok t').
  { eapply buffers_ok_free; [exact Hfree|].
    apply map_Forall_insert_2; [exact (Hsz a b Hb)|done]. }
  rewrite Hp, length_app in Hfuel.
  destruct (IH t' s' f' Hok'' Hsz1 fuel) as (t2 & s2 & f2 & Hrun & Hok2 & Hs2 & Hsz2 & Hi2 & He2 & Hd2).
  { rewrite Hp'', Hp'. lia. }
  exists t2, s2, f2. split; [done|]. split; [done|]. cbn in Hin, He, Hd.
  split; [by rewrite Hs2, Hp'', Hp', Ho, Hp, <-app_assoc|]. split_and!; (done || congruence).
Qed.

(** The owner of a buffer fills it. *)
Lemma owned_update t q f a b b' :
  transport_ok t q f → owned t q f a b →
  let t' := set_heap (<[a := b']> (heap t)) t in
  transport_ok t' q f ∧ owned t' q f a b' ∧ pending t' q = pending t q.
Proof.
  intros [Hq Hf Hnd Hc Hp Ht Hb] [Ha Hn].
  assert ((a ∉ q) ∧ (a ∉ f)) as [Hnq Hnf] by set_solver. split_and!.
  - split; cbn; try done; [by apply chain_insert_ne..|].
    intros x Hx. rewrite lookup_insert_ne by set_solver. auto.
  - split; cbn; [by rewrite lookup_insert_eq|done].
  - apply pending_ext. intros. apply buf_bytes_insert_ne. set_solver.
Qed.
End Sizes.

(** ** Destruction *)
Section Destruction.
Context `{Alloc : Allocator}.
Implicit Types (t : rl_transport) (q f : list addr).

(** The buffers that exist are those of a list [q] from [p] on and those of the
    pool. *)
Record draining t (p : option addr) q f : Prop := {
  dr_queue : chain (heap t) p q;
  dr_pool : chain (heap t) (next_free_buffer t) f;
  dr_nodup : NoDup (q ++ f);
  dr_dom : dom (heap t) = list_to_set (q ++ f)
}.

Lemma draining_size t p q f : draining t p q f → size (heap t) = (length q + length f)%nat.
Proof.
  intros [_ _ Hnd Hd]. rewrite <- size_dom, Hd, size_list_to_set by done. apply length_app.
Qed.

(** Freeing the head of the list. *)
Lemma draining_free t a b q f :
  draining t (Some a) (a :: q) f → heap t !! a = Some b →
  ∃ t' f', rl_transport_free_buffer t a = Some t' ∧ draining t' (next b) q f'.
Proof.
  intros [(_ & b' & Hb' & Hq) Hf Hnd Hd] Hb.
  assert (b' = b) as -> by congruence. cbn in Hnd.
  apply NoDup_cons in Hnd as [Ha Hnd]. apply not_elem_of_app in Ha as [Haq Haf].
  unfold rl_transport_free_buffer. rewrite Hb. cbn [mbind option_bind]. case_match.
  - eexists _, f. split; [done|]. split; cbn; [by apply chain_delete_ne..|done|].
    rewrite dom_delete_L, Hd. set_solver.
  - eexists _, (a :: f). split; [done|]. split; cbn.
    + by apply chain_insert_ne.
    + split; [done|]. eexists. rewrite lookup_insert_eq. split; [done|]. by apply chain_insert_ne.
    + rewrite <- Permutation_middle. apply NoDup_cons. set_solver.
    + rewrite dom_insert_L, Hd. set_solver.
Qed.

Lemma free_queue_spec fuel t p q f :
  draining t p q f → (length q ≤ fuel)%nat →
  ∃ t' f', free_queue fuel p t = Some t' ∧ draining t' None [] f'.
Proof.
  revert t p f fuel. induction q as [|a q IH]; intros t p f fuel Hd Hfuel.
  { pose proof (dr_queue _ _ _ _ Hd) as Hp. cbn in Hp. subst p. exists t, f.
    by destruct fuel. }
  pose proof (dr_queue _ _ _ _ Hd) as (-> & b & Hb & _).
  destruct fuel as [|fuel]; [cbn in Hfuel; lia|]. cbn [free_queue]. rewrite Hb.
  cbn [mbind option_bind].
  destruct (draining_free _ _ _ _ _ Hd Hb) as (t1 & f1 & -> & Hd1). cbn [mbind option_bind].
  apply (IH t1 _ f1); [done|cbn in Hfuel; lia].
Qed.

Lemma free_pool_spec fuel t p f :
  chain (heap t) p f → NoDup f → dom (heap t) = list_to_set f → (length f ≤ fuel)%nat →
  ∃ t', free_pool fuel p t = Some t' ∧ heap t' = ∅.
Proof.
  revert t p fuel. induction f as [|a f IH]; intros t p fuel; cbn [chain].
  { intros -> _ Hd _. exists t. split; [by destruct fuel|]. by apply dom_empty_iff_L. }
  intros (-> & b & Hb & Hf) [Ha Hnd]%NoDup_cons Hd Hfuel.
  destruct fuel as [|fuel]; [cbn in Hfuel; lia|]. cbn [free_pool]. rewrite Hb.
  cbn [mbind option_bind]. apply IH; cbn; [by apply chain_delete_ne|done| |cbn in Hfuel; lia].
  rewrite dom_delete_L, Hd. set_solver.
Qed.

Lemma destroy_all t q f :
  transport_ok t q f → dom (heap t) = list_to_set (q ++ f) →
  ∃ t', rl_transport_destroy t = Some (set_inbuf (rl_iobuf_destroy (inbuf t')) t') ∧ heap t' = ∅.
Proof.
  intros [Hq Hf Hnd _ _ _ _] Hd. unfold rl_transport_destroy.
  assert (Hdr : draining t (out_queue t) q f) by done.
  destruct (free_queue_spec (size (heap t)) _ _ _ _ Hdr) as (t1 & f1 & -> & Hd1).
  { rewrite (draining_size _ _ _ _ Hdr). lia. }
  cbn [mbind option_bind]. pose proof (draining_size _ _ _ _ Hd1) as Hs.
  destruct Hd1 as [_ Hf1 Hnd1 Hdom1].
  destruct (free_pool_spec (size (heap t1)) t1 _ f1 Hf1 Hnd1 Hdom1) as (t2 & -> & Hh);
    [rewrite Hs; done|].
  cbn [mbind option_bind]. by eexists.
Qed.

(** C22: destroying a transport whose buffers are all queued or pooled returns
    every one of them to the allocator, each once, although the buffers of the
    queue pass through the pool on their way. *)
Theorem rl_transport_destroy_spec t q f :
  transport_ok t q f → dom (heap t) = list_to_set (q ++ f) →
  ∃ t', rl_transport_destroy t = Some t' ∧ heap t' = ∅ ∧ valid (inbuf t') = false.
Proof. intros Hok Hd. destruct (destroy_all t q f Hok Hd) as (t' & -> & Hh). by eexists. Qed.
End Destruction.

(** ** Concrete environments *)

(** An allocator that never fails, and one that always does. *)
#[refine] Definition ample_memory : Allocator := {| malloc h := Some (fresh (dom h)) |}.
Proof. intros h a [= <-]. apply not_elem_of_dom, is_fresh. Defined.
#[refine] Definition no_memory : Allocator := {| malloc _ := None |}.
Proof. done. Defined.

(** A non-blocking socket that moves at most [k] bytes a call: what was sent
    and what is still to be received. *)
#[refine] Definition chunk_socket (k : nat) : Socket (list Z * list Z) := {|
  send s bs := ((s.1 ++ take k bs, s.2), Z.of_nat (length (take k bs)));
  recv s n :=
    match take (k `min` n) s.2 with
    | [] => (s, (-1, []))
    | c :: cs => ((s.1, drop (k `min` n) s.2), (Z.of_nat (length (c :: cs)), c :: cs))
    end;
  wouldblock _ := true;
  sk_out := fst;
  sk_in := snd
|}.
Proof.
  - intros s bs. cbn. rewrite length_take. lia.
  - intros s bs. cbn. rewrite Nat2Z.id, length_take. destruct (decide (k ≤ length bs)%nat).
    + by rewrite Nat.min_l by lia.
    + by rewrite Nat.min_r, !take_ge by lia.
  - intros s n. destruct (take (k `min` n) s.2) as [|c cs] eqn:E.
    { split; [done|]. split; [cbn; lia|]. right. auto. }
    split; [cbn; rewrite <-(take_drop (k `min` n) s.2) at 1; by rewrite E|].
    split; [rewrite <-E, length_take; lia|]. left. cbn. lia.
Defined.

(** A transport with one message of five bytes to send. *)
Definition demo_transport : rl_transport :=
  let b := TBuf 8248 0 5 5 None 8 [1; 2; 3; 4; 5; 0; 0; 0] in
  Transport (IOBuf [] 0 0 true) {[ 1%positive := b ]} (Some 1%positive) (Some 1%positive)
    0 None false false.

Lemma demo_transport_ok : transport_ok demo_transport [1%positive] [].
Proof.
  split; cbn; try done.
  - split; [done|]. eexists. by rewrite lookup_singleton_eq.
  - apply NoDup_cons. split; [set_solver|constructor].
  - intros a ->%list_elem_of_singleton. eexists. rewrite lookup_singleton_eq.
    split; [done|]. split; cbn; lia.
Qed.

Lemma on_output_possible_spec_witness :
  ∃ t' s' q' f', rl_transport_on_output_possible 
      (Sock := chunk_socket 2) demo_transport ([], []) = Some (t', s') ∧
    transport_ok t' q' f' ∧
    sk_out (Socket := chunk_socket 2) s' ++ pending t' q' =
      [] ++ pending demo_transport [1%positive] ∧
    q' `suffix_of` [1%positive] ∧ inbuf t' = inbuf demo_transport ∧
    disconnect t' = disconnect demo_transport.
Proof.
  exact (on_output_possible_spec (Sock := chunk_socket 2)
    demo_transport ([], []) [1%positive] [] demo_transport_ok).
Defined.

(** The queued buffer passes through the pool. *)
Lemma rl_transport_destroy_spec_witness :
  ∃ t', rl_transport_destroy demo_transport = Some t' ∧ heap t' = ∅ ∧ valid (inbuf t') = false.
Proof. exact (rl_transport_destroy_spec _ _ [] demo_transport_ok eq_refl). Defined.
