(* ===== verification/Peer.v ===== *)
(** * Peer: peer.h and peer.c

    A peer is one end of a connection: the state machine of the handshake, the
    liveness pings, and the glue between the transport and the callbacks of its
    owner.  [W] is the state of that owner. *)

From S2P Require Import Prelude Wire Messages CString Format Transport.

(** ** Data *)
Inductive peer_state := PEER_INITIAL | PEER_WAIT_HANDSHAKE | PEER_CONNECTED
  | PEER_ERROR | PEER_DISCONNECTED.
#[export] Instance peer_state_eq_dec : EqDecision peer_state.
Proof. solve_decision. Defined.

Inductive peer_init_mode := PEER_INIT_CONTROLLER | PEER_INIT_TARGET.
#[export] Instance peer_init_mode_eq_dec : EqDecision peer_init_mode.
Proof. solve_decision. Defined.

Inductive peer_action := PEER_ACTION_RECEIVE_MESSAGE | PEER_ACTION_TRANSMIT_MESSAGE
  | PEER_ACTION_RECEIVE_HANDSHAKE | PEER_ACTION_TRANSMIT_HANDSHAKE
  | PEER_ACTION_DISCONNECT | PEER_ACTION_UPDATE.

#[export] Instance peer_action_eq_dec : EqDecision peer_action.
Proof. solve_decision. Defined.

Definition peer_state_index (s : peer_state) : nat :=
  match s with PEER_INITIAL => 0 | PEER_WAIT_HANDSHAKE => 1 | PEER_CONNECTED => 2
             | PEER_ERROR => 3 | PEER_DISCONNECTED => 4 end.
Definition peer_action_index (a : peer_action) : nat :=
  match a with PEER_ACTION_RECEIVE_MESSAGE => 0 | PEER_ACTION_TRANSMIT_MESSAGE => 1
             | PEER_ACTION_RECEIVE_HANDSHAKE => 2 | PEER_ACTION_TRANSMIT_HANDSHAKE => 3
             | PEER_ACTION_DISCONNECT => 4 | PEER_ACTION_UPDATE => 5 end.

Record peer := Peer {
  self_ptr : Z;                    (* the address of the structure *)
  state : peer_state;
  fd : Z;
  ident : list Z;                  (* the text in [ident] *)
  peer_index : Z;
  transport : rl_transport;
  update_result : Z;
  init_mode : peer_init_mode;
  last_activity : Z;
  ping_on_wire : bool
}.

Definition set_state (s : peer_state) (p : peer) : peer :=
  Peer (self_ptr p) s (fd p) (ident p) (peer_index p) (transport p) (update_result p)
    (init_mode p) (last_activity p) (ping_on_wire p).
Definition set_transport (t : rl_transport) (p : peer) : peer :=
  Peer (self_ptr p) (state p) (fd p) (ident p) (peer_index p) t (update_result p)
    (init_mode p) (last_activity p) (ping_on_wire p).
Definition set_activity (time : Z) (p : peer) : peer :=
  Peer (self_ptr p) (state p) (fd p) (ident p) (peer_index p) (transport p) (update_result p)
    (init_mode p) time (ping_on_wire p).
Definition set_ping (b : bool) (p : peer) : peer :=
  Peer (self_ptr p) (state p) (fd p) (ident p) (peer_index p) (transport p) (update_result p)
    (init_mode p) (last_activity p) b.
Definition set_result (r : Z) (p : peer) : peer :=
  Peer (self_ptr p) (state p) (fd p) (ident p) (peer_index p) (transport p) r
    (init_mode p) (last_activity p) (ping_on_wire p).
Definition set_index (i : Z) (p : peer) : peer :=
  Peer (self_ptr p) (state p) (fd p) (ident p) i (transport p) (update_result p)
    (init_mode p) (last_activity p) (ping_on_wire p).

Definition RL_PING_TIMEOUT : Z := 30.
Definition PEER_STATUS_NEED_OUTPUT : Z := Z.shiftl 1 0.
Definition PEER_STATUS_REMOVE_ME : Z := Z.shiftl 1 1.
Definition RLAUNCH_VER_MAJOR : Z := 1.
Definition RLAUNCH_VER_MINOR : Z := 0.

(** ** The host: what the build and the operating system decide *)
Record utsname := Utsname {
  sysname : list Z; nodename : list Z; release : list Z; version : list Z; machine : list Z
}.
Inductive platform :=
  | Amiga (lib_Version : Z)
  | Posix (uname_data : option utsname).       (* [None]: [uname] fails *)

Class Host := {
  BIG_ENDIAN : bool;
  word_bits : Z;
  buf_header_size : Z;                         (* sizeof(rl_transport_buf_t) *)
  plat : platform;
  inet_ntoa : Z → list Z
}.
Definition is_amiga `{Host} : bool := match plat with Amiga _ => true | Posix _ => false end.

Inductive sockaddr := AF_INET (s_addr sin_port : Z) | AF_OTHER.

(** The callbacks of the owner, and its clock. *)
Class PeerCallbacks (W : Type) := {
  on_message : peer → W → rl_msg → option (peer * W * Z);
  on_connected : peer → W → option (peer * W * Z);
  rl_time : W → W * Z
}.

(** The text that [rl_format_msg] leaves in a local array of [size] bytes. *)
Definition format_text `{Host} (size : nat) (fmt : list Z) (args : list va_item)
  : option (list Z) :=
  '(buffer, _) ← rl_format_msg word_bits is_amiga (replicate size 0) size fmt args;
  cstr_at buffer.

Lemma format_text_spec `{Host} size fmt args text :
  render word_bits is_amiga fmt args = Some text → no_nul text → (0 < size)%nat →
  format_text size fmt args = Some (take (size - 1) text).
Proof.
  intros Hr Hn Hs. unfold format_text.
  rewrite (rl_format_msg_ok _ _ _ _ _ _ text) by (done || rewrite length_replicate; lia).
  cbn [mbind option_bind]. apply cstr_at_app. by apply Forall_take.
Qed.

Section Peer.
Context `{HHost : Host} `{Alloc : Allocator}.

Definition enqueue_output_message (p : peer) (msg : rl_msg) : option (peer * Z) :=
  '(buf, t) ← rl_transport_alloc_buffer buf_header_size (transport p);
  match buf with
  | None => Some (set_transport t p, -1)
  | Some a =>
      b ← heap t !! a;
      '(bytes, used) ← rl_encode_msg BIG_ENDIAN msg (buffer b) (s32 (buffer_size b));
      match used with
      | None =>
          let t := set_heap (<[a := set_message bytes (used_size b) b]> (heap t)) t in
          t ← rl_transport_free_buffer t a;
          Some (set_transport t p, -1)
      | Some used =>
          let b := set_userdata (self_ptr p) (set_message bytes used b) in
          let t := set_heap (<[a := b]> (heap t)) t in
          '(t, rc) ← rl_transport_add_output_message t a;
          if negb (rc =? 0) then
            t ← rl_transport_free_buffer t a;
            Some (set_transport t p, -1)
          else Some (set_transport t p, 0)
      end
  end.

(** The handshake message of this host. *)
Definition handshake_message : option rl_msg :=
  '(platform_name, node_name, platform_version) ←
    match plat with
    | Amiga v =>
        version ← format_text 128 (cstr "Kickstart V%d") [VInt v];
        Some (chars "AmigaOS", chars "unknown", version)
    | Posix (Some u) =>
        version ← format_text 128 (cstr "%s %s (%s)")
          [VStr (version u ++ [0]); VStr (release u ++ [0]); VStr (machine u ++ [0])];
        Some (sysname u, nodename u, version)
    | Posix None =>
        (* [platform_name] is not assigned: encoding it reads a wild pointer *)
        None
    end;
  Some (RL_MSG_INIT (handshake_request RLAUNCH_VER_MAJOR RLAUNCH_VER_MINOR
          node_name platform_name platform_version (chars "****")) 0).

(** ** The state machine *)
Section StateMachine.
Context {W : Type} `{CB : PeerCallbacks W}.

Definition peer_set_state (self : peer) (w : W) (new_state : peer_state)
  : option (peer * W) :=
  if decide (state self = new_state) then Some (self, w) else
  let self := set_state new_state self in
  if decide (new_state = PEER_CONNECTED) then
    '(self, w, _) ← on_connected self w;
    Some (self, w)
  else Some (self, w).

Definition peer_action_fn : Type := peer → W → option rl_msg → option (peer * W).

(** The handlers call [invoke_action] back. *)
Section Handlers.
Context (invoke_action : peer → W → peer_action → option rl_msg → option (peer * W)).

Definition on_transmit_handshake : peer_action_fn := λ self w _,
  msg ← handshake_message;
  '(self, rc) ← enqueue_output_message self msg;
  if negb (rc =? 0) then peer_set_state self w PEER_ERROR
  else peer_set_state self w PEER_WAIT_HANDSHAKE.

Definition on_receive_handshake : peer_action_fn := λ self w param,
  msg ← param;
  match body msg with
  | handshake_request version_major version_minor _ _ _ _ =>
      if (version_major =? RLAUNCH_VER_MAJOR) && (version_major =? RLAUNCH_VER_MAJOR) then
        '(self, w) ←
          (if decide (init_mode self = PEER_INIT_TARGET)
           then invoke_action self w PEER_ACTION_TRANSMIT_HANDSHAKE None
           else Some (self, w));
        peer_set_state self w PEER_CONNECTED
      else peer_set_state self w PEER_ERROR
  | _ => None
  end.

Definition on_transmit_message : peer_action_fn := λ self w param,
  msg ← param;
  '(self, rc) ← enqueue_output_message self msg;
  if negb (rc =? 0) then peer_set_state self w PEER_ERROR else Some (self, w).

Definition on_receive_message : peer_action_fn := λ self w param,
  msg ← param;
  let '(w, now) := rl_time w in
  let self := set_activity now self in
  if hdr_type msg =? RL_MSG_PING_REQUEST then
    invoke_action self w PEER_ACTION_TRANSMIT_MESSAGE
      (Some (RL_MSG_INIT ping_answer (hdr_seq msg)))
  else if hdr_type msg =? RL_MSG_PING_ANSWER then Some (set_ping false self, w)
  else
    '(self, w, rc) ← on_message self w msg;
    if negb (rc =? 0) then peer_set_state self w PEER_ERROR else Some (self, w).

Definition on_disconnect : peer_action_fn := λ self w _,
  peer_set_state self w PEER_DISCONNECTED.

Definition action_nop : peer_action_fn := λ self w _, Some (self, w).

Definition on_update_connected : peer_action_fn := λ self w _,
  let '(w, now) := rl_time w in
  let time_diff := now - last_activity self in
  let threshold := if decide (init_mode self = PEER_INIT_TARGET)
                   then RL_PING_TIMEOUT else RL_PING_TIMEOUT + 1 in
  if (threshold <? time_diff) && negb (ping_on_wire self) then
    '(self, w) ← invoke_action self w PEER_ACTION_TRANSMIT_MESSAGE
                   (Some (RL_MSG_INIT ping_request 0));
    Some (set_ping true self, w)
  else if ping_on_wire self && (Z.shiftl threshold 1 <? time_diff) then
    peer_set_state self w PEER_ERROR
  else Some (self, w).

Definition state_actions : list (list (option peer_action_fn)) :=
  [ (* PEER_INITIAL *)
    [None; None; None; Some on_transmit_handshake; None; Some action_nop];
    (* PEER_WAIT_HANDSHAKE *)
    [None; None; Some on_receive_handshake; Some on_transmit_handshake;
     Some on_disconnect; Some action_nop];
    (* PEER_CONNECTED *)
    [Some on_receive_message; Some on_transmit_message; None; None;
     Some on_disconnect; Some on_update_connected];
    (* PEER_ERROR *)
    [None; None; None; None; Some on_disconnect; Some action_nop];
    (* PEER_DISCONNECTED *)
    [None; None; None; None; Some action_nop; Some action_nop] ].
End Handlers.

(** [fuel] bounds the nesting of actions. *)
Fixpoint invoke_at (fuel : nat) (self : peer) (w : W) (action : peer_action)
    (arg : option rl_msg) : option (peer * W) :=
  match fuel with
  | O => None
  | S fuel =>
      row ← state_actions (invoke_at fuel) !! peer_state_index (state self);
      fn ← row !! peer_action_index action;
      match fn with
      | Some fn => fn self w arg
      | None => peer_set_state self w PEER_ERROR
      end
  end.

(** A handler nests one more action at most (see [invoke_at_fuel]). *)
Definition invoke_action := invoke_at 2.
End StateMachine.

(** An owner without callbacks, for the actions that never call back. *)
Definition no_callbacks : PeerCallbacks unit := {|
  on_message _ _ _ := None;
  on_connected _ _ := None;
  rl_time w := (w, 0)
|}.

(** Transmission never reaches a callback (see [transmit_no_callback]), so it
    does not depend on the owner: the owners' callbacks call this. *)
Definition peer_transmit_message (self : peer) (msg : rl_msg) : option (peer * Z) :=
  '(self, _) ← invoke_at (CB := no_callbacks) 1 self () PEER_ACTION_TRANSMIT_MESSAGE (Some msg);
  Some (self, 0).

(** ** Callbacks of the transport *)
Definition peer_peek_incoming (buf : list Z) (len : Z) : Z :=
  if len <? 4 then 4 else
  match buf !! 2%nat, buf !! 3%nat with
  | Some b2, Some b3 => u16 (Z.lor (Z.shiftl b2 8) b3)
  | _, _ => 0
  end.

Section Owner.
Context {W : Type} `{CB : PeerCallbacks W}.

(** The transport is a field of the peer: it is put back first, and taken
    out again afterwards. *)
Definition peer_deliver_incoming (t : rl_transport) (u : peer * W) (buf : list Z) (len : Z)
  : option (rl_transport * (peer * W) * Z) :=
  let p := set_transport t u.1 in
  msg ← rl_decode_msg BIG_ENDIAN buf (s32 len);
  match msg with
  | None => Some (t, u, 1)
  | Some msg =>
      '(p, w) ←
        (if rl_msg_kind_of msg =? RL_MSG_HANDSHAKE_REQUEST
         then invoke_action p u.2 PEER_ACTION_RECEIVE_HANDSHAKE (Some msg)
         else invoke_action p u.2 PEER_ACTION_RECEIVE_MESSAGE (Some msg));
      Some (transport p, (p, w), 0)
  end.

(** [ident]: the address of the other end. *)
Definition peer_ident (address : sockaddr) : option (list Z) :=
  match address with
  | AF_INET s_addr sin_port =>
      addr_buffer ←
        (if is_amiga then
           format_text 64 (cstr "%d.%d.%d.%d")
             [VInt (Z.land (Z.shiftr s_addr 24) 255); VInt (Z.land (Z.shiftr s_addr 16) 255);
              VInt (Z.land (Z.shiftr s_addr 8) 255); VInt (Z.land s_addr 255)]
         else format_text 64 (cstr "%s") [VStr (inet_ntoa s_addr ++ [0])]);
      format_text 32 (cstr "%s:%d") [VStr (addr_buffer ++ [0]); VInt sin_port]
  | AF_OTHER => format_text 32 (cstr "<non-tcp/ip address>") []
  end.

(** [block] is the input buffer the allocator gives, [peer_count] the
    static counter. *)
Definition peer_init (self_ptr fd : Z) (address : sockaddr) (mode : peer_init_mode)
    (w : W) (block : option (list Z)) (peer_count : Z)
  : option ((peer * W * Z) * Z) :=
  let '(w, now) := rl_time w in
  '(t, rc) ← rl_transport_init block;
  let self := Peer self_ptr PEER_INITIAL fd [] 0 t 0 mode now false in
  if negb (rc =? 0) then Some ((self, w, 1), peer_count) else
  id ← peer_ident address;
  let self := Peer self_ptr PEER_INITIAL fd id 0 t 0 mode now false in
  '(self, w) ←
    (if decide (mode = PEER_INIT_CONTROLLER)
     then invoke_action self w PEER_ACTION_TRANSMIT_HANDSHAKE None
     else peer_set_state self w PEER_WAIT_HANDSHAKE);
  Some ((set_index (Z.rem peer_count 10) self, w, 0), peer_count + 1).

Section Sockets.
Context {S : Type} `{Sock : Socket S}.

Definition peer_update (self : peer) (w : W) (sock : S) (can_read can_write : bool)
  : option (peer * W * S * Z) :=
  '(t, sock) ←
    (if can_read then rl_transport_on_input_arrived (transport self) sock
     else Some (transport self, sock));
  '(t, sock) ←
    (if can_write then rl_transport_on_output_possible t sock else Some (t, sock));
  '(t, (self, w), transport_status) ←
    rl_transport_update peer_peek_incoming peer_deliver_incoming t (self, w);
  let self := set_transport t self in
  '(self, w) ←
    (if negb (Z.land RL_TRANSPORT_ERROR transport_status =? 0)
     then invoke_action self w PEER_ACTION_DISCONNECT None else Some (self, w));
  '(self, w) ←
    (if negb (Z.land RL_TRANSPORT_DISCONNECTED transport_status =? 0)
     then invoke_action self w PEER_ACTION_DISCONNECT None else Some (self, w));
  '(self, w) ← invoke_action self w PEER_ACTION_UPDATE None;
  '(t, sock) ← rl_transport_on_output_possible (transport self) sock;
  let self := set_transport t self in
  let result :=
    if bool_decide (state self = PEER_ERROR) || bool_decide (state self = PEER_DISCONNECTED)
    then PEER_STATUS_REMOVE_ME
    else if negb (Z.land RL_TRANSPORT_NEED_OUTPUT transport_status =? 0)
    then PEER_STATUS_NEED_OUTPUT else 0 in
  Some (set_result result self, w, sock, result).
End Sockets.
End Owner.

(** The socket is closed by the caller's environment; what remains is the
    transport's memory. *)
Definition peer_destroy (self : peer) : option peer :=
  t ← rl_transport_destroy (transport self);
  Some (set_transport t self).
End Peer.

(** ** The interface a peer offers to the components that answer messages

    [transmit] never reports a failure ([transmit_zero]): a message is either queued behind the
    earlier ones, or the link goes down and stays down. *)
Definition msg_ok (m : rl_msg) : Prop := wf_msg m ∧ wire_length m <= 8192.

Class PeerLink (P : Type) := {
  transmit : P → rl_msg → option (P * Z);
  link_sent : P → list rl_msg → Prop;
  link_down : P → Prop;
  transmit_sent p ms m : link_sent p ms → msg_ok m →
    ∃ p', transmit p m = Some (p', 0) ∧ (link_sent p' (ms ++ [m]) ∨ link_down p');
  transmit_down p m : link_down p → ∃ p', transmit p m = Some (p', 0) ∧ link_down p';
  transmit_zero p m p' rc : transmit p m = Some (p', rc) → rc = 0
}.

(** A link that only records: the simplest implementation. *)
#[refine] Definition log_link : PeerLink (list rl_msg) := {|
  transmit p m := Some (p ++ [m], 0);
  link_sent p ms := p = ms;
  link_down _ := False
|}.
Proof.
  - intros p ms m -> _. eauto.
  - done.
  - by intros p m p' rc [= _ <-].
Defined.

Section Facts.
Context `{HHost : Host} `{Alloc : Allocator}.
Implicit Types (p : peer) (m : rl_msg).

(** ** The nesting of actions *)
Section Nesting.
Context {W : Type} `{CB : PeerCallbacks W}.
Implicit Types (w : W).

Definition is_transmit (a : peer_action) : bool :=
  match a with
  | PEER_ACTION_TRANSMIT_MESSAGE | PEER_ACTION_TRANSMIT_HANDSHAKE => true
  | _ => false
  end.

(** Transmission nests nothing ... *)
Lemma transmit_fuel n p w a arg :
  is_transmit a = true → invoke_at (S n) p w a arg = invoke_at 1 p w a arg.
Proof. destruct a; try done; intros _; by destruct (state p) eqn:E; cbn; rewrite E. Qed.

(** ... and the other actions nest only transmissions. *)
Lemma invoke_at_ext k1 k2 p w a arg :
  (∀ p w a arg, is_transmit a = true → invoke_at k1 p w a arg = invoke_at k2 p w a arg) →
  invoke_at (S k1) p w a arg = invoke_at (S k2) p w a arg.
Proof.
  intros H. cbn [invoke_at].
  destruct (state p), a; try done; cbn [state_actions peer_state_index peer_action_index
    lookup list_lookup mbind option_bind].
  - unfold on_receive_handshake. destruct arg as [msg|]; [|done].
    cbn [mbind option_bind]. destruct (body msg); try done. case_match; [|done].
    case_decide; [|done]. by rewrite H.
  - unfold on_receive_message. destruct arg as [msg|]; [|done]. cbn [mbind option_bind].
    destruct (rl_time w) as [w' now]. case_match; [|done]. by rewrite H.
  - unfold on_update_connected. destruct (rl_time w) as [w' now].
    destruct (_ && _); [|done]. by rewrite H.
Qed.

Lemma invoke_at_fuel n p w a arg :
  invoke_at (S (S n)) p w a arg = invoke_action p w a arg.
Proof. apply invoke_at_ext. intros. by apply transmit_fuel. Qed.

(** Transmission never reaches a callback: the owner's state is unchanged
    and plays no role. *)
Lemma transmit_no_callback n p w msg :
  invoke_at (S n) p w PEER_ACTION_TRANSMIT_MESSAGE (Some msg) =
    ('(p', _) ← peer_transmit_message p msg; Some (p', w)).
Proof.
  rewrite transmit_fuel by done. unfold peer_transmit_message. cbn [invoke_at].
  destruct (state p) eqn:E; cbn [state_actions peer_state_index peer_action_index
    lookup list_lookup mbind option_bind].
  1,2,4,5: unfold peer_set_state; case_decide; try done; by case_decide.
  unfold on_transmit_message. cbn [mbind option_bind].
  destruct (enqueue_output_message p msg) as [[p' rc]|]; cbn [mbind option_bind]; [|done].
  destruct (negb (rc =? 0)); [|done].
  unfold peer_set_state. case_decide; try done; by case_decide.
Qed.
End Nesting.

(** ** Queueing a message *)
Record peer_ok (p : peer) (q f : list addr) : Prop := {
  po_transport : transport_ok (transport p) q f;
  po_buffers : buffers_ok (transport p)
}.

(** The stream a peer still has to write. *)
Definition peer_pending (p : peer) (q : list addr) : list Z := pending (transport p) q.

Lemma wire_length_bytes m : wf_msg m → Z.of_nat (length (wire_bytes m)) = wire_length m.
Proof. intros. unfold wire_bytes, wire_length. llen. Qed.

Lemma enqueue_spec p q f m :
  peer_ok p q f → msg_ok m →
  ∃ t' rc q' f', enqueue_output_message p m = Some (set_transport t' p, rc) ∧
    peer_ok (set_transport t' p) q' f' ∧ inbuf t' = inbuf (transport p) ∧
    error t' = error (transport p) ∧ disconnect t' = disconnect (transport p) ∧
    (dom (heap (transport p)) = list_to_set (q ++ f) → dom (heap t') = list_to_set (q' ++ f')) ∧
    (rc = 0 ∧ pending t' q' = peer_pending p q ++ wire_bytes m ∨
     rc = -1 ∧ pending t' q' = peer_pending p q ∧ malloc (heap (transport p)) = None).
Proof.
  intros [Hok Hsz] [Hwf Hlen]. unfold enqueue_output_message.
  destruct (alloc_buffer_spec buf_header_size _ _ _ Hok)
    as (r & t1 & Halloc & Hin1 & Hp1 & He1 & Hd1 & Hr).
  pose proof (buffers_ok_alloc _ _ _ _ Halloc Hsz) as Hsz1.
  rewrite Halloc. cbn [mbind option_bind].
  destruct r as [a|].
  2:{ destruct Hr as [-> Hmem]. exists (transport p), (-1), q, f. split; [done|]. split; [by split|].
      by split_and!; auto. }
  destruct Hr as (b & f1 & Hown & Hnext & Hok1 & _ & Hdom1).
  destruct (buffers_ok_lookup _ _ _ Hsz1 (proj1 Hown)) as [Hbs Hbl].
  rewrite (proj1 Hown). cbn [mbind option_bind]. rewrite Hbs.
  change (s32 8192) with 8192.
  rewrite rl_encode_msg_spec; [|done|done|by rewrite Hbl|by eapply Z.le_lt_trans]. cbn [mbind option_bind].
  set (b1 := set_userdata _ _).
  pose proof (wire_length_bytes _ Hwf) as Hwl.
  assert (8 <= wire_length m) by (unfold wire_length; lia).
  assert (Z.of_nat (length (buffer b1)) = 8192) as Hb1.
  { cbn [b1 set_userdata set_message buffer]. rewrite length_app, length_drop. lia. }
  destruct (owned_update _ _ _ _ _ b1 Hok1 Hown) as (Hok2 & Hown2 & Hp2).
  destruct (add_output_spec _ _ _ _ b1 (wire_bytes m) Hok2 Hown2)
    as (t3 & Hadd & Hok3 & Hp3 & Hin3 & He3 & Hd3 & Hdom3).
  { exact Hnext. }
  { rewrite Hb1. cbn. lia. }
  { cbn [b1 set_userdata set_message buffer used_size].
    by rewrite take_app_length' by lia. }
  rewrite Hadd. cbn [mbind option_bind negb Z.eqb].
  exists t3, 0, (q ++ [a]), f1. split; [done|]. split.
  { split; [done|]. eapply buffers_ok_add; [done|]. by apply buffers_ok_insert. }
  cbn in Hin3, He3, Hd3, Hdom3. split_and!; try congruence.
  { intros Hd. rewrite Hdom3, dom_insert_L, (Hdom1 Hd). set_solver. }
  left. split; [done|].
  unfold peer_pending. by rewrite Hp3, Hp2, Hp1.
Qed.
End Facts.

(** ** Transmission *)
Section Transmit.
Context `{HHost : Host} `{Alloc : Allocator}.
Implicit Types (p : peer) (m : rl_msg).

Lemma set_state_transport s p : transport (set_state s p) = transport p.
Proof. done. Qed.

(** Outside [PEER_CONNECTED] nothing is sent: the peer becomes erroneous. *)
Lemma transmit_not_connected p m :
  state p ≠ PEER_CONNECTED →
  ∃ p', peer_transmit_message p m = Some (p', 0) ∧
    state p' = PEER_ERROR ∧ transport p' = transport p.
Proof.
  intros Hs. unfold peer_transmit_message. cbn [invoke_at].
  destruct (state p) eqn:E; try done; cbn [state_actions peer_state_index
    peer_action_index lookup list_lookup mbind option_bind]; unfold peer_set_state.
  all: case_decide as Hd; [by exists p|]; rewrite decide_False by done.
  all: cbn [mbind option_bind]; by exists (set_state PEER_ERROR p).
Qed.

Lemma transmit_connected p q f m :
  state p = PEER_CONNECTED → peer_ok p q f → msg_ok m →
  ∃ p' q' f', peer_transmit_message p m = Some (p', 0) ∧ peer_ok p' q' f' ∧
    (state p' = PEER_CONNECTED ∧ peer_pending p' q' = peer_pending p q ++ wire_bytes m ∨
     state p' = PEER_ERROR ∧ peer_pending p' q' = peer_pending p q ∧
       malloc (heap (transport p)) = None).
Proof.
  intros Hs Hok Hm. unfold peer_transmit_message. cbn [invoke_at]. rewrite Hs.
  cbn [state_actions peer_state_index peer_action_index lookup list_lookup mbind option_bind].
  unfold on_transmit_message. cbn [mbind option_bind].
  destruct (enqueue_spec p q f m Hok Hm)
    as (t' & rc & q' & f' & -> & Hok' & _ & _ & _ & _ & Hrc).
  cbn [mbind option_bind].
  destruct Hrc as [[-> Hp]|(-> & Hp & Hmem)]; cbn [negb Z.eqb].
  - cbn [mbind option_bind]. exists (set_transport t' p), q', f'.
    split; [done|]. split; [done|]. by left.
  - unfold peer_set_state. cbn [state set_transport]. rewrite Hs.
    rewrite decide_False by done. rewrite decide_False by done. cbn [mbind option_bind].
    exists (set_state PEER_ERROR (set_transport t' p)), q', f'.
    split; [done|]. split; [by destruct Hok'; split|]. by right.
Qed.

(** What transmission leaves alone. *)
Record same_end (p p' : peer) : Prop := {
  se_ptr : self_ptr p' = self_ptr p;
  se_index : peer_index p' = peer_index p;
  se_mode : init_mode p' = init_mode p;
  se_activity : last_activity p' = last_activity p;
  se_inbuf : inbuf (transport p') = inbuf (transport p);
  se_error : error (transport p') = error (transport p);
  se_disconnect : disconnect (transport p') = disconnect (transport p)
}.

Lemma transmit_same_end p q f m p' rc :
  peer_ok p q f → msg_ok m → peer_transmit_message p m = Some (p', rc) → same_end p p'.
Proof.
  intros Hok Hm. destruct (decide (state p = PEER_CONNECTED)) as [Hs|Hs].
  - unfold peer_transmit_message. cbn [invoke_at]. rewrite Hs.
    cbn [state_actions peer_state_index peer_action_index lookup list_lookup mbind option_bind].
    unfold on_transmit_message. cbn [mbind option_bind].
    destruct (enqueue_spec p q f m Hok Hm) as (t' & r & q' & f' & -> & _ & Hi & He & Hd & _).
    cbn [mbind option_bind]. destruct (negb (r =? 0)); cbn [mbind option_bind].
    + unfold peer_set_state. cbn [state set_transport]. rewrite Hs, !decide_False by done.
      cbn [mbind option_bind]. by intros [= <- _].
    + by intros [= <- _].
  - unfold peer_transmit_message. cbn [invoke_at].
    destruct (state p) eqn:E; try done; cbn [state_actions peer_state_index
      peer_action_index lookup list_lookup mbind option_bind]; unfold peer_set_state.
    all: repeat (case_decide; cbn [mbind option_bind]); try done; by intros [= <- _].
Qed.

(** Relative to the bytes [base] that were pending, a connected peer has queued
    exactly the encodings of the messages. *)
Definition sends (base : list Z) p (ms : list rl_msg) : Prop :=
  state p = PEER_CONNECTED ∧ ∃ q f, peer_ok p q f ∧
    peer_pending p q = base ++ concat (wire_bytes <$> ms).

Lemma sends_transmit base p ms m :
  sends base p ms → msg_ok m →
  ∃ p', peer_transmit_message p m = Some (p', 0) ∧
    (sends base p' (ms ++ [m]) ∨ state p' = PEER_ERROR ∧ malloc (heap (transport p)) = None).
Proof.
  intros (Hs & q & f & Hok & Hp) Hm.
  destruct (transmit_connected p q f m Hs Hok Hm)
    as (p' & q' & f' & Ht & Hok' & [[Hs' Hp']|(Hs' & _ & Hmem)]);
    exists p'; (split; [done|]); [left|by right].
  split; [done|]. exists q', f'. split; [done|].
  rewrite Hp', Hp, fmap_app, concat_app. cbn. by rewrite app_nil_r, app_assoc.
Qed.

Lemma peer_transmit_zero p m p' rc : peer_transmit_message p m = Some (p', rc) → rc = 0.
Proof. unfold peer_transmit_message. by intros ([p1 w] & _ & [= _ <-])%bind_Some. Qed.

(** So a connected peer implements the link. *)
#[refine] Definition peer_link (base : list Z) : PeerLink peer := {|
  transmit := peer_transmit_message;
  link_sent := sends base;
  link_down p := state p = PEER_ERROR;
  transmit_zero := peer_transmit_zero
|}.
Proof.
  - intros p ms m Hs Hm.
    destruct (sends_transmit base p ms m Hs Hm) as (p' & Ht & [Hs'|[Hs' _]]); eauto.
  - intros p m Hs. destruct (transmit_not_connected p m) as (p' & Ht & Hs' & _);
      [by rewrite Hs|]. eauto.
Defined.

(** Where memory does not run out, it stays up. *)
#[refine] Definition live_link (memory : ∀ h, malloc h ≠ None) (base : list Z) : PeerLink peer := {|
  transmit := peer_transmit_message;
  link_sent := sends base;
  link_down _ := False;
  transmit_zero := peer_transmit_zero
|}.
Proof.
  - intros p ms m Hs Hm.
    destruct (sends_transmit base p ms m Hs Hm) as (p' & Ht & [Hs'|[_ Hmem]]); [by eauto|].
    by apply memory in Hmem.
  - done.
Defined.

(** ** The state machine *)
Section Safety.
Context {W : Type} `{CB : PeerCallbacks W}.
Implicit Types (w : W).

Lemma set_state_other p w s :
  s ≠ PEER_CONNECTED →
  peer_set_state p w s = Some (if decide (state p = s) then p else set_state s p, w).
Proof. intros. unfold peer_set_state. case_decide; [done|]. by rewrite decide_False. Qed.

Lemma set_state_self s p : state p = s → set_state s p = p.
Proof. destruct p. cbn. by intros ->. Qed.

Lemma set_state_other' p w s :
  s ≠ PEER_CONNECTED → peer_set_state p w s = Some (set_state s p, w).
Proof.
  intros. rewrite set_state_other by done. case_decide; [|done]. by rewrite set_state_self.
Qed.

Definition defined_actions (s : peer_state) : list peer_action :=
  match s with
  | PEER_INITIAL => [PEER_ACTION_TRANSMIT_HANDSHAKE; PEER_ACTION_UPDATE]
  | PEER_WAIT_HANDSHAKE => [PEER_ACTION_RECEIVE_HANDSHAKE; PEER_ACTION_TRANSMIT_HANDSHAKE;
                            PEER_ACTION_DISCONNECT; PEER_ACTION_UPDATE]
  | PEER_CONNECTED => [PEER_ACTION_RECEIVE_MESSAGE; PEER_ACTION_TRANSMIT_MESSAGE;
                       PEER_ACTION_DISCONNECT; PEER_ACTION_UPDATE]
  | PEER_ERROR | PEER_DISCONNECTED => [PEER_ACTION_DISCONNECT; PEER_ACTION_UPDATE]
  end.

Lemma undefined_action n p w a arg :
  a ∉ defined_actions (state p) →
  invoke_at (S n) p w a arg = Some (set_state PEER_ERROR p, w).
Proof.
  intros Ha. cbn [invoke_at].
  destruct (state p), a; try (exfalso; apply Ha; set_solver);
    cbn [state_actions peer_state_index peer_action_index lookup list_lookup mbind
         option_bind]; by apply set_state_other'.
Qed.

(** The states a peer that is not connected can reach without the
    handshake of the other end. *)
Lemma unconnected_step n p w a arg p' w' :
  state p ≠ PEER_CONNECTED → a ≠ PEER_ACTION_RECEIVE_HANDSHAKE →
  invoke_at (S n) p w a arg = Some (p', w') → state p' ≠ PEER_CONNECTED ∧ w' = w.
Proof.
  intros Hs Ha Hrun. destruct (decide (a ∈ defined_actions (state p))) as [Hd|Hd].
  2:{ rewrite undefined_action in Hrun by done. by injection Hrun as <- <-. }
  cbn [invoke_at] in Hrun.
  destruct (state p) eqn:E; try done; destruct a; try done;
    try (exfalso; set_solver); cbn [state_actions peer_state_index peer_action_index
      lookup list_lookup mbind option_bind] in Hrun; rewrite ?set_state_other' in Hrun by done.
  all: try (unfold action_nop, on_disconnect in Hrun;
    rewrite ?set_state_other' in Hrun by done; injection Hrun as <- <-; cbn; by rewrite ?E).
  all: unfold on_transmit_handshake in Hrun;
    apply bind_Some in Hrun as (m & _ & Hrun);
    apply bind_Some in Hrun as ([p1 rc] & _ & Hrun);
    destruct (negb (rc =? 0)); rewrite set_state_other' in Hrun by done;
    injection Hrun as <- <-; done.
Qed.

(** C17: a peer becomes connected only by receiving, while it waits for it, a
    handshake with its own major version; until then no message reaches its
    owner. *)
Theorem connected_by_handshake p w a arg p' w' :
  state p ≠ PEER_CONNECTED →
  invoke_action p w a arg = Some (p', w') →
  (state p' = PEER_CONNECTED →
     state p = PEER_WAIT_HANDSHAKE ∧ a = PEER_ACTION_RECEIVE_HANDSHAKE ∧
     ∃ msg min node plat ver pwd, arg = Some msg ∧
       body msg = handshake_request RLAUNCH_VER_MAJOR min node plat ver pwd) ∧
  (state p' ≠ PEER_CONNECTED → a ≠ PEER_ACTION_RECEIVE_HANDSHAKE → w' = w).
Proof.
  intros Hs Hrun. split; [|intros _ Ha; by eapply unconnected_step].
  intros Hs'. destruct (decide (a = PEER_ACTION_RECEIVE_HANDSHAKE)) as [->|Ha].
  2:{ by destruct (unconnected_step 1 p w a arg p' w' Hs Ha Hrun). }
  destruct (decide (state p = PEER_WAIT_HANDSHAKE)) as [Hw|Hw].
  2:{ unfold invoke_action in Hrun. rewrite undefined_action in Hrun.
      - by injection Hrun as <- <-.
      - destruct (state p); cbn; set_solver. }
  split; [done|]. split; [done|]. unfold invoke_action in Hrun.
  remember 1%nat as n. cbn [invoke_at] in Hrun. rewrite Hw in Hrun.
  cbn [state_actions peer_state_index peer_action_index lookup list_lookup mbind
    option_bind] in Hrun.
  unfold on_receive_handshake in Hrun. destruct arg as [msg|]; [|done].
  cbn [mbind option_bind] in Hrun. destruct (body msg) eqn:Eb; try done.
  destruct (Z.eqb_spec version_major RLAUNCH_VER_MAJOR) as [->|]; [by repeat eexists|].
  cbn [andb] in Hrun. rewrite set_state_other' in Hrun by done. by injection Hrun as <- <-.
Qed.

(** ** Liveness pings *)
Definition ping_threshold (p : peer) : Z :=
  if decide (init_mode p = PEER_INIT_TARGET) then RL_PING_TIMEOUT else RL_PING_TIMEOUT + 1.

(** C35: what an update of a connected peer does, by its idle time: nothing
    up to the threshold (30 s for the target, 31 s for the controller),
    then one ping, and an error once twice the threshold has passed with
    the ping unanswered. *)
Theorem update_connected_spec p w :
  state p = PEER_CONNECTED →
  let '(w', now) := rl_time w in
  let idle := now - last_activity p in
  let limit := ping_threshold p in
  (idle <= limit → invoke_action p w PEER_ACTION_UPDATE None = Some (p, w')) ∧
  (limit < idle → ping_on_wire p = false →
     invoke_action p w PEER_ACTION_UPDATE None =
       ('(p', _) ← peer_transmit_message p (RL_MSG_INIT ping_request 0);
        Some (set_ping true p', w'))) ∧
  (limit < idle <= 2 * limit → ping_on_wire p = true →
     invoke_action p w PEER_ACTION_UPDATE None = Some (p, w')) ∧
  (2 * limit < idle → ping_on_wire p = true →
     invoke_action p w PEER_ACTION_UPDATE None = Some (set_state PEER_ERROR p, w')).
Proof.
  intros Hs. destruct (rl_time w) as [w' now] eqn:Et. cbn zeta.
  unfold invoke_action. remember 1%nat as n. cbn [invoke_at]. rewrite Hs.
  cbn [state_actions peer_state_index peer_action_index lookup list_lookup mbind option_bind].
  unfold on_update_connected. rewrite Et. fold (ping_threshold p).
  rewrite (Z.shiftl_mul_pow2 _ 1) by lia. change (2 ^ 1) with 2.
  assert (0 < ping_threshold p) by (unfold ping_threshold, RL_PING_TIMEOUT; case_decide; lia).
  split_and!; [intros Hi|intros Hi Hw|intros Hi Hw|intros Hi Hw].
  - ztest. by rewrite andb_false_r.
  - rewrite Hw. ztest. subst n. rewrite transmit_no_callback.
    destruct (peer_transmit_message _ _) as [[p' rc]|]; done.
  - rewrite Hw. ztest. done.
  - rewrite Hw. ztest. by apply set_state_other'.
Qed.
End Safety.
End Transmit.

(** ** Receiving a stream of messages *)
Section Receive.
Context `{HHost : Host} `{Alloc : Allocator}.
Implicit Types (p : peer) (m : rl_msg).

Lemma be_split_2 z : 0 <= z < 65536 → be_split 2 z = [z / 256; z mod 256].
Proof.
  intros. unfold be_split. cbn [le_split rev app].
  by rewrite (Z.mod_small (z / 256)) by (split; [apply Z.div_pos; lia|apply Z.div_lt_upper_bound; lia]).
Qed.

(** The size field of the header, as soon as the first four bytes are there. *)
Lemma peek_wire m x len :
  wire_length m < 65536 → 4 <= len →
  peer_peek_incoming (wire_bytes m ++ x) len = wire_length m.
Proof.
  intros Hl Hlen. unfold peer_peek_incoming. ztest. unfold wire_bytes.
  assert (0 <= wire_length m) by (unfold wire_length; lia).
  rewrite be_split_2 by lia. cbn [app lookup list_lookup].
  assert (Z.lor (Z.shiftl (wire_length m / 256) 8) (wire_length m mod 256) = wire_length m) as ->.
  { rewrite Z.shiftl_mul_pow2 by lia. change (2 ^ 8) with 256.
    assert (Z.land (wire_length m / 256 * 256) (wire_length m mod 256) = 0) as Hz.
    { apply Z.bits_inj'. intros n Hn. rewrite Z.land_spec, Z.bits_0.
      change 256 with (2 ^ 8). destruct (Z.ltb_spec n 8).
      - rewrite Z.mul_pow2_bits_low by lia. done.
      - rewrite Z.mod_pow2_bits_high by lia. apply andb_false_r. }
    rewrite <-Z.lxor_lor, <-Z.add_nocarry_lxor by exact Hz.
    pose proof (Z.div_mod (wire_length m) 256). lia. }
  by apply u16_id.
Qed.

Lemma peek_available bs ext :
  peer_peek_incoming (bs ++ ext) (Z.of_nat (length bs)) =
  peer_peek_incoming bs (Z.of_nat (length bs)).
Proof.
  unfold peer_peek_incoming. destruct (Z.ltb_spec (Z.of_nat (length bs)) 4); [done|].
  by rewrite !lookup_app_l by lia.
Qed.

Lemma peek_more bs ext :
  peek_of peer_peek_incoming (bs ++ ext) = peek_of peer_peek_incoming bs ∨
  Z.of_nat (length bs) < peek_of peer_peek_incoming bs <= 32768.
Proof.
  unfold peek_of. destruct (Z.ltb_spec (Z.of_nat (length bs)) 4) as [H|H].
  - right. unfold peer_peek_incoming. ztest. lia.
  - left. unfold peer_peek_incoming at 1 2. rewrite length_app. ztest.
    by rewrite !lookup_app_l by lia.
Qed.

Section Owner.
Context {W : Type} `{CB : PeerCallbacks W}.
Implicit Types (w : W).

(** A message in the receive buffer becomes the action of its kind. *)
Lemma deliver_spec t p w m rest :
  wf_msg m → wire_length m <= 32768 →
  ∃ m', wire_bytes m' = wire_bytes m ∧ hdr_type m' = hdr_type m ∧ hdr_seq m' = hdr_seq m ∧
    body m' ≡ body m ∧
    peer_deliver_incoming t (p, w) (wire_bytes m ++ rest) (wire_length m) =
      ('(p', w') ← invoke_action (set_transport t p) w
         (if hdr_type m =? RL_MSG_HANDSHAKE_REQUEST
          then PEER_ACTION_RECEIVE_HANDSHAKE else PEER_ACTION_RECEIVE_MESSAGE) (Some m');
       Some (transport p', (p', w'), 0)).
Proof.
  intros Hwf Hl. destruct (rl_decode_msg_spec BIG_ENDIAN m Hwf rest) as (m' & Hd & Heq); [lia|].
  exists m'. pose proof Heq as (Ht & Hf & _ & Hs & Hb). cbn in Ht, Hf, Hs, Hb.
  split; [by rewrite Heq|]. split_and!; try done.
  unfold peer_deliver_incoming. cbn [fst snd].
  assert (0 <= wire_length m) by (unfold wire_length; lia).
  rewrite s32_id by lia. rewrite Hd. cbn [mbind option_bind].
  unfold rl_msg_kind_of. rewrite Ht.
  by destruct (hdr_type m =? RL_MSG_HANDSHAKE_REQUEST).
Qed.

(** The messages that are for the owner. *)
Definition for_owner m : Prop :=
  hdr_type m ≠ RL_MSG_HANDSHAKE_REQUEST ∧ hdr_type m ≠ RL_MSG_PING_REQUEST ∧
  hdr_type m ≠ RL_MSG_PING_ANSWER.

Lemma receive_for_owner n p w m :
  state p = PEER_CONNECTED → for_owner m →
  invoke_at (S n) p w PEER_ACTION_RECEIVE_MESSAGE (Some m) =
    (let '(w, now) := rl_time w in
     '(p, w, rc) ← on_message (set_activity now p) w m;
     if negb (rc =? 0) then peer_set_state p w PEER_ERROR else Some (p, w)).
Proof.
  intros Hs (H1 & H2 & H3). cbn [invoke_at]. rewrite Hs.
  cbn [state_actions peer_state_index peer_action_index lookup list_lookup mbind option_bind].
  unfold on_receive_message. cbn [mbind option_bind]. destruct (rl_time w) as [w' now].
  by rewrite (proj2 (Z.eqb_neq _ _) H2), (proj2 (Z.eqb_neq _ _) H3).
Qed.

(** An owner that accepts every message and keeps them. *)
Context (received : W → list rl_msg).
Hypothesis clock : ∀ w, received (rl_time w).1 = received w.
Hypothesis accepts : ∀ p w m, state p = PEER_CONNECTED → ∃ p' w',
  on_message p w m = Some (p', w', 0) ∧ state p' = PEER_CONNECTED ∧
  inbuf (transport p') = inbuf (transport p) ∧ error (transport p') = error (transport p) ∧
  disconnect (transport p') = disconnect (transport p) ∧
  received w' = received w ++ [m].

Definition acceptable (bs : list Z) : Prop :=
  ∃ m, bs = wire_bytes m ∧ wf_msg m ∧ wire_length m <= 32768 ∧ for_owner m.

Definition seen (u : peer * W) : list (list Z) := wire_bytes <$> received u.2.

Lemma deliver_accepted t u bs n :
  state u.1 = PEER_CONNECTED → acceptable (take (Z.to_nat n) bs) →
  0 <= n <= Z.of_nat (length bs) →
  ∃ t' u', peer_deliver_incoming t u bs n = Some (t', u', 0) ∧ inbuf t' = inbuf t ∧
    state u'.1 = PEER_CONNECTED ∧ error t' = error t ∧ disconnect t' = disconnect t ∧
    seen u' = seen u ++ [take (Z.to_nat n) bs].
Proof.
  destruct u as [p w]. cbn [fst]. intros Hs (m & Hm & Hwf & Hl & Hfor) Hn.
  assert (n = wire_length m) as ->.
  { apply (f_equal length) in Hm. rewrite length_take in Hm.
    pose proof (wire_length_bytes m Hwf). lia. }
  assert (bs = wire_bytes m ++ drop (Z.to_nat (wire_length m)) bs) as Hbs
    by (rewrite <-Hm; by rewrite take_drop).
  rewrite Hm, Hbs.
  destruct (deliver_spec t p w m (drop (Z.to_nat (wire_length m)) bs) Hwf Hl)
    as (m' & Hw' & Ht' & _ & _ & ->).
  destruct Hfor as (H1 & H2). rewrite (proj2 (Z.eqb_neq _ _) H1).
  unfold invoke_action. rewrite receive_for_owner by (done || (unfold for_owner; by rewrite Ht')).
  destruct (rl_time w) as [w1 now] eqn:Et.
  destruct (accepts (set_activity now (set_transport t p)) w1 m' Hs)
    as (p' & w' & -> & Hs' & Hin & He & Hd & Hr).
  cbn [mbind option_bind negb Z.eqb]. eexists _, _. split; [done|].
  split_and!; try done. unfold seen. cbn [snd].
  rewrite Hr, fmap_app. cbn [fmap list_fmap]. rewrite Hw'. pose proof (clock w) as Hc.
  rewrite Et in Hc. cbn [fst] in Hc. by rewrite Hc.
Qed.

Lemma frames_messages ms :
  Forall (λ m, wf_msg m ∧ wire_length m <= 32768 ∧ for_owner m) ms →
  frames peer_peek_incoming acceptable 32768 (concat (wire_bytes <$> ms))
    (wire_bytes <$> ms) [].
Proof.
  induction 1 as [|m ms (Hwf & Hl & Hfor) _ IH]; cbn [fmap list_fmap concat].
  { apply frames_wait. by left. }
  pose proof (wire_length_bytes m Hwf) as Hwl.
  assert (8 <= wire_length m) by (unfold wire_length; lia).
  assert (peek_of peer_peek_incoming (wire_bytes m ++ concat (wire_bytes <$> ms)) =
          wire_length m) as Hp.
  { unfold peek_of. apply peek_wire; [lia|]. rewrite length_app. lia. }
  set (stream := wire_bytes m ++ concat (wire_bytes <$> ms)) in *.
  assert (take (Z.to_nat (wire_length m)) stream = wire_bytes m) as Ht
    by (unfold stream; rewrite take_app_length' by lia; done).
  pose proof (frames_msg peer_peek_incoming acceptable 32768 stream (wire_bytes <$> ms) [])
    as Hf. rewrite Hp, Ht in Hf. apply Hf.
  - lia.
  - unfold stream. rewrite length_app. lia.
  - by exists m.
  - unfold stream. rewrite drop_app_length' by lia. exact IH.
Qed.

Context {S : Type} `{Sock : Socket S}.

(** C1: however the network splits the stream, a connected peer hands its
    owner exactly the messages the other end sent, once each and in order. *)
Theorem peer_stream k p w (s : S) ms :
  state p = PEER_CONNECTED → inbuf_ok (inbuf (transport p)) →
  Z.of_nat (length (memory (inbuf (transport p)))) = 32768 →
  Forall (λ m, wf_msg m ∧ wire_length m <= 32768 ∧ for_owner m) ms →
  content (transport p) ++ sk_in s = concat (wire_bytes <$> ms) →
  ∃ t' p' w' s' ms1 ms2,
    rounds peer_peek_incoming peer_deliver_incoming k (transport p) (p, w) s =
      Some (t', (p', w'), s') ∧
    ms = ms1 ++ ms2 ∧ state p' = PEER_CONNECTED ∧
    wire_bytes <$> received w' = wire_bytes <$> (received w ++ ms1) ∧
    ((0 < k)%nat → error t' = false → disconnect t' = false → sk_in s' = [] → ms2 = []).
Proof.
  intros Hs Hin Hcap Hms Hstr.
  destruct (rounds_spec peer_peek_incoming peer_deliver_incoming seen
    (λ _ u, state u.1 = PEER_CONNECTED) acceptable 32768 peek_available
    (λ bs ext _, peek_more bs ext) deliver_accepted (λ _ _ _ _ H, H)
    k (transport p) (p, w) s (wire_bytes <$> ms) []
    Hs Hin Hcap) as (t' & [p' w'] & s' & l1 & l2 & Hrun & Hl & Hlog & _ & Hs' & _ & Hend).
  { rewrite Hstr. by apply frames_messages. }
  apply fmap_app_inv in Hl as (ms1 & ms2 & -> & -> & ->).
  exists t', p', w', s', ms1, ms2. split_and!; try done.
  - unfold seen in Hlog. cbn [snd] in Hlog. by rewrite Hlog, fmap_app.
  - intros Hk He Hd Hsk. destruct (Hend Hk He Hd Hsk) as [Hnil _].
    by destruct ms2.
Qed.
End Owner.
End Receive.

(** ** Handshake and removal *)
Section Lifecycle.
Context `{HHost : Host} `{Alloc : Allocator} {W : Type} `{CB : PeerCallbacks W}.
Implicit Types (p : peer) (w : W).

(** A handshake of the same major version connects. *)
Lemma accept_handshake p w msg min node pn pv pwd hm :
  state p = PEER_WAIT_HANDSHAKE →
  body msg = handshake_request RLAUNCH_VER_MAJOR min node pn pv pwd →
  handshake_message = Some hm →
  invoke_action p w PEER_ACTION_RECEIVE_HANDSHAKE (Some msg) =
    ('(p1, _) ← match init_mode p with
                | PEER_INIT_CONTROLLER => Some (p, 0)
                | PEER_INIT_TARGET => enqueue_output_message p hm
                end;
     '(p2, w2, _) ← on_connected (set_state PEER_CONNECTED p1) w; Some (p2, w2)).
Proof.
  intros Hs Hb Hh. unfold invoke_action. remember 1%nat as n eqn:En.
  cbn [invoke_at]. rewrite Hs.
  cbn [state_actions peer_state_index peer_action_index lookup list_lookup mbind option_bind].
  unfold on_receive_handshake. cbn [mbind option_bind]. rewrite Hb, Z.eqb_refl. cbn [andb].
  assert (∀ s p1, state p1 = s → s ≠ PEER_CONNECTED → peer_set_state p1 w PEER_CONNECTED =
    ('(p2, w2, _) ← on_connected (set_state PEER_CONNECTED p1) w; Some (p2, w2))) as Hc.
  { intros s p1 <- Hne. unfold peer_set_state. rewrite decide_False by done.
    by rewrite decide_True by done. }
  destruct (init_mode p) eqn:Em.
  - rewrite decide_False by done. cbn [mbind option_bind]. by apply (Hc _ p Hs).
  - rewrite decide_True by done. subst n. cbn [invoke_at]. rewrite Hs.
    cbn [state_actions peer_state_index peer_action_index lookup list_lookup mbind option_bind].
    unfold on_transmit_handshake. rewrite Hh. cbn [mbind option_bind].
    destruct (enqueue_output_message p hm) as [[p1 rc]|] eqn:Ee; [|done].
    cbn [mbind option_bind].
    destruct (negb (rc =? 0)); rewrite set_state_other' by done; cbn [mbind option_bind].
    + by rewrite (Hc PEER_ERROR) by done.
    + by rewrite (Hc PEER_WAIT_HANDSHAKE) by done.
Qed.

(** C34: the end of the handshake.  A peer with another major version is
    refused; the minor version is not looked at.  The controller is
    connected; the target first queues its own handshake, and is connected
    whether or not that could be queued ([rc] is dropped). *)
Theorem receive_handshake_spec p w msg maj min node pn pv pwd hm :
  state p = PEER_WAIT_HANDSHAKE →
  body msg = handshake_request maj min node pn pv pwd →
  handshake_message = Some hm →
  let connect p1 := '(p2, w2, _) ← on_connected (set_state PEER_CONNECTED p1) w; Some (p2, w2) in
  invoke_action p w PEER_ACTION_RECEIVE_HANDSHAKE (Some msg) =
    if decide (maj ≠ RLAUNCH_VER_MAJOR) then Some (set_state PEER_ERROR p, w)
    else match init_mode p with
         | PEER_INIT_CONTROLLER => connect p
         | PEER_INIT_TARGET => '(p1, rc) ← enqueue_output_message p hm; connect p1
         end.
Proof.
  intros Hs Hb Hh. cbn zeta. destruct (decide (maj ≠ RLAUNCH_VER_MAJOR)) as [Hne|Heq].
  - unfold invoke_action. cbn [invoke_at]. rewrite Hs.
    cbn [state_actions peer_state_index peer_action_index lookup list_lookup mbind option_bind].
    unfold on_receive_handshake. cbn [mbind option_bind].
    rewrite Hb, (proj2 (Z.eqb_neq _ _) Hne). by apply set_state_other'.
  - apply dec_stable in Heq as ->. rewrite (accept_handshake p w msg min node pn pv pwd hm) by done.
    destruct (init_mode p); [done|]. by destruct (enqueue_output_message p hm) as [[p1 rc]|].
Qed.

Lemma disconnect_spec p w :
  ∃ p', invoke_action p w PEER_ACTION_DISCONNECT None = Some (p', w) ∧
    transport p' = transport p ∧ (state p' = PEER_ERROR ∨ state p' = PEER_DISCONNECTED).
Proof.
  destruct (decide (PEER_ACTION_DISCONNECT ∈ defined_actions (state p))) as [Hd|Hd].
  2:{ unfold invoke_action. rewrite undefined_action by done. eexists. eauto. }
  unfold invoke_action. remember 1%nat as n. cbn [invoke_at].
  destruct (state p) eqn:E; [exfalso; set_solver|..];
    cbn [state_actions peer_state_index peer_action_index lookup list_lookup mbind option_bind].
  all: unfold on_disconnect, action_nop; rewrite ?set_state_other' by done.
  all: eexists; split; [done|]; split; [done|]; cbn; auto.
Qed.

Lemma update_dead p w :
  state p = PEER_ERROR ∨ state p = PEER_DISCONNECTED →
  invoke_action p w PEER_ACTION_UPDATE None = Some (p, w).
Proof. unfold invoke_action. cbn. by intros [-> | ->]. Qed.

Context {S : Type} `{Sock : Socket S}.

Lemma update_lost_status t (u : peer * W) :
  error t || disconnect t = true →
  ∃ st, rl_transport_update peer_peek_incoming peer_deliver_incoming t u = Some (t, u, st) ∧
    (st = RL_TRANSPORT_ERROR ∨ st = RL_TRANSPORT_DISCONNECTED).
Proof.
  unfold rl_transport_update. destruct (error t); [by eauto|].
  destruct (disconnect t); [by eauto|done].
Qed.

(** A lost connection is noticed in the same update: once the transport
    has failed or the other end has closed the stream, [peer_update] calls no
    callback, and asks its owner to remove the peer. *)
Theorem peer_update_lost p w (s s1 s2 : S) (can_read can_write : bool) t1 t2 q f :
  (if can_read then rl_transport_on_input_arrived (transport p) s
   else Some (transport p, s)) = Some (t1, s1) →
  (if can_write then rl_transport_on_output_possible t1 s1 else Some (t1, s1)) =
    Some (t2, s2) →
  error t2 || disconnect t2 = true → transport_ok t2 q f →
  ∃ p' s', peer_update p w s can_read can_write = Some (p', w, s', PEER_STATUS_REMOVE_ME) ∧
    (state p' = PEER_ERROR ∨ state p' = PEER_DISCONNECTED).
Proof.
  intros H1 H2 Hlost Hok. unfold peer_update. rewrite H1. cbn [mbind option_bind].
  rewrite H2. cbn [mbind option_bind].
  destruct (update_lost_status t2 (p, w) Hlost) as (st & -> & Hst).
  cbn [mbind option_bind].
  assert (∀ p1, transport p1 = t2 → state p1 = PEER_ERROR ∨ state p1 = PEER_DISCONNECTED →
    ∃ p' s', ('(self, w0) ← invoke_action p1 w PEER_ACTION_UPDATE None;
      '(t, sock) ← rl_transport_on_output_possible (transport self) s2;
      let self := set_transport t self in
      let result :=
        if bool_decide (state self = PEER_ERROR) || bool_decide (state self = PEER_DISCONNECTED)
        then PEER_STATUS_REMOVE_ME
        else if negb (Z.land RL_TRANSPORT_NEED_OUTPUT st =? 0)
        then PEER_STATUS_NEED_OUTPUT else 0 in
      Some (set_result result self, w0, sock, result)) =
      Some (p', w, s', PEER_STATUS_REMOVE_ME) ∧
      (state p' = PEER_ERROR ∨ state p' = PEER_DISCONNECTED)) as Hend.
  { intros p1 Ht Hs. rewrite update_dead by done. cbn [mbind option_bind]. rewrite Ht.
    destruct (output_loop_spec (output_fuel t2) t2 s2 q f Hok)
      as (t' & s' & q' & f' & Hrun & _).
    { by eapply output_fuel_enough. }
    unfold rl_transport_on_output_possible. rewrite Hrun. cbn [mbind option_bind].
    cbn [state set_transport].
    assert (bool_decide (state p1 = PEER_ERROR) ||
            bool_decide (state p1 = PEER_DISCONNECTED) = true) as ->
      by (destruct Hs as [-> | ->]; done).
    eexists _, s'. split; [done|]. exact Hs. }
  destruct (disconnect_spec (set_transport t2 p) w) as (p1 & Hd & Ht1 & Hs1).
  destruct Hst as [-> | ->].
  - change (negb (Z.land RL_TRANSPORT_ERROR RL_TRANSPORT_ERROR =? 0)) with true.
    change (negb (Z.land RL_TRANSPORT_DISCONNECTED RL_TRANSPORT_ERROR =? 0)) with false.
    cbv iota. rewrite Hd. cbn [mbind option_bind]. by apply Hend.
  - change (negb (Z.land RL_TRANSPORT_ERROR RL_TRANSPORT_DISCONNECTED =? 0)) with false.
    change (negb (Z.land RL_TRANSPORT_DISCONNECTED RL_TRANSPORT_DISCONNECTED =? 0)) with true.
    cbv iota. cbn [mbind option_bind]. rewrite Hd. cbn [mbind option_bind]. by apply Hend.
Qed.
End Lifecycle.

(** ** Concrete instances *)
Definition demo_host : Host := {|
  BIG_ENDIAN := true; word_bits := 32; buf_header_size := 28; plat := Amiga 37;
  inet_ntoa _ := chars "127.0.0.1"
|}.

(** An owner that keeps every message; its clock is stopped at [time]. *)
Definition demo_owner (time : Z) : PeerCallbacks (list rl_msg) := {|
  on_message p w m := Some (p, w ++ [m], 0);
  on_connected p w := Some (p, w, 0);
  rl_time w := (w, time)
|}.

Definition demo_peer (s : peer_state) (mode : peer_init_mode) (ping : bool) : peer :=
  let b := IOBuf (replicate (Z.to_nat 32768) 0) 0 0 true in
  Peer 0 s 3 [] 0 (Transport b ∅ None None 0 None false false) 0 mode 100 ping.

Lemma demo_peer_ok s mode ping : peer_ok (demo_peer s mode ping) [] [].
Proof.
  split; [|apply map_Forall_empty]. split; cbn; try done; [constructor|].
  intros a Ha. by apply not_elem_of_nil in Ha.
Qed.

Definition demo_handshake : rl_msg :=
  RL_MSG_INIT (handshake_request 1 7 (chars "a") (chars "b") (chars "c") (chars "d")) 0.
Definition demo_handshake_reply : rl_msg :=
  RL_MSG_INIT (handshake_request 1 0 (chars "unknown") (chars "AmigaOS")
    (chars "Kickstart V37") (chars "****")) 0.

Lemma receive_handshake_spec_witness :
  let CB := demo_owner 0 in
  let p := demo_peer PEER_WAIT_HANDSHAKE PEER_INIT_TARGET false in
  invoke_action (HHost := demo_host) (Alloc := no_memory) p [] PEER_ACTION_RECEIVE_HANDSHAKE
    (Some demo_handshake) =
  '(p1, rc) ← enqueue_output_message (HHost := demo_host) (Alloc := no_memory)
                p demo_handshake_reply;
  '(p2, w2, _) ← on_connected (set_state PEER_CONNECTED p1) []; Some (p2, w2).
Proof.
  exact (receive_handshake_spec (HHost := demo_host) (Alloc := no_memory) (CB := demo_owner 0)
    (demo_peer PEER_WAIT_HANDSHAKE PEER_INIT_TARGET false) [] demo_handshake 1 7
    (chars "a") (chars "b") (chars "c") (chars "d") demo_handshake_reply
    eq_refl eq_refl ltac:(vm_compute; reflexivity)).
Defined.

Lemma connected_by_handshake_witness :
  let p := demo_peer PEER_WAIT_HANDSHAKE PEER_INIT_CONTROLLER false in
  let p' := set_state PEER_CONNECTED p in
  (state p' = PEER_CONNECTED →
     state p = PEER_WAIT_HANDSHAKE ∧
     PEER_ACTION_RECEIVE_HANDSHAKE = PEER_ACTION_RECEIVE_HANDSHAKE ∧
     ∃ msg min node plat ver pwd, Some demo_handshake = Some msg ∧
       body msg = handshake_request RLAUNCH_VER_MAJOR min node plat ver pwd) ∧
  (state p' ≠ PEER_CONNECTED →
     PEER_ACTION_RECEIVE_HANDSHAKE ≠ PEER_ACTION_RECEIVE_HANDSHAKE → @nil rl_msg = []).
Proof.
  refine (connected_by_handshake (HHost := demo_host) (Alloc := no_memory) (CB := demo_owner 0)
    (demo_peer PEER_WAIT_HANDSHAKE PEER_INIT_CONTROLLER false) []
    PEER_ACTION_RECEIVE_HANDSHAKE (Some demo_handshake)
    (set_state PEER_CONNECTED (demo_peer PEER_WAIT_HANDSHAKE PEER_INIT_CONTROLLER false)) []
    _ _); [discriminate|reflexivity].
Defined.

Lemma update_connected_spec_witness :
  let CB := demo_owner 200 in
  let p := demo_peer PEER_CONNECTED PEER_INIT_TARGET true in
  invoke_action (HHost := demo_host) (Alloc := no_memory) p [] PEER_ACTION_UPDATE None =
    Some (set_state PEER_ERROR p, []).
Proof.
  exact (proj2 (proj2 (proj2 (update_connected_spec (HHost := demo_host) (Alloc := no_memory)
    (CB := demo_owner 200) (demo_peer PEER_CONNECTED PEER_INIT_TARGET true) [] eq_refl)))
    ltac:(vm_compute; reflexivity) eq_refl).
Defined.

Lemma peer_update_lost_witness :
  let CB := demo_owner 200 in
  let p := set_transport (set_disconnect (transport (demo_peer PEER_CONNECTED PEER_INIT_TARGET false)))
             (demo_peer PEER_CONNECTED PEER_INIT_TARGET false) in
  ∃ p' s', peer_update (HHost := demo_host) (Alloc := no_memory) (Sock := chunk_socket 2)
      p [] ([], []) false false = Some (p', [], s', PEER_STATUS_REMOVE_ME) ∧
    (state p' = PEER_ERROR ∨ state p' = PEER_DISCONNECTED).
Proof.
  cbv zeta.
  set (p := set_transport _ _).
  assert (transport_ok (transport p) [] []) as Hok.
  { destruct (demo_peer_ok PEER_CONNECTED PEER_INIT_TARGET false) as [[] _]. by split. }
  exact (peer_update_lost (HHost := demo_host) (Alloc := no_memory) (CB := demo_owner 200)
    (Sock := chunk_socket 2) p [] ([], []) ([], []) ([], []) false false
    (transport p) (transport p) [] [] eq_refl eq_refl eq_refl Hok).
Defined.

Definition demo_messages : list rl_msg :=
  [RL_MSG_INIT (open_handle_request (chars "c/dir") 1) 1; RL_MSG_INIT (close_handle_request 3) 2].

Lemma peer_stream_witness :
  let CB := demo_owner 0 in
  let p := demo_peer PEER_CONNECTED PEER_INIT_CONTROLLER false in
  ∃ t' p' w' s' ms1 ms2,
    rounds (Sock := chunk_socket 7) peer_peek_incoming
      (peer_deliver_incoming (HHost := demo_host) (Alloc := no_memory)) 4 (transport p) (p, [])
      ([], concat (wire_bytes <$> demo_messages)) = Some (t', (p', w'), s') ∧
    demo_messages = ms1 ++ ms2 ∧ state p' = PEER_CONNECTED ∧
    wire_bytes <$> w' = wire_bytes <$> ([] ++ ms1) ∧
    ((0 < 4)%nat → error t' = false → disconnect t' = false →
       sk_in (Socket := chunk_socket 7) s' = [] → ms2 = []).
Proof.
  cbv zeta.
  refine (peer_stream (HHost := demo_host) (Alloc := no_memory) (CB := demo_owner 0)
    (λ w, w) _ _ (Sock := chunk_socket 7) 4
    (demo_peer PEER_CONNECTED PEER_INIT_CONTROLLER false) []
    ([], concat (wire_bytes <$> demo_messages)) demo_messages eq_refl _ _ _ eq_refl).
  - done.
  - intros p w m Hs. by exists p, (w ++ [m]).
  - split; cbn; lia.
  - cbn [demo_peer transport inbuf memory]. by rewrite length_replicate, Z2Nat.id.
  - apply Forall_cons; split; [|apply Forall_singleton].
    all: split; [split; vm_compute; (reflexivity || (repeat split; try discriminate; try lia;
      repeat constructor; discriminate) || (split; discriminate))|].
    all: split; [vm_compute; discriminate|vm_compute; repeat split; discriminate].
Defined.
