(* ===== verification/FileServer.v ===== *)
(** * FileServer: the file server of the controller (controller.h, file_server.c)

    The POSIX build.  Requests arrive as messages and are answered through the
    peer, here any implementation of the interface [PeerLink]; the operating
    system is the interface [Posix]. *)

From S2P Require Import Prelude Wire Messages CString Format Transport Peer.

(** ** The operating system *)
Inductive access_mode := O_RDONLY | O_WRONLY | O_RDWR.
Record open_flags := OpenFlags { o_access : access_mode; o_creat : bool; o_largefile : bool }.
Inductive errno_t := EACCES | EISDIR | E_OTHER.
Inductive dir_entry := D_name (name : list Z) | D_end | D_error.

(** [stat] gives whether the path is a directory, and its size.  File
    descriptors and [DIR] pointers are numbers; [file_data] is the contents of
    the regular file that a descriptor designates. *)
Class Posix (O : Type) := {
  stat : O → list Z → option (bool * Z);
  os_open : O → list Z → open_flags → O * Z;
  fstat_size : O → Z → option Z;
  os_close : O → Z → O;
  pread : O → Z → nat → Z → option (list Z);
  opendir : O → list Z → O * option Z;
  readdir : O → Z → O * dir_entry;
  closedir : O → Z → O;
  errno : O → errno_t;
  fwrite_stdout : O → list Z → O;
  file_data : O → Z → option (list Z);
  pread_bytes o fd n off bs :
    pread o fd n off = Some bs → (length bs ≤ n)%nat ∧ Forall is_byte bs;
  pread_data o fd n off d :
    file_data o fd = Some d → 0 <= off → pread o fd n off = Some (take n (drop (Z.to_nat off) d));
  readdir_name o d o' name :
    readdir o d = (o', D_name name) → wf_string name ∧ Forall is_byte name
}.

(** ** State (controller.h) *)
Inductive controller_state := CONTROLLER_INITIAL | CONTROLLER_WAIT_EXECUTABLE_LAUNCHED
  | CONTROLLER_FILE_SERVING | CONTROLLER_ERROR.
#[export] Instance controller_state_eq_dec : EqDecision controller_state.
Proof. solve_decision. Defined.

Definition RL_MAX_FILE_HANDLES : nat := 16.

Record rl_filehandle := FileHandle {
  handle : Z;
  dir_handle : option Z;
  native_path : list Z;          (* the 260 bytes of the array *)
  type : Z;
  size : Z
}.

Record rl_controller := Controller {
  ctl_state : controller_state;
  root_handle : rl_filehandle;
  vinput_handle : rl_filehandle;
  voutput_handle : rl_filehandle;
  handles : list rl_filehandle;
  executable : list Z;
  arguments : list (list Z);
  result : Z
}.

(** A pointer to one of the controller's handles. *)
Inductive handle_ref := H_root | H_vinput | H_voutput | H_slot (i : nat).
#[export] Instance handle_ref_eq_dec : EqDecision handle_ref.
Proof. solve_decision. Defined.

Definition deref (self : rl_controller) (h : handle_ref) : option rl_filehandle :=
  match h with
  | H_root => Some (root_handle self)
  | H_vinput => Some (vinput_handle self)
  | H_voutput => Some (voutput_handle self)
  | H_slot i => handles self !! i
  end.

Definition update_handle (self : rl_controller) (h : handle_ref) (f : rl_filehandle)
  : rl_controller :=
  let '(Controller s r i o hs e a res) := self in
  match h with
  | H_root => Controller s f i o hs e a res
  | H_vinput => Controller s r f o hs e a res
  | H_voutput => Controller s r i f hs e a res
  | H_slot n => Controller s r i o (<[n := f]> hs) e a res
  end.

Definition set_handle (z : Z) (f : rl_filehandle) : rl_filehandle :=
  FileHandle z (dir_handle f) (native_path f) (type f) (size f).
Definition set_dir (d : option Z) (f : rl_filehandle) : rl_filehandle :=
  FileHandle (handle f) d (native_path f) (type f) (size f).
Definition set_type (t : Z) (f : rl_filehandle) : rl_filehandle :=
  FileHandle (handle f) (dir_handle f) (native_path f) t (size f).
Definition set_size (n : Z) (f : rl_filehandle) : rl_filehandle :=
  FileHandle (handle f) (dir_handle f) (native_path f) (type f) n.
Definition set_path (mem : list Z) (f : rl_filehandle) : rl_filehandle :=
  FileHandle (handle f) (dir_handle f) mem (type f) (size f).

Definition has_flag (mode flag : Z) : bool := negb (Z.land mode flag =? 0).

Section FileServer.
Context `{HHost : Host} {P : Type} `{Link : PeerLink P} {O : Type} `{OS : Posix O}.
(** The log switches; only [RL_DEBUG] makes a difference here. *)
Context (rl_log_bits : Z).

Definition reply_with_error (peer : P) (msg : rl_msg) (error_code : Z) : option (P * Z) :=
  '(peer, _) ← transmit peer (RL_MSG_INIT (error_answer error_code) (hdr_seq msg));
  Some (peer, 1).

Definition translate_posix_errno (o : O) : Z :=
  match errno o with
  | EACCES => RL_NETERR_ACCESS_DENIED
  | EISDIR => RL_NETERR_NOT_A_FILE
  | E_OTHER => RL_NETERR_IO_ERROR
  end.

(** The result is a null pointer or a handle of the controller. *)
Definition get_handle_from_id (handle_id : Z) : option handle_ref :=
  if u32 (-1) =? handle_id then Some H_root
  else if RL_FILEHANDLE_VIRTUAL_INPUT =? handle_id then Some H_vinput
  else if RL_FILEHANDLE_VIRTUAL_OUTPUT =? handle_id then Some H_voutput
  else if Z.of_nat RL_MAX_FILE_HANDLES <=? handle_id then None
  else Some (H_slot (Z.to_nat handle_id)).

(** The text left in [dest], an array of 260 bytes. *)
Definition fix_path (input root_path : list Z) : option (list Z) :=
  format_text 260 (cstr "%s/%s") [VStr root_path; VStr (input ++ [0])].

(** The first slot whose [handle] is 0. *)
Fixpoint find_slot (hs : list rl_filehandle) : option nat :=
  match hs with
  | [] => None
  | f :: hs =>
      if handle f =? 0 then Some 0%nat
      else match find_slot hs with Some i => Some (S i) | None => None end
  end.

(** [make_handle]: [inl] is the error code of a null result, [inr] the slot. *)
Definition make_handle (self : rl_controller) (o : O) (path : list Z) (mode : Z)
  : option (rl_controller * O * (Z + nat)) :=
  path_text ← fix_path path (native_path (root_handle self));
  match find_slot (handles self) with
  | None => Some (self, o, inl RL_NETERR_TOO_MANY_FILES_OPEN)
  | Some i =>
      slot ← handles self !! i;
      let fail slot o code := Some (update_handle self (H_slot i) slot, o, inl code) in
      let done slot o :=
        '(mem, _) ← rl_string_copy 260 (native_path slot) (path_text ++ [0]);
        Some (update_handle self (H_slot i) (set_path mem slot), o, inr i) in
      let kind :=
        if negb (has_flag mode RL_OPENFLAG_WRITE) then
          match stat o path_text with
          | None => None
          | Some (is_dir, _) =>
              Some (if is_dir : bool then RL_NODE_TYPE_DIRECTORY else RL_NODE_TYPE_FILE)
          end
        else Some RL_NODE_TYPE_FILE in
      match kind with
      | None => fail (set_handle 0 slot) o RL_NETERR_NOT_FOUND
      | Some kind =>
          let slot := set_type kind slot in
          if kind =? RL_NODE_TYPE_FILE then
            let access :=
              if has_flag mode RL_OPENFLAG_WRITE then
                Some (if has_flag mode RL_OPENFLAG_READ then O_RDWR else O_WRONLY)
              else if has_flag mode RL_OPENFLAG_READ then Some O_RDONLY else None in
            match access with
            | None => fail slot o RL_NETERR_INVALID_VALUE
            | Some access =>
                (* the assignment of the access mode drops O_LARGEFILE *)
                let flags := OpenFlags access (has_flag mode RL_OPENFLAG_CREATE) false in
                let '(o, fd) := os_open o path_text flags in
                if fd =? -1 then fail (set_handle 0 slot) o (translate_posix_errno o)
                else
                  match fstat_size o fd with
                  | None =>
                      let code := translate_posix_errno o in
                      fail (set_handle 0 slot) (os_close o fd) code
                  | Some st_size => done (set_size (u32 st_size) (set_handle fd slot)) o
                  end
            end
          else done (set_size 0 (set_handle (-1) slot)) o
      end
  end.

Definition get_filehandle_index (h : handle_ref) : Z :=
  match h with
  | H_root => u32 (-1)
  | H_slot i => Z.of_nat i
  | H_vinput => u32 (-2)       (* the handles before [handles] in the structure *)
  | H_voutput => u32 (-1)
  end.

(** The requests.  A handler returns what the C function returns, the peer,
    the controller and the operating system. *)
Definition server_result : Type := P * rl_controller * O * Z.

Definition reply_error (peer : P) (self : rl_controller) (o : O) (msg : rl_msg) (code : Z)
  : option server_result :=
  '(peer, rc) ← reply_with_error peer msg code; Some (peer, self, o, rc).

Definition reply (peer : P) (self : rl_controller) (o : O) (msg : rl_msg) (b : rl_body)
  : option server_result :=
  '(peer, rc) ← transmit peer (RL_MSG_INIT b (hdr_seq msg)); Some (peer, self, o, rc).

Definition open_handle_request_ (peer : P) (self : rl_controller) (o : O) (msg : rl_msg)
  : option server_result :=
  match body msg with
  | open_handle_request path mode =>
      '(self, o, r) ← make_handle self o path (s32 mode);
      match r with
      | inl error => reply_error peer self o msg error
      | inr i =>
          f ← handles self !! i;
          reply peer self o msg
            (open_handle_answer (get_filehandle_index (H_slot i)) (u32 (size f)) (u8 (type f)))
      end
  | _ => None
  end.

Definition close_handle_request_ (peer : P) (self : rl_controller) (o : O) (msg : rl_msg)
  : option server_result :=
  match body msg with
  | close_handle_request id =>
      if (RL_FILEHANDLE_VIRTUAL_INPUT =? id) || (RL_FILEHANDLE_VIRTUAL_OUTPUT =? id)
      then Some (peer, self, o, 0)
      else
        match get_handle_from_id id with
        | None => reply_error peer self o msg RL_NETERR_INVALID_VALUE
        | Some h =>
            f ← deref self h;
            let o := if -1 =? handle f then os_close o (handle f) else o in
            Some (peer, update_handle self h (set_handle 0 f), o, 0)
        end
  | _ => None
  end.

(** [NAME_MAX] of <limits.h>. *)
Definition NAME_MAX : nat := 255.

(** The path of a directory entry, cut at [NAME_MAX]. *)
Definition item_path (native name : list Z) : option (list Z) :=
  b ← rl_strbuf_init (replicate NAME_MAX 0) NAME_MAX;
  '(b, _) ← rl_strbuf_append b native;
  '(b, _) ← rl_strbuf_append b (cstr "/");
  '(b, _) ← rl_strbuf_append b (name ++ [0]);
  cstr_at (sb_mem b).

Definition find_next_file_request_ (peer : P) (self : rl_controller) (o : O) (msg : rl_msg)
  : option server_result :=
  match body msg with
  | find_next_file_request id reset =>
      match get_handle_from_id id with
      | None => reply_error peer self o msg RL_NETERR_INVALID_VALUE
      | Some h =>
          f ← deref self h;
          if negb (RL_NODE_TYPE_DIRECTORY =? type f)
          then reply_error peer self o msg RL_NETERR_NOT_A_DIRECTORY
          else
            let '(f, o) :=
              match dir_handle f with
              | Some d => if negb (reset =? 0) then (set_dir None f, closedir o d) else (f, o)
              | None => (f, o)
              end in
            path ← cstr_at (native_path f);
            let '(f, o) :=
              match dir_handle f with
              | None => let '(o, d) := opendir o path in (set_dir d f, o)
              | Some _ => (f, o)
              end in
            let self := update_handle self h f in
            match dir_handle f with
            | None => reply_error peer self o msg RL_NETERR_IO_ERROR
            | Some d =>
                let '(o, dent) := readdir o d in
                match dent with
                | D_end =>
                    reply peer self o msg (find_next_file_answer 1 RL_NODE_TYPE_DIRECTORY [] 0)
                | D_error => reply_error peer self o msg RL_NETERR_IO_ERROR
                | D_name name =>
                    item ← item_path (native_path f) name;
                    match stat o item with
                    | None => reply_error peer self o msg RL_NETERR_IO_ERROR
                    | Some (is_dir, st_size) =>
                        reply peer self o msg
                          (find_next_file_answer 0
                             (if is_dir : bool then RL_NODE_TYPE_DIRECTORY
                              else RL_NODE_TYPE_FILE) name (u32 st_size))
                    end
                end
            end
      end
  | _ => None
  end.

(** [sizeof(read_buffer)] *)
Definition read_buffer_size : nat := Z.to_nat 4096.

Definition read_file_request_ (peer : P) (self : rl_controller) (o : O) (msg : rl_msg)
  : option server_result :=
  match body msg with
  | read_file_request id offset_hi offset_lo length =>
      match get_handle_from_id id with
      | None => reply_error peer self o msg RL_NETERR_INVALID_VALUE
      | Some h =>
          f ← deref self h;
          if 0 =? handle f then reply_error peer self o msg RL_NETERR_NOT_A_FILE
          else
            match pread o (handle f) read_buffer_size offset_lo with
            | None => reply_error peer self o msg RL_NETERR_IO_ERROR
            | Some bytes =>
                let data := NetArray bytes (Z.of_nat (List.length bytes)) in
                '(peer, self, o, _) ← reply peer self o msg (read_file_answer data);
                Some (peer, self, o, 0)
            end
      end
  | _ => None
  end.

Definition write_file_request_ (peer : P) (self : rl_controller) (o : O) (msg : rl_msg)
  : option server_result :=
  match body msg with
  | write_file_request id data =>
      let h := get_handle_from_id id in
      (* the log line reads [handle->native_path] *)
      if has_flag rl_log_bits RL_DEBUG && bool_decide (h = None) then None else
      o ← (if decide (h = Some H_voutput)
           then bytes ← na_bytes data; Some (fwrite_stdout o bytes)
           else Some o);
      '(peer, self, o, _) ← reply peer self o msg write_file_answer;
      Some (peer, self, o, 0)
  | _ => None
  end.

Definition rl_file_serve (peer : P) (self : rl_controller) (o : O) (msg : rl_msg)
  : option server_result :=
  let kind := rl_msg_kind_of msg in
  '(peer, self, o, _) ←
    (if kind =? RL_MSG_READ_FILE_REQUEST then read_file_request_ peer self o msg
     else if kind =? RL_MSG_WRITE_FILE_REQUEST then write_file_request_ peer self o msg
     else if kind =? RL_MSG_OPEN_HANDLE_REQUEST then open_handle_request_ peer self o msg
     else if kind =? RL_MSG_CLOSE_HANDLE_REQUEST then close_handle_request_ peer self o msg
     else if kind =? RL_MSG_FIND_NEXT_FILE_REQUEST then find_next_file_request_ peer self o msg
     else reply peer self o msg (error_answer RL_NETERR_BAD_REQUEST));
  Some (peer, self, o, 0).
End FileServer.

(** ** Invariant of the controller's handles *)
Record handle_ok (f : rl_filehandle) : Prop := {
  ho_length : length (native_path f) = 260%nat;
  ho_text : ∃ s, cstr_at (native_path f) = Some s
}.
Record ctl_ok (c : rl_controller) : Prop := {
  co_root : handle_ok (root_handle c);
  co_vinput : handle_ok (vinput_handle c);
  co_voutput : handle_ok (voutput_handle c);
  co_count : length (handles c) = RL_MAX_FILE_HANDLES;
  co_handles : Forall handle_ok (handles c)
}.

Lemma deref_ok c h f : ctl_ok c → deref c h = Some f → handle_ok f.
Proof.
  intros [Hr Hi Ho _ Hs] Hd. destruct h; cbn in Hd; try by injection Hd as <-.
  by eapply Forall_lookup_1.
Qed.

Lemma update_ok c h f : ctl_ok c → handle_ok f → ctl_ok (update_handle c h f).
Proof.
  intros [Hr Hi Ho Hc Hs] Hf. destruct c, h; split; cbn in *; try done.
  - by rewrite length_insert.
  - by apply Forall_insert.
Qed.

Lemma get_handle_deref c id h :
  ctl_ok c → 0 <= id → get_handle_from_id id = Some h → ∃ f, deref c h = Some f.
Proof.
  intros [_ _ _ Hc _] Hid. unfold get_handle_from_id.
  repeat case_match; intros [= <-]; cbn; eauto.
  apply lookup_lt_is_Some_2. rewrite Hc. lia.
Qed.

Lemma set_handle_ok z f : handle_ok f → handle_ok (set_handle z f).
Proof. intros []. by split. Qed.
Lemma set_type_ok z f : handle_ok f → handle_ok (set_type z f).
Proof. intros []. by split. Qed.
Lemma set_size_ok z f : handle_ok f → handle_ok (set_size z f).
Proof. intros []. by split. Qed.
Lemma set_dir_ok d f : handle_ok f → handle_ok (set_dir d f).
Proof. intros []. by split. Qed.
#[export] Hint Resolve set_handle_ok set_type_ok set_size_ok set_dir_ok update_ok : rl.

Section Paths.
Context `{HHost : Host}.

Lemma fix_path_spec input root r :
  cstr_at root = Some r → no_nul input →
  fix_path input root = Some (take 259 (r ++ 47 :: input)).
Proof.
  intros Hr Hi. unfold fix_path.
  apply (format_text_spec 260); [|apply Forall_app; split;
    [by apply cstr_at_Some in Hr as []|by constructor]|lia].
  apply (render_s_char_s _ _ 47); [done..|]. by apply cstr_at_app.
Qed.

Lemma copy_path_ok slot text :
  handle_ok slot → no_nul text → (length text ≤ 259)%nat →
  ∃ mem rc, rl_string_copy 260 (native_path slot) (text ++ [0]) = Some (mem, rc) ∧
    handle_ok (set_path mem slot) ∧ cstr_at mem = Some text.
Proof.
  intros [Hl _] Hn Ht.
  rewrite (rl_string_copy_ok 260 _ _ text) by (by apply cstr_at_app || lia).
  eexists _, _. split; [done|].
  rewrite (take_ge text) by lia. rewrite <-app_assoc. cbn [app].
  split; [|by apply cstr_at_app]. split; cbn [native_path set_path].
  - rewrite length_app. cbn [length]. rewrite length_drop, Hl, length_app. cbn [length]. lia.
  - exists text. by apply cstr_at_app.
Qed.

Lemma item_path_spec native s name :
  cstr_at native = Some s → no_nul name →
  item_path native name = Some (take 254 (s ++ 47 :: name)).
Proof.
  intros Hs Hn. unfold item_path.
  destruct (rl_strbuf_init_spec (replicate NAME_MAX 0) NAME_MAX) as (b0 & -> & H0).
  { rewrite length_replicate. unfold NAME_MAX. lia. }
  cbn [mbind option_bind].
  destruct (rl_strbuf_append_ok _ _ _ _ _ H0 Hs) as (b1 & -> & _ & H1). cbn [mbind option_bind].
  destruct (rl_strbuf_append_ok _ _ _ (cstr "/") (chars "/") H1 eq_refl) as (b2 & -> & _ & H2).
  cbn [mbind option_bind].
  destruct (rl_strbuf_append_ok _ _ _ (name ++ [0]) name H2 (cstr_at_app _ _ Hn))
    as (b3 & -> & _ & H3).
  cbn [mbind option_bind]. rewrite !take_app_take, <- app_assoc, app_nil_l, take_app_take in H3.
  rewrite (strbuf_rep_text _ _ _ H3), take_take; [done|].
  apply Forall_take, Forall_app. split; [by apply cstr_at_Some in Hs as []|].
  by constructor.
Qed.

Lemma item_path_ok native s name :
  cstr_at native = Some s → no_nul name → ∃ item, item_path native name = Some item.
Proof. intros Hs Hn. eexists. by apply item_path_spec. Qed.
End Paths.

Lemma find_slot_spec hs :
  match find_slot hs with
  | Some i => ∃ f, hs !! i = Some f ∧ handle f = 0 ∧ Forall (λ g, handle g ≠ 0) (take i hs)
  | None => Forall (λ g, handle g ≠ 0) hs
  end.
Proof.
  induction hs as [|f hs IH]; cbn [find_slot]; [constructor|].
  destruct (Z.eqb_spec (handle f) 0) as [H0|H0]; [by exists f|].
  destruct (find_slot hs) as [i|].
  - destruct IH as (g & Hg & Hz & Hall). exists g. cbn [lookup list_lookup take].
    split_and!; try done. by constructor.
  - by constructor.
Qed.

(** ** Serving requests *)
Section Facts.
Context `{HHost : Host} {P : Type} `{Link : PeerLink P} {O : Type} `{OS : Posix O}.
Context (rl_log_bits : Z).
Implicit Types (p : P) (c : rl_controller) (o : O) (msg : rl_msg).

Definition net_error (code : Z) : Prop :=
  code ∈ [RL_NETERR_ACCESS_DENIED; RL_NETERR_NOT_FOUND; RL_NETERR_NOT_A_FILE;
          RL_NETERR_NOT_A_DIRECTORY; RL_NETERR_IO_ERROR; RL_NETERR_INVALID_VALUE;
          RL_NETERR_BAD_REQUEST; RL_NETERR_TOO_MANY_FILES_OPEN].

Lemma posix_errno_error o : net_error (translate_posix_errno o).
Proof. unfold translate_posix_errno, net_error. destruct (errno o); set_solver. Qed.

Definition node_type (t : Z) : Prop :=
  t = RL_NODE_TYPE_FILE ∨ t = RL_NODE_TYPE_DIRECTORY.

(** What [make_handle] promises to [open_handle_request]. *)
Definition made (c : rl_controller) (path : list Z) (c' : rl_controller) (r : Z + nat) : Prop :=
  ctl_ok c' ∧
  match r with
  | inl code => net_error code
  | inr i =>
      find_slot (handles c) = Some i ∧ (i < RL_MAX_FILE_HANDLES)%nat ∧
      ∃ f, handles c' = <[i := f]> (handles c) ∧
        node_type (type f) ∧ is_u32 (size f) ∧ cstr_at (native_path f) = Some path ∧
        (type f = RL_NODE_TYPE_DIRECTORY → handle f = -1 ∧ size f = 0)
  end.

Lemma make_handle_spec c o path mode root :
  ctl_ok c → no_nul path → cstr_at (native_path (root_handle c)) = Some root →
  ∃ c' o' r, make_handle c o path mode = Some (c', o', r) ∧
    made c (take 259 (root ++ 47 :: path)) c' r.
Proof.
  intros Hok Hn Hroot. unfold make_handle. rewrite (fix_path_spec path _ root) by done.
  set (text := take 259 (root ++ 47 :: path)). cbn [mbind option_bind].
  assert (no_nul text) as Htn.
  { apply Forall_take, Forall_app. split; [by apply cstr_at_Some in Hroot as []|by constructor]. }
  assert (length text ≤ 259)%nat as Htl by (unfold text; llen).
  pose proof (find_slot_spec (handles c)) as Hfind.
  destruct (find_slot (handles c)) as [i|] eqn:Ei.
  2:{ eexists _, _, _. split; [done|]. split; [done|]. unfold net_error. set_solver. }
  destruct Hfind as (slot & Hslot & Hz & _). rewrite Hslot. cbn [mbind option_bind].
  assert (handle_ok slot) as Hsok by (eapply (deref_ok c (H_slot i)); done).
  assert (i < RL_MAX_FILE_HANDLES)%nat as Hi.
  { rewrite <-(co_count c Hok). by eapply lookup_lt_Some. }
  assert (∀ s o1 code, handle_ok s → net_error code → ∃ c' o' r,
    Some (update_handle c (H_slot i) s, o1, inl code) = Some (c', o', r) ∧
    made c text c' r) as Hfail.
  { intros s o1 code Hs Hcode. eexists _, _, _. split; [done|].
    split; [by apply update_ok|done]. }
  assert (∀ s o1, handle_ok s → node_type (type s) → is_u32 (size s) →
    (type s = RL_NODE_TYPE_DIRECTORY → handle s = -1 ∧ size s = 0) → ∃ c' o' r,
    ('(mem, _) ← rl_string_copy 260 (native_path s) (text ++ [0]);
     Some (update_handle c (H_slot i) (set_path mem s), o1, inr i)) = Some (c', o', r) ∧
    made c text c' r) as Hdone.
  { intros s o1 Hs Ht Hz' Hd. destruct (copy_path_ok s text Hs Htn Htl) as (mem & rc & -> & Hm & Hc).
    cbn [mbind option_bind]. eexists _, _, _. split; [done|]. split; [by apply update_ok|].
    split; [done|]. split; [done|]. exists (set_path mem s). split; [by destruct c|done]. }
  destruct (negb (has_flag mode RL_OPENFLAG_WRITE)).
  - destruct (stat o text) as [[[] sz]|] eqn:Est.
    + cbn [Z.eqb RL_NODE_TYPE_DIRECTORY RL_NODE_TYPE_FILE Pos.eqb].
      apply Hdone; [eauto with rl|by right|done|done].
    + cbn [Z.eqb RL_NODE_TYPE_FILE Pos.eqb]. case_match.
      2:{ apply Hfail; [eauto with rl|unfold net_error; set_solver]. }
      destruct (os_open _ _ _) as [o1 fd].
      destruct (Z.eqb_spec fd (-1)).
      { apply Hfail; [eauto with rl|apply posix_errno_error]. }
      destruct (fstat_size o1 fd).
      * apply Hdone; [eauto with rl|by left|apply u32_range|done].
      * apply Hfail; [eauto with rl|apply posix_errno_error].
    + apply Hfail; [eauto with rl|unfold net_error; set_solver].
  - cbn [Z.eqb RL_NODE_TYPE_FILE Pos.eqb]. case_match.
    2:{ apply Hfail; [eauto with rl|unfold net_error; set_solver]. }
    destruct (os_open _ _ _) as [o1 fd].
    destruct (Z.eqb_spec fd (-1)).
    { apply Hfail; [eauto with rl|apply posix_errno_error]. }
    destruct (fstat_size o1 fd).
    + apply Hdone; [eauto with rl|by left|apply u32_range|done].
    + apply Hfail; [eauto with rl|apply posix_errno_error].
Qed.

(** The answers a request may get. *)
Definition answers_to (req ans : rl_body) : Prop :=
  match ans with
  | error_answer code => net_error code
  | open_handle_answer h _ t => body_kind req = RL_MSG_OPEN_HANDLE_REQUEST ∧
      0 <= h < Z.of_nat RL_MAX_FILE_HANDLES ∧ node_type t
  | read_file_answer d => body_kind req = RL_MSG_READ_FILE_REQUEST ∧ na_length d <= 4096
  | write_file_answer => body_kind req = RL_MSG_WRITE_FILE_REQUEST
  | find_next_file_answer _ t _ _ => body_kind req = RL_MSG_FIND_NEXT_FILE_REQUEST ∧ node_type t
  | _ => False
  end.

Definition answered (p p' : P) (msg : rl_msg) (ans : rl_body) : Prop :=
  ∀ ms, link_sent p ms →
    link_sent p' (ms ++ [RL_MSG_INIT ans (hdr_seq msg)]) ∨ link_down p'.

Lemma transmit_answered p ms msg b :
  link_sent p ms → is_u32 (hdr_seq msg) → wf_body b →
  Z.of_nat (length (body_bytes b)) <= 8000 →
  ∃ p' rc, transmit p (RL_MSG_INIT b (hdr_seq msg)) = Some (p', rc) ∧
    (link_sent p' (ms ++ [RL_MSG_INIT b (hdr_seq msg)]) ∨ link_down p').
Proof.
  intros Hs Hseq Hb Hl. destruct (transmit_sent p ms (RL_MSG_INIT b (hdr_seq msg)) Hs)
    as (p' & Ht & Hp); [|by exists p', 0].
  split; [|unfold wire_length; cbn [body RL_MSG_INIT]; lia]. split; cbn; try done.
Qed.

(** The outcome of a request: the invariant, and one answer. *)
Definition served (c : rl_controller) (ms : list rl_msg) (msg : rl_msg)
    (r : option (server_result (P := P) (O := O))) : Prop :=
  ∃ p' c' o' rc, r = Some (p', c', o', rc) ∧ ctl_ok c' ∧
    (link_down p' ∨
     ∃ ans, answers_to (body msg) ans ∧ link_sent p' (ms ++ [RL_MSG_INIT ans (hdr_seq msg)])).

(** A request to close a handle that exists wants no answer. *)
Definition closes (b : rl_body) : bool :=
  match b with close_handle_request id => bool_decide (is_Some (get_handle_from_id id)) | _ => false end.

(** A write to a handle that does not exist: its log line reads through a null
    pointer. *)
Definition writes_nowhere (b : rl_body) : bool :=
  match b with write_file_request id _ => bool_decide (get_handle_from_id id = None) | _ => false end.

(** The request is settled: closed in silence, or answered once. *)
Definition settled (ms : list rl_msg) (msg : rl_msg) (p' : P) : Prop :=
  link_down p' ∨
  if closes (body msg) then link_sent p' ms
  else ∃ ans, answers_to (body msg) ans ∧ link_sent p' (ms ++ [RL_MSG_INIT ans (hdr_seq msg)]).

Definition settles (ms : list rl_msg) (msg : rl_msg)
    (r : option (server_result (P := P) (O := O))) : Prop :=
  ∃ p' c' o' rc, r = Some (p', c', o', rc) ∧ ctl_ok c' ∧ settled ms msg p'.

Lemma served_settles c ms msg r :
  served c ms msg r → body_kind (body msg) ≠ RL_MSG_CLOSE_HANDLE_REQUEST → settles ms msg r.
Proof.
  intros (p' & c' & o' & rc & Hr & Hc & H) Hk. exists p', c', o', rc. split; [done|]. split; [done|].
  destruct H as [H|H]; [by left|right]. by destruct (body msg).
Qed.

Lemma reply_served p c o ms msg b :
  link_sent p ms → is_u32 (hdr_seq msg) → ctl_ok c → wf_body b →
  Z.of_nat (length (body_bytes b)) <= 8000 → answers_to (body msg) b →
  served c ms msg (reply p c o msg b).
Proof.
  intros Hs Hseq Hc Hb Hl Ha. unfold reply.
  destruct (transmit_answered p ms msg b Hs Hseq Hb Hl) as (p' & rc & -> & Hp).
  cbn [mbind option_bind]. exists p', c, o, rc. split; [done|]. split; [done|].
  destruct Hp; [right|left]; eauto.
Qed.

Lemma net_error_u32 code : net_error code → is_u32 code.
Proof.
  unfold net_error. intros H.
  repeat (apply elem_of_cons in H as [->|H]; [vm_compute; split; congruence|]).
  by apply not_elem_of_nil in H.
Qed.

Lemma reply_error_served p c o ms msg code :
  link_sent p ms → is_u32 (hdr_seq msg) → ctl_ok c → net_error code →
  served c ms msg (reply_error p c o msg code).
Proof.
  intros Hs Hseq Hc Hcode. unfold reply_error, reply_with_error.
  destruct (transmit_answered p ms msg (error_answer code) Hs Hseq)
    as (p' & rc & -> & Hp); [by apply net_error_u32|cbn [body_bytes]; rewrite length_be_split; lia|].
  cbn [mbind option_bind]. exists p', c, o, 1. split; [done|]. split; [done|].
  destruct Hp; [right|left]; [exists (error_answer code)|]; done.
Qed.

(** *** The handlers *)
Section Handlers.
Context (p : P) (c : rl_controller) (o : O) (ms : list rl_msg) (msg : rl_msg).
Hypothesis Hlink : link_sent p ms.
Hypothesis Hctl : ctl_ok c.
Hypothesis Hmsg : wf_msg msg.

Let Hseq : is_u32 (hdr_seq msg) := wf_seq _ Hmsg.

Lemma error_served c' o' code :
  ctl_ok c' → net_error code → served c ms msg (reply_error p c' o' msg code).
Proof.
  intros Hc Hcode.
  destruct (reply_error_served p c' o' ms msg code Hlink Hseq Hc Hcode)
    as (p1 & c1 & o1 & rc & H). by exists p1, c1, o1, rc.
Qed.

Lemma body_served c' o' b :
  ctl_ok c' → wf_body b → Z.of_nat (length (body_bytes b)) <= 8000 →
  answers_to (body msg) b → served c ms msg (reply p c' o' msg b).
Proof.
  intros Hc Hb Hl Ha.
  destruct (reply_served p c' o' ms msg b Hlink Hseq Hc Hb Hl Ha)
    as (p1 & c1 & o1 & rc & H). by exists p1, c1, o1, rc.
Qed.

Lemma drop_rc_served r :
  served c ms msg r → served c ms msg ('(p, c, o, _) ← r; Some (p, c, o, 0)).
Proof.
  intros (p1 & c1 & o1 & rc & -> & H). cbn [mbind option_bind]. by exists p1, c1, o1, 0.
Qed.

Lemma open_served :
  rl_msg_kind_of msg = RL_MSG_OPEN_HANDLE_REQUEST →
  served c ms msg (open_handle_request_ p c o msg).
Proof.
  unfold rl_msg_kind_of. rewrite (wf_type _ Hmsg). intros Hk.
  pose proof (wf_msg_body _ Hmsg) as Hb. unfold open_handle_request_.
  destruct (body msg) eqn:Eb; try discriminate Hk. destruct Hb as [[Hn _] _].
  destruct (ho_text _ (co_root _ Hctl)) as [root Hroot].
  destruct (make_handle_spec c o path (s32 mode) root Hctl Hn Hroot)
    as (c' & o' & r & -> & Hc' & Hr). cbn [mbind option_bind].
  destruct r as [code|i]; [by apply error_served|].
  destruct Hr as (_ & Hi & f & Hf & Ht & Hsz & _).
  assert (handles c' !! i = Some f) as ->.
  { rewrite Hf. apply list_lookup_insert_eq. rewrite (co_count _ Hctl). lia. }
  cbn [mbind option_bind get_filehandle_index].
  apply body_served; [done| | |].
  - unfold RL_MAX_FILE_HANDLES in Hi.
    split; [unfold is_u32; lia|]. split; [apply u32_range|].
    destruct Ht as [-> | ->]; vm_compute; split; congruence.
  - cbn [body_bytes]. rewrite !length_app, !length_be_split. cbn [length]. lia.
  - rewrite Eb. cbn [answers_to body_kind]. split; [done|]. split; [lia|].
    destruct Ht as [-> | ->]; [by left|by right].
Qed.

Lemma virtual_handle id :
  (RL_FILEHANDLE_VIRTUAL_INPUT =? id) || (RL_FILEHANDLE_VIRTUAL_OUTPUT =? id) = true →
  is_Some (get_handle_from_id id).
Proof.
  unfold get_handle_from_id. intros H. destruct (u32 (-1) =? id); [by eexists|].
  destruct (RL_FILEHANDLE_VIRTUAL_INPUT =? id); [by eexists|].
  destruct (RL_FILEHANDLE_VIRTUAL_OUTPUT =? id); [by eexists|done].
Qed.

Lemma close_served :
  rl_msg_kind_of msg = RL_MSG_CLOSE_HANDLE_REQUEST →
  settles ms msg (close_handle_request_ p c o msg).
Proof.
  unfold rl_msg_kind_of. rewrite (wf_type _ Hmsg). intros Hk.
  pose proof (wf_msg_body _ Hmsg) as Hb. unfold close_handle_request_.
  destruct (body msg) eqn:Eb; try discriminate Hk.
  destruct (_ || _) eqn:Ev.
  { exists p, c, o, 0. split; [done|]. split; [done|]. right. rewrite Eb. cbn [closes].
    by rewrite bool_decide_true by by apply virtual_handle. }
  destruct (get_handle_from_id handle0) as [h|] eqn:Eh.
  2:{ destruct (error_served c o RL_NETERR_INVALID_VALUE) as (p' & c' & o' & rc & E & Hc' & H);
      [done|unfold net_error; set_solver|].
      exists p', c', o', rc. split; [done|]. split; [done|]. destruct H as [H|H]; [by left|right].
      rewrite Eb in *. cbn [closes]. by rewrite Eh. }
  destruct (get_handle_deref c handle0 h Hctl (proj1 Hb) Eh) as [f Hf]. rewrite Hf.
  cbn [mbind option_bind]. eexists _, _, _, _. split; [done|]. split.
  - pose proof (deref_ok _ _ _ Hctl Hf). eauto with rl.
  - right. rewrite Eb. cbn [closes]. by rewrite Eh.
Qed.

Lemma read_served :
  rl_msg_kind_of msg = RL_MSG_READ_FILE_REQUEST →
  served c ms msg (read_file_request_ p c o msg).
Proof.
  unfold rl_msg_kind_of. rewrite (wf_type _ Hmsg). intros Hk.
  pose proof (wf_msg_body _ Hmsg) as Hb. unfold read_file_request_.
  destruct (body msg) eqn:Eb; try discriminate Hk. rename length into req_length.
  destruct Hb as (Hh & _).
  destruct (get_handle_from_id handle0) as [h|] eqn:Eh.
  2:{ apply error_served; [done|unfold net_error; set_solver]. }
  destruct (get_handle_deref c handle0 h Hctl (proj1 Hh) Eh) as [f Hf]. rewrite Hf.
  cbn [mbind option_bind]. case_match.
  { apply error_served; [done|unfold net_error; set_solver]. }
  destruct (pread o _ _ _) as [bs|] eqn:Er.
  2:{ apply error_served; [done|unfold net_error; set_solver]. }
  destruct (pread_bytes _ _ _ _ _ Er) as [Hlen Hbytes]. apply drop_rc_served.
  assert (Z.of_nat (length bs) <= 4096) as Hl4 by (unfold read_buffer_size in Hlen; lia).
  apply body_served; [done| | |].
  - unfold wf_body, wf_array. cbn [na_length na_base]. lia.
  - cbn [body_bytes]. unfold array_contents, na_bytes. cbn [na_length na_base].
    rewrite decide_True by lia. cbn [from_option id]. unfold arr_bytes. llen.
  - rewrite Eb. cbn [answers_to na_length]. done.
Qed.

Lemma write_served :
  rl_msg_kind_of msg = RL_MSG_WRITE_FILE_REQUEST →
  has_flag rl_log_bits RL_DEBUG && writes_nowhere (body msg) = false →
  served c ms msg (write_file_request_ rl_log_bits p c o msg).
Proof.
  unfold rl_msg_kind_of. rewrite (wf_type _ Hmsg). intros Hk Hlog.
  pose proof (wf_msg_body _ Hmsg) as Hb. unfold write_file_request_.
  destruct (body msg) eqn:Eb; try discriminate Hk. destruct Hb as (Hh & Ha).
  cbn [writes_nowhere] in Hlog. rewrite Hlog. destruct (array_contents_wf _ Ha) as [Hbytes _].
  assert (∃ o1, (if decide (get_handle_from_id handle0 = Some H_voutput)
    then bytes ← na_bytes data; Some (fwrite_stdout o bytes) else Some o) = Some o1)
    as [o1 ->] by (case_decide; rewrite ?Hbytes; by eexists).
  cbn [mbind option_bind]. apply drop_rc_served.
  apply body_served; [done|done|cbn; lia|by rewrite Eb].
Qed.

Lemma find_next_served :
  rl_msg_kind_of msg = RL_MSG_FIND_NEXT_FILE_REQUEST →
  served c ms msg (find_next_file_request_ p c o msg).
Proof.
  unfold rl_msg_kind_of. rewrite (wf_type _ Hmsg). intros Hk.
  pose proof (wf_msg_body _ Hmsg) as Hb. unfold find_next_file_request_.
  destruct (body msg) eqn:Eb; try discriminate Hk. destruct Hb as (Hh & _).
  destruct (get_handle_from_id handle0) as [h|] eqn:Eh.
  2:{ apply error_served; [done|unfold net_error; set_solver]. }
  destruct (get_handle_deref c handle0 h Hctl (proj1 Hh) Eh) as [f Hf]. rewrite Hf.
  pose proof (deref_ok _ _ _ Hctl Hf) as Hfok.
  cbn [mbind option_bind]. destruct (negb _).
  { apply error_served; [done|unfold net_error; set_solver]. }
  set (fo := match dir_handle f with Some _ => _ | None => _ end).
  assert (handle_ok fo.1 ∧ native_path fo.1 = native_path f) as [Hok1 Hp1].
  { unfold fo. destruct (dir_handle f); [|done]. destruct (negb _); [|done].
    split; [by apply set_dir_ok|done]. }
  destruct fo as [f1 o1]. cbn [fst] in Hok1, Hp1.
  destruct (ho_text _ Hok1) as [s Hs]. rewrite Hs. cbn [mbind option_bind].
  set (fo2 := match dir_handle f1 with Some _ => _ | None => _ end).
  assert (handle_ok fo2.1 ∧ native_path fo2.1 = native_path f1) as [Hok2 Hp2].
  { unfold fo2. destruct (dir_handle f1); [done|]. destruct (opendir o1 s).
    split; [by apply set_dir_ok|done]. }
  destruct fo2 as [f2 o2]. cbn [fst] in Hok2, Hp2.
  assert (ctl_ok (update_handle c h f2)) as Hc2 by (by apply update_ok).
  destruct (dir_handle f2) as [d|].
  2:{ apply error_served; [done|unfold net_error; set_solver]. }
  destruct (readdir o2 d) as [o3 dent] eqn:Er. destruct dent as [name| |].
  - destruct (readdir_name _ _ _ _ Er) as [Hname _].
    destruct (item_path_ok (native_path f2) s name) as [item ->];
      [by rewrite Hp2|by destruct Hname|].
    cbn [mbind option_bind]. destruct (stat o3 item) as [[is_dir sz]|].
    2:{ apply error_served; [done|unfold net_error; set_solver]. }
    apply body_served; [done| | |].
    + split; [by vm_compute|]. split; [by destruct is_dir; vm_compute|].
      split; [done|apply u32_range].
    + cbn [body_bytes]. destruct Hname as [_ Hnl]. rewrite !length_app, length_be_split.
      unfold str_bytes. cbn [length]. rewrite length_app. cbn [length]. lia.
    + rewrite Eb. cbn [answers_to]. split; [done|]. destruct is_dir; [by right|by left].
  - apply body_served; [done| |by vm_compute|rewrite Eb; split; [done|by right]].
    split; [by vm_compute|]. split; [by vm_compute|]. split; [|by vm_compute].
    split; [constructor|cbn; lia].
  - apply error_served; [done|unfold net_error; set_solver].
Qed.
End Handlers.

Lemma settles_rc0 ms msg r :
  settles ms msg r →
  ∃ p' c' o', ('(p, c, o, _) ← r; Some (p, c, o, 0)) = Some (p', c', o', 0) ∧ ctl_ok c' ∧
    settled ms msg p'.
Proof. intros (p' & c' & o' & rc & -> & H). cbn [mbind option_bind]. by exists p', c', o'. Qed.

Lemma kind_settles c ms msg r k :
  wf_msg msg → rl_msg_kind_of msg = k → k ≠ RL_MSG_CLOSE_HANDLE_REQUEST → served c ms msg r →
  settles ms msg r.
Proof.
  intros Hm Hk Hne Hs. eapply served_settles; [exact Hs|]. rewrite <- (wf_type _ Hm).
  unfold rl_msg_kind_of in Hk. by rewrite Hk.
Qed.

(** Every request is answered, or closes a handle. *)
Lemma request_served p c o ms msg :
  link_sent p ms → ctl_ok c → wf_msg msg →
  has_flag rl_log_bits RL_DEBUG && writes_nowhere (body msg) = false →
  ∃ p' c' o', rl_file_serve rl_log_bits p c o msg = Some (p', c', o', 0) ∧ ctl_ok c' ∧
    settled ms msg p'.
Proof.
  intros Hl Hc Hm Hlog. apply settles_rc0.
  destruct (Z.eqb_spec (rl_msg_kind_of msg) RL_MSG_READ_FILE_REQUEST) as [E|].
  { eapply (kind_settles c); [done|exact E|done|by apply read_served]. }
  destruct (Z.eqb_spec (rl_msg_kind_of msg) RL_MSG_WRITE_FILE_REQUEST) as [E|].
  { eapply (kind_settles c); [done|exact E|done|by apply write_served]. }
  destruct (Z.eqb_spec (rl_msg_kind_of msg) RL_MSG_OPEN_HANDLE_REQUEST) as [E|].
  { eapply (kind_settles c); [done|exact E|done|by apply open_served]. }
  destruct (Z.eqb_spec (rl_msg_kind_of msg) RL_MSG_CLOSE_HANDLE_REQUEST) as [E|Hne];
    [by apply close_served|].
  destruct (Z.eqb_spec (rl_msg_kind_of msg) RL_MSG_FIND_NEXT_FILE_REQUEST) as [E|].
  { eapply (kind_settles c); [done|exact E|done|by apply find_next_served]. }
  eapply (kind_settles c); [done|done|exact Hne|].
  apply body_served; [done..|cbn [body_bytes]; rewrite length_be_split; lia|].
  cbn [answers_to]. unfold net_error. set_solver.
Qed.

(** With the debug log on, a write to a handle that does not exist ends in
    undefined behaviour. *)
Lemma write_undefined p c o msg :
  wf_msg msg → has_flag rl_log_bits RL_DEBUG && writes_nowhere (body msg) = true →
  rl_file_serve rl_log_bits p c o msg = None.
Proof.
  intros Hm [Hlog Hw]%andb_prop. unfold rl_file_serve, rl_msg_kind_of. rewrite (wf_type _ Hm).
  unfold writes_nowhere in Hw. destruct (body msg) eqn:Eb; try done. cbn [body_kind Z.eqb].
  unfold write_file_request_. rewrite Eb, Hlog, Hw. done.
Qed.

End Facts.

(** ** Sessions *)
Section Sessions.
Context `{HHost : Host} {P : Type} `{Link : PeerLink P} {O : Type} `{OS : Posix O}.
Implicit Types (p : P) (c : rl_controller) (o : O) (msg : rl_msg).

Lemma slot_id i : (i < RL_MAX_FILE_HANDLES)%nat → get_handle_from_id (Z.of_nat i) = Some (H_slot i).
Proof.
  unfold RL_MAX_FILE_HANDLES. intros Hi. unfold get_handle_from_id.
  change (u32 (-1)) with 4294967295.
  unfold RL_FILEHANDLE_VIRTUAL_INPUT, RL_FILEHANDLE_VIRTUAL_OUTPUT, RL_MAX_FILE_HANDLES.
  ztest. by rewrite Nat2Z.id.
Qed.

(** A read of an open file is answered with the bytes of the file from the
    low half of the offset, up to 4096 of them: the high half and the length
    of the request play no role. *)
Lemma read_slot_spec p c o ms msg i f d off_hi off_lo len :
  link_sent p ms → wf_msg msg →
  body msg = read_file_request (Z.of_nat i) off_hi off_lo len →
  (i < RL_MAX_FILE_HANDLES)%nat → handles c !! i = Some f → handle f ≠ 0 →
  file_data o (handle f) = Some d →
  let bytes := take read_buffer_size (drop (Z.to_nat off_lo) d) in
  ∃ p', read_file_request_ p c o msg = Some (p', c, o, 0) ∧
    (link_sent p' (ms ++ [RL_MSG_INIT
       (read_file_answer (NetArray bytes (Z.of_nat (length bytes)))) (hdr_seq msg)]) ∨
     link_down p').
Proof.
  intros Hl Hm Hb Hi Hf Hz Hd. cbv zeta. set (bytes := take _ _).
  pose proof (wf_msg_body _ Hm) as Hwb. rewrite Hb in Hwb. destruct Hwb as (_ & _ & Hoff & _).
  unfold read_file_request_. rewrite Hb, slot_id by done. cbn [deref]. rewrite Hf.
  cbn [mbind option_bind]. rewrite (proj2 (Z.eqb_neq 0 _)) by done.
  rewrite (pread_data _ _ _ _ d Hd) by apply Hoff. fold bytes.
  assert (Z.of_nat (length bytes) <= 4096) as Hlen
    by (unfold bytes, read_buffer_size; rewrite length_take; lia).
  destruct (transmit_answered p ms msg (read_file_answer (NetArray bytes (Z.of_nat (length bytes))))
    Hl (wf_seq _ Hm)) as (p' & rc & Ht & Hp).
  - unfold wf_body, wf_array. cbn [na_length na_base]. lia.
  - cbn [body_bytes]. unfold array_contents, na_bytes. cbn [na_length na_base].
    rewrite decide_True by lia. cbn [from_option id]. unfold arr_bytes. llen.
  - unfold reply. rewrite Ht. cbn [mbind option_bind]. by exists p'.
Qed.

(** Opening an existing file for reading. *)
Lemma open_file_spec p c o ms msg path i root sz fd o' n :
  link_sent p ms → ctl_ok c → wf_msg msg →
  body msg = open_handle_request path RL_OPENFLAG_READ →
  cstr_at (native_path (root_handle c)) = Some root →
  let native := take 259 (root ++ 47 :: path) in
  find_slot (handles c) = Some i →
  stat o native = Some (false, sz) →
  os_open o native (OpenFlags O_RDONLY false false) = (o', fd) → fd ≠ -1 →
  fstat_size o' fd = Some n →
  ∃ p' c' f, open_handle_request_ p c o msg = Some (p', c', o', 0) ∧
    (link_sent p' (ms ++ [RL_MSG_INIT
       (open_handle_answer (Z.of_nat i) (u32 n) RL_NODE_TYPE_FILE) (hdr_seq msg)]) ∨
     link_down p') ∧
    ctl_ok c' ∧ (i < RL_MAX_FILE_HANDLES)%nat ∧ handles c' = <[i := f]> (handles c) ∧
    handles c' !! i = Some f ∧ handle f = fd ∧ size f = u32 n.
Proof.
  intros Hl Hc Hm Hb Hroot native Hi Hst Hop Hfd Hn.
  pose proof (wf_msg_body _ Hm) as Hwb. rewrite Hb in Hwb. destruct Hwb as [[Hnn _] _].
  pose proof (find_slot_spec (handles c)) as Hfind. rewrite Hi in Hfind.
  destruct Hfind as (slot & Hslot & _ & _).
  assert (i < RL_MAX_FILE_HANDLES)%nat as Hilt
    by (rewrite <-(co_count c Hc); by eapply lookup_lt_Some).
  assert (handle_ok slot) as Hsok by (eapply (deref_ok c (H_slot i)); done).
  set (slot2 := set_size (u32 n) (set_handle fd (set_type RL_NODE_TYPE_FILE slot))).
  destruct (copy_path_ok slot2 native) as (mem & rc & Hcopy & Hmem & _).
  { unfold slot2. eauto with rl. }
  { apply Forall_take, Forall_app. split; [by apply cstr_at_Some in Hroot as []|by constructor]. }
  { unfold native. llen. }
  assert (make_handle c o path (s32 RL_OPENFLAG_READ) =
          Some (update_handle c (H_slot i) (set_path mem slot2), o', inr i)) as Hmk.
  { unfold make_handle. rewrite (fix_path_spec path _ root) by done. fold native.
    cbn [mbind option_bind]. rewrite Hi, Hslot. cbn [mbind option_bind].
    change (has_flag (s32 RL_OPENFLAG_READ) RL_OPENFLAG_WRITE) with false.
    change (has_flag (s32 RL_OPENFLAG_READ) RL_OPENFLAG_READ) with true.
    change (has_flag (s32 RL_OPENFLAG_READ) RL_OPENFLAG_CREATE) with false.
    cbn [negb]. rewrite Hst. cbn [Z.eqb RL_NODE_TYPE_FILE Pos.eqb]. rewrite Hop.
    rewrite (proj2 (Z.eqb_neq _ _)) by done. rewrite Hn. fold slot2. by rewrite Hcopy. }
  unfold open_handle_request_. rewrite Hb, Hmk. cbn [mbind option_bind].
  set (c' := update_handle c (H_slot i) (set_path mem slot2)).
  assert (handles c' = <[i := set_path mem slot2]> (handles c)) as Hhs by (by destruct c).
  assert (handles c' !! i = Some (set_path mem slot2)) as Hlk.
  { rewrite Hhs. apply list_lookup_insert_eq. by rewrite (co_count c Hc). }
  rewrite Hlk. cbn [mbind option_bind get_filehandle_index].
  change (size (set_path mem slot2)) with (u32 n).
  change (u8 (type (set_path mem slot2))) with RL_NODE_TYPE_FILE.
  rewrite (u32_id (u32 n)) by apply u32_range.
  destruct (transmit_sent p ms (RL_MSG_INIT
    (open_handle_answer (Z.of_nat i) (u32 n) RL_NODE_TYPE_FILE) (hdr_seq msg)) Hl)
    as (p' & Ht & Hp).
  { unfold RL_MAX_FILE_HANDLES in Hilt. split.
    - split; [done|by vm_compute|apply (wf_seq _ Hm)|].
      split; [unfold is_u32; cbn; lia|]. split; [apply u32_range|by vm_compute].
    - unfold wire_length. cbn [body RL_MSG_INIT body_bytes].
      rewrite !length_app, !length_be_split. cbn [length]. lia. }
  unfold reply. rewrite Ht. cbn [mbind option_bind].
  exists p', c', (set_path mem slot2). split; [done|]. split; [done|].
  split; [by apply update_ok|]. done.
Qed.

(** A client that opens a file and reads it gets the file: the open is
    answered with the first free handle and the file's size, and a read
    through that handle with the file's bytes from the offset on, up to 4096
    of them.  The length asked for is not respected. *)
Theorem open_then_read p c o ms m1 m2 path i root sz fd o' n d off_hi off_lo len :
  link_sent p ms → ctl_ok c → wf_msg m1 → wf_msg m2 →
  body m1 = open_handle_request path RL_OPENFLAG_READ →
  body m2 = read_file_request (Z.of_nat i) off_hi off_lo len →
  cstr_at (native_path (root_handle c)) = Some root →
  let native := take 259 (root ++ 47 :: path) in
  find_slot (handles c) = Some i →
  stat o native = Some (false, sz) →
  os_open o native (OpenFlags O_RDONLY false false) = (o', fd) → fd ≠ -1 → fd ≠ 0 →
  fstat_size o' fd = Some n → file_data o' fd = Some d →
  let bytes := take read_buffer_size (drop (Z.to_nat off_lo) d) in
  ∃ p1 c1, open_handle_request_ p c o m1 = Some (p1, c1, o', 0) ∧ ctl_ok c1 ∧
    (link_down p1 ∨
     ∃ p2, read_file_request_ p1 c1 o' m2 = Some (p2, c1, o', 0) ∧
       (link_down p2 ∨
        link_sent p2 (ms ++
          [RL_MSG_INIT (open_handle_answer (Z.of_nat i) (u32 n) RL_NODE_TYPE_FILE) (hdr_seq m1);
           RL_MSG_INIT (read_file_answer (NetArray bytes (Z.of_nat (length bytes))))
             (hdr_seq m2)]))).
Proof.
  intros Hl Hc Hm1 Hm2 Hb1 Hb2 Hroot native Hi Hst Hop Hfd Hfd0 Hn Hd bytes.
  destruct (open_file_spec p c o ms m1 path i root sz fd o' n Hl Hc Hm1 Hb1 Hroot Hi Hst Hop
    Hfd Hn) as (p1 & c1 & f & Hrun & Hp1 & Hc1 & Hilt & _ & Hlk & Hhf & _).
  exists p1, c1. split; [done|]. split; [done|]. destruct Hp1 as [Hp1|Hp1]; [right|by left].
  destruct (read_slot_spec p1 c1 o' _ m2 i f d off_hi off_lo len Hp1 Hm2 Hb2 Hilt Hlk)
    as (p2 & Hrun2 & Hp2); [by rewrite Hhf|by rewrite Hhf|].
  exists p2. split; [done|]. destruct Hp2 as [Hp2|Hp2]; [right|by left].
  by rewrite <-app_assoc in Hp2.
Qed.

(** A slot that is closed can be taken by the next open. *)
Lemma slot_freed c i f :
  handles c !! i = Some f →
  let c' := update_handle c (H_slot i) (set_handle 0 f) in
  handles c' !! i = Some (set_handle 0 f) ∧ ∃ j, (j ≤ i)%nat ∧ find_slot (handles c') = Some j.
Proof.
  intros Hf c'. assert (handles c' !! i = Some (set_handle 0 f)) as Hlk.
  { unfold c'. destruct c. cbn. apply list_lookup_insert_eq. by eapply lookup_lt_Some. }
  split; [done|]. pose proof (find_slot_spec (handles c')) as Hfs.
  destruct (find_slot (handles c')) as [j|].
  - destruct Hfs as (g & _ & _ & Hall). exists j. split; [|done].
    destruct (decide (j ≤ i)%nat); [done|]. exfalso.
    rewrite Forall_lookup in Hall. apply (Hall i (set_handle 0 f)); [|done].
    by rewrite lookup_take_lt by lia.
  - exfalso. rewrite Forall_lookup in Hfs. by apply (Hfs i (set_handle 0 f)).
Qed.

Lemma close_slot p c o msg i f :
  body msg = close_handle_request (Z.of_nat i) →
  (i < RL_MAX_FILE_HANDLES)%nat → handles c !! i = Some f →
  close_handle_request_ p c o msg =
    Some (p, update_handle c (H_slot i) (set_handle 0 f),
          if -1 =? handle f then os_close o (handle f) else o, 0).
Proof.
  intros Hb Hi Hf. unfold close_handle_request_. rewrite Hb.
  assert ((RL_FILEHANDLE_VIRTUAL_INPUT =? Z.of_nat i) ||
          (RL_FILEHANDLE_VIRTUAL_OUTPUT =? Z.of_nat i) = false) as ->.
  { unfold RL_FILEHANDLE_VIRTUAL_INPUT, RL_FILEHANDLE_VIRTUAL_OUTPUT, RL_MAX_FILE_HANDLES in *.
    by ztest. }
  rewrite slot_id by done. cbn [deref]. by rewrite Hf.
Qed.

(** C37: closing an open file frees its slot for the next open, but leaves the
    operating system's descriptor open: only directories, whose descriptor
    is -1, reach [close]. *)
Theorem close_leaks_descriptor p c o msg i f :
  body msg = close_handle_request (Z.of_nat i) →
  (i < RL_MAX_FILE_HANDLES)%nat → handles c !! i = Some f → handle f ≠ -1 →
  let c' := update_handle c (H_slot i) (set_handle 0 f) in
  close_handle_request_ p c o msg = Some (p, c', o, 0) ∧
  ∃ j, (j ≤ i)%nat ∧ find_slot (handles c') = Some j.
Proof.
  intros Hb Hi Hf Hne c'. split; [|by apply slot_freed].
  rewrite (close_slot p c o msg i f) by done. by rewrite (proj2 (Z.eqb_neq (-1) _)) by done.
Qed.
End Sessions.

(** ** A concrete operating system: regular files by path, no directories.
    The descriptor of the [k]-th file is [k + 3]. *)
Record mem_os := MemOS { mo_files : list (list Z * list Z); mo_stdout : list Z }.

Fixpoint mem_find (files : list (list Z * list Z)) (path : list Z) (k : Z)
  : option (Z * list Z) :=
  match files with
  | [] => None
  | (name, d) :: files => if decide (name = path) then Some (k, d) else mem_find files path (k + 1)
  end.

Definition mem_file (o : mem_os) (fd : Z) : option (list Z) :=
  if fd <? 3 then None else
  match mo_files o !! Z.to_nat (fd - 3) with
  | Some (_, d) => if decide (Forall is_byte d) then Some d else None
  | None => None
  end.

Lemma mem_file_bytes o fd d : mem_file o fd = Some d → Forall is_byte d.
Proof.
  unfold mem_file. case_match; [done|]. case_match; [|done]. destruct p.
  case_decide; [|done]. by intros [= <-].
Qed.

#[refine] Definition mem_posix : Posix mem_os := {|
  stat o path := match mem_find (mo_files o) path 3 with
                 | Some (_, d) => Some (false, Z.of_nat (length d))
                 | None => None
                 end;
  os_open o path _ := (o, match mem_find (mo_files o) path 3 with
                          | Some (fd, _) => fd
                          | None => -1
                          end);
  fstat_size o fd := match mem_file o fd with
                     | Some d => Some (Z.of_nat (length d))
                     | None => None
                     end;
  os_close o _ := o;
  pread o fd n off := match mem_file o fd with
                      | Some d => Some (take n (drop (Z.to_nat off) d))
                      | None => None
                      end;
  opendir o _ := (o, None);
  readdir o _ := (o, D_end);
  closedir o _ := o;
  errno _ := E_OTHER;
  fwrite_stdout o bs := MemOS (mo_files o) (mo_stdout o ++ bs);
  file_data := mem_file
|}.
Proof.
  - intros o fd n off bs. destruct (mem_file o fd) as [d|] eqn:E; [|done]. intros [= <-].
    split; [rewrite length_take; lia|]. eapply Forall_take, Forall_drop, mem_file_bytes, E.
  - intros o fd n off d H _. cbn in *. by rewrite H.
  - intros o d o' name. cbn. discriminate.
Defined.

Definition demo_os : mem_os := MemOS [(chars "/w/a", [10; 20; 30; 40; 50])] [].

Definition path_memory (s : list Z) : list Z := s ++ replicate (260 - length s) 0.
Definition demo_handle (h : Z) (path : list Z) (t : Z) : rl_filehandle :=
  FileHandle h None (path_memory path) t 0.
Definition demo_controller : rl_controller :=
  Controller CONTROLLER_FILE_SERVING (demo_handle 0 (chars "/w") 2)
    (demo_handle 0 (chars "in") 1) (demo_handle 1 (chars "out") 1)
    (replicate 16 (demo_handle 0 [] 0)) (chars "a") [] 0.

Lemma demo_handle_ok h path t :
  no_nul path → (length path ≤ 259)%nat → handle_ok (demo_handle h path t).
Proof.
  intros Hn Hl. split; cbn [native_path demo_handle]; unfold path_memory.
  - rewrite length_app, length_replicate. lia.
  - exists path. replace (260 - length path)%nat with (S (259 - length path)) by lia.
    by apply cstr_at_app.
Qed.

Lemma demo_controller_ok : ctl_ok demo_controller.
Proof.
  split; try (apply demo_handle_ok; [repeat constructor; discriminate|cbn; lia]); [done|].
  apply Forall_replicate, demo_handle_ok; [constructor|cbn; lia].
Qed.

Lemma chars_wf_string s : no_nul (chars s) → (length (chars s) ≤ 255)%nat → wf_string (chars s).
Proof. by split. Qed.

Definition demo_open : rl_msg := RL_MSG_INIT (open_handle_request (chars "a") 1) 7.
Definition demo_read : rl_msg := RL_MSG_INIT (read_file_request 0 0 2 1) 8.

Lemma demo_open_wf : wf_msg demo_open.
Proof.
  split; cbn; [done|by vm_compute|by vm_compute|].
  split; [split; [repeat constructor; discriminate|cbn; lia]|by vm_compute].
Qed.
Lemma demo_read_wf : wf_msg demo_read.
Proof. split; cbn; [done|by vm_compute|by vm_compute|]. by repeat split; vm_compute. Qed.


Lemma open_then_read_witness :
  ∃ p1 c1, open_handle_request_ (HHost := demo_host) (Link := log_link) (OS := mem_posix)
      [] demo_controller demo_os demo_open = Some (p1, c1, demo_os, 0) ∧ ctl_ok c1 ∧
    (link_down (PeerLink := log_link) p1 ∨
     ∃ p2, read_file_request_ (Link := log_link) (OS := mem_posix) p1 c1 demo_os demo_read =
         Some (p2, c1, demo_os, 0) ∧
       (link_down (PeerLink := log_link) p2 ∨
        link_sent (PeerLink := log_link) p2 ([] ++
          [RL_MSG_INIT (open_handle_answer 0 5 1) 7;
           RL_MSG_INIT (read_file_answer (NetArray [30; 40; 50] 3)) 8]))).
Proof.
  exact (open_then_read (HHost := demo_host) (Link := log_link) (OS := mem_posix)
    [] demo_controller demo_os [] demo_open demo_read (chars "a") 0 (chars "/w") 5 3 demo_os 5
    [10; 20; 30; 40; 50] 0 2 1 eq_refl demo_controller_ok demo_open_wf demo_read_wf
    eq_refl eq_refl eq_refl eq_refl eq_refl eq_refl ltac:(discriminate) ltac:(discriminate)
    eq_refl eq_refl).
Defined.

Definition demo_open_controller : rl_controller :=
  update_handle demo_controller (H_slot 0) (demo_handle 3 (chars "/w/a") 1).

Lemma close_leaks_descriptor_witness :
  let msg := RL_MSG_INIT (close_handle_request 0) 9 in
  let c' := update_handle demo_open_controller (H_slot 0)
              (set_handle 0 (demo_handle 3 (chars "/w/a") 1)) in
  close_handle_request_ (Link := log_link) (OS := mem_posix) [] demo_open_controller demo_os msg =
    Some ([], c', demo_os, 0) ∧
  ∃ j, (j ≤ 0)%nat ∧ find_slot (handles c') = Some j.
Proof.
  exact (close_leaks_descriptor (Link := log_link) (OS := mem_posix) [] demo_open_controller
    demo_os (RL_MSG_INIT (close_handle_request 0) 9) 0 (demo_handle 3 (chars "/w/a") 1)
    eq_refl ltac:(unfold RL_MAX_FILE_HANDLES; lia) eq_refl ltac:(discriminate)).
Defined.
