(* ===== verification/FileServerWin.v ===== *)
(** * FileServerWin: the Windows build of the file server (file_server.c)

    The handlers of [FileServer] with the branches for [RL_WIN32].  The state is
    that of the POSIX build (controller.h): [handle] is a [HANDLE], 0 for [NULL]
    and -1 for [INVALID_HANDLE_VALUE], and [dir_handle] stands for
    [find_handle].  The Windows interface is the class [Win32]. *)

From S2P Require Import Prelude Wire Messages CString Format Transport Peer FileServer.

(** ** The operating system *)
Inductive win_error := ERROR_ACCESS_DENIED | ERROR_OTHER.

(** [dwDesiredAccess], and whether the disposition is [CREATE_ALWAYS]. *)
Record create_flags := CreateFlags { generic_read : bool; generic_write : bool; create_always : bool }.

(** What the code uses of [WIN32_FIND_DATAA]. *)
Record find_data := FindData { fd_directory : bool; cFileName : list Z; nFileSizeLow : Z }.

(** A position as [SetFilePointerEx] takes it: the two halves of a signed
    64-bit number. *)
Definition large_integer (hi lo : Z) : Z := s32 hi * 2 ^ 32 + lo.

(** [find_entries] is what a search has still to give, [win_file] the contents of
    the file that a handle is open for. *)
Class Win32 (O : Type) := {
  GetFileAttributes : O → list Z → option bool;
  CreateFileA : O → list Z → create_flags → O * Z;
  GetLastError : O → win_error;
  GetFileSize : O → Z → Z;
  CloseHandle : O → Z → O;
  FindFirstFile : O → list Z → O * option (Z * find_data);
  FindNextFile : O → Z → O * option find_data;
  FindClose : O → Z → O;
  SetFilePointerEx : O → Z → Z → O * bool;
  ReadFile : O → Z → nat → O * option (list Z);
  win_fwrite_stdout : O → list Z → O;
  find_entries : O → Z → list find_data;
  win_file : O → Z → option (list Z);
  first_file o path o' h data :
    FindFirstFile o path = (o', Some (h, data)) → wf_string (cFileName data);
  next_file o h :
    match find_entries o h with
    | data :: rest => ∃ o', FindNextFile o h = (o', Some data) ∧ find_entries o' h = rest ∧
                            wf_string (cFileName data)
    | [] => ∃ o', FindNextFile o h = (o', None)
    end;
  read_bytes o h n o' bs :
    ReadFile o h n = (o', Some bs) → (length bs ≤ n)%nat ∧ Forall is_byte bs;
  seek_read o h d pos n :
    win_file o h = Some d → 0 <= pos → ∃ o1 o2,
      SetFilePointerEx o h pos = (o1, true) ∧
      ReadFile o1 h n = (o2, Some (take n (drop (Z.to_nat pos) d))) ∧ win_file o2 h = Some d
}.

Definition INVALID_HANDLE_VALUE : Z := -1.

(** ** Paths *)

(** The loop of [fix_path]: it copies all of [backslash_path] but its last byte,
    whatever the length of the path. *)
Fixpoint backslash_loop (n : nat) (input : ptr) : option (list Z) :=
  match n with
  | 0%nat => Some [0]
  | S n =>
      match input with
      | [] => None
      | ch :: input =>
          rest ← backslash_loop n input; Some ((if 47 =? ch then 92 else ch) :: rest)
      end
  end.

Section FileServerWin.
Context `{HHost : Host} {P : Type} `{Link : PeerLink P} {O : Type} `{OS : Win32 O}.
Context (rl_log_bits : Z).

Definition fix_path_win (input : ptr) (root_path : list Z) : option (list Z) :=
  backslash_path ← backslash_loop 127 input;
  format_text 260 (cstr "%s\%s") [VStr root_path; VStr backslash_path].

(** [make_handle]; [path] points into the message, up to the end of its
    buffer. *)
Definition make_handle_win (self : rl_controller) (o : O) (path : ptr) (mode : Z)
  : option (rl_controller * O * (Z + nat)) :=
  path_text ← fix_path_win path (native_path (root_handle self));
  match find_slot (handles self) with
  | None => Some (self, o, inl RL_NETERR_TOO_MANY_FILES_OPEN)
  | Some i =>
      slot ← handles self !! i;
      let fail slot o code := Some (update_handle self (H_slot i) slot, o, inl code) in
      let done slot o :=
        '(mem, _) ← rl_string_copy 260 (native_path slot) (path_text ++ [0]);
        Some (update_handle self (H_slot i) (set_path mem slot), o, inr i) in
      let kind :=
        if negb (has_flag mode RL_OPENFLAG_WRITE) then
          match GetFileAttributes o path_text with
          | None => None
          | Some is_dir =>
              Some (if is_dir : bool then RL_NODE_TYPE_DIRECTORY else RL_NODE_TYPE_FILE)
          end
        else Some RL_NODE_TYPE_FILE in
      match kind with
      | None => fail (set_handle 0 slot) o RL_NETERR_NOT_FOUND
      | Some kind =>
          let slot := set_type kind slot in
          if kind =? RL_NODE_TYPE_FILE then
            let flags := CreateFlags (has_flag mode RL_OPENFLAG_READ)
                           (has_flag mode RL_OPENFLAG_WRITE) (has_flag mode RL_OPENFLAG_CREATE) in
            let '(o, h) := CreateFileA o path_text flags in
            let slot := set_dir None (set_handle h slot) in
            if INVALID_HANDLE_VALUE =? h then
              fail (set_handle 0 slot) o
                (match GetLastError o with
                 | ERROR_ACCESS_DENIED => RL_NETERR_ACCESS_DENIED
                 | ERROR_OTHER => RL_NETERR_IO_ERROR
                 end)
            else done (set_size (u32 (GetFileSize o h)) slot) o
          else done (set_size 0 (set_dir None (set_handle INVALID_HANDLE_VALUE slot))) o
      end
  end.

(** ** The requests *)

(** [behind] is what follows the path of the message in its buffer. *)
Definition open_handle_request_win (behind : list Z) (peer : P) (self : rl_controller) (o : O)
    (msg : rl_msg) : option (server_result (P := P) (O := O)) :=
  match body msg with
  | open_handle_request path mode =>
      '(self, o, r) ← make_handle_win self o (path ++ 0 :: behind) (s32 mode);
      match r with
      | inl error => reply_error peer self o msg error
      | inr i =>
          f ← handles self !! i;
          reply peer self o msg
            (open_handle_answer (get_filehandle_index (H_slot i)) (u32 (size f)) (u8 (type f)))
      end
  | _ => None
  end.

Definition close_handle_request_win (peer : P) (self : rl_controller) (o : O) (msg : rl_msg)
  : option (server_result (P := P) (O := O)) :=
  match body msg with
  | close_handle_request id =>
      if (RL_FILEHANDLE_VIRTUAL_INPUT =? id) || (RL_FILEHANDLE_VIRTUAL_OUTPUT =? id)
      then Some (peer, self, o, 0)
      else
        match get_handle_from_id id with
        | None => reply_error peer self o msg RL_NETERR_INVALID_VALUE
        | Some h =>
            f ← deref self h;
            let o := if INVALID_HANDLE_VALUE =? handle f then o else CloseHandle o (handle f) in
            Some (peer, update_handle self h (set_handle 0 f), o, 0)
        end
  | _ => None
  end.

(** The pattern that [FindFirstFile] gets: all of the directory. *)
Definition search_path (native : list Z) : option (list Z) :=
  format_text 260 (cstr "%s\*") [VStr native].

Definition hidden (data : find_data) : bool :=
  match cFileName data with ch :: _ => ch =? 46 | [] => false end.

(** The loop of [find_next_file_request]: [inl] is an error answer, [inr] the
    entry, or none at the end. *)
Fixpoint find_loop (fuel : nat) (f : rl_filehandle) (o : O) (reset : bool)
  : option (rl_filehandle * O * (Z + option find_data)) :=
  match fuel with
  | 0%nat => None
  | S fuel =>
      if reset then
        let '(f, o) :=
          match dir_handle f with
          | Some h => (set_dir None f, FindClose o h)
          | None => (f, o)
          end in
        path ← search_path (native_path f);
        let '(o, r) := FindFirstFile o path in
        match r with
        | None => Some (set_dir None f, o, inl RL_NETERR_IO_ERROR)
        | Some (h, data) =>
            let f := set_dir (Some h) f in
            if hidden data then find_loop fuel f o false else Some (f, o, inr (Some data))
        end
      else
        match dir_handle f with
        | None => Some (f, o, inl RL_NETERR_INVALID_VALUE)
        | Some h =>
            let '(o, r) := FindNextFile o h in
            match r with
            | None => Some (f, o, inr None)
            | Some data =>
                if hidden data then find_loop fuel f o false else Some (f, o, inr (Some data))
            end
        end
  end.

Definition find_answer (r : option find_data) : rl_body :=
  match r with
  | Some data =>
      find_next_file_answer 0
        (if fd_directory data then RL_NODE_TYPE_DIRECTORY else RL_NODE_TYPE_FILE)
        (cFileName data) (u32 (nFileSizeLow data))
  | None => find_next_file_answer 1 RL_NODE_TYPE_DIRECTORY [] 0
  end.

Definition find_next_file_request_win (fuel : nat) (peer : P) (self : rl_controller) (o : O)
    (msg : rl_msg) : option (server_result (P := P) (O := O)) :=
  match body msg with
  | find_next_file_request id reset =>
      match get_handle_from_id id with
      | None => reply_error peer self o msg RL_NETERR_INVALID_VALUE
      | Some h =>
          f ← deref self h;
          if negb (RL_NODE_TYPE_DIRECTORY =? type f)
          then reply_error peer self o msg RL_NETERR_NOT_A_DIRECTORY
          else
            '(f, o, r) ← find_loop fuel f o (negb (reset =? 0));
            let self := update_handle self h f in
            match r with
            | inl error => reply_error peer self o msg error
            | inr r => reply peer self o msg (find_answer r)
            end
      end
  | _ => None
  end.

Definition read_file_request_win (peer : P) (self : rl_controller) (o : O) (msg : rl_msg)
  : option (server_result (P := P) (O := O)) :=
  match body msg with
  | read_file_request id offset_hi offset_lo length =>
      match get_handle_from_id id with
      | None => reply_error peer self o msg RL_NETERR_INVALID_VALUE
      | Some h =>
          f ← deref self h;
          if INVALID_HANDLE_VALUE =? handle f then reply_error peer self o msg RL_NETERR_NOT_A_FILE
          else
            (* seeks in standard input are ignored *)
            let '(o, moved) :=
              if decide (h = H_vinput) then (o, true)
              else SetFilePointerEx o (handle f) (large_integer offset_hi offset_lo) in
            if negb moved then reply_error peer self o msg RL_NETERR_IO_ERROR
            else
              let size_to_read :=
                if length <? Z.of_nat read_buffer_size then Z.to_nat length else read_buffer_size in
              let '(o, r) := ReadFile o (handle f) size_to_read in
              match r with
              | None => reply_error peer self o msg RL_NETERR_IO_ERROR
              | Some bytes =>
                  let data := NetArray bytes (Z.of_nat (List.length bytes)) in
                  '(peer, self, o, _) ← reply peer self o msg (read_file_answer data);
                  Some (peer, self, o, 0)
              end
      end
  | _ => None
  end.

Definition write_file_request_win (peer : P) (self : rl_controller) (o : O) (msg : rl_msg)
  : option (server_result (P := P) (O := O)) :=
  match body msg with
  | write_file_request id data =>
      let h := get_handle_from_id id in
      (* the log line reads [handle->native_path] *)
      if has_flag rl_log_bits RL_DEBUG && bool_decide (h = None) then None else
      o ← (if decide (h = Some H_voutput)
           then bytes ← na_bytes data; Some (win_fwrite_stdout o bytes)
           else Some o);
      '(peer, self, o, _) ← reply peer self o msg write_file_answer;
      Some (peer, self, o, 0)
  | _ => None
  end.

Definition rl_file_serve_win (fuel : nat) (behind : list Z) (peer : P) (self : rl_controller)
    (o : O) (msg : rl_msg) : option (server_result (P := P) (O := O)) :=
  let kind := rl_msg_kind_of msg in
  '(peer, self, o, _) ←
    (if kind =? RL_MSG_READ_FILE_REQUEST then read_file_request_win peer self o msg
     else if kind =? RL_MSG_WRITE_FILE_REQUEST then write_file_request_win peer self o msg
     else if kind =? RL_MSG_OPEN_HANDLE_REQUEST then open_handle_request_win behind peer self o msg
     else if kind =? RL_MSG_CLOSE_HANDLE_REQUEST then close_handle_request_win peer self o msg
     else if kind =? RL_MSG_FIND_NEXT_FILE_REQUEST
     then find_next_file_request_win fuel peer self o msg
     else reply peer self o msg (error_answer RL_NETERR_BAD_REQUEST));
  Some (peer, self, o, 0).
End FileServerWin.

(** ** Paths *)
Definition backslashed (s : list Z) : list Z := (λ ch, if 47 =? ch then 92 else ch) <$> s.

Lemma backslash_loop_spec n input :
  backslash_loop n input =
    if decide (n ≤ length input)%nat then Some (backslashed (take n input) ++ [0]) else None.
Proof.
  revert input. induction n as [|n IH]; intros [|ch input]; cbn [backslash_loop length]; try done.
  rewrite IH. repeat case_decide; try lia; done.
Qed.

Lemma backslashed_no_nul s : no_nul s → no_nul (backslashed s).
Proof.
  intros H. apply Forall_fmap. eapply Forall_impl; [exact H|]. intros x Hx. cbn. by case_match.
Qed.

(** The text that the loop leaves is the path, cut at 127 characters. *)
Lemma backslashed_text path behind :
  no_nul path → cstr_at (backslashed (take 127 (path ++ 0 :: behind)) ++ [0]) =
    Some (backslashed (take 127 path)).
Proof.
  intros Hn. pose proof (backslashed_no_nul _ Hn) as Hb.
  destruct (le_lt_dec 127 (length path)) as [Hl|Hl].
  - rewrite take_app_le by lia. apply cstr_at_app. apply backslashed_no_nul.
    by apply Forall_take.
  - rewrite take_app_ge, (take_ge path) by lia.
    replace (127 - length path)%nat with (S (126 - length path)) by lia. cbn [take].
    unfold backslashed. rewrite fmap_app. cbn [fmap list_fmap]. rewrite <- app_assoc. cbn [app].
    by apply cstr_at_app.
Qed.

Section Paths.
Context `{HHost : Host}.

(** What the object of a path must hold for [fix_path]. *)
Definition readable (path behind : list Z) : Prop := (127 ≤ length (path ++ 0%Z :: behind))%nat.

Lemma fix_path_win_ok path behind root r :
  cstr_at root = Some r → no_nul path → readable path behind →
  fix_path_win (path ++ 0 :: behind) root =
    Some (take 259 (r ++ 92 :: backslashed (take 127 path))).
Proof.
  intros Hr Hn Hb. unfold fix_path_win. rewrite backslash_loop_spec, decide_True by done.
  cbn [mbind option_bind]. apply (format_text_spec 260); [| |lia].
  - apply (render_s_char_s _ _ 92); [done..|]. by apply backslashed_text.
  - apply Forall_app. split; [by apply cstr_at_Some in Hr as []|]. constructor; [done|].
    by apply backslashed_no_nul, Forall_take.
Qed.

(** On Windows a path of a message is opened below the root of the
    controller with its slashes turned, but only its first 127 characters count,
    and 127 bytes are read from the buffer of the message however short the
    path is: when the buffer ends earlier the read leaves it. *)
Theorem fix_path_win_spec path behind root r :
  cstr_at root = Some r → no_nul path →
  fix_path_win (path ++ 0 :: behind) root =
    if decide (127 ≤ length (path ++ 0%Z :: behind))%nat
    then Some (take 259 (r ++ 92 :: backslashed (take 127 path))) else None.
Proof.
  intros. case_decide as Hb; [by apply fix_path_win_ok|].
  unfold fix_path_win. by rewrite backslash_loop_spec, decide_False.
Qed.

Lemma search_path_ok native s :
  cstr_at native = Some s → search_path native = Some (take 259 (s ++ chars "\*")).
Proof.
  intros Hs. unfold search_path. apply (format_text_spec 260); [| |lia].
  - change (cstr "%s\*") with (37 :: 115 :: [92; 42; 0]). unfold render, format_message.
    cbn [length]. rewrite (format_loop_s _ _ _ _ _ _ s) by done.
    cbn [format_loop rl_strchr Z.eqb Pos.eqb mbind option_bind rl_strlen].
    by change (text_writer [92; 42; 0] 2 ?st) with (Some (st ++ chars "\*")).
  - apply Forall_app. split; [by apply cstr_at_Some in Hs as []|by repeat constructor].
Qed.
End Paths.

(** ** Searching *)
Section Searching.
Context `{HHost : Host} {O : Type} `{OS : Win32 O}.
Implicit Types (f : rl_filehandle) (o : O).

(** What is left of a listing when its hidden entries are passed over. *)
Fixpoint next_shown (es : list find_data) : list find_data :=
  match es with
  | [] => []
  | data :: rest => if hidden data then next_shown rest else es
  end.
Definition shown (es : list find_data) : list find_data := filter (λ data, hidden data = false) es.

Lemma shown_next es : shown (next_shown es) = shown es.
Proof.
  induction es as [|data es IH]; [done|]. cbn [next_shown]. unfold shown in *.
  destruct (hidden data) eqn:E; [|done]. rewrite IH. by rewrite filter_cons_False by congruence.
Qed.

(** A search goes on to the next entry that is not hidden. *)
Lemma find_loop_next f o h :
  dir_handle f = Some h → ∃ o',
    (∀ fuel, (length (find_entries o h) < fuel)%nat →
       find_loop fuel f o false = Some (f, o', inr (head (next_shown (find_entries o h))))) ∧
    match next_shown (find_entries o h) with
    | data :: rest => find_entries o' h = rest ∧ hidden data = false ∧ wf_string (cFileName data)
    | [] => True
    end.
Proof.
  intros Hd. remember (find_entries o h) as es eqn:Ees. symmetry in Ees.
  revert o Ees. induction es as [|data es IH]; intros o Ees; cbn [next_shown];
    pose proof (next_file o h) as Hn; rewrite Ees in Hn.
  - destruct Hn as [o' Hn]. exists o'. split; [|done]. intros [|fuel] ?; [cbn in *; lia|].
    cbn [find_loop]. by rewrite Hd, Hn.
  - destruct Hn as (o1 & Hn & Ho & Hw). destruct (hidden data) eqn:Eh.
    + destruct (IH o1 Ho) as (o' & Hrun & Hrest). exists o'. split; [|exact Hrest].
      intros [|fuel] Hf; cbn [length] in Hf; [lia|]. cbn [find_loop]. rewrite Hd, Hn, Eh.
      apply Hrun. lia.
    + exists o1. split; [|done]. intros [|fuel] Hf; cbn [length] in Hf; [lia|].
      cbn [find_loop]. by rewrite Hd, Hn, Eh.
Qed.

(** The start of a listing. *)
Lemma find_loop_first f o s o1 h data :
  let o0 := match dir_handle f with Some old => FindClose o old | None => o end in
  let f' := set_dir (Some h) f in
  cstr_at (native_path f) = Some s →
  FindFirstFile o0 (take 259 (s ++ chars "\*")) = (o1, Some (h, data)) → ∃ o',
    (∀ fuel, (S (length (find_entries o1 h)) < fuel)%nat →
       find_loop fuel f o true =
         Some (f', o', inr (head (next_shown (data :: find_entries o1 h))))) ∧
    match next_shown (data :: find_entries o1 h) with
    | data :: rest => find_entries o' h = rest ∧ hidden data = false ∧ wf_string (cFileName data)
    | [] => True
    end.
Proof.
  intros o0 f' Hs Hfirst.
  assert (Hrun : ∀ fuel, find_loop (S fuel) f o true =
    if hidden data then find_loop fuel f' o1 false else Some (f', o1, inr (Some data))).
  { intros fuel. cbn [find_loop].
    assert ((match dir_handle f with Some old => (set_dir None f, FindClose o old)
             | None => (f, o) end) = (set_dir None f, o0)) as ->.
    { unfold o0. destruct f as [? [?|] ? ? ?]; done. }
    change (native_path (set_dir None f)) with (native_path f).
    rewrite (search_path_ok _ s Hs). cbn [mbind option_bind]. rewrite Hfirst. done. }
  pose proof (first_file _ _ _ _ _ Hfirst) as Hw. cbn [next_shown].
  destruct (hidden data) eqn:Eh.
  - destruct (find_loop_next f' o1 h eq_refl) as (o' & Hgo & Hrest). exists o'.
    split; [|exact Hrest]. intros [|fuel] Hf; [lia|]. rewrite Hrun. apply Hgo. lia.
  - exists o1. split; [|done]. intros [|fuel] Hf; [lia|]. by rewrite Hrun.
Qed.

(** Every search comes to an end, with an answer that can be sent. *)
Definition found (r : Z + option find_data) : Prop :=
  match r with
  | inl code => net_error code
  | inr (Some data) => wf_string (cFileName data)
  | inr None => True
  end.

Lemma head_found es rest_ok :
  match next_shown es with
  | data :: rest => rest_ok rest ∧ hidden data = false ∧ wf_string (cFileName data)
  | [] => True
  end → found (inr (head (next_shown es))).
Proof. destruct (next_shown es); cbn; [done|]. by intros (_ & _ & ?). Qed.

Lemma find_loop_total f o reset :
  handle_ok f → ∃ n f' o' r, (∀ fuel, (n ≤ fuel)%nat → find_loop fuel f o reset = Some (f', o', r)) ∧
    handle_ok f' ∧ found r.
Proof.
  intros Hf. destruct (ho_text _ Hf) as [s Hs]. destruct reset.
  - set (o0 := match dir_handle f with Some old => FindClose o old | None => o end).
    destruct (FindFirstFile o0 (take 259 (s ++ chars "\*"))) as [o1 [[h data]|]] eqn:E.
    + destruct (find_loop_first f o s o1 h data Hs E) as (o' & Hgo & Hrest).
      eexists (S (S (length (find_entries o1 h)))), _, o', _.
      split; [intros fuel ?; apply Hgo; lia|]. split; [by apply set_dir_ok|].
      by eapply (head_found _ (λ rest, find_entries o' h = rest)).
    + exists 1%nat, (set_dir None f), o1, (inl RL_NETERR_IO_ERROR).
      split; [|split; [by apply set_dir_ok|cbn; unfold net_error; set_solver]].
      intros [|fuel] ?; [lia|]. cbn [find_loop].
      assert ((match dir_handle f with Some old => (set_dir None f, FindClose o old)
               | None => (f, o) end) = (set_dir None f, o0)) as ->.
      { unfold o0. destruct f as [? [?|] ? ? ?]; done. }
      change (native_path (set_dir None f)) with (native_path f).
      rewrite (search_path_ok _ s Hs). cbn [mbind option_bind]. by rewrite E.
  - destruct (dir_handle f) as [h|] eqn:Ed.
    + destruct (find_loop_next f o h Ed) as (o' & Hgo & Hrest).
      eexists (S (length (find_entries o h))), f, o', _.
      split; [intros fuel ?; apply Hgo; lia|]. split; [done|].
      by eapply (head_found _ (λ rest, find_entries o' h = rest)).
    + exists 1%nat, f, o, (inl RL_NETERR_INVALID_VALUE).
      split; [|split; [done|cbn; unfold net_error; set_solver]].
      intros [|fuel] ?; [lia|]. cbn [find_loop]. by rewrite Ed.
Qed.
End Searching.

(** ** Serving requests *)
Section Facts.
Context `{HHost : Host} {P : Type} `{Link : PeerLink P} {O : Type} `{OS : Win32 O}.
Context (rl_log_bits : Z).
Implicit Types (p : P) (c : rl_controller) (o : O) (msg : rl_msg).

Lemma make_handle_win_spec c o path behind mode root :
  ctl_ok c → no_nul path → readable path behind →
  cstr_at (native_path (root_handle c)) = Some root →
  ∃ c' o' r, make_handle_win c o (path ++ 0 :: behind) mode = Some (c', o', r) ∧
    made c (take 259 (root ++ 92 :: backslashed (take 127 path))) c' r.
Proof.
  intros Hok Hn Hb Hroot. unfold make_handle_win. rewrite (fix_path_win_ok path behind _ root) by done.
  set (text := take 259 _). cbn [mbind option_bind].
  assert (no_nul text) as Htn.
  { apply Forall_take, Forall_app. split; [by apply cstr_at_Some in Hroot as []|].
    constructor; [done|]. by apply backslashed_no_nul, Forall_take. }
  assert (length text ≤ 259)%nat as Htl by (unfold text; rewrite length_take; lia).
  pose proof (find_slot_spec (handles c)) as Hfind.
  destruct (find_slot (handles c)) as [i|] eqn:Ei.
  2:{ eexists _, _, _. split; [done|]. split; [done|]. unfold net_error. set_solver. }
  destruct Hfind as (slot & Hslot & _ & _). rewrite Hslot. cbn [mbind option_bind].
  assert (handle_ok slot) as Hsok by (eapply (deref_ok c (H_slot i)); done).
  assert (i < RL_MAX_FILE_HANDLES)%nat as Hi.
  { rewrite <-(co_count c Hok). by eapply lookup_lt_Some. }
  assert (∀ s o1 code, handle_ok s → net_error code → ∃ c' o' r,
    Some (update_handle c (H_slot i) s, o1, inl code) = Some (c', o', r) ∧
    made c text c' r) as Hfail.
  { intros s o1 code Hs Hcode. eexists _, _, _. split; [done|]. split; [by apply update_ok|done]. }
  assert (∀ s o1, handle_ok s → node_type (type s) → is_u32 (size s) →
    (type s = RL_NODE_TYPE_DIRECTORY → handle s = -1 ∧ size s = 0) → ∃ c' o' r,
    ('(mem, _) ← rl_string_copy 260 (native_path s) (text ++ [0]);
     Some (update_handle c (H_slot i) (set_path mem s), o1, inr i)) = Some (c', o', r) ∧
    made c text c' r) as Hdone.
  { intros s o1 Hs Ht Hz' Hd. destruct (copy_path_ok s text Hs Htn Htl) as (mem & rc & -> & Hm & Hc).
    cbn [mbind option_bind]. eexists _, _, _. split; [done|]. split; [by apply update_ok|].
    split; [done|]. split; [done|]. exists (set_path mem s). split; [by destruct c|done]. }
  set (kind := if negb _ then _ else _).
  assert (kind = None ∨ kind = Some RL_NODE_TYPE_FILE ∨ kind = Some RL_NODE_TYPE_DIRECTORY) as Hk.
  { unfold kind. destruct (negb _); [|auto]. destruct (GetFileAttributes o text) as [[]|]; auto. }
  destruct Hk as [-> | [-> | ->]]; cbn [Z.eqb RL_NODE_TYPE_DIRECTORY RL_NODE_TYPE_FILE Pos.eqb].
  - apply Hfail; [eauto with rl|unfold net_error; set_solver].
  - destruct (CreateFileA _ _ _) as [o1 h]. destruct (Z.eqb_spec INVALID_HANDLE_VALUE h).
    + apply Hfail; [eauto with rl|]. unfold net_error. destruct (GetLastError o1); set_solver.
    + apply Hdone; [eauto with rl|by left|apply u32_range|done].
  - apply Hdone; [eauto with rl|by right|done|done].
Qed.

Section Handlers.
Context (p : P) (c : rl_controller) (o : O) (ms : list rl_msg) (msg : rl_msg).
Hypothesis Hlink : link_sent p ms.
Hypothesis Hctl : ctl_ok c.
Hypothesis Hmsg : wf_msg msg.

#[local] Abbreviation served := (served c ms msg).

(** The path of an open request can be read by [fix_path]. *)
Definition path_readable (behind : list Z) : Prop :=
  ∀ path mode, body msg = open_handle_request path mode → readable path behind.

Ltac of_kind Hk :=
  unfold rl_msg_kind_of; rewrite (wf_type _ Hmsg); intros Hk;
  pose proof (wf_msg_body _ Hmsg) as Hb;
  destruct (body msg) eqn:Eb; try discriminate Hk.
Ltac an_error := apply error_served; [done..|unfold net_error; set_solver].

Lemma open_served_win behind :
  path_readable behind →
  rl_msg_kind_of msg = RL_MSG_OPEN_HANDLE_REQUEST →
  served (open_handle_request_win behind p c o msg).
Proof.
  intros Hread. unfold open_handle_request_win. of_kind Hk. destruct Hb as [[Hn _] _].
  destruct (ho_text _ (co_root _ Hctl)) as [root Hroot].
  destruct (make_handle_win_spec c o path behind (s32 mode) root Hctl Hn (Hread _ _ Eb) Hroot)
    as (c' & o' & r & -> & Hc' & Hr). cbn [mbind option_bind].
  destruct r as [code|i]; [by apply error_served|].
  destruct Hr as (_ & Hi & f & Hf & Ht & Hsz & _).
  assert (handles c' !! i = Some f) as ->.
  { rewrite Hf. apply list_lookup_insert_eq. rewrite (co_count _ Hctl). lia. }
  cbn [mbind option_bind get_filehandle_index]. apply body_served; [done..| | |].
  - unfold RL_MAX_FILE_HANDLES in Hi.
    split; [unfold is_u32; lia|]. split; [apply u32_range|].
    destruct Ht as [-> | ->]; vm_compute; split; congruence.
  - cbn [body_bytes]. rewrite !length_app, !length_be_split. cbn [length]. lia.
  - rewrite Eb. cbn [answers_to body_kind]. split; [done|]. split; [lia|].
    destruct Ht as [-> | ->]; [by left|by right].
Qed.

Lemma close_served_win :
  rl_msg_kind_of msg = RL_MSG_CLOSE_HANDLE_REQUEST → settles ms msg (close_handle_request_win p c o msg).
Proof.
  unfold close_handle_request_win. of_kind Hk. rename handle into hid. destruct (_ || _) eqn:Ev.
  { exists p, c, o, 0. split; [done|]. split; [done|]. right. rewrite Eb. cbn [closes].
    by rewrite bool_decide_true by by apply virtual_handle. }
  destruct (get_handle_from_id hid) as [h|] eqn:Eh.
  2:{ assert (served (reply_error p c o msg RL_NETERR_INVALID_VALUE)) as
        (p' & c' & o' & rc & E & Hc' & H) by an_error.
      exists p', c', o', rc. split; [done|]. split; [done|]. destruct H as [H|H]; [by left|right].
      rewrite Eb in *. cbn [closes]. by rewrite Eh. }
  destruct (get_handle_deref c hid h Hctl (proj1 Hb) Eh) as [f Hf]. rewrite Hf.
  cbn [mbind option_bind]. eexists _, _, _, _. split; [done|]. split.
  - pose proof (deref_ok _ _ _ Hctl Hf). eauto with rl.
  - right. rewrite Eb. cbn [closes]. by rewrite Eh.
Qed.

Lemma read_served_win :
  rl_msg_kind_of msg = RL_MSG_READ_FILE_REQUEST → served (read_file_request_win p c o msg).
Proof.
  unfold read_file_request_win. of_kind Hk. rename handle into hid, length into req_length.
  destruct Hb as (Hh & _).
  destruct (get_handle_from_id hid) as [h|] eqn:Eh; [|an_error].
  destruct (get_handle_deref c hid h Hctl (proj1 Hh) Eh) as [f Hf]. rewrite Hf.
  cbn [mbind option_bind]. case_match; [an_error|].
  destruct (if decide _ then _ else _) as [o1 moved]. destruct (negb moved); [an_error|].
  set (n := if req_length <? _ then _ else _).
  destruct (ReadFile o1 (handle f) n) as [o2 [bs|]] eqn:Er; [|an_error].
  destruct (read_bytes _ _ _ _ _ Er) as [Hlen _]. apply drop_rc_served.
  assert (Z.of_nat (length bs) <= 4096) as Hl4.
  { unfold n, read_buffer_size in Hlen. destruct (Z.ltb_spec req_length (Z.of_nat (Z.to_nat 4096))); lia. }
  apply body_served; [done..| | |].
  - unfold wf_body, wf_array. cbn [na_length na_base]. lia.
  - cbn [body_bytes]. unfold array_contents, na_bytes. cbn [na_length na_base].
    rewrite decide_True by lia. cbn [from_option id]. unfold arr_bytes. llen.
  - by rewrite Eb.
Qed.

Lemma write_served_win :
  rl_msg_kind_of msg = RL_MSG_WRITE_FILE_REQUEST →
  has_flag rl_log_bits RL_DEBUG && writes_nowhere (body msg) = false →
  served (write_file_request_win rl_log_bits p c o msg).
Proof.
  unfold write_file_request_win. of_kind Hk. rename handle into hid. intros Hlog. destruct Hb as [Hh Ha].
  cbn [writes_nowhere] in Hlog. rewrite Hlog. destruct (array_contents_wf _ Ha) as [Hbytes _].
  assert (∃ o1, (if decide (get_handle_from_id hid = Some H_voutput)
    then bytes ← na_bytes data; Some (win_fwrite_stdout o bytes) else Some o) = Some o1)
    as [o1 ->] by (case_decide; rewrite ?Hbytes; by eexists).
  cbn [mbind option_bind]. apply drop_rc_served.
  apply body_served; [done..|cbn; lia|by rewrite Eb].
Qed.

Lemma find_answer_ok r :
  found (inr r) → wf_body (find_answer r) ∧ Z.of_nat (length (body_bytes (find_answer r))) <= 8000.
Proof.
  destruct r as [data|]; cbn [found find_answer].
  - intros Hw. split.
    + split; [by vm_compute|]. split; [by destruct (fd_directory data); vm_compute|].
      split; [done|apply u32_range].
    + cbn [body_bytes]. destruct Hw as [_ Hnl]. rewrite !length_app, length_be_split.
      unfold str_bytes. cbn [length]. rewrite length_app. cbn [length]. lia.
  - intros _. split; [|by vm_compute].
    split; [by vm_compute|]. split; [by vm_compute|]. split; [|by vm_compute].
    split; [constructor|cbn; lia].
Qed.

Lemma find_next_served_win :
  rl_msg_kind_of msg = RL_MSG_FIND_NEXT_FILE_REQUEST →
  ∃ n, ∀ fuel, (n ≤ fuel)%nat → served (find_next_file_request_win fuel p c o msg).
Proof.
  unfold find_next_file_request_win. of_kind Hk. rename handle into hid. destruct Hb as (Hh & _).
  destruct (get_handle_from_id hid) as [h|] eqn:Eh; [|exists 0%nat; intros; an_error].
  destruct (get_handle_deref c hid h Hctl (proj1 Hh) Eh) as [f Hf]. rewrite Hf.
  pose proof (deref_ok _ _ _ Hctl Hf) as Hfok. cbn [mbind option_bind].
  destruct (negb (RL_NODE_TYPE_DIRECTORY =? type f)); [exists 0%nat; intros; an_error|].
  destruct (find_loop_total f o (negb (reset =? 0)) Hfok) as (n & f' & o' & r & Hrun & Hf' & Hr).
  exists n. intros fuel Hfuel. rewrite Hrun by done. cbn [mbind option_bind].
  assert (ctl_ok (update_handle c h f')) as Hc' by by apply update_ok.
  destruct r as [code|r]; [by apply error_served|].
  destruct (find_answer_ok r Hr) as [Hw Hl]. apply body_served; [done..|].
  rewrite Eb. unfold find_answer. destruct r as [data|]; cbn [answers_to]; (split; [done|]).
  - destruct (fd_directory data); [by right|by left].
  - by right.
Qed.
End Handlers.

Lemma request_served_win p c o ms msg behind :
  link_sent p ms → ctl_ok c → wf_msg msg →
  has_flag rl_log_bits RL_DEBUG && writes_nowhere (body msg) = false →
  path_readable msg behind → ∃ n, ∀ fuel, (n ≤ fuel)%nat →
  ∃ p' c' o', rl_file_serve_win rl_log_bits fuel behind p c o msg = Some (p', c', o', 0) ∧
    ctl_ok c' ∧ settled ms msg p'.
Proof.
  intros Hl Hc Hm Hlog Hread.
  assert (∃ n, rl_msg_kind_of msg = RL_MSG_FIND_NEXT_FILE_REQUEST → ∀ fuel, (n ≤ fuel)%nat →
    served c ms msg (find_next_file_request_win fuel p c o msg)) as [n Hfind].
  { destruct (decide (rl_msg_kind_of msg = RL_MSG_FIND_NEXT_FILE_REQUEST)) as [Hk|]; [|by exists 0%nat].
    destruct (find_next_served_win p c o ms msg Hl Hc Hm Hk) as [n Hn]. by exists n. }
  exists n. intros fuel Hfuel. apply settles_rc0.
  destruct (Z.eqb_spec (rl_msg_kind_of msg) RL_MSG_READ_FILE_REQUEST) as [E|].
  { eapply (kind_settles c); [done|exact E|done|by apply read_served_win]. }
  destruct (Z.eqb_spec (rl_msg_kind_of msg) RL_MSG_WRITE_FILE_REQUEST) as [E|].
  { eapply (kind_settles c); [done|exact E|done|by apply write_served_win]. }
  destruct (Z.eqb_spec (rl_msg_kind_of msg) RL_MSG_OPEN_HANDLE_REQUEST) as [E|].
  { eapply (kind_settles c); [done|exact E|done|by apply open_served_win]. }
  destruct (Z.eqb_spec (rl_msg_kind_of msg) RL_MSG_CLOSE_HANDLE_REQUEST) as [E|Hne];
    [by apply (close_served_win _ c)|].
  destruct (Z.eqb_spec (rl_msg_kind_of msg) RL_MSG_FIND_NEXT_FILE_REQUEST) as [E|].
  { eapply (kind_settles c); [done|exact E|done|by apply Hfind]. }
  eapply (kind_settles c); [done|done|exact Hne|].
  apply body_served; [done..|cbn [body_bytes]; rewrite length_be_split; lia|].
  cbn [answers_to]. unfold net_error. set_solver.
Qed.

Lemma write_undefined_win fuel behind p c o msg :
  wf_msg msg → has_flag rl_log_bits RL_DEBUG && writes_nowhere (body msg) = true →
  rl_file_serve_win rl_log_bits fuel behind p c o msg = None.
Proof.
  intros Hm [Hlog Hw]%andb_prop. unfold rl_file_serve_win, rl_msg_kind_of. rewrite (wf_type _ Hm).
  unfold writes_nowhere in Hw. destruct (body msg) eqn:Eb; try done. cbn [body_kind Z.eqb].
  unfold write_file_request_win. rewrite Eb, Hlog, Hw. done.
Qed.

(** C14: on Windows too every request, well formed as all that are decoded are,
    gets exactly one answer, with its sequence number and of its kind or an error
    answer, only the request to close a handle whose number stands for one is
    silent, and the handle table stays well formed, whatever a peer sends, as long as the paths
    lie 127 bytes before the end of the buffer; the search for the next entry
    of a directory comes to an end.  With the debug log on, the log line of a
    write to a handle that does not exist reads through a null pointer here
    too. *)
Theorem rl_file_serve_win_spec p c o ms msg behind :
  link_sent p ms → ctl_ok c → wf_msg msg → path_readable msg behind →
  if has_flag rl_log_bits RL_DEBUG && writes_nowhere (body msg)
  then ∀ fuel, rl_file_serve_win rl_log_bits fuel behind p c o msg = None
  else ∃ n, ∀ fuel, (n ≤ fuel)%nat →
  ∃ p' c' o', rl_file_serve_win rl_log_bits fuel behind p c o msg = Some (p', c', o', 0) ∧
    ctl_ok c' ∧
    (link_down p' ∨
     if closes (body msg) then link_sent p' ms
     else ∃ ans, answers_to (body msg) ans ∧ link_sent p' (ms ++ [RL_MSG_INIT ans (hdr_seq msg)])).
Proof.
  intros Hl Hc Hm Hread. destruct (_ && _) eqn:E.
  - intros fuel. by apply write_undefined_win.
  - by apply request_served_win.
Qed.
End Facts.

(** ** Listing a directory *)
Section Listing.
Context `{HHost : Host} {O : Type} `{OS : Win32 O} (rl_log_bits : Z).
#[local] Existing Instance log_link.
Implicit Types (p : list rl_msg) (c : rl_controller) (o : O).

(** Requests, one after the other. *)
Fixpoint serve_all (fuel : nat) (behind : list Z) p c o (msgs : list rl_msg)
  : option (list rl_msg * rl_controller * O) :=
  match msgs with
  | [] => Some (p, c, o)
  | msg :: msgs =>
      '(p, c, o, _) ← rl_file_serve_win rl_log_bits fuel behind p c o msg;
      serve_all fuel behind p c o msgs
  end.

(** What the client of the directory at [i] asks, under the numbers [qs]. *)
Definition next_request (i : nat) (reset q : Z) : rl_msg :=
  RL_MSG_INIT (find_next_file_request (Z.of_nat i) reset) q.
Definition listing_requests (i : nat) (qs : list Z) : list rl_msg :=
  match qs with
  | [] => []
  | q :: qs => next_request i 1 q :: (next_request i 0 <$> qs)
  end.

(** The entries, and the end. *)
Definition listing_answers (es : list find_data) (qs : list Z) : list rl_msg :=
  zip_with (λ r q, RL_MSG_INIT (find_answer r) q) ((Some <$> es) ++ [None]) qs.

Lemma serve_next fuel behind p c o i f f' o' reset q r :
  (i < RL_MAX_FILE_HANDLES)%nat → handles c !! i = Some f → type f = RL_NODE_TYPE_DIRECTORY →
  find_loop fuel f o (negb (reset =? 0)) = Some (f', o', inr r) →
  rl_file_serve_win rl_log_bits fuel behind p c o (next_request i reset q) =
    Some (p ++ [RL_MSG_INIT (find_answer r) q], update_handle c (H_slot i) f', o', 0).
Proof.
  intros Hi Hf Ht Hloop. unfold rl_file_serve_win.
  change (rl_msg_kind_of (next_request i reset q)) with RL_MSG_FIND_NEXT_FILE_REQUEST.
  cbn [Z.eqb Pos.eqb RL_MSG_FIND_NEXT_FILE_REQUEST RL_MSG_READ_FILE_REQUEST
    RL_MSG_WRITE_FILE_REQUEST RL_MSG_OPEN_HANDLE_REQUEST RL_MSG_CLOSE_HANDLE_REQUEST].
  unfold find_next_file_request_win. cbn [body next_request RL_MSG_INIT].
  rewrite slot_id by done. cbn [deref]. rewrite Hf. cbn [mbind option_bind].
  rewrite Ht, Hloop. cbn [negb Z.eqb Pos.eqb RL_NODE_TYPE_DIRECTORY mbind option_bind]. done.
Qed.

Lemma update_slot c i f f' :
  handles c !! i = Some f → handles (update_handle c (H_slot i) f') !! i = Some f'.
Proof.
  intros Hf. destruct c. cbn in *. apply list_lookup_insert_eq. by eapply lookup_lt_Some.
Qed.

Lemma shown_head es :
  match next_shown es with
  | data :: rest => shown es = data :: shown rest ∧ (length rest < length es)%nat
  | [] => shown es = []
  end.
Proof.
  induction es as [|data es IH]; [done|]. cbn [next_shown]. unfold shown in *.
  destruct (hidden data) eqn:E.
  - rewrite filter_cons_False by congruence.
    destruct (next_shown es); [done|]. cbn [length]. destruct IH as [-> ?]. split; [done|lia].
  - rewrite filter_cons_True by done. cbn [length]. split; [done|lia].
Qed.

(** The rest of a listing. *)
Lemma listing_goes_on fuel behind p c o i f h qs :
  (i < RL_MAX_FILE_HANDLES)%nat → handles c !! i = Some f → type f = RL_NODE_TYPE_DIRECTORY →
  dir_handle f = Some h → (length (find_entries o h) < fuel)%nat →
  length qs = S (length (shown (find_entries o h))) → ∃ c' o',
    serve_all fuel behind p c o (next_request i 0 <$> qs) =
      Some (p ++ listing_answers (shown (find_entries o h)) qs, c', o') ∧
    handles c' !! i = Some f.
Proof.
  intros Hi Hf Ht Hd. revert p c o Hf. induction qs as [|q qs IH]; intros p c o Hf Hfuel Hlen;
    [done|]. cbn [fmap list_fmap serve_all].
  destruct (find_loop_next f o h Hd) as (o1 & Hrun & Hrest).
  rewrite (serve_next fuel behind p c o i f f o1 0 q _ Hi Hf Ht (Hrun fuel Hfuel)).
  cbn [mbind option_bind]. pose proof (shown_head (find_entries o h)) as Hh.
  destruct (next_shown (find_entries o h)) as [|data rest]; cbn [head].
  - rewrite Hh in Hlen |- *. destruct qs; [|done].
    eexists _, _. split; [done|]. by eapply update_slot.
  - destruct Hh as [Hsh Hlt], Hrest as (Ho & _ & _). rewrite Hsh in Hlen |- *. cbn [length] in Hlen.
    destruct (IH (p ++ [RL_MSG_INIT (find_answer (Some data)) q]) (update_handle c (H_slot i) f) o1)
      as (c' & o' & Hall & Hc'); [by eapply update_slot|rewrite Ho; lia|rewrite Ho; lia|].
    exists c', o'. split; [|done]. fold (next_request i 0 <$> qs). rewrite Hall, Ho, <- app_assoc. done.
Qed.

(** C15: listing a directory on Windows: one request to start and one for each
    further answer give the entries of the directory, each once and in the order
    of the system, but for those whose names begin with a full stop, and then
    the end. *)
Theorem listing_win fuel behind p c o i f s o1 h data qs :
  let o0 := match dir_handle f with Some old => FindClose o old | None => o end in
  let es := data :: find_entries o1 h in
  (i < RL_MAX_FILE_HANDLES)%nat → handles c !! i = Some f → type f = RL_NODE_TYPE_DIRECTORY →
  cstr_at (native_path f) = Some s →
  FindFirstFile o0 (take 259 (s ++ chars "\*")) = (o1, Some (h, data)) →
  (length es < fuel)%nat → length qs = S (length (shown es)) → ∃ c' o',
    serve_all fuel behind p c o (listing_requests i qs) =
      Some (p ++ listing_answers (shown es) qs, c', o') ∧
    handles c' !! i = Some (set_dir (Some h) f).
Proof.
  intros o0 es Hi Hf Ht Hs Hfirst Hfuel Hlen. destruct qs as [|q qs]; [done|].
  cbn [listing_requests serve_all].
  destruct (find_loop_first f o s o1 h data Hs Hfirst) as (o2 & Hrun & Hrest). fold es in Hrun, Hrest.
  set (f' := set_dir (Some h) f) in *.
  rewrite (serve_next fuel behind p c o i f f' o2 1 q _ Hi Hf Ht (Hrun fuel ltac:(cbn in *; lia))).
  cbn [mbind option_bind]. pose proof (shown_head es) as Hh.
  destruct (next_shown es) as [|d rest]; cbn [head].
  - rewrite Hh in Hlen |- *. destruct qs; [|done].
    eexists _, _. split; [done|]. by eapply update_slot.
  - destruct Hh as [Hsh Hlt], Hrest as (Ho & _ & _). rewrite Hsh in Hlen |- *. cbn [length] in Hlen.
    destruct (listing_goes_on fuel behind (p ++ [RL_MSG_INIT (find_answer (Some d)) q])
      (update_handle c (H_slot i) f') o2 i f' h qs Hi) as (c' & o' & Hall & Hc');
      [by eapply update_slot|done|done|rewrite Ho; lia|rewrite Ho; lia|].
    exists c', o'. split; [|done]. rewrite Hall, Ho, <- app_assoc. done.
Qed.
End Listing.

(** A read gives the bytes of the file from the 64-bit offset on, as many as the
    request asks for, up to the size of the buffer. *)
Section Reading.
Context `{HHost : Host} {P : Type} `{Link : PeerLink P} {O : Type} `{OS : Win32 O}.
Implicit Types (p : P) (c : rl_controller) (o : O) (msg : rl_msg).

Lemma read_win_ok p c o ms msg i f d hi lo len :
  link_sent p ms → wf_msg msg →
  body msg = read_file_request (Z.of_nat i) hi lo len →
  (i < RL_MAX_FILE_HANDLES)%nat → handles c !! i = Some f → handle f ≠ INVALID_HANDLE_VALUE →
  win_file o (handle f) = Some d → 0 <= large_integer hi lo →
  let bytes := take (Nat.min (Z.to_nat len) read_buffer_size)
                 (drop (Z.to_nat (large_integer hi lo)) d) in
  ∃ p' o', read_file_request_win p c o msg = Some (p', c, o', 0) ∧
    win_file o' (handle f) = Some d ∧
    (link_sent p' (ms ++ [RL_MSG_INIT
       (read_file_answer (NetArray bytes (Z.of_nat (length bytes)))) (hdr_seq msg)]) ∨
     link_down p').
Proof.
  intros Hl Hm Hb Hi Hf Hz Hd Hpos. cbv zeta. set (bytes := take _ _).
  unfold read_file_request_win. rewrite Hb, slot_id by done. cbn [deref]. rewrite Hf.
  cbn [mbind option_bind]. rewrite (proj2 (Z.eqb_neq _ _)) by done. rewrite decide_False by done.
  set (n := if len <? _ then _ else _).
  assert (n = Nat.min (Z.to_nat len) read_buffer_size) as Hn.
  { unfold n. destruct (Z.ltb_spec len (Z.of_nat read_buffer_size)); lia. }
  destruct (seek_read o (handle f) d _ n Hd Hpos) as (o1 & o2 & -> & Hread & Hd2).
  cbn [negb]. rewrite Hread, Hn. fold bytes.
  assert (Z.of_nat (length bytes) <= 4096) as Hlen.
  { unfold bytes. rewrite length_take. unfold read_buffer_size. lia. }
  destruct (transmit_answered p ms msg (read_file_answer (NetArray bytes (Z.of_nat (length bytes))))
    Hl (wf_seq _ Hm)) as (p' & rc & Ht & Hp).
  - unfold wf_body, wf_array. cbn [na_length na_base]. lia.
  - cbn [body_bytes]. unfold array_contents, na_bytes. cbn [na_length na_base].
    rewrite decide_True by lia. cbn [from_option id]. unfold arr_bytes. llen.
  - unfold reply. rewrite Ht. cbn [mbind option_bind]. by exists p', o2.
Qed.
End Reading.

(** ** A concrete system: one file, whose handle is 4, and one search, whose
    handle is 9 *)
Record win_os := WinOS { wo_data : list Z; wo_pos : Z; wo_search : list find_data }.

#[export] Instance wf_string_dec s : Decision (wf_string s).
Proof. unfold wf_string. apply _. Defined.

Definition win_bytes (o : win_os) : list Z := filter is_byte (wo_data o).
Definition win_names (es : list find_data) : list find_data :=
  filter (λ data, wf_string (cFileName data)) es.
Definition win_entries : list find_data :=
  [ FindData true (chars ".") 0; FindData true (chars "..") 0; FindData false (chars "a") 5;
    FindData false (chars ".profile") 9; FindData true (chars "sub") 0 ].

#[refine] Definition demo_win : Win32 win_os := {|
  GetFileAttributes o path := if decide (path = chars "C:\w\a") then Some false else
                              if decide (path = chars "C:\w\d") then Some true else None;
  CreateFileA o path _ := (o, if decide (path = chars "C:\w\a") then 4 else INVALID_HANDLE_VALUE);
  GetLastError _ := ERROR_OTHER;
  GetFileSize o _ := Z.of_nat (length (wo_data o));
  CloseHandle o _ := o;
  FindFirstFile o path :=
    match win_names win_entries with
    | data :: rest => if decide (path = chars "C:\w\d\*")
                      then (WinOS (wo_data o) (wo_pos o) rest, Some (9, data)) else (o, None)
    | [] => (o, None)
    end;
  FindNextFile o h :=
    match win_names (wo_search o) with
    | data :: rest => (WinOS (wo_data o) (wo_pos o) rest, Some data)
    | [] => (o, None)
    end;
  FindClose o _ := o;
  SetFilePointerEx o _ pos := (WinOS (wo_data o) pos (wo_search o), true);
  ReadFile o h n :=
    if decide (h = 4) then (o, Some (take n (drop (Z.to_nat (wo_pos o)) (win_bytes o)))) else (o, None);
  win_fwrite_stdout o _ := o;
  find_entries o _ := win_names (wo_search o);
  win_file o h := if decide (h = 4) then Some (win_bytes o) else None
|}.
Proof.
  - intros o path o' h data. destruct (win_names win_entries) as [|d rest] eqn:E; [done|].
    case_decide; [|done]. intros [= _ _ <-].
    assert (H' : d ∈ win_names win_entries) by (rewrite E; left).
    by apply list_elem_of_filter in H' as [? _].
  - intros o h. destruct (win_names (wo_search o)) as [|d rest] eqn:E; [by eexists|].
    assert (Hall : Forall (λ data, wf_string (cFileName data)) (d :: rest)).
    { rewrite <- E. apply Forall_forall. intros x Hx. by apply list_elem_of_filter in Hx as [? _]. }
    apply Forall_cons in Hall as [Hd Hrest]. eexists. split; [done|]. split; [|done].
    cbn [wo_search]. clear -Hrest. unfold win_names.
    induction Hrest as [|x l Hx Hl IH]; [done|]. by rewrite filter_cons_True, IH.
  - intros o h n o' bs. case_decide; [|done]. intros [= _ <-].
    split; [rewrite length_take; lia|]. apply Forall_take, Forall_drop, Forall_forall.
    intros x Hx. by apply list_elem_of_filter in Hx as [? _].
  - intros o h d pos n. case_decide; [|done]. intros [= <-] Hpos.
    eexists _, _. split; [done|]. split; [done|]. done.
Defined.

Definition demo_win_os : win_os := WinOS [10; 20; 30; 40; 50] 0 [].
Definition demo_win_controller : rl_controller :=
  Controller CONTROLLER_FILE_SERVING (demo_handle (-1) (chars "C:\w") 2)
    (demo_handle 1 (chars "in") 1) (demo_handle 2 (chars "out") 1)
    (demo_handle (-1) (chars "C:\w\d") 2 :: replicate 15 (demo_handle 0 [] 0)) (chars "a") [] 0.

Lemma demo_win_controller_ok : ctl_ok demo_win_controller.
Proof.
  split; try (apply demo_handle_ok; [repeat constructor; discriminate|cbn; lia]); [done|].
  constructor; [apply demo_handle_ok; [repeat constructor; discriminate|cbn; lia]|].
  apply Forall_replicate, demo_handle_ok; [constructor|cbn; lia].
Qed.

Lemma fix_path_win_spec_witness :
  fix_path_win (HHost := demo_host) (chars "sub/a" ++ 0 :: replicate 200 7) (cstr "C:\w") =
    Some (chars "C:\w\sub\a").
Proof.
  refine (fix_path_win_spec (HHost := demo_host) (chars "sub/a") (replicate 200 7) (cstr "C:\w")
    (chars "C:\w") eq_refl _). repeat constructor; discriminate.
Defined.

Lemma rl_file_serve_win_spec_witness :
  ∃ n, ∀ fuel, (n ≤ fuel)%nat →
  ∃ p' c' o', rl_file_serve_win (HHost := demo_host) (Link := log_link) (OS := demo_win) RL_DEBUG fuel
      (replicate 200 7) [] demo_win_controller demo_win_os demo_open = Some (p', c', o', 0) ∧
    ctl_ok c' ∧
    (link_down (PeerLink := log_link) p' ∨
     ∃ ans, answers_to (body demo_open) ans ∧
       link_sent (PeerLink := log_link) p' ([] ++ [RL_MSG_INIT ans (hdr_seq demo_open)])).
Proof.
  refine (rl_file_serve_win_spec (HHost := demo_host) (Link := log_link) (OS := demo_win) RL_DEBUG []
    demo_win_controller demo_win_os [] demo_open (replicate 200 7) eq_refl demo_win_controller_ok
    demo_open_wf _).
  intros path mode [= <- <-]. unfold readable. cbn. lia.
Defined.

(** The full stops and the profile are passed over. *)
Lemma listing_win_witness :
  ∃ c' o', serve_all (HHost := demo_host) (OS := demo_win) 16 6 [] [] demo_win_controller
      demo_win_os (listing_requests 0 [5; 6; 7]) =
      Some ([RL_MSG_INIT (find_next_file_answer 0 1 (chars "a") 5) 5;
             RL_MSG_INIT (find_next_file_answer 0 2 (chars "sub") 0) 6;
             RL_MSG_INIT (find_next_file_answer 1 2 [] 0) 7], c', o') ∧
    handles c' !! 0%nat = Some (set_dir (Some 9) (demo_handle (-1) (chars "C:\w\d") 2)).
Proof.
  refine (listing_win (HHost := demo_host) (OS := demo_win) 16 6 [] [] demo_win_controller
    demo_win_os 0 (demo_handle (-1) (chars "C:\w\d") 2) (chars "C:\w\d")
    (WinOS [10; 20; 30; 40; 50] 0 (tail win_entries)) 9 (FindData true (chars ".") 0) [5; 6; 7]
    _ _ _ _ _ _ _).
  - unfold RL_MAX_FILE_HANDLES. lia.
  - done.
  - done.
  - by vm_compute.
  - by vm_compute.
  - vm_compute. lia.
  - by vm_compute.
Defined.
