(* ===== verification/AmigaFs.v ===== *)
(** * AmigaFs: the file system of the target, state and helpers

    amigafs.h and the helper functions of amigafs.c.  AmigaDOS gives the file
    system packets, whose arguments are addresses of its own structures; the
    structures live in one map per type, the strings and transfer buffers of
    the clients in a flat memory of bytes.  [None] is an access outside them. *)

From S2P Require Import Prelude Wire Messages CString Format Transport Peer.

(** ** Constants of AmigaDOS *)
Definition DOSTRUE : Z := -1.
Definition DOSFALSE : Z := 0.
Definition ERROR_NO_FREE_STORE : Z := 103.
Definition ERROR_OBJECT_IN_USE : Z := 202.
Definition ERROR_OBJECT_NOT_FOUND : Z := 205.
Definition ERROR_ACTION_NOT_KNOWN : Z := 209.
Definition ERROR_INVALID_LOCK : Z := 211.
Definition ERROR_OBJECT_WRONG_TYPE : Z := 212.
Definition ERROR_DISK_NOT_VALIDATED : Z := 213.
Definition ERROR_DEVICE_NOT_MOUNTED : Z := 218.
Definition ERROR_SEEK_ERROR : Z := 219.
Definition ERROR_WRITE_PROTECTED : Z := 223.
Definition ERROR_NOT_A_DOS_DISK : Z := 225.
Definition ERROR_NO_MORE_ENTRIES : Z := 232.
Definition SHARED_LOCK : Z := -2.
Definition EXCLUSIVE_LOCK : Z := -1.
Definition OFFSET_BEGINNING : Z := -1.
Definition OFFSET_CURRENT : Z := 0.
Definition OFFSET_END : Z := 1.
Definition ST_ROOT : Z := 1.
Definition ID_VALIDATED : Z := 82.
Definition ID_FFS_DISK : Z := 0x444F5301.
Definition ID_DOS_DISK : Z := 0x444F5300.
Definition FIBF_WRITE : Z := 4.
Definition FIBF_DELETE : Z := 1.
Definition ACTION_READ : Z := 82.
Definition ACTION_WRITE : Z := 87.
Definition ACTION_FINDINPUT : Z := 1005.
Definition ACTION_FINDOUTPUT : Z := 1006.
Definition ACTION_END : Z := 1007.
Definition ACTION_SEEK : Z := 1008.
Definition ACTION_IS_FILESYSTEM : Z := 1027.

(** BCPL pointers count longwords. *)
Definition BCPL_CAST (expression : Z) : Z := s32 (Z.shiftl expression 2).
Definition MKBADDR (p : Z) : Z := Z.shiftr p 2.

Record DosPacket := Packet {
  dp_Type : Z;
  dp_Arg1 : Z; dp_Arg2 : Z; dp_Arg3 : Z; dp_Arg4 : Z;
  dp_Res1 : Z; dp_Res2 : Z;
  dp_Port : Z
}.
Record FileLock := Lock { fl_Access : Z; fl_Key : Z; fl_Task : Z; fl_Volume : Z }.
Record FileHandle := DosHandle { fh_Type : Z; fh_Arg1 : Z }.
Record FileInfoBlock := Fib {
  fib_DirEntryType : Z; fib_EntryType : Z;
  fib_FileName : list Z;                (* char [108] *)
  fib_Protection : Z; fib_Size : Z; fib_NumBlocks : Z; fib_Date : Z;
  fib_Comment : list Z                  (* char [80] *)
}.
Record InfoData := Info {
  id_NumSoftErrors : Z; id_UnitNumber : Z; id_DiskState : Z; id_NumBlocks : Z;
  id_NumBlocksUsed : Z; id_BytesPerBlock : Z; id_DiskType : Z; id_VolumeNode : Z; id_InUse : Z
}.
(** A null pointer has address 0. *)
Record DeviceList := Volume {
  dl_address : Z; dl_Name : list Z; dl_VolumeDate : Z;
  dl_Task : Z; dl_Lock : Z; dl_DiskType : Z
}.

(** ** Data of amigafs.h *)
Definition RL_FSCLIENT_MAX_PATH : nat := 108.
Definition RL_AMIGA_PATH_MAX : nat := 108.
Definition RL_CLIENT_FLAG_FILE_ENUM_IN_PROGRESS : Z := 1.

Inductive rl_client_handle_type := RL_HANDLE_FILE | RL_HANDLE_DIR | RL_HANDLE_VIRTUAL_INPUT
  | RL_HANDLE_VIRTUAL_OUTPUT | RL_HANDLE_DEVICE.
#[export] Instance rl_client_handle_type_eq_dec : EqDecision rl_client_handle_type.
Proof. solve_decision. Defined.

Record rl_client_handle := ClientHandle {
  handle_id : Z;
  h_type : rl_client_handle_type;
  offset_lo : Z;
  offset_hi : Z;
  size_lo : Z;
  flags : Z;
  path : list Z;                        (* the 108 bytes of the array *)
  buffer_start : Z;
  buffer_len : Z;
  h_buffer : list Z                     (* the 4096 bytes of the array *)
}.

(** The completion functions, by name. *)
Inductive completion := complete_findinput_cb | complete_examine_next_cb
  | complete_locate_object_cb | complete_read_cb | complete_write_cb.
#[export] Instance completion_eq_dec : EqDecision completion.
Proof. solve_decision. Defined.

(** The union [detail]: the destination of a read, the source and length of a
    write. *)
Inductive op_detail := D_zero | D_read (destination : Z) | D_write (source length : Z).

Record rl_pending_operation := PendingOp {
  op_addr : Z;                          (* its address *)
  request_seqno : Z;
  input_packet : Z;
  expected_answer_type : Z;
  callback : completion;
  detail : op_detail
}.

(** The heap of the target: what [AllocPooled] gives is a new longword-aligned
    address, or none. *)
Class Pool := {
  pool_alloc : gset Z → option Z;
  pool_fresh X a : pool_alloc X = Some a → a ∉ X ∧ 0 < a < 2147483648 ∧ Z.rem a 4 = 0
}.

(** The file system, and the structures it shares with its clients.  The
    pending operations form a list whose head is the newest. *)
Record fsys {P : Type} := Fsys {
  fs_peer : P;
  seqno : Z;
  device_port : Z;
  device_list : DeviceList;
  pending : list rl_pending_operation;
  root_addr : Z;                        (* &fs->root_handle *)
  chandles : gmap Z rl_client_handle;
  locks : gmap Z FileLock;
  packets : gmap Z DosPacket;
  fhs : gmap Z FileHandle;
  fibs : gmap Z FileInfoBlock;
  infos : gmap Z InfoData;
  mem : gmap Z Z;
  replies : list (Z * Z * Z)            (* packets sent back, with Res1 and Res2 *)
}.
Arguments fsys : clear implicits.

(** ** Client memory *)
Fixpoint mem_read (m : gmap Z Z) (a : Z) (n : nat) : option (list Z) :=
  match n with
  | O => Some []
  | S n => b ← m !! a; bs ← mem_read m (a + 1) n; Some (b :: bs)
  end.

Fixpoint mem_write (m : gmap Z Z) (a : Z) (bs : list Z) : option (gmap Z Z) :=
  match bs with
  | [] => Some m
  | b :: bs => _ ← m !! a; mem_write (<[a := b]> m) (a + 1) bs
  end.

(** What a pointer sees: the bytes from [a] on. *)
Fixpoint mem_from (fuel : nat) (m : gmap Z Z) (a : Z) : list Z :=
  match fuel with
  | O => []
  | S fuel => match m !! a with Some b => b :: mem_from fuel m (a + 1) | None => [] end
  end.
Definition pointer_to (m : gmap Z Z) (a : Z) : list Z := mem_from (size m) m a.

(** ** Field updates *)
Section Updates.
Context {P : Type}.
Implicit Types (s : fsys P).

Definition set_peer (p : P) s : fsys P :=
  Fsys P p (seqno s) (device_port s) (device_list s) (pending s) (root_addr s) (chandles s)
    (locks s) (packets s) (fhs s) (fibs s) (infos s) (mem s) (replies s).
Definition set_seqno (n : Z) s : fsys P :=
  Fsys P (fs_peer s) n (device_port s) (device_list s) (pending s) (root_addr s) (chandles s)
    (locks s) (packets s) (fhs s) (fibs s) (infos s) (mem s) (replies s).
Definition set_device_port (p : Z) s : fsys P :=
  Fsys P (fs_peer s) (seqno s) p (device_list s) (pending s) (root_addr s) (chandles s)
    (locks s) (packets s) (fhs s) (fibs s) (infos s) (mem s) (replies s).
Definition set_device_list (l : DeviceList) s : fsys P :=
  Fsys P (fs_peer s) (seqno s) (device_port s) l (pending s) (root_addr s) (chandles s)
    (locks s) (packets s) (fhs s) (fibs s) (infos s) (mem s) (replies s).
Definition set_pending (l : list rl_pending_operation) s : fsys P :=
  Fsys P (fs_peer s) (seqno s) (device_port s) (device_list s) l (root_addr s) (chandles s)
    (locks s) (packets s) (fhs s) (fibs s) (infos s) (mem s) (replies s).
Definition set_chandles (h : gmap Z rl_client_handle) s : fsys P :=
  Fsys P (fs_peer s) (seqno s) (device_port s) (device_list s) (pending s) (root_addr s) h
    (locks s) (packets s) (fhs s) (fibs s) (infos s) (mem s) (replies s).
Definition set_locks (l : gmap Z FileLock) s : fsys P :=
  Fsys P (fs_peer s) (seqno s) (device_port s) (device_list s) (pending s) (root_addr s)
    (chandles s) l (packets s) (fhs s) (fibs s) (infos s) (mem s) (replies s).
Definition set_packets (p : gmap Z DosPacket) s : fsys P :=
  Fsys P (fs_peer s) (seqno s) (device_port s) (device_list s) (pending s) (root_addr s)
    (chandles s) (locks s) p (fhs s) (fibs s) (infos s) (mem s) (replies s).
Definition set_fhs (f : gmap Z FileHandle) s : fsys P :=
  Fsys P (fs_peer s) (seqno s) (device_port s) (device_list s) (pending s) (root_addr s)
    (chandles s) (locks s) (packets s) f (fibs s) (infos s) (mem s) (replies s).
Definition set_fibs (f : gmap Z FileInfoBlock) s : fsys P :=
  Fsys P (fs_peer s) (seqno s) (device_port s) (device_list s) (pending s) (root_addr s)
    (chandles s) (locks s) (packets s) (fhs s) f (infos s) (mem s) (replies s).
Definition set_infos (i : gmap Z InfoData) s : fsys P :=
  Fsys P (fs_peer s) (seqno s) (device_port s) (device_list s) (pending s) (root_addr s)
    (chandles s) (locks s) (packets s) (fhs s) (fibs s) i (mem s) (replies s).
Definition set_mem (m : gmap Z Z) s : fsys P :=
  Fsys P (fs_peer s) (seqno s) (device_port s) (device_list s) (pending s) (root_addr s)
    (chandles s) (locks s) (packets s) (fhs s) (fibs s) (infos s) m (replies s).
Definition add_reply (r : Z * Z * Z) s : fsys P :=
  Fsys P (fs_peer s) (seqno s) (device_port s) (device_list s) (pending s) (root_addr s)
    (chandles s) (locks s) (packets s) (fhs s) (fibs s) (infos s) (mem s) (replies s ++ [r]).
End Updates.

Definition set_op_seqno (n : Z) (op : rl_pending_operation) : rl_pending_operation :=
  PendingOp (op_addr op) n (input_packet op) (expected_answer_type op) (callback op) (detail op).
Definition set_op_detail (d : op_detail) (op : rl_pending_operation) : rl_pending_operation :=
  PendingOp (op_addr op) (request_seqno op) (input_packet op) (expected_answer_type op)
    (callback op) d.
Definition set_offset (o : Z) (h : rl_client_handle) : rl_client_handle :=
  ClientHandle (handle_id h) (h_type h) o (offset_hi h) (size_lo h) (flags h) (path h)
    (buffer_start h) (buffer_len h) (h_buffer h).
Definition set_flags (f : Z) (h : rl_client_handle) : rl_client_handle :=
  ClientHandle (handle_id h) (h_type h) (offset_lo h) (offset_hi h) (size_lo h) f (path h)
    (buffer_start h) (buffer_len h) (h_buffer h).
Definition set_buffer (start len : Z) (buf : list Z) (h : rl_client_handle) : rl_client_handle :=
  ClientHandle (handle_id h) (h_type h) (offset_lo h) (offset_hi h) (size_lo h) (flags h) (path h)
    start len buf.
Definition set_res (res1 res2 : Z) (p : DosPacket) : DosPacket :=
  Packet (dp_Type p) (dp_Arg1 p) (dp_Arg2 p) (dp_Arg3 p) (dp_Arg4 p) res1 res2 (dp_Port p).
Definition set_port (port : Z) (p : DosPacket) : DosPacket :=
  Packet (dp_Type p) (dp_Arg1 p) (dp_Arg2 p) (dp_Arg3 p) (dp_Arg4 p) (dp_Res1 p) (dp_Res2 p) port.

(** The fixed-size string fields. *)
Definition path_zero : list Z := replicate RL_FSCLIENT_MAX_PATH 0.
Definition fib_zero : FileInfoBlock :=
  Fib 0 0 (replicate 108 0) 0 0 0 0 (replicate 80 0).
Definition buffer_zero : list Z := replicate (Z.to_nat 4096) 0.

Section Helpers.
Context `{HHost : Host} `{HPool : Pool} {P : Type} `{Link : PeerLink P}.
Implicit Types (s : fsys P).

(** Addresses that are taken. *)
Definition used s : gset Z :=
  dom (locks s) ∪ dom (chandles s) ∪ list_to_set (op_addr <$> pending s) ∪ {[root_addr s]}.

(** [HANDLE_FROM_LOCK]: the address of the handle. *)
Definition HANDLE_FROM_LOCK s (lock : Z) : option Z := l ← locks s !! lock; Some (fl_Key l).

Definition put_handle (a : Z) (h : rl_client_handle) s : fsys P :=
  set_chandles (<[a := h]> (chandles s)) s.
Definition put_lock (a : Z) (l : FileLock) s : fsys P := set_locks (<[a := l]> (locks s)) s.

(** Replies: the results are stored, then the packet goes to its port. *)
Definition reply_to_packet s (packet : Z) : option (fsys P) :=
  p ← packets s !! packet;
  Some (add_reply (packet, dp_Res1 p, dp_Res2 p)
          (set_packets (<[packet := set_port (device_port s) p]> (packets s)) s)).

Definition set_result s (packet res1 res2 : Z) : option (fsys P) :=
  p ← packets s !! packet;
  Some (set_packets (<[packet := set_res res1 res2 p]> (packets s)) s).

Definition answer_packet s (packet res1 res2 : Z) : option (fsys P) :=
  s ← set_result s packet res1 res2; reply_to_packet s packet.

Definition fs_transmit s (m : rl_msg) : option (fsys P * Z) :=
  '(p, rc) ← transmit (fs_peer s) m; Some (set_peer p s, rc).

(** ** Pending operations *)
Definition alloc_pending s (packet expected : Z) (cb : completion) : option Z * fsys P :=
  match pool_alloc (used s) with
  | None => (None, s)
  | Some a =>
      let op := PendingOp a (seqno s) packet expected cb D_zero in
      (Some a, set_pending (op :: pending s) (set_seqno (u32 (seqno s + 1)) s))
  end.

(** The walk along the list that unlinks [target]. *)
Fixpoint unlink (l : list rl_pending_operation) (target : Z) : list rl_pending_operation :=
  match l with
  | [] => []
  | op :: l => if op_addr op =? target then l else op :: unlink l target
  end.
Definition unlink_pending s (target : Z) : fsys P :=
  set_pending (unlink (pending s) target) s.

Fixpoint find_op (l : list rl_pending_operation) (n : Z) : option rl_pending_operation :=
  match l with
  | [] => None
  | op :: l => if n =? request_seqno op then Some op else find_op l n
  end.
Definition find_pending_op s (msg : rl_msg) : option rl_pending_operation :=
  find_op (pending s) (hdr_seq msg).

(** Writing to the operation at address [a]. *)
Fixpoint update_op (l : list rl_pending_operation) (a : Z)
    (f : rl_pending_operation → rl_pending_operation) : list rl_pending_operation :=
  match l with
  | [] => []
  | op :: l => if op_addr op =? a then f op :: l else op :: update_op l a f
  end.
Fixpoint get_op (l : list rl_pending_operation) (a : Z) : option rl_pending_operation :=
  match l with
  | [] => None
  | op :: l => if op_addr op =? a then Some op else get_op l a
  end.

(** ** Strings *)

(** [construct_bstr] into an array [start]. *)
Definition construct_bstr (start : list Z) (max_size : Z) (input : list Z) : option (list Z) :=
  len ← rl_strlen input;
  let max := u32 (max_size - 2) in
  let len := if max <? Z.of_nat len then max else Z.of_nat len in
  put_bytes start 0 (u8 len :: take (Z.to_nat len) input ++ [0]).

(** The text of the normalized path. *)
Definition normalize_object_path s (buffer_size : nat) (dir_lock object_name_bstr : Z)
  : option (list Z) :=
  handle ← (if dir_lock =? 0 then Some (root_addr s) else HANDLE_FROM_LOCK s dir_lock);
  len ← mem s !! object_name_bstr;
  name ← mem_read (mem s) (object_name_bstr + 1) (Z.to_nat len);
  (* the name and its null byte must fit item_path *)
  if (RL_AMIGA_PATH_MAX <? length name + 1)%nat then None else
  let item_path := name ++ [0] in
  colon_pos ← rl_strchr item_path 58;
  let '(item_path, handle) :=
    match colon_pos with
    | Some p => (drop 1 p, root_addr s)
    | None => (item_path, handle)
    end in
  if negb (root_addr s =? handle) then
    h ← chandles s !! handle;
    format_text buffer_size (cstr "%s/%s") [VStr (path h); VStr item_path]
  else format_text buffer_size (cstr "%s") [VStr item_path].

(** ** Locks *)
Definition rl_amigafs_alloc_root_lock s (mode : Z) : option Z * fsys P :=
  match pool_alloc (used s) with
  | None => (None, s)
  | Some a =>
      (Some a, put_lock a (Lock mode (root_addr s) (device_port s)
                             (MKBADDR (dl_address (device_list s)))) s)
  end.

Definition allocate_lock s (type : rl_client_handle_type) (id access : Z) (name : list Z)
    (size : Z) : option (option Z * fsys P) :=
  match pool_alloc (used s) with
  | None => Some (None, s)
  | Some lock =>
      let s1 := put_lock lock (Lock 0 0 0 0) s in
      match pool_alloc (used s1) with
      | None => Some (None, set_locks (delete lock (locks s1)) s1)
      | Some handle =>
          '(p, _) ← rl_string_copy RL_FSCLIENT_MAX_PATH path_zero name;
          let s2 := put_handle handle (ClientHandle id type 0 0 size 0 p 0 0 buffer_zero) s1 in
          Some (Some lock, put_lock lock (Lock access handle (device_port s)
                                            (MKBADDR (dl_address (device_list s)))) s2)
      end
  end.

Definition rl_amigafs_free_lock s (lock : Z) : option (fsys P) :=
  handle ← HANDLE_FROM_LOCK s lock;
  h ← chandles s !! handle;
  s ← (if decide (h_type h ≠ RL_HANDLE_DEVICE) then
         let m := RL_MSG_INIT (close_handle_request (handle_id h)) (seqno s) in
         '(s, _) ← fs_transmit (set_seqno (u32 (seqno s + 1)) s) m;
         Some (set_chandles (delete handle (chandles s)) s)
       else Some s);
  Some (set_locks (delete lock (locks s)) s).

Definition translate_error_code (error_code : Z) : Z :=
  if error_code =? RL_NETERR_SUCCESS then 0
  else if error_code =? RL_NETERR_ACCESS_DENIED then ERROR_OBJECT_IN_USE
  else if error_code =? RL_NETERR_NOT_FOUND then ERROR_OBJECT_NOT_FOUND
  else if (error_code =? RL_NETERR_NOT_A_FILE) || (error_code =? RL_NETERR_NOT_A_DIRECTORY)
  then ERROR_OBJECT_WRONG_TYPE
  else if error_code =? RL_NETERR_IO_ERROR then ERROR_DISK_NOT_VALIDATED
  else if error_code =? RL_NETERR_INVALID_VALUE then ERROR_OBJECT_WRONG_TYPE
  else ERROR_DEVICE_NOT_MOUNTED.
End Helpers.
