(* ===== verification/AmigaActions.v ===== *)
(** * AmigaActions: the packet handlers and completions of amigafs.c

    [process_fs_packet] serves a packet of an AmigaDOS client, answering it at
    once or leaving it pending; [rl_amigafs_process_network_message] completes
    the pending operation that a message of the controller answers. *)

From S2P Require Import Prelude Wire Messages CString Format Transport Peer AmigaFs.

Definition RLAUNCH_VIRTUAL_INPUT_FILE : list Z := cstr "+virtual-input+".
Definition RLAUNCH_VIRTUAL_OUTPUT_FILE : list Z := cstr "+virtual-output+".

Section Actions.
Context `{HHost : Host} `{HPool : Pool} {P : Type} `{Link : PeerLink P}.
Implicit Types (s : fsys P).

Definition action : Type := fsys P → Z → option (fsys P).

(** The common error exit: unlink the operation, if any, and answer. *)
Definition fail_packet s (packet : Z) (op : option Z) (error_code : Z) : option (fsys P) :=
  let s := match op with Some a => unlink_pending s a | None => s end in
  answer_packet s packet DOSFALSE error_code.

Definition open_file_handle s (fh lock : Z) : option (fsys P) :=
  _ ← fhs s !! fh;
  Some (set_fhs (<[fh := DosHandle (device_port s) lock]> (fhs s)) s).

(** ** Opening and closing *)

(** The name behind the device prefix. *)
Definition skip_device (filename : list Z) : option (list Z) :=
  colon ← rl_strchr filename 58;
  Some (match colon with Some c => drop 1 c | None => filename end).

Definition action_findinput : action := λ s packet,
  p ← packets s !! packet;
  let filename_bstr := BCPL_CAST (dp_Arg3 p) in
  let name := pointer_to (mem s) (filename_bstr + 1) in
  filename ← skip_device name;
  cmp ← rl_strcmp filename RLAUNCH_VIRTUAL_INPUT_FILE;
  if cmp =? 0 then
    '(lock, s) ← allocate_lock s RL_HANDLE_VIRTUAL_INPUT RL_FILEHANDLE_VIRTUAL_INPUT
                   SHARED_LOCK name 0;
    match lock with
    | None => fail_packet s packet None ERROR_NO_FREE_STORE
    | Some lock =>
        s ← set_result s packet DOSTRUE 0;
        s ← open_file_handle s (BCPL_CAST (dp_Arg1 p)) lock;
        reply_to_packet s packet
    end
  else
    let '(op, s) := alloc_pending s packet RL_MSG_OPEN_HANDLE_ANSWER complete_findinput_cb in
    match op with
    | None => fail_packet s packet None ERROR_NO_FREE_STORE
    | Some a =>
        o ← get_op (pending s) a;
        text ← cstr_at filename;
        '(s, rc) ← fs_transmit s
          (RL_MSG_INIT (open_handle_request text RL_OPENFLAG_READ) (request_seqno o));
        if negb (rc =? 0) then fail_packet s packet (Some a) 0 else Some s
    end.

Definition complete_findinput s (op : rl_pending_operation) (msg : rl_msg) : option (fsys P) :=
  let packet := input_packet op in
  p ← packets s !! packet;
  let filename_bstr := BCPL_CAST (dp_Arg3 p) in
  match body msg with
  | open_handle_answer handle size type =>
      '(s, ok) ←
        (if negb (RL_NODE_TYPE_FILE =? type) then
           s ← set_result s packet DOSFALSE ERROR_OBJECT_WRONG_TYPE; Some (s, false)
         else
           '(lock, s) ← allocate_lock s RL_HANDLE_FILE handle SHARED_LOCK
                          (pointer_to (mem s) (filename_bstr + 1)) size;
           match lock with
           | None => s ← set_result s packet DOSFALSE ERROR_NO_FREE_STORE; Some (s, false)
           | Some lock =>
               s ← set_result s packet DOSTRUE 0;
               s ← open_file_handle s (BCPL_CAST (dp_Arg1 p)) lock;
               Some (s, true)
           end);
      s ← (if ok : bool then Some s else
             let m := RL_MSG_INIT (close_handle_request handle) (seqno s) in
             '(s, _) ← fs_transmit (set_seqno (u32 (seqno s + 1)) s) m;
             Some s);
      s ← reply_to_packet s packet;
      Some (unlink_pending s (op_addr op))
  | _ => None
  end.

Definition action_findoutput : action := λ s packet,
  p ← packets s !! packet;
  let name := pointer_to (mem s) (BCPL_CAST (dp_Arg3 p) + 1) in
  filename ← skip_device name;
  cmp ← rl_strcmp filename RLAUNCH_VIRTUAL_OUTPUT_FILE;
  if negb (cmp =? 0) then fail_packet s packet None 0
  else
    '(lock, s) ← allocate_lock s RL_HANDLE_VIRTUAL_OUTPUT RL_FILEHANDLE_VIRTUAL_OUTPUT
                   EXCLUSIVE_LOCK name 0;
    match lock with
    | None => fail_packet s packet None 0
    | Some lock =>
        s ← open_file_handle s (BCPL_CAST (dp_Arg1 p)) lock;
        answer_packet s packet DOSTRUE 0
    end.

Definition action_locate_object : action := λ s packet,
  p ← packets s !! packet;
  full_path ← normalize_object_path s RL_AMIGA_PATH_MAX (BCPL_CAST (dp_Arg1 p))
                (BCPL_CAST (dp_Arg2 p));
  if (length full_path =? 0)%nat then
    match rl_amigafs_alloc_root_lock s (dp_Arg3 p) with
    | (None, _) => None         (* [goto error] reads [pending_op], never assigned *)
    | (Some lock, s) => answer_packet s packet (MKBADDR lock) 0
    end
  else
    let '(op, s) := alloc_pending s packet RL_MSG_OPEN_HANDLE_ANSWER complete_locate_object_cb in
    match op with
    | None => fail_packet s packet None ERROR_NO_FREE_STORE
    | Some a =>
        o ← get_op (pending s) a;
        '(s, rc) ← fs_transmit s
          (RL_MSG_INIT (open_handle_request full_path RL_OPENFLAG_READ) (request_seqno o));
        if negb (rc =? 0) then fail_packet s packet (Some a) ERROR_NOT_A_DOS_DISK else Some s
    end.

Definition complete_locate_object s (op : rl_pending_operation) (msg : rl_msg)
  : option (fsys P) :=
  let packet := input_packet op in
  p ← packets s !! packet;
  match body msg with
  | open_handle_answer handle size type =>
      let kind := if RL_NODE_TYPE_DIRECTORY =? type then RL_HANDLE_DIR else RL_HANDLE_FILE in
      full_path ← normalize_object_path s RL_AMIGA_PATH_MAX (BCPL_CAST (dp_Arg1 p))
                    (BCPL_CAST (dp_Arg2 p));
      '(lock, s) ← allocate_lock s kind handle 0 (full_path ++ [0]) size;
      s ← match lock with
          | Some lock => answer_packet s packet (MKBADDR lock) 0
          | None => answer_packet s packet 0 ERROR_NO_FREE_STORE
          end;
      Some (unlink_pending s (op_addr op))
  | _ => None
  end.

Definition action_free_lock : action := λ s packet,
  p ← packets s !! packet;
  let lock := BCPL_CAST (dp_Arg1 p) in
  if negb (lock =? 0) then
    s ← rl_amigafs_free_lock s lock; answer_packet s packet DOSTRUE 0
  else answer_packet s packet DOSFALSE ERROR_OBJECT_NOT_FOUND.

Definition action_end : action := λ s packet,
  p ← packets s !! packet;
  s ← rl_amigafs_free_lock s (dp_Arg1 p);
  answer_packet s packet DOSTRUE 0.

Definition action_copy_dir : action := λ s packet,
  p ← packets s !! packet;
  let lock := BCPL_CAST (dp_Arg1 p) in
  if negb (lock =? 0) then
    handle ← HANDLE_FROM_LOCK s lock;
    h ← chandles s !! handle;
    '(copy, s) ←
      (if decide (h_type h = RL_HANDLE_DEVICE)
       then Some (rl_amigafs_alloc_root_lock s SHARED_LOCK)
       else allocate_lock s (h_type h) (handle_id h) SHARED_LOCK (path h) (size_lo h));
    match copy with
    | Some copy => answer_packet s packet (MKBADDR copy) 0
    | None => answer_packet s packet 0 ERROR_NO_FREE_STORE
    end
  else answer_packet s packet 0 ERROR_OBJECT_NOT_FOUND.

(** The index of the last slash before [len], or -1. *)
Fixpoint last_slash (parent_path : list Z) (len : nat) : Z :=
  match len with
  | O => -1
  | S len => if bool_decide (parent_path !! len = Some 47) then Z.of_nat len
             else last_slash parent_path len
  end.

Definition action_parent : action := λ s packet,
  p ← packets s !! packet;
  handle ← HANDLE_FROM_LOCK s (BCPL_CAST (dp_Arg1 p));
  if (handle =? root_addr s) || (handle =? 0) then
    answer_packet s packet DOSFALSE ERROR_OBJECT_NOT_FOUND
  else
    h ← chandles s !! handle;
    '(parent_path, _) ← rl_string_copy 108 (replicate 108 0) (path h);
    n ← rl_strlen parent_path;
    let len := last_slash parent_path n in
    '(lock, s) ←
      (if len <=? 0 then Some (rl_amigafs_alloc_root_lock s SHARED_LOCK)
       else
         allocate_lock s RL_HANDLE_DIR (u32 (-1)) SHARED_LOCK
           (take (Z.to_nat len) parent_path ++ [0]) 0);
    match lock with
    | Some lock => answer_packet s packet (MKBADDR lock) 0
    | None => answer_packet s packet DOSFALSE ERROR_OBJECT_NOT_FOUND
    end.

(** ** Examining *)
Definition put_fib (a : Z) (f : FileInfoBlock) s : option (fsys P) :=
  _ ← fibs s !! a; Some (set_fibs (<[a := f]> (fibs s)) s).

Definition action_examine_object : action := λ s packet,
  p ← packets s !! packet;
  let lock := BCPL_CAST (dp_Arg1 p) in
  let fib := BCPL_CAST (dp_Arg2 p) in
  handle ← (if negb (lock =? 0) then HANDLE_FROM_LOCK s lock else Some 0);
  let handle := if handle =? 0 then root_addr s else handle in
  if root_addr s =? handle then
    let name := dl_Name (device_list s) in
    len ← name !! 0%nat;
    if (length name <? Z.to_nat len + 1)%nat then None else
    fname ← put_bytes (replicate 108 0) 0 (take (Z.to_nat len + 1) name);
    comment ← construct_bstr (replicate 80 0) 80 (cstr "This is a remote launch device");
    s ← put_fib fib (Fib ST_ROOT ST_ROOT fname 0 0 0 (dl_VolumeDate (device_list s)) comment) s;
    answer_packet s packet DOSTRUE 0
  else
    h ← chandles s !! handle;
    fname ← construct_bstr (replicate 108 0) 108 (path h);
    s ← put_fib fib
          (Fib (if decide (h_type h = RL_HANDLE_FILE) then -1 else 1) 0 fname 0
             (size_lo h) (size_lo h) 0 (replicate 80 0)) s;
    answer_packet s packet DOSTRUE 0.

Definition action_examine_next : action := λ s packet,
  p ← packets s !! packet;
  handle ← HANDLE_FROM_LOCK s (BCPL_CAST (dp_Arg1 p));
  let '(op, s) := alloc_pending s packet RL_MSG_FIND_NEXT_FILE_ANSWER complete_examine_next_cb in
  match op with
  | None => fail_packet s packet None ERROR_NO_FREE_STORE
  | Some a =>
      o ← get_op (pending s) a;
      h ← chandles s !! handle;
      let reset :=
        if negb (Z.land (flags h) RL_CLIENT_FLAG_FILE_ENUM_IN_PROGRESS =? 0) then 0 else 1 in
      '(s, rc) ← fs_transmit s
        (RL_MSG_INIT (find_next_file_request (handle_id h) reset) (request_seqno o));
      if negb (rc =? 0) then fail_packet s packet (Some a) ERROR_DEVICE_NOT_MOUNTED
      else
        Some (put_handle handle
                (set_flags (Z.lor (flags h) RL_CLIENT_FLAG_FILE_ENUM_IN_PROGRESS) h) s)
  end.

Definition complete_examine_next s (op : rl_pending_operation) (msg : rl_msg)
  : option (fsys P) :=
  let packet := input_packet op in
  p ← packets s !! packet;
  handle ← HANDLE_FROM_LOCK s (BCPL_CAST (dp_Arg1 p));
  match body msg with
  | find_next_file_answer end_of_sequence type name size =>
      s ← (if negb (end_of_sequence =? 0) then
             h ← chandles s !! handle;
             let f := Z.land (flags h) (Z.lnot RL_CLIENT_FLAG_FILE_ENUM_IN_PROGRESS) in
             answer_packet (put_handle handle (set_flags f h) s) packet
               DOSFALSE ERROR_NO_MORE_ENTRIES
           else
             let kind := if RL_NODE_TYPE_DIRECTORY =? type then 1 else -1 in
             fname ← construct_bstr (replicate 108 0) 108 (name ++ [0]);
             s ← put_fib (BCPL_CAST (dp_Arg2 p))
                   (Fib kind kind fname (Z.lor FIBF_WRITE FIBF_DELETE) size size 0
                      (replicate 80 0)) s;
             answer_packet s packet DOSTRUE 0);
      Some (unlink_pending s (op_addr op))
  | _ => None
  end.

Definition fill_in_infodata s (info : Z) : option (fsys P) :=
  _ ← infos s !! info;
  Some (set_infos (<[info := Info 0 1 ID_VALIDATED 1000 500 1 ID_FFS_DISK
                               (MKBADDR (dl_address (device_list s))) 0]> (infos s)) s).

Definition action_disk_info : action := λ s packet,
  p ← packets s !! packet;
  s ← fill_in_infodata s (BCPL_CAST (dp_Arg1 p));
  answer_packet s packet DOSTRUE 0.

Definition action_info : action := λ s packet,
  p ← packets s !! packet;
  let lock := BCPL_CAST (dp_Arg1 p) in
  if lock =? 0 then answer_packet s packet DOSFALSE ERROR_INVALID_LOCK else
  l ← locks s !! lock;
  if negb (fl_Volume l =? MKBADDR (dl_address (device_list s)))
  then answer_packet s packet DOSFALSE ERROR_INVALID_LOCK
  else if fl_Key l =? root_addr s then
    s ← fill_in_infodata s (BCPL_CAST (dp_Arg2 p)); answer_packet s packet DOSTRUE 0
  else answer_packet s packet DOSFALSE ERROR_OBJECT_NOT_FOUND.

(** ** Reading *)

(** [Some (offset, count)]: the part of the read buffer that serves the
    request. *)
Definition buffer_overlap (h : rl_client_handle) (bytes_to_read : Z) : option (Z * Z) :=
  let lo := buffer_start h in
  let hi := u32 (buffer_start h + buffer_len h) in
  if offset_lo h <? lo then None
  else if hi <=? offset_lo h then None
  else
    let avail := u32 (hi - offset_lo h) in
    Some (u32 (offset_lo h - lo), Z.min avail bytes_to_read).

Definition transmit_read_request s (handle : Z) (op : rl_pending_operation) (count : Z)
  : option (fsys P * Z) :=
  h ← chandles s !! handle;
  fs_transmit s (RL_MSG_INIT
    (read_file_request (handle_id h) (offset_hi h) (offset_lo h) (Z.max count 4096))
    (request_seqno op)).

(** [memcpy] of [n] bytes from [src] to the client's memory. *)
Definition copy_to_client s (dest : Z) (src : list Z) (n : Z) : option (fsys P) :=
  if Z.of_nat (length src) <? n then None else
  m ← mem_write (mem s) dest (take (Z.to_nat n) src);
  Some (set_mem m s).

Definition readop_bytes_read (op : rl_pending_operation) (p : DosPacket) : option Z :=
  match detail op with
  | D_read destination => Some (u32 (destination - dp_Arg2 p))
  | _ => None
  end.

Definition action_read : action := λ s packet,
  p ← packets s !! packet;
  handle ← HANDLE_FROM_LOCK s (dp_Arg1 p);
  h ← chandles s !! handle;
  let wanted := u32 (dp_Arg3 p) in
  '(s, bytes_remaining, served) ←
    match buffer_overlap h wanted with
    | Some (offset, count) =>
        let s := put_handle handle (set_offset (u32 (offset_lo h + count)) h) s in
        s ← copy_to_client s (dp_Arg2 p) (drop (Z.to_nat offset) (h_buffer h)) count;
        Some (s, u32 (wanted - count), if u32 (wanted - count) =? 0 then Some count else None)
    | None => Some (s, wanted, None)
    end;
  match served with
  | Some count => answer_packet s packet (s32 count) 0
  | None =>
      let '(op, s) := alloc_pending s packet RL_MSG_READ_FILE_ANSWER complete_read_cb in
      match op with
      | None => fail_packet s packet None ERROR_NO_FREE_STORE
      | Some a =>
          let bytes_read := u32 (wanted - bytes_remaining) in
          let s := set_pending (update_op (pending s) a
                     (set_op_detail (D_read (dp_Arg2 p + bytes_read)))) s in
          o ← get_op (pending s) a;
          '(s, rc) ← transmit_read_request s handle o bytes_remaining;
          if negb (rc =? 0) then fail_packet s packet (Some a) ERROR_SEEK_ERROR else Some s
      end
  end.

Definition complete_read s (op : rl_pending_operation) (msg : rl_msg) : option (fsys P) :=
  let packet := input_packet op in
  p ← packets s !! packet;
  handle ← HANDLE_FROM_LOCK s (dp_Arg1 p);
  match body msg, detail op with
  | read_file_answer data, D_read destination =>
      let amount_read := na_length data in
      done_before ← readop_bytes_read op p;
      let amount_left := u32 (u32 (dp_Arg3 p) - done_before) in
      let slice_amount := Z.min amount_left amount_read in
      s ← copy_to_client s destination (na_base data) slice_amount;
      h ← chandles s !! handle;
      let h := set_offset (u32 (offset_lo h + slice_amount)) h in
      let op := set_op_detail (D_read (destination + slice_amount)) op in
      let s := put_handle handle h
                 (set_pending (update_op (pending s) (op_addr op)
                    (set_op_detail (D_read (destination + slice_amount)))) s) in
      done_now ← readop_bytes_read op p;
      if (u32 (dp_Arg3 p) =? done_now) || (0 =? amount_read) then
        let extra := u32 (amount_read - slice_amount) in
        let src := drop (Z.to_nat slice_amount) (na_base data) in
        if Z.of_nat (length src) <? extra then None else
        buf ← put_bytes (h_buffer h) 0 (take (Z.to_nat extra) src);
        let s := put_handle handle (set_buffer (offset_lo h) extra buf h) s in
        s ← answer_packet s packet (s32 done_now) 0;
        Some (unlink_pending s (op_addr op))
      else
        let op := set_op_seqno (seqno s) op in
        let s := set_seqno (u32 (seqno s + 1))
                   (set_pending (update_op (pending s) (op_addr op)
                      (set_op_seqno (seqno s))) s) in
        '(s, rc) ← transmit_read_request s handle op (u32 (dp_Arg3 p - done_now));
        if negb (rc =? 0) then
          s ← answer_packet s packet 0 ERROR_SEEK_ERROR;
          Some (unlink_pending s (op_addr op))
        else Some s
  | _, _ => None
  end.

(** ** Writing *)
Definition transmit_write_request s (handle a data count : Z) : option (fsys P * Z) :=
  h ← chandles s !! handle;
  o ← get_op (pending s) a;
  let s := set_pending (update_op (pending s) a (set_op_detail (D_write data count))) s in
  fs_transmit s (RL_MSG_INIT
    (write_file_request (handle_id h) (NetArray (pointer_to (mem s) data) count))
    (request_seqno o)).

Definition action_write : action := λ s packet,
  p ← packets s !! packet;
  handle ← HANDLE_FROM_LOCK s (dp_Arg1 p);
  let '(op, s) := alloc_pending s packet RL_MSG_WRITE_FILE_ANSWER complete_write_cb in
  match op with
  | None => fail_packet s packet None ERROR_NO_FREE_STORE
  | Some a =>
      '(s, rc) ← transmit_write_request s handle a (dp_Arg2 p) (u32 (Z.min (dp_Arg3 p) 4096));
      if negb (rc =? 0) then fail_packet s packet (Some a) ERROR_SEEK_ERROR else Some s
  end.

Definition complete_write s (op : rl_pending_operation) (msg : rl_msg) : option (fsys P) :=
  let packet := input_packet op in
  p ← packets s !! packet;
  handle ← HANDLE_FROM_LOCK s (dp_Arg1 p);
  match detail op with
  | D_write source length =>
      let curr_ptr := source + length in
      let end_ptr := dp_Arg2 p + dp_Arg3 p in
      if curr_ptr <? end_ptr then
        let s := set_seqno (u32 (seqno s + 1))
                   (set_pending (update_op (pending s) (op_addr op)
                      (set_op_seqno (seqno s))) s) in
        '(s, rc) ← transmit_write_request s handle (op_addr op) curr_ptr
                     (u32 (Z.min (end_ptr - curr_ptr) 4096));
        if negb (rc =? 0) then
          s ← answer_packet s packet (curr_ptr - dp_Arg2 p) ERROR_SEEK_ERROR;
          Some (unlink_pending s (op_addr op))
        else Some s
      else
        s ← answer_packet s packet (dp_Arg3 p) 0;
        Some (unlink_pending s (op_addr op))
  | _ => None
  end.

Definition action_seek : action := λ s packet,
  p ← packets s !! packet;
  handle ← HANDLE_FROM_LOCK s (dp_Arg1 p);
  h ← chandles s !! handle;
  let old_pos := s32 (offset_lo h) in
  let seek_amount := dp_Arg2 p in
  let target :=
    if dp_Arg3 p =? OFFSET_BEGINNING then u32 seek_amount
    else if dp_Arg3 p =? OFFSET_CURRENT then u32 (offset_lo h + seek_amount)
    else if dp_Arg3 p =? OFFSET_END then u32 (s32 (size_lo h) + seek_amount)
    else offset_lo h in
  let target := if size_lo h <? target then size_lo h else target in
  answer_packet (put_handle handle (set_offset target h) s) packet old_pos 0.

(** ** Packets that are answered at once *)
Definition action_is_filesystem : action := λ s packet, answer_packet s packet DOSTRUE 0.
Definition action_flush : action := λ s packet, answer_packet s packet DOSTRUE 0.
Definition action_set_protect : action := λ s packet,
  answer_packet s packet DOSFALSE ERROR_WRITE_PROTECTED.
Definition action_die : action := λ s _, Some s.
Definition action_current_volume : action := λ s packet,
  answer_packet s packet (MKBADDR (dl_address (device_list s))) 0.
Definition action_delete_object : action := λ s packet, answer_packet s packet DOSFALSE 0.
Definition action_inhibit : action := λ s packet, answer_packet s packet DOSFALSE 0.
Definition action_rename_disk : action := λ s packet, answer_packet s packet DOSFALSE 0.
Definition action_rename_object : action := λ s packet, answer_packet s packet DOSFALSE 0.
Definition action_create_dir : action := λ s packet, answer_packet s packet DOSFALSE 0.
Definition action_set_comment : action := λ s packet, answer_packet s packet DOSFALSE 0.
Definition action_set_file_date : action := λ s packet, answer_packet s packet DOSFALSE 0.

(** ** Dispatch *)
Definition HANDLER_RANGE_1_FIRST : Z := 0.
Definition HANDLER_RANGE_1_LAST : Z := 34.

Definition packet_handlers_range_1 : list (option action) :=
  [ None; None; None; None; None;
    Some action_die;             (*  5 *)
    None;
    Some action_current_volume;  (*  7 *)
    Some action_locate_object;   (*  8 *)
    Some action_rename_disk;     (*  9 *)
    None; None; None; None; None;
    Some action_free_lock;       (* 15 *)
    Some action_delete_object;   (* 16 *)
    Some action_rename_object;   (* 17 *)
    None;
    Some action_copy_dir;        (* 19 *)
    None;
    Some action_set_protect;     (* 21 *)
    Some action_create_dir;      (* 22 *)
    Some action_examine_object;  (* 23 *)
    Some action_examine_next;    (* 24 *)
    Some action_disk_info;       (* 25 *)
    Some action_info;            (* 26 *)
    Some action_flush;           (* 27 *)
    Some action_set_comment;     (* 28 *)
    Some action_parent;          (* 29 *)
    None;
    Some action_inhibit;         (* 31 *)
    None; None;
    Some action_set_file_date    (* 34 *) ].

Definition packet_handler (packet_type : Z) : option action :=
  if ACTION_READ =? packet_type then Some action_read
  else if ACTION_WRITE =? packet_type then Some action_write
  else if (HANDLER_RANGE_1_FIRST <=? packet_type) && (packet_type <=? HANDLER_RANGE_1_LAST)
  then default None (packet_handlers_range_1 !! Z.to_nat packet_type)
  else if packet_type =? ACTION_IS_FILESYSTEM then Some action_is_filesystem
  else if packet_type =? ACTION_FINDINPUT then Some action_findinput
  else if packet_type =? ACTION_FINDOUTPUT then Some action_findoutput
  else if packet_type =? ACTION_SEEK then Some action_seek
  else if packet_type =? ACTION_END then Some action_end
  else None.

Definition process_fs_packet : action := λ s packet,
  p ← packets s !! packet;
  match packet_handler (dp_Type p) with
  | None => answer_packet s packet DOSFALSE ERROR_ACTION_NOT_KNOWN
  | Some handler => handler s packet
  end.

(** The messages waiting at the device port, in order. *)
Fixpoint rl_amigafs_process_device_message (queue : list Z) s : option (fsys P) :=
  match queue with
  | [] => Some s
  | packet :: queue =>
      s ← process_fs_packet s packet; rl_amigafs_process_device_message queue s
  end.

Definition run_callback (cb : completion) s (op : rl_pending_operation) (msg : rl_msg)
  : option (fsys P) :=
  match cb with
  | complete_findinput_cb => complete_findinput s op msg
  | complete_examine_next_cb => complete_examine_next s op msg
  | complete_locate_object_cb => complete_locate_object s op msg
  | complete_read_cb => complete_read s op msg
  | complete_write_cb => complete_write s op msg
  end.

Definition rl_amigafs_process_network_message s (msg : rl_msg) : option (fsys P * Z) :=
  let msg_kind := rl_msg_kind_of msg in
  match find_pending_op s msg with
  | None => Some (s, 1)
  | Some op =>
      if msg_kind =? expected_answer_type op then
        s ← run_callback (callback op) s op msg; Some (s, 0)
      else if msg_kind =? RL_MSG_ERROR_ANSWER then
        match body msg with
        | error_answer error_code =>
            s ← answer_packet s (input_packet op) DOSFALSE (translate_error_code error_code);
            Some (unlink_pending s (op_addr op), 0)
        | _ => None
        end
      else
        s ← answer_packet s (input_packet op) DOSFALSE ERROR_DEVICE_NOT_MOUNTED;
        Some (unlink_pending s (op_addr op), 1)
  end.
End Actions.

(** ** A concrete heap and file system *)

(** Allocation behind everything that is taken. *)
Definition bump (X : gset Z) : Z := 4 * (1 + foldr Z.max 0 (elements X) / 4).

Lemma bump_above X a : a ∈ X → a < bump X.
Proof.
  intros Ha%elem_of_elements. assert (a ≤ foldr Z.max 0 (elements X)).
  { induction Ha; cbn; lia. }
  unfold bump. pose proof (Z.div_mod (foldr Z.max 0 (elements X)) 4).
  pose proof (Z.mod_pos_bound (foldr Z.max 0 (elements X)) 4). lia.
Qed.

#[refine] Definition bump_pool : Pool := {|
  pool_alloc X := if decide (0 < bump X < 2147483648) then Some (bump X) else None
|}.
Proof.
  intros X a. case_decide as H; [|done]. intros [= <-]. split; [|split; [done|]].
  - intros Ha%bump_above. lia.
  - unfold bump. rewrite Z.mul_comm. by apply Z.rem_mul.
Defined.

(** The volume RL, with one open file: its handle at 256, its lock at 128. *)
Definition demo_handle : rl_client_handle :=
  ClientHandle 7 RL_HANDLE_FILE 2 0 10 0 (take 108 (cstr "work/file" ++ path_zero)) 0 0 buffer_zero.

Definition demo_fs (contents : DosPacket) : fsys (list rl_msg) :=
  Fsys _ [] 1 2000 (Volume 4000 (2 :: cstr "RL") 0 2000 0 ID_DOS_DISK) [] 64
    {[ 256 := demo_handle ]} {[ 128 := Lock SHARED_LOCK 256 2000 1000 ]} {[ 500 := contents ]} ∅ ∅ ∅
    (list_to_map (zip (seqZ 1000 16) (chars "0123456789abcdef"))) [].
