(* ===== verification/AmigaMount.v ===== *)
(** * AmigaMount: the life of the file system

    Mounting and unmounting the volume, [rl_amigafs_init] and
    [rl_amigafs_destroy] of amigafs.c.  AmigaDOS and exec are the interface
    [Dos]: its operations, what they can be seen to change, and their
    documented effects. *)

From S2P Require Import Prelude Wire Messages CString Format Transport Peer AmigaFs AmigaActions.

(** ** The operating system *)

(** The message ports and DOS entries that exist, the volumes of the DOS list
    with their names and the ports of their handlers, and whether this program
    has locked the list. *)
Record dos_view := DosView {
  v_ports : gset Z;
  v_entries : gset Z;
  v_volumes : gmap Z (list Z * Z);
  v_locked : bool
}.

Definition add_port (p : Z) (v : dos_view) : dos_view :=
  DosView ({[p]} ∪ v_ports v) (v_entries v) (v_volumes v) (v_locked v).
Definition del_port (p : Z) (v : dos_view) : dos_view :=
  DosView (v_ports v ∖ {[p]}) (v_entries v) (v_volumes v) (v_locked v).
Definition add_entry (a : Z) (v : dos_view) : dos_view :=
  DosView (v_ports v) ({[a]} ∪ v_entries v) (v_volumes v) (v_locked v).
Definition del_entry (a : Z) (v : dos_view) : dos_view :=
  DosView (v_ports v) (v_entries v ∖ {[a]}) (v_volumes v) (v_locked v).
Definition list_volume (a : Z) (n : list Z * Z) (v : dos_view) : dos_view :=
  DosView (v_ports v) (v_entries v) (<[a := n]> (v_volumes v)) (v_locked v).
Definition unlist_volume (a : Z) (v : dos_view) : dos_view :=
  DosView (v_ports v) (v_entries v) (delete a (v_volumes v)) (v_locked v).
Definition set_locked (b : bool) (v : dos_view) : dos_view :=
  DosView (v_ports v) (v_entries v) (v_volumes v) b.

(** No volume of the list has the name. *)
Definition unused (name : list Z) (v : dos_view) : Prop :=
  ∀ a n, v_volumes v !! a = Some n → n.1 ≠ name.

(** Results are addresses, 0 for a null pointer.  No other program changes the
    list meanwhile. *)
Class Dos (D : Type) := {
  view : D → dos_view;
  CreateMsgPort : D → D * Z;
  DeleteMsgPort : D → Z → D;
  AttemptLockDosList : D → D * bool;
  UnLockDosList : D → D;
  Delay : D → D;
  FindDosEntry : D → list Z → Z;
  MakeDosEntry : D → list Z → D * Z;
  AddDosEntry : D → Z → list Z → Z → D;
  RemDosEntry : D → Z → D;
  FreeDosEntry : D → Z → D;
  create_port_view d d' p : CreateMsgPort d = (d', p) →
    p = 0 ∧ view d' = view d ∨
    p ≠ 0 ∧ p ∉ v_ports (view d) ∧ view d' = add_port p (view d);
  delete_port_view d p : view (DeleteMsgPort d p) = del_port p (view d);
  attempt_lock_view d d' b : AttemptLockDosList d = (d', b) →
    view d' = if b then set_locked true (view d) else view d;
  unlock_view d : view (UnLockDosList d) = set_locked false (view d);
  delay_view d : view (Delay d) = view d;
  find_unused d name : FindDosEntry d name = 0 → unused name (view d);
  make_entry_view d d' a name : MakeDosEntry d name = (d', a) →
    a = 0 ∧ view d' = view d ∨
    a ≠ 0 ∧ a ∉ v_entries (view d) ∧ v_volumes (view d) !! a = None ∧
      view d' = add_entry a (view d);
  add_entry_view d a name port : v_locked (view d) = true → unused name (view d) →
    view (AddDosEntry d a name port) = list_volume a (name, port) (view d);
  rem_entry_view d a : view (RemDosEntry d a) = unlist_volume a (view d);
  free_entry_view d a : view (FreeDosEntry d a) = del_entry a (view d)
}.

(** ** Mounting *)
Section Mount.
Context {D : Type} `{DOS : Dos D}.

(** The loop that waits for the DOS list. *)
Fixpoint lock_dos_list (fuel : nat) (d : D) : option D :=
  match fuel with
  | O => None
  | S fuel =>
      let '(d, dlist) := AttemptLockDosList d in
      if dlist then Some d else lock_dos_list fuel (Delay d)
  end.

(** The name of a DOS entry is a BSTR. *)
Definition bstr (name : list Z) : list Z := Z.of_nat (length name) :: name ++ [0].
Definition null_volume : DeviceList := Volume 0 [] 0 0 0 0.

Definition mount_volume (fuel : nat) (d : D) (name : list Z) (port : Z)
  : option (D * DeviceList) :=
  if port =? 0 then Some (d, null_volume) else
  d ← lock_dos_list fuel d;
  let volume := FindDosEntry d name in
  let d := UnLockDosList d in
  if negb (volume =? 0) then Some (d, null_volume) else
  let '(d, volume) := MakeDosEntry d name in
  if volume =? 0 then Some (d, null_volume) else
  let entry := Volume volume (bstr name) 0 port 0 ID_DOS_DISK in
  d ← lock_dos_list fuel d;
  let d := AddDosEntry d volume name port in
  Some (UnLockDosList d, entry).

Definition unmount_volume (d : D) (volume : DeviceList) : D * Z :=
  if (dl_address volume =? 0) || negb (dl_Lock volume =? 0) then (d, 1)
  else (FreeDosEntry (RemDosEntry d (dl_address volume)) (dl_address volume), 0).

Context {P : Type} (no_peer : P).
Implicit Types (s : fsys P).

(** The peer pointer is the only field that changes. *)
Definition rl_amigafs_destroy s (d : D) : fsys P * D :=
  let d := if negb (dl_address (device_list s) =? 0)
           then (unmount_volume d (device_list s)).1 else d in
  let d := if negb (device_port s =? 0) then DeleteMsgPort d (device_port s) else d in
  (set_peer no_peer s, d).

(** The structure filled with zeros. *)
Definition handle_zero : rl_client_handle :=
  ClientHandle 0 RL_HANDLE_FILE 0 0 0 0 path_zero 0 0 buffer_zero.
Definition zeroed s : fsys P :=
  put_handle (root_addr s) handle_zero
    (set_peer no_peer (set_seqno 0 (set_device_port 0 (set_device_list null_volume
       (set_pending [] s))))).

Definition rl_amigafs_init (fuel : nat) s (d : D) (peer : P) (device_name : list Z)
  : option (fsys P * D * Z) :=
  let s := set_peer peer (zeroed s) in
  '(p, _) ← rl_string_copy RL_FSCLIENT_MAX_PATH path_zero (device_name ++ [0]);
  let root := ClientHandle (u32 (-1)) RL_HANDLE_DEVICE 0 0 0 0 p 0 0 buffer_zero in
  let s := put_handle (root_addr s) root s in
  let '(d, port) := CreateMsgPort d in
  let s := set_device_port port s in
  if port =? 0 then let '(s, d) := rl_amigafs_destroy s d in Some (s, d, 1) else
  '(d, volume) ← mount_volume fuel d device_name port;
  let s := set_device_list volume s in
  if dl_address volume =? 0 then let '(s, d) := rl_amigafs_destroy s d in Some (s, d, 1)
  else Some (s, d, 0).
End Mount.

(** ** What mounting leaves behind *)
Section Facts.
Context {D : Type} `{DOS : Dos D} {P : Type} (no_peer : P) (fuel : nat).
Implicit Types (s : fsys P) (d : D).

(** The list is given within [fuel] attempts. *)
Hypothesis list_given : ∀ d, lock_dos_list fuel d ≠ None.

Lemma lock_dos_list_view n d d' :
  lock_dos_list n d = Some d' → view d' = set_locked true (view d).
Proof.
  revert d. induction n as [|n IH]; intros d; cbn [lock_dos_list]; [done|].
  destruct (AttemptLockDosList d) as [d1 b] eqn:E. pose proof (attempt_lock_view _ _ _ E) as Hv.
  destruct b; [by intros [= <-]|]. intros H%IH. by rewrite H, delay_view, Hv.
Qed.

Lemma lock_given d : ∃ d', lock_dos_list fuel d = Some d' ∧ view d' = set_locked true (view d).
Proof.
  pose proof (list_given d). destruct (lock_dos_list fuel d) as [d'|] eqn:E; [|done].
  exists d'. split; [done|]. by eapply lock_dos_list_view.
Qed.

Lemma set_locked_same v : v_locked v = false → set_locked false (set_locked true v) = v.
Proof. intros H. destruct v. cbn in *. by subst. Qed.

(** A mounted volume [a]. *)
Definition mounted (d d' : D) (a : Z) (name : list Z) (port : Z) : Prop :=
  a ≠ 0 ∧ a ∉ v_entries (view d) ∧ v_volumes (view d) !! a = None ∧ unused name (view d) ∧
  view d' = list_volume a (name, port) (add_entry a (view d)).

Lemma mount_volume_spec d name port :
  v_locked (view d) = false → port ≠ 0 →
  ∃ d' a, mount_volume fuel d name port =
      Some (d', if a =? 0 then null_volume else Volume a (bstr name) 0 port 0 ID_DOS_DISK) ∧
    (a = 0 ∧ view d' = view d ∨ mounted d d' a name port).
Proof.
  intros Hl Hport. unfold mount_volume. rewrite (proj2 (Z.eqb_neq port 0)) by done.
  destruct (lock_given d) as (d1 & -> & Hv1). cbn [mbind option_bind].
  assert (Hv2 : view (UnLockDosList d1) = view d)
    by by rewrite unlock_view, Hv1, set_locked_same.
  destruct (Z.eqb_spec (FindDosEntry d1 name) 0) as [Hf|Hf]; cbn [negb].
  2:{ exists (UnLockDosList d1), 0. split; [done|]. by left. }
  apply find_unused in Hf. rewrite Hv1 in Hf.
  destruct (MakeDosEntry (UnLockDosList d1) name) as [d3 a] eqn:Em.
  destruct (make_entry_view _ _ _ _ Em) as [[-> Hv3]|(Ha & Hnew & Hnone & Hv3)].
  { exists d3, 0. split; [done|]. left. by rewrite Hv3, Hv2. }
  rewrite (proj2 (Z.eqb_neq a 0)) by done. rewrite Hv2 in *.
  destruct (lock_given d3) as (d4 & -> & Hv4). cbn [mbind option_bind].
  exists (UnLockDosList (AddDosEntry d4 a name port)), a.
  rewrite (proj2 (Z.eqb_neq a 0)) by done. split; [done|]. right. split_and!; try done.
  rewrite unlock_view, add_entry_view by (rewrite Hv4, Hv3; done).
  rewrite Hv4, Hv3. destruct (view d). cbn in *. by subst.
Qed.

(** The file system right after its initialisation. *)
Definition initialised s s' (p : P) (port a : Z) (name : list Z) : Prop :=
  fs_peer s' = p ∧ seqno s' = 0 ∧ pending s' = [] ∧ device_port s' = port ∧
  device_list s' = Volume a (bstr name) 0 port 0 ID_DOS_DISK ∧ root_addr s' = root_addr s ∧
  ∃ h, chandles s' = <[root_addr s := h]> (chandles s) ∧ h_type h = RL_HANDLE_DEVICE ∧
    handle_id h = u32 (-1) ∧ cstr_at (path h) = Some (take 107 name).

Lemma init_outcome s d p name :
  v_locked (view d) = false → no_nul name →
  ∃ s' d' rc, rl_amigafs_init no_peer fuel s d p name = Some (s', d', rc) ∧
    (rc = 1 ∧ view d' = view d ∧ fs_peer s' = no_peer ∨
     rc = 0 ∧ unused name (view d) ∧
     ∃ port a, port ∉ v_ports (view d) ∧ port ≠ 0 ∧
       a ∉ v_entries (view d) ∧ v_volumes (view d) !! a = None ∧
       view d' = list_volume a (name, port) (add_entry a (add_port port (view d))) ∧
       initialised s s' p port a name).
Proof.
  intros Hl Hn. unfold rl_amigafs_init.
  rewrite (rl_string_copy_ok _ _ _ name) by first [by apply cstr_at_app|vm_compute; lia].
  cbn [mbind option_bind]. set (h := ClientHandle _ _ _ _ _ _ _ _ _ _).
  assert (Hpath : cstr_at (path h) = Some (take 107 name)).
  { cbn [path h]. rewrite <- app_assoc. apply cstr_at_app. by apply Forall_take. }
  destruct (CreateMsgPort d) as [d1 port] eqn:Ec.
  destruct (create_port_view _ _ _ Ec) as [[-> Hv1]|(Hport & Hnew & Hv1)].
  { eexists _, _, _. split; [done|]. left. by rewrite <- Hv1. }
  rewrite (proj2 (Z.eqb_neq port 0)) by done.
  destruct (mount_volume_spec d1 name port) as (d2 & a & -> & Hm); [by rewrite Hv1|done|].
  cbn [mbind option_bind].
  destruct Hm as [[-> Hv2]|(Ha & Hent & Hvol & Hun & Hv2)].
  - change (if 0 =? 0 then null_volume else _) with null_volume.
    cbn [dl_address null_volume Z.eqb]. unfold rl_amigafs_destroy.
    cbn [device_list set_device_list device_port set_device_port dl_address null_volume Z.eqb negb].
    rewrite (proj2 (Z.eqb_neq port 0)) by done. cbn [negb].
    eexists _, _, _. split; [done|]. left. split; [done|]. split; [|done].
    rewrite delete_port_view, Hv2, Hv1. destruct (view d) as [ps es vs l]. unfold del_port. cbn in *.
    f_equal. set_solver.
  - rewrite !(proj2 (Z.eqb_neq a 0)) by done. cbn [dl_address].
    rewrite (proj2 (Z.eqb_neq a 0)) by done. eexists _, _, _. split; [done|]. right.
    rewrite Hv1 in *. split; [done|]. split; [done|]. exists port, a.
    split_and!; try done. unfold initialised. split_and!; try done.
    exists h. split_and!; try done. cbn. by rewrite insert_insert_eq.
Qed.

(** C18: initialising the file system of a peer either fails and leaves the
    ports, the DOS entries and the list of volumes as they were, or mounts
    exactly one new volume with the device's name, which no other volume had,
    handled by a new port of its own; the DOS list is never left locked. *)
Theorem rl_amigafs_init_spec s d p name :
  v_locked (view d) = false → no_nul name →
  ∃ s' d' rc, rl_amigafs_init no_peer fuel s d p name = Some (s', d', rc) ∧
    v_locked (view d') = false ∧
    (rc = 1 ∧ view d' = view d ∧ fs_peer s' = no_peer ∨
     rc = 0 ∧ unused name (view d) ∧
     ∃ port a, port ∉ v_ports (view d) ∧ port ≠ 0 ∧
       a ∉ v_entries (view d) ∧ v_volumes (view d) !! a = None ∧
       view d' = list_volume a (name, port) (add_entry a (add_port port (view d))) ∧
       initialised s s' p port a name).
Proof.
  intros Hl Hn. destruct (init_outcome s d p name Hl Hn) as (s' & d' & rc & Hrun & Hd).
  exists s', d', rc. split; [done|]. split; [|done].
  destruct Hd as [(_ & -> & _)|(_ & _ & port & a & _ & _ & _ & _ & -> & _)]; [done|].
  by destruct (view d).
Qed.

End Facts.

Section Destroy.
Context {D : Type} `{DOS : Dos D} {P : Type} (no_peer : P).
Implicit Types (s : fsys P) (d : D).

(** C38: destroying the file system gives its port back in any case, but takes
    its volume from the list only when the volume is not locked; a locked
    volume stays listed, and its messages go to a port that is gone. *)
Theorem rl_amigafs_destroy_spec s d :
  device_port s ≠ 0 → dl_address (device_list s) ≠ 0 →
  let a := dl_address (device_list s) in
  let '(s', d') := rl_amigafs_destroy no_peer s d in
  s' = set_peer no_peer s ∧ device_port s ∉ v_ports (view d') ∧
  if dl_Lock (device_list s) =? 0
  then view d' = del_port (device_port s) (del_entry a (unlist_volume a (view d)))
  else v_volumes (view d') = v_volumes (view d) ∧ v_entries (view d') = v_entries (view d).
Proof.
  intros Hp Ha a. unfold rl_amigafs_destroy, unmount_volume. fold a.
  rewrite (proj2 (Z.eqb_neq a 0)), (proj2 (Z.eqb_neq (device_port s) 0)) by done.
  cbn [negb orb]. split; [done|].
  destruct (dl_Lock (device_list s) =? 0); cbn [negb fst];
    rewrite !delete_port_view, ?free_entry_view, ?rem_entry_view; split; cbn; try done; set_solver.
Qed.
End Destroy.

(** ** Concrete runs *)

(** A system whose addresses are new longwords and whose list is always free. *)
Definition volume_names (name : list Z) (v : dos_view) : bool :=
  bool_decide (map_Forall (λ _ n, n.1 ≠ name) (v_volumes v)).

Lemma bump_positive X : bump X ≠ 0.
Proof.
  unfold bump. assert (0 ≤ foldr Z.max 0 (elements X)) by (induction (elements X); cbn; lia).
  pose proof (Z.div_pos (foldr Z.max 0 (elements X)) 4). lia.
Qed.

Lemma bump_fresh X : bump X ∉ X.
Proof. intros H%bump_above. lia. Qed.

#[refine] Definition simple_dos : Dos dos_view := {|
  view v := v;
  CreateMsgPort v := let p := bump (v_ports v) in (add_port p v, p);
  DeleteMsgPort v p := del_port p v;
  AttemptLockDosList v := (set_locked true v, true);
  UnLockDosList v := set_locked false v;
  Delay v := v;
  FindDosEntry v name := if volume_names name v then 0 else 1;
  MakeDosEntry v name := let a := bump (v_entries v ∪ dom (v_volumes v)) in (add_entry a v, a);
  AddDosEntry v a name port := list_volume a (name, port) v;
  RemDosEntry v a := unlist_volume a v;
  FreeDosEntry v a := del_entry a v
|}.
Proof.
  - intros v v' p [= <- <-]. right. auto using bump_positive, bump_fresh.
  - done.
  - by intros v v' b [= <- <-].
  - done.
  - done.
  - intros v name. unfold volume_names. case_bool_decide as Hf; [|done]. intros _ a n Hn.
    by apply (Hf a n Hn).
  - intros v v' a name [= <- <-]. right. pose proof (bump_fresh (v_entries v ∪ dom (v_volumes v))).
    split_and!; try apply bump_positive; try set_solver. apply not_elem_of_dom. set_solver.
  - done.
  - done.
  - done.
Defined.

Definition demo_dos : dos_view := DosView {[ 100 ]} {[ 200 ]} {[ 200 := (chars "SYS", 100) ]} false.

Lemma demo_list_given d : lock_dos_list (DOS := simple_dos) 1 d ≠ None.
Proof. done. Qed.

Lemma rl_amigafs_init_spec_witness :
  let s := demo_fs (Packet 0 0 0 0 0 0 0 0) in let p := [RL_MSG_INIT ping_request 0] in
  ∃ s' d' rc, rl_amigafs_init (DOS := simple_dos) [] 1 s demo_dos p (chars "TBL0") =
      Some (s', d', rc) ∧ v_locked d' = false ∧
    (rc = 1 ∧ d' = demo_dos ∧ fs_peer s' = [] ∨
     rc = 0 ∧ unused (chars "TBL0") demo_dos ∧
     ∃ port a, port ∉ v_ports demo_dos ∧ port ≠ 0 ∧ a ∉ v_entries demo_dos ∧
       v_volumes demo_dos !! a = None ∧
       d' = list_volume a (chars "TBL0", port) (add_entry a (add_port port demo_dos)) ∧
       initialised s s' p port a (chars "TBL0")).
Proof.
  refine (rl_amigafs_init_spec (DOS := simple_dos) [] 1 demo_list_given _ demo_dos _ (chars "TBL0")
    _ _); [done|by repeat constructor].
Defined.

(** A program has a lock on the volume. *)
Definition demo_locked_fs : fsys (list rl_msg) :=
  set_device_list (Volume 200 (bstr (chars "SYS")) 0 100 77 ID_DOS_DISK)
    (set_device_port 100 (demo_fs (Packet 0 0 0 0 0 0 0 0))).

Lemma rl_amigafs_destroy_spec_witness :
  let '(s', d') := rl_amigafs_destroy (DOS := simple_dos) [] demo_locked_fs demo_dos in
  s' = set_peer [] demo_locked_fs ∧ 100 ∉ v_ports d' ∧
  v_volumes d' = v_volumes demo_dos ∧ v_entries d' = v_entries demo_dos.
Proof.
  exact (rl_amigafs_destroy_spec (DOS := simple_dos) [] demo_locked_fs demo_dos
    ltac:(discriminate) ltac:(discriminate)).
Defined.
