(* ===== verification/AmigaSafety.v ===== *)
(** * AmigaSafety: no packet is lost or answered twice

    Every packet of an AmigaDOS client is either answered or pending; an
    operation leaves the list of pending operations exactly when its packet is
    answered. *)

From S2P Require Import Prelude Wire Messages CString Format Transport Peer AmigaFs AmigaActions.

(** [run H] takes the run of a handler in [H] apart. *)
Ltac run H :=
  repeat (match type of H with
    | mbind _ _ = Some _ =>
        let x := fresh "x" in let E := fresh "E" in apply bind_Some in H as (x & E & H)
    | (match ?x with _ => _ end) = Some _ => destruct x eqn:?; try discriminate H
    | Some _ = Some _ => injection H as H
    end; cbv beta iota zeta in H).

(** The conditionals inside a handler. *)
Ltac cases :=
  repeat match goal with
    | E : (if ?c then _ else _) = Some _ |- _ => destruct c
    | E : Some _ = Some _ |- _ => injection E as E
    end.

Section Safety.
Context `{HHost : Host} `{HPool : Pool} {P : Type} `{Link : PeerLink P}.
Implicit Types (s : fsys P) (op : rl_pending_operation).

Definition pending_packets s : list Z := input_packet <$> pending s.
Definition replied s : list Z := (λ r, r.1.1) <$> replies s.

(** The fields that matter here are unchanged. *)
Definition same_ledger s s' : Prop := pending s' = pending s ∧ replies s' = replies s.

#[export] Instance same_ledger_equivalence : Equivalence same_ledger.
Proof.
  split; unfold same_ledger.
  - by intros s.
  - by intros s1 s2 [-> ->].
  - intros s1 s2 s3 [-> ->] [-> ->]. done.
Qed.

Lemma answer_packet_ledger s pk r1 r2 s' :
  answer_packet s pk r1 r2 = Some s' →
  pending s' = pending s ∧ replies s' = replies s ++ [(pk, r1, r2)].
Proof.
  unfold answer_packet, set_result, reply_to_packet. intros H.
  apply bind_Some in H as (s1 & H1 & H). apply bind_Some in H1 as (p & Hp & [= <-]).
  apply bind_Some in H as (p1 & Hp1 & [= <-]). cbn in *.
  rewrite lookup_insert_eq in Hp1. injection Hp1 as <-. done.
Qed.

Lemma reply_ledger s pk s' :
  reply_to_packet s pk = Some s' →
  pending s' = pending s ∧ ∃ r1 r2, replies s' = replies s ++ [(pk, r1, r2)].
Proof.
  unfold reply_to_packet. intros (p & _ & [= <-])%bind_Some. split; [done|]. by eexists _, _.
Qed.

Lemma set_result_ledger s pk r1 r2 s' : set_result s pk r1 r2 = Some s' → same_ledger s s'.
Proof. unfold set_result. by intros (p & _ & [= <-])%bind_Some. Qed.

Lemma open_file_handle_ledger s fh lock s' :
  open_file_handle s fh lock = Some s' → same_ledger s s'.
Proof. unfold open_file_handle. by intros (p & _ & [= <-])%bind_Some. Qed.

Lemma fs_transmit_ledger s m s' rc :
  fs_transmit s m = Some (s', rc) → same_ledger s s' ∧ rc = 0.
Proof.
  unfold fs_transmit. intros ([p r] & Ht & [= <- <-])%bind_Some.
  split; [done|]. by eapply transmit_zero.
Qed.

Lemma allocate_lock_ledger s t id a n z r s' :
  allocate_lock s t id a n z = Some (r, s') → same_ledger s s'.
Proof.
  unfold allocate_lock. destruct (pool_alloc (used s)); [|by intros [= _ <-]].
  cbv zeta. destruct (pool_alloc _); [|by intros [= _ <-]].
  by intros ([m rc] & _ & [= _ <-])%bind_Some.
Qed.

Lemma alloc_root_lock_ledger s mode r s' :
  rl_amigafs_alloc_root_lock s mode = (r, s') → same_ledger s s'.
Proof.
  unfold rl_amigafs_alloc_root_lock. by destruct (pool_alloc (used s)); intros [= _ <-].
Qed.

Lemma free_lock_ledger s lock s' :
  rl_amigafs_free_lock s lock = Some s' → same_ledger s s'.
Proof.
  unfold rl_amigafs_free_lock.
  intros (hd & _ & (h & _ & (s1 & H1 & [= <-])%bind_Some)%bind_Some)%bind_Some.
  case_decide; [|by injection H1 as <-].
  apply bind_Some in H1 as ([s2 rc] & Ht & [= <-]).
  by apply fs_transmit_ledger in Ht as [[] _].
Qed.

Lemma put_fib_ledger s a f s' : put_fib a f s = Some s' → same_ledger s s'.
Proof. unfold put_fib. by intros (p & _ & [= <-])%bind_Some. Qed.

Lemma fill_in_infodata_ledger s a s' : fill_in_infodata s a = Some s' → same_ledger s s'.
Proof. unfold fill_in_infodata. by intros (p & _ & [= <-])%bind_Some. Qed.

Lemma copy_to_client_ledger s d b n s' : copy_to_client s d b n = Some s' → same_ledger s s'.
Proof.
  unfold copy_to_client. destruct (_ <? _); [done|].
  by intros (p & _ & [= <-])%bind_Some.
Qed.

Lemma read_request_ledger s h op n s' rc :
  transmit_read_request s h op n = Some (s', rc) → same_ledger s s' ∧ rc = 0.
Proof.
  unfold transmit_read_request. intros (hh & _ & H)%bind_Some.
  by apply fs_transmit_ledger in H.
Qed.

(** ** Operations in the list *)
Lemma update_op_packets f l a :
  (∀ op, input_packet (f op) = input_packet op) →
  input_packet <$> update_op l a f = input_packet <$> l.
Proof.
  intros Hf. induction l as [|op l IH]; [done|]. cbn. destruct (_ =? _); cbn; [by rewrite Hf|].
  by rewrite IH.
Qed.

Lemma update_op_addrs f l a :
  (∀ op, op_addr (f op) = op_addr op) → op_addr <$> update_op l a f = op_addr <$> l.
Proof.
  intros Hf. induction l as [|op l IH]; [done|]. cbn. destruct (_ =? _); cbn; [by rewrite Hf|].
  by rewrite IH.
Qed.

Lemma write_request_ledger s h a d n s' rc :
  transmit_write_request s h a d n = Some (s', rc) →
  replies s' = replies s ∧ pending_packets s' = pending_packets s ∧
  op_addr <$> pending s' = op_addr <$> pending s ∧ rc = 0.
Proof.
  unfold transmit_write_request. intros (hh & _ & (o & _ & H)%bind_Some)%bind_Some.
  apply fs_transmit_ledger in H as [[Hp Hr] ->]. cbn in Hp, Hr. unfold pending_packets.
  rewrite Hp, Hr, update_op_packets, update_op_addrs by done. done.
Qed.

Lemma alloc_pending_ledger s pk k cb a s' :
  alloc_pending s pk k cb = (Some a, s') →
  replies s' = replies s ∧ pending s' = PendingOp a (seqno s) pk k cb D_zero :: pending s ∧
  a ∉ used s.
Proof.
  unfold alloc_pending. destruct (pool_alloc (used s)) eqn:E; [|done].
  intros [= -> <-]. by apply pool_fresh in E as [].
Qed.

Lemma alloc_pending_none s pk k cb s' :
  alloc_pending s pk k cb = (None, s') → s' = s.
Proof. unfold alloc_pending. destruct (pool_alloc (used s)); [done|]. by intros [= <-]. Qed.

(** ** Packets *)
Definition op_addrs s : list Z := op_addr <$> pending s.

(** What becomes of a packet: it is answered, or it waits at the head of the
    list. *)
Inductive outcome s (pk : Z) s' : Prop :=
  | oc_answered r1 r2 :
      replies s' = replies s ++ [(pk, r1, r2)] → pending s' = pending s → outcome s pk s'
  | oc_pending a :
      replies s' = replies s → pending_packets s' = pk :: pending_packets s →
      op_addrs s' = a :: op_addrs s → a ∉ op_addrs s → outcome s pk s'.

Lemma outcome_answer s s1 pk r1 r2 s' :
  same_ledger s s1 → answer_packet s1 pk r1 r2 = Some s' → outcome s pk s'.
Proof.
  intros [Hp Hr] [Hp' Hr']%answer_packet_ledger.
  apply (oc_answered _ _ _ r1 r2); congruence.
Qed.

Lemma outcome_reply s s1 pk s' :
  same_ledger s s1 → reply_to_packet s1 pk = Some s' → outcome s pk s'.
Proof.
  intros [Hp Hr] (Hp' & r1 & r2 & Hr')%reply_ledger.
  apply (oc_answered _ _ _ r1 r2); congruence.
Qed.

Lemma outcome_fail s s1 pk e s' :
  same_ledger s s1 → fail_packet s1 pk None e = Some s' → outcome s pk s'.
Proof. apply outcome_answer. Qed.

Lemma outcome_alloc s pk k cb a s1 s2 :
  alloc_pending s pk k cb = (Some a, s1) → replies s2 = replies s1 →
  pending_packets s2 = pending_packets s1 → op_addrs s2 = op_addrs s1 → outcome s pk s2.
Proof.
  intros (Hr & Hp & Ha)%alloc_pending_ledger Hr2 Hp2 Ha2.
  econstructor 2 with (a := a).
  - congruence.
  - rewrite Hp2. unfold pending_packets. by rewrite Hp.
  - rewrite Ha2. unfold op_addrs. by rewrite Hp.
  - unfold used in Ha. unfold op_addrs. set_solver.
Qed.

Lemma outcome_ledger s pk s1 s2 : same_ledger s1 s2 → outcome s pk s1 → outcome s pk s2.
Proof.
  intros [Hp Hr] [r1 r2 ? ?|a ? ? ? ?].
  - apply (oc_answered _ _ _ r1 r2); congruence.
  - apply (oc_pending _ _ _ a); unfold pending_packets, op_addrs in *; congruence.
Qed.

Lemma outcome_from s pk s1 s2 : same_ledger s s1 → outcome s1 pk s2 → outcome s pk s2.
Proof.
  intros [Hp Hr] [r1 r2 ? ?|a ? ? ? ?].
  - apply (oc_answered _ _ _ r1 r2); congruence.
  - apply (oc_pending _ _ _ a); unfold pending_packets, op_addrs in *; congruence.
Qed.

Lemma outcome_transmit s pk k cb a s1 m s2 rc :
  alloc_pending s pk k cb = (Some a, s1) → fs_transmit s1 m = Some (s2, rc) →
  outcome s pk s2 ∧ rc = 0.
Proof.
  intros Ha [[Hp Hr] ->]%fs_transmit_ledger. split; [|done].
  eapply outcome_alloc; [done|done|..]; unfold pending_packets, op_addrs; by rewrite Hp.
Qed.

(** A chain of steps that keep the ledger, from the first state to the last. *)
Ltac ledger :=
  first
    [ eassumption
    | reflexivity
    | eapply set_result_ledger; eassumption
    | eapply open_file_handle_ledger; eassumption
    | eapply allocate_lock_ledger; eassumption
    | eapply alloc_root_lock_ledger; eassumption
    | eapply free_lock_ledger; eassumption
    | eapply put_fib_ledger; eassumption
    | eapply fill_in_infodata_ledger; eassumption ].
Ltac back_to s :=
  match goal with
  | |- same_ledger s _ => split; reflexivity
  | |- same_ledger s ?s2 =>
      match goal with
      | H : set_result ?s1 _ _ _ = Some s2 |- _ => transitivity s1; [|ledger]
      | H : open_file_handle ?s1 _ _ = Some s2 |- _ => transitivity s1; [|ledger]
      | H : allocate_lock ?s1 _ _ _ _ _ = Some (_, s2) |- _ => transitivity s1; [|ledger]
      | H : rl_amigafs_alloc_root_lock ?s1 _ = (_, s2) |- _ => transitivity s1; [|ledger]
      | H : rl_amigafs_free_lock ?s1 _ = Some s2 |- _ => transitivity s1; [|ledger]
      | H : put_fib _ _ ?s1 = Some s2 |- _ => transitivity s1; [|ledger]
      | H : fill_in_infodata ?s1 _ = Some s2 |- _ => transitivity s1; [|ledger]
      end; back_to s
  end.

Ltac settle :=
  subst;
  match goal with
  | A : alloc_pending _ _ _ _ = (None, _) |- _ => apply alloc_pending_none in A as ->; settle
  | H : fail_packet _ _ None _ = Some _ |- outcome ?s _ _ =>
      eapply outcome_fail; [|exact H]; back_to s
  | H : answer_packet _ _ _ _ = Some _ |- outcome ?s _ _ =>
      eapply outcome_answer; [|exact H]; back_to s
  | H : reply_to_packet _ _ = Some _ |- outcome ?s _ _ =>
      eapply outcome_reply; [|exact H]; back_to s
  | A : alloc_pending _ _ _ _ = (Some _, ?s1), T : fs_transmit ?s1 _ = Some (_, _) |- _ =>
      destruct (outcome_transmit _ _ _ _ _ _ _ _ _ A T); subst; done
  end.

Lemma action_findinput_outcome s pk s' : action_findinput s pk = Some s' → outcome s pk s'.
Proof. unfold action_findinput. intros H. run H; cases; settle. Qed.

Lemma action_findoutput_outcome s pk s' : action_findoutput s pk = Some s' → outcome s pk s'.
Proof. unfold action_findoutput. intros H. run H; cases; settle. Qed.

Lemma action_locate_outcome s pk s' : action_locate_object s pk = Some s' → outcome s pk s'.
Proof. unfold action_locate_object. intros H. run H; cases; settle. Qed.

Lemma action_free_lock_outcome s pk s' : action_free_lock s pk = Some s' → outcome s pk s'.
Proof. unfold action_free_lock. intros H. run H; cases; settle. Qed.

Lemma action_end_outcome s pk s' : action_end s pk = Some s' → outcome s pk s'.
Proof. unfold action_end. intros H. run H; cases; settle. Qed.

Lemma action_copy_dir_outcome s pk s' : action_copy_dir s pk = Some s' → outcome s pk s'.
Proof.
  unfold action_copy_dir. intros H. run H; cases; settle.
Qed.

Lemma action_parent_outcome s pk s' : action_parent s pk = Some s' → outcome s pk s'.
Proof. unfold action_parent. intros H. run H; cases; settle. Qed.

Lemma action_examine_object_outcome s pk s' :
  action_examine_object s pk = Some s' → outcome s pk s'.
Proof. unfold action_examine_object. intros H. run H; cases; settle. Qed.

Lemma action_disk_info_outcome s pk s' : action_disk_info s pk = Some s' → outcome s pk s'.
Proof. unfold action_disk_info. intros H. run H; cases; settle. Qed.

Lemma action_info_outcome s pk s' : action_info s pk = Some s' → outcome s pk s'.
Proof. unfold action_info. intros H. run H; cases; settle. Qed.

Lemma action_seek_outcome s pk s' : action_seek s pk = Some s' → outcome s pk s'.
Proof. unfold action_seek. intros H. run H; cases; settle. Qed.

Lemma action_examine_next_outcome s pk s' :
  action_examine_next s pk = Some s' → outcome s pk s'.
Proof.
  unfold action_examine_next. intros H. run H; cases; try settle. subst.
  match goal with |- outcome _ _ (put_handle _ _ ?s1) => apply (outcome_ledger _ _ s1) end;
    [done|settle].
Qed.

Lemma read_request_outcome s pk cb k a s1 f s2 h o n s3 rc :
  alloc_pending s pk k cb = (Some a, s1) →
  (∀ op, input_packet (f op) = input_packet op) → (∀ op, op_addr (f op) = op_addr op) →
  s2 = set_pending (update_op (pending s1) a f) s1 →
  transmit_read_request s2 h o n = Some (s3, rc) → outcome s pk s3 ∧ rc = 0.
Proof.
  intros Ha Hf1 Hf2 -> [[Hp Hr] ->]%read_request_ledger. split; [|done].
  eapply outcome_alloc; [exact Ha|done|..]; unfold pending_packets, op_addrs; rewrite Hp; cbn;
    [by apply update_op_packets|by apply update_op_addrs].
Qed.

(** The part of a read that the buffer serves keeps the ledger. *)
Lemma buffered_ledger s hd h dest buf want s1 left served :
  match buffer_overlap h want with
  | Some (offset, count) =>
      copy_to_client (put_handle hd (set_offset (u32 (offset_lo h + count)) h) s) dest
        (drop (Z.to_nat offset) buf) count
      ≫= λ s, Some (s, u32 (want - count), if u32 (want - count) =? 0 then Some count else None)
  | None => Some (s, want, None)
  end = Some (s1, left, served) → same_ledger s s1.
Proof.
  destruct (buffer_overlap h want) as [[offset count]|]; [|by intros [= <- _ _]].
  intros (s2 & H & [= <- _ _])%bind_Some. by apply copy_to_client_ledger in H.
Qed.

Lemma action_read_outcome s pk s' : action_read s pk = Some s' → outcome s pk s'.
Proof.
  unfold action_read. intros H. run H; subst;
    match goal with E : match buffer_overlap _ _ with _ => _ end = _ |- _ =>
      apply buffered_ledger in E; eapply outcome_from; [exact E|] end;
    try settle.
  all: match goal with
    A : alloc_pending ?s1 _ _ _ = (Some ?a, _), T : transmit_read_request _ _ _ _ = _ |- _ =>
      destruct (read_request_outcome _ _ _ _ _ _ (set_op_detail _) _ _ _ _ _ _ A
                  (λ _, eq_refl) (λ _, eq_refl) eq_refl T) as [? ->] end; done.
Qed.

Lemma action_write_outcome s pk s' : action_write s pk = Some s' → outcome s pk s'.
Proof.
  unfold action_write. intros H. run H; subst; try settle.
  all: match goal with
    A : alloc_pending _ _ _ _ = _, T : transmit_write_request _ _ _ _ _ = _ |- _ =>
      apply write_request_ledger in T as (Hr & Hp & Ho & ->) end; try done.
  by eapply outcome_alloc.
Qed.

(** ** Every packet has an outcome *)
Lemma outcome_at_once s pk r1 r2 s' : answer_packet s pk r1 r2 = Some s' → outcome s pk s'.
Proof. by apply outcome_answer. Qed.

Create HintDb handlers.
#[local] Hint Resolve action_findinput_outcome action_findoutput_outcome
  action_locate_outcome action_free_lock_outcome action_end_outcome action_copy_dir_outcome
  action_parent_outcome action_examine_object_outcome action_examine_next_outcome
  action_disk_info_outcome action_info_outcome action_seek_outcome action_read_outcome
  action_write_outcome outcome_at_once : handlers.

Definition serves (handler : action) : Prop :=
  ∀ s pk s', handler s pk = Some s' → outcome s pk s'.

(** The handler of ACTION_DIE is the only one that leaves its packet. *)
Lemma range_1_serves n handler :
  packet_handlers_range_1 !! n = Some (Some handler) → n ≠ 5%nat → serves handler.
Proof.
  unfold packet_handlers_range_1. intros Hl Hn.
  do 35 (destruct n as [|n]; [cbn in Hl; first [discriminate Hl|done
    |injection Hl as <-; intros ???; eauto with handlers]|]).
  by destruct n.
Qed.

Lemma packet_handler_serves type handler :
  packet_handler type = Some handler → type ≠ 5 → serves handler.
Proof.
  unfold packet_handler. intros H Hd.
  repeat (case_match; [try (injection H as <-; intros ???; by eauto with handlers)|]);
    [|done].
  destruct (packet_handlers_range_1 !! Z.to_nat type) as [[h|]|] eqn:Hl; [|done|done].
  injection H as ->. eapply range_1_serves; [exact Hl|].
  match goal with Hr : _ && _ = true |- _ => unfold HANDLER_RANGE_1_FIRST in Hr; lia end.
Qed.

Lemma process_fs_packet_outcome s pk s' p :
  packets s !! pk = Some p → dp_Type p ≠ 5 →
  process_fs_packet s pk = Some s' → outcome s pk s'.
Proof.
  intros Hp Hd. unfold process_fs_packet. rewrite Hp. cbn [mbind option_bind].
  destruct (packet_handler (dp_Type p)) as [handler|] eqn:Hh; [|apply outcome_at_once].
  by eapply packet_handler_serves.
Qed.

(** ** Messages of the controller *)
Lemma unlink_update l a f :
  (∀ op, op_addr (f op) = op_addr op) → unlink (update_op l a f) a = unlink l a.
Proof.
  intros Hf. induction l as [|op l IH]; [done|]. cbn. destruct (op_addr op =? a) eqn:E; cbn.
  - by rewrite Hf, E.
  - by rewrite E, IH.
Qed.

(** What a message does to the operation [op] it belongs to: its packet is
    answered and the operation unlinked, or the operation waits for another
    message. *)
Inductive completed s (op : rl_pending_operation) s' : Prop :=
  | co_answered r1 r2 :
      replies s' = replies s ++ [(input_packet op, r1, r2)] →
      pending s' = unlink (pending s) (op_addr op) → completed s op s'
  | co_again :
      replies s' = replies s → pending_packets s' = pending_packets s →
      op_addrs s' = op_addrs s → completed s op s'.

Lemma completed_answer s op s1 r1 r2 s2 :
  same_ledger s s1 → answer_packet s1 (input_packet op) r1 r2 = Some s2 →
  completed s op (unlink_pending s2 (op_addr op)).
Proof.
  intros [Hp Hr] [Hp' Hr']%answer_packet_ledger.
  apply (co_answered _ _ _ r1 r2); cbn; congruence.
Qed.

Lemma completed_reply s op s1 s2 :
  same_ledger s s1 → reply_to_packet s1 (input_packet op) = Some s2 →
  completed s op (unlink_pending s2 (op_addr op)).
Proof.
  intros [Hp Hr] (Hp' & r1 & r2 & Hr')%reply_ledger.
  apply (co_answered _ _ _ r1 r2); cbn; congruence.
Qed.

Lemma complete_findinput_completed s op msg s' :
  complete_findinput s op msg = Some s' → completed s op s'.
Proof.
  unfold complete_findinput. intros H. run H. subst. eapply completed_reply; [|eassumption].
  assert (same_ledger s f) as ->.
  { run E0; subst; try (injection E0 as <- <-); back_to s. }
  destruct b; [injection E1 as ->; reflexivity|].
  apply bind_Some in E1 as ([s1 rc] & T & [= ->]). by apply fs_transmit_ledger in T as [].
Qed.

Lemma complete_examine_next_completed s op msg s' :
  complete_examine_next s op msg = Some s' → completed s op s'.
Proof.
  unfold complete_examine_next. intros H. run H. subst.
  run E1; (eapply completed_answer; [|eassumption]); subst; back_to s.
Qed.

Lemma complete_locate_object_completed s op msg s' :
  complete_locate_object s op msg = Some s' → completed s op s'.
Proof.
  unfold complete_locate_object. intros H. run H; subst.
  all: run E2; (eapply completed_answer; [|eassumption]); back_to s.
Qed.

Lemma requeued s op s1 f :
  (∀ o, input_packet (f o) = input_packet o) → (∀ o, op_addr (f o) = op_addr o) →
  pending s1 = update_op (pending s) (op_addr op) f → replies s1 = replies s →
  completed s op s1.
Proof.
  intros Hf1 Hf2 Hp Hr. apply co_again; [done| |]; unfold pending_packets, op_addrs; rewrite Hp;
    [by apply update_op_packets|by apply update_op_addrs].
Qed.

Lemma complete_write_completed s op msg s' :
  complete_write s op msg = Some s' → completed s op s'.
Proof.
  unfold complete_write. intros H. run H; subst.
  - by apply write_request_ledger in E1 as (_ & _ & _ & ->).
  - apply write_request_ledger in E1 as (Hr & Hp & Ho & _).
    apply co_again; [done|rewrite Hp|unfold op_addrs; rewrite Ho]; cbn;
      [by apply update_op_packets|by apply update_op_addrs].
  - by eapply completed_answer.
Qed.

Lemma complete_read_completed s op msg s' :
  complete_read s op msg = Some s' → completed s op s'.
Proof.
  unfold complete_read. intros H. run H; subst.
  all: repeat match goal with
    T : copy_to_client _ _ _ _ = Some _ |- _ => apply copy_to_client_ledger in T as [Hp0 Hr0] end.
  - match goal with A : answer_packet _ _ _ _ = Some _ |- _ =>
      apply answer_packet_ledger in A as [Hp Hr] end. cbn in Hp, Hr.
    eapply co_answered; cbn; [by rewrite Hr, Hr0|].
    by rewrite Hp, unlink_update, Hp0.
  - match goal with T : transmit_read_request _ _ _ _ = _ |- _ =>
      by apply read_request_ledger in T as [_ ->] end.
  - match goal with T : transmit_read_request _ _ _ _ = _ |- _ =>
      apply read_request_ledger in T as [[Hp Hr] _] end. cbn in Hp, Hr.
    apply co_again; [congruence| |]; unfold pending_packets, op_addrs; rewrite Hp;
      [rewrite !update_op_packets by done|rewrite !update_op_addrs by done]; by rewrite Hp0.
Qed.

(** ** The whole message *)
Lemma find_op_In l n op : find_op l n = Some op → op ∈ l.
Proof.
  induction l as [|o l IH]; [done|]. cbn. destruct (n =? request_seqno o).
  - intros [= ->]. by left.
  - right. by apply IH.
Qed.

Lemma unlink_perm l op :
  NoDup (op_addr <$> l) → op ∈ l → l ≡ₚ op :: unlink l (op_addr op).
Proof.
  induction l as [|o l IH]; [by intros _ ?%not_elem_of_nil|]. cbn.
  intros [Ho Hl]%NoDup_cons [->|Hop]%elem_of_cons; [by rewrite Z.eqb_refl|].
  destruct (op_addr o =? op_addr op) eqn:E.
  - destruct Ho. apply Z.eqb_eq in E. rewrite E. by apply list_elem_of_fmap_2.
  - rewrite (IH Hl Hop) at 1. by constructor.
Qed.

Definition op_packets (l : list rl_pending_operation) : list Z := input_packet <$> l.

Lemma completed_packets s op s' :
  NoDup (op_addrs s) → op ∈ pending s → completed s op s' →
  NoDup (op_addrs s') ∧
  replied s' ++ pending_packets s' ≡ₚ replied s ++ pending_packets s.
Proof.
  intros Hnd Hop [r1 r2 Hr Hp|Hr Hp Ho].
  - pose proof (unlink_perm _ _ Hnd Hop) as Hperm.
    split.
    + unfold op_addrs in *. rewrite Hp, Hperm in *. by apply NoDup_cons in Hnd as [].
    + unfold replied, pending_packets. rewrite Hr, Hp, fmap_app. cbn.
      rewrite Hperm at 2. cbn. by rewrite <- app_assoc.
  - split; [by rewrite Ho|]. unfold replied. by rewrite Hr, Hp.
Qed.

Lemma outcome_packets s pk s' :
  NoDup (op_addrs s) → outcome s pk s' →
  NoDup (op_addrs s') ∧
  replied s' ++ pending_packets s' ≡ₚ pk :: replied s ++ pending_packets s.
Proof.
  intros Hnd [r1 r2 Hr Hp|a Hr Hp Ho Ha].
  - split; [unfold op_addrs in *; by rewrite Hp|].
    unfold replied, pending_packets. rewrite Hr, Hp, fmap_app. cbn.
    rewrite <- app_assoc. cbn. by rewrite <- Permutation_middle.
  - split; [rewrite Ho; by constructor|]. unfold replied. rewrite Hr, Hp.
    by rewrite <- Permutation_middle.
Qed.

Lemma callback_completed cb s op msg s' :
  run_callback cb s op msg = Some s' → completed s op s'.
Proof.
  destruct cb; [apply complete_findinput_completed|apply complete_examine_next_completed
    |apply complete_locate_object_completed|apply complete_read_completed
    |apply complete_write_completed].
Qed.

Lemma network_message_completed s msg s' rc :
  rl_amigafs_process_network_message s msg = Some (s', rc) →
  s' = s ∨ ∃ op, op ∈ pending s ∧ completed s op s'.
Proof.
  unfold rl_amigafs_process_network_message, find_pending_op.
  destruct (find_op (pending s) (hdr_seq msg)) as [op|] eqn:Hop; [|intros [= <- _]; by left].
  apply find_op_In in Hop. intros H. right. exists op. split; [done|]. run H; subst.
  - by eapply callback_completed.
  - by eapply completed_answer.
  - by eapply completed_answer.
Qed.

(** ** The life of the file system *)

(** A client sends a packet, or the controller a message. *)
Inductive event :=
  | ev_packet (packet : Z) (contents : DosPacket)
  | ev_message (msg : rl_msg).

Definition fs_step s (e : event) : option (fsys P) :=
  match e with
  | ev_packet packet contents =>
      process_fs_packet (set_packets (<[packet := contents]> (packets s)) s) packet
  | ev_message msg => '(s, _) ← rl_amigafs_process_network_message s msg; Some s
  end.

Fixpoint fs_run (events : list event) s : option (fsys P) :=
  match events with
  | [] => Some s
  | e :: events => s ← fs_step s e; fs_run events s
  end.

Definition received (events : list event) : list Z :=
  omap (λ e, match e with ev_packet packet _ => Some packet | ev_message _ => None end) events.

Definition not_die (e : event) : Prop :=
  match e with ev_packet _ contents => dp_Type contents ≠ 5 | ev_message _ => True end.

Lemma fs_step_packets s e s' :
  NoDup (op_addrs s) → not_die e → fs_step s e = Some s' →
  NoDup (op_addrs s') ∧
  replied s' ++ pending_packets s' ≡ₚ received [e] ++ replied s ++ pending_packets s.
Proof.
  intros Hnd Hdie H. destruct e as [pk contents|msg]; cbn in H, Hdie |- *.
  - apply outcome_packets; [done|]. eapply outcome_from with (s1 := set_packets _ s); [done|].
    eapply process_fs_packet_outcome; [apply lookup_insert_eq|done|done].
  - apply bind_Some in H as ([s1 rc] & H & [= <-]).
    apply network_message_completed in H as [->|(op & Hop & Hc)]; [done|].
    by eapply completed_packets.
Qed.

(** C10: no packet of an AmigaDOS client is lost and none is answered twice,
    whatever packets (ACTION_DIE apart, which is never answered) and whatever
    messages of the controller arrive in whatever order: the answered and the
    pending packets together are the packets received, with their
    multiplicities, and no two pending operations share their memory. *)
Theorem packets_accounted events s s' :
  NoDup (op_addrs s) → Forall not_die events → fs_run events s = Some s' →
  NoDup (op_addrs s') ∧
  replied s' ++ pending_packets s' ≡ₚ replied s ++ pending_packets s ++ received events.
Proof.
  revert s. induction events as [|e events IH]; intros s Hnd Hdie H; cbn in H.
  - injection H as <-. split; [done|]. cbn. by rewrite app_nil_r.
  - apply bind_Some in H as (s1 & H1 & H). apply Forall_cons in Hdie as [He Hes].
    destruct (fs_step_packets _ _ _ Hnd He H1) as [Hnd1 Hp1].
    destruct (IH _ Hnd1 Hes H) as [Hnd2 Hp2]. split; [done|].
    rewrite Hp2, app_assoc, Hp1. cbn. destruct e; cbn; solve_Permutation.
Qed.
End Safety.

(** ** A concrete run *)

(** A read of four bytes, a seek while it is pending, and the answer. *)
Definition demo_events : list event :=
  [ ev_packet 500 (Packet ACTION_READ 128 1000 4 0 0 0 3000);
    ev_packet 504 (Packet ACTION_SEEK 128 0 OFFSET_BEGINNING 0 0 0 3000);
    ev_message (RL_MSG_INIT (read_file_answer (NetArray (chars "rest") 4)) 1) ].
Definition demo_begin : fsys (list rl_msg) := demo_fs (Packet 0 0 0 0 0 0 0 0).
Definition demo_final : fsys (list rl_msg) :=
  default demo_begin (fs_run (HHost := demo_host) (HPool := bump_pool) (Link := log_link)
    demo_events demo_begin).

Lemma packets_accounted_witness :
  replied demo_final = [504; 500] ∧
  (NoDup (op_addrs demo_final) ∧
   replied demo_final ++ pending_packets demo_final ≡ₚ
     replied demo_begin ++ pending_packets demo_begin ++ received demo_events).
Proof.
  split; [by vm_compute|].
  refine (packets_accounted (HHost := demo_host) (HPool := bump_pool) (Link := log_link)
    demo_events demo_begin demo_final _ _ _).
  - constructor.
  - repeat constructor; by vm_compute.
  - by vm_compute.
Defined.
