(* ===== verification/AmigaIo.v ===== *)
(** * AmigaIo: reading, writing and seeking through the file system

    The packets of amigafs.c together with a controller that answers them: a
    read fills the client's buffer from the file whatever the sizes of the
    answers, the read buffer stays a window of the file, a write sends every
    byte once and in order, a seek stays inside the file. *)

From S2P Require Import Prelude Wire Messages CString Format Transport Peer AmigaFs AmigaActions.

(** ** Client memory *)
Definition allocated (m : gmap Z Z) (a : Z) (n : Z) : Prop :=
  ∀ i, 0 <= i < n → is_Some (m !! (a + i)).

Lemma mem_write_ok m a bs :
  allocated m a (Z.of_nat (length bs)) →
  ∃ m', mem_write m a bs = Some m' ∧ dom m' = dom m ∧
    mem_read m' a (length bs) = Some bs ∧
    ∀ b, b < a ∨ a + Z.of_nat (length bs) <= b → m' !! b = m !! b.
Proof.
  revert m a. induction bs as [|b bs IH]; intros m a Ha; cbn [mem_write mem_read length].
  { by exists m. }
  destruct (Ha 0) as [x Hx]; [cbn; lia|]. rewrite Z.add_0_r in Hx.
  destruct (IH (<[a:=b]> m) (a + 1)) as (m' & Hw & Hd & Hr & Ho).
  { intros i Hi. rewrite lookup_insert_ne by lia. replace (a + 1 + i) with (a + (1 + i)) by lia.
    apply Ha. cbn. lia. }
  exists m'. rewrite Hx. cbn [mbind option_bind]. rewrite Hw. repeat split.
  - rewrite Hd, dom_insert_L. apply elem_of_dom_2 in Hx. set_solver.
  - rewrite Ho, lookup_insert_eq by lia. cbn [mbind option_bind]. by rewrite Hr.
  - intros c Hc. rewrite Ho by lia. apply lookup_insert_ne. lia.
Qed.

Lemma mem_read_app m a n1 n2 b1 b2 :
  mem_read m a n1 = Some b1 → mem_read m (a + Z.of_nat n1) n2 = Some b2 →
  mem_read m a (n1 + n2) = Some (b1 ++ b2).
Proof.
  revert a b1. induction n1 as [|n1 IH]; intros a b1; cbn [mem_read Nat.add].
  - intros [= <-]. by rewrite Z.add_0_r.
  - intros (x & Hx & (bs & Hb & [= <-])%bind_Some)%bind_Some H2. rewrite Hx. cbn [mbind option_bind].
    erewrite IH; [done|exact Hb|]. rewrite <- H2. f_equal. lia.
Qed.

Lemma mem_read_agree m m' a n :
  (∀ b, a <= b < a + Z.of_nat n → m' !! b = m !! b) → mem_read m' a n = mem_read m a n.
Proof.
  revert a. induction n as [|n IH]; intros a H; [done|]. cbn [mem_read].
  rewrite H by lia. rewrite (IH (a + 1)); [done|]. intros b Hb. apply H. lia.
Qed.

Lemma allocated_dom m m' a n : dom m' = dom m → allocated m a n → allocated m' a n.
Proof. intros Hd Ha i Hi. apply elem_of_dom. rewrite Hd. by apply elem_of_dom, Ha. Qed.

(** The answer to a packet. *)
Lemma answer_packet_ok {P} (s : fsys P) pk p r1 r2 :
  packets s !! pk = Some p →
  answer_packet s pk r1 r2 = Some (add_reply (pk, r1, r2)
    (set_packets (<[pk := set_port (device_port s) (set_res r1 r2 p)]> (packets s)) s)).
Proof.
  intros Hp. unfold answer_packet, set_result, reply_to_packet. rewrite Hp.
  cbn [mbind option_bind packets set_packets]. rewrite lookup_insert_eq.
  cbn [mbind option_bind]. by rewrite insert_insert_eq.
Qed.

(** A window of a list. *)
Lemma take_drop_app {A} (l : list A) a m n :
  take m (drop a l) ++ take n (drop (a + m) l) = take (m + n) (drop a l).
Proof. rewrite <- drop_drop. apply take_take_drop. Qed.

(** ** The controller's side *)
Section Exchange.
Context `{HHost : Host} `{HPool : Pool}.
#[local] Existing Instance log_link.
Implicit Types (s : fsys (list rl_msg)).

(** The controller, with a state of its own, answers the last request until
    nothing is pending; no answer makes the target give up the connection. *)
Context {X : Type} (answer : X → rl_msg → option (X * rl_msg)).

Fixpoint exchange (fuel : nat) (x : X) s : option (X * fsys (list rl_msg)) :=
  match pending s with
  | [] => Some (x, s)
  | _ =>
      match fuel with
      | O => None
      | S fuel =>
          req ← last (fs_peer s);
          '(x, ans) ← answer x req;
          '(s, rc) ← rl_amigafs_process_network_message s ans;
          if rc =? 0 then exchange fuel x s else None
      end
  end.

(** A packet and the messages it leads to. *)
Definition session (fuel : nat) (x : X) s (packet : Z) : option (X * fsys (list rl_msg)) :=
  s ← process_fs_packet s packet; exchange fuel x s.
End Exchange.

(** A controller without a state. *)
Definition stateless (answer : rl_msg → option rl_msg) (_ : unit) (req : rl_msg)
  : option (unit * rl_msg) := ans ← answer req; Some (tt, ans).

(** ** Reading *)
Section Reading.
Context `{HHost : Host} `{HPool : Pool}.
#[local] Existing Instance log_link.
Implicit Types (s : fsys (list rl_msg)).

(** The file, of less than 2 GB, and the sizes in which the controller
    chooses to answer. *)
Context (d : list Z) (chunk : Z → nat).
Hypothesis d_size : Z.of_nat (length d) < 2147483648.
Hypothesis chunk_size : ∀ lo, (0 < chunk lo)%nat ∧ Z.of_nat (chunk lo) <= 4096.

Definition window (off n : Z) : list Z := take (Z.to_nat n) (drop (Z.to_nat off) d).

Definition answer_body (lo : Z) : rl_body :=
  let bs := window lo (Z.of_nat (chunk lo)) in
  read_file_answer (NetArray bs (Z.of_nat (length bs))).

Definition server_answer (req : rl_msg) : option rl_msg :=
  match body req with
  | read_file_request _ _ lo _ => Some (RL_MSG_INIT (answer_body lo) (hdr_seq req))
  | _ => None
  end.

(** A controller that reads the file behind its handle [id]. *)
Context {X : Type} (answer : X → rl_msg → option (X * rl_msg)) (inv : X → Prop) (id : Z).
Definition reads_file : Prop := ∀ x hi lo len q,
  inv x → 0 <= lo → ∃ x',
    answer x (RL_MSG_INIT (read_file_request id hi lo len) q) =
      Some (x', RL_MSG_INIT (answer_body lo) q) ∧ inv x'.

(** The read buffer of a handle is a window of the file. *)
Record coherent (h : rl_client_handle) : Prop := {
  co_offset : 0 <= offset_lo h <= Z.of_nat (length d);
  co_start : 0 <= buffer_start h;
  co_len : 0 <= buffer_len h;
  co_end : buffer_start h + buffer_len h <= Z.of_nat (length d);
  co_array : Z.of_nat (length (h_buffer h)) = 4096;
  co_fits : buffer_len h <= 4096;
  co_data : take (Z.to_nat (buffer_len h)) (h_buffer h) =
            window (buffer_start h) (buffer_len h)
}.

Lemma window_length off n :
  0 <= off → 0 <= n → Z.of_nat (length (window off n)) = Z.max 0 (Z.min n (Z.of_nat (length d) - off)).
Proof. intros. unfold window. llen. Qed.

Lemma window_app off a b :
  0 <= off → 0 <= a → 0 <= b → window off a ++ window (off + a) b = window off (a + b).
Proof.
  intros. unfold window. rewrite !Z2Nat.inj_add by lia. apply take_drop_app.
Qed.

(** One read: the client's packet [pk] asks for [n] bytes at [dst], the
    handle at [hd] stands at [off]. *)
Context (pk : Z) (p : DosPacket) (hd off : Z) (s0 : fsys (list rl_msg)).
#[local] Abbreviation dst := (dp_Arg2 p).
#[local] Abbreviation n := (dp_Arg3 p).
Hypothesis n_range : 0 <= n < 2147483648.
Hypothesis off_range : 0 <= off <= Z.of_nat (length d).
Hypothesis dst_allocated : allocated (mem s0) dst n.

Definition frame s : Prop :=
  dom (mem s) = dom (mem s0) ∧
  ∀ b, b < dst ∨ dst + n <= b → mem s !! b = mem s0 !! b.

(** What a read leaves alone. *)
Definition same_heap s : Prop :=
  locks s = locks s0 ∧ fhs s = fhs s0 ∧ root_addr s = root_addr s0 ∧
  dom (chandles s) = dom (chandles s0).

Lemma same_heap_put s a h h' :
  chandles s !! a = Some h → same_heap s → same_heap (put_handle a h' s).
Proof.
  intros Ha%elem_of_dom_2 (? & ? & ? & Hd). split_and!; try done. cbn.
  rewrite dom_insert_L. set_solver.
Qed.

(** The state while [got] bytes have been read. *)
Record reading (got : Z) s : Prop := {
  rd_got : 0 <= got <= n ∧ off + got <= Z.of_nat (length d);
  rd_packet : packets s !! pk = Some p;
  rd_lock : HANDLE_FROM_LOCK s (dp_Arg1 p) = Some hd;
  rd_handle : ∃ h, chandles s !! hd = Some h ∧ offset_lo h = off + got ∧
                Z.of_nat (length (h_buffer h)) = 4096 ∧ handle_id h = id;
  rd_mem : mem_read (mem s) dst (Z.to_nat got) = Some (window off got);
  rd_frame : frame s;
  rd_heap : same_heap s;
  rd_replies : replies s = replies s0;
  rd_pending : ∃ a q, pending s =
    [PendingOp a q pk RL_MSG_READ_FILE_ANSWER complete_read_cb (D_read (dst + got))] ∧
    ∃ hi len, last (fs_peer s) =
      Some (RL_MSG_INIT (read_file_request id hi (off + got) len) q)
}.

(** The state when the packet has been answered. *)
Record read_done s : Prop := {
  rf_pending : pending s = [];
  rf_replies : replies s =
    replies s0 ++ [(pk, Z.of_nat (length (window off n)), 0)];
  rf_mem : mem_read (mem s) dst (length (window off n)) = Some (window off n);
  rf_frame : frame s;
  rf_heap : same_heap s;
  rf_handle : ∃ h, chandles s !! hd = Some h ∧
    offset_lo h = off + Z.of_nat (length (window off n)) ∧ coherent h ∧ handle_id h = id
}.

(** Storing [bs], the next bytes of the file, at the cursor. *)
Lemma store_slice s got k :
  dom (mem s) = dom (mem s0) → (∀ b, b < dst ∨ dst + n <= b → mem s !! b = mem s0 !! b) →
  mem_read (mem s) dst (Z.to_nat got) = Some (window off got) →
  0 <= got → 0 <= k → got + k <= n → off + got + k <= Z.of_nat (length d) →
  ∃ m, mem_write (mem s) (dst + got) (window (off + got) k) = Some m ∧
    mem_read m dst (Z.to_nat (got + k)) = Some (window off (got + k)) ∧ frame (set_mem m s).
Proof.
  intros Hdom Hfr Hgot Hg Hk Hgk Hd.
  assert (Hlen : Z.of_nat (length (window (off + got) k)) = k) by (rewrite window_length; lia).
  destruct (mem_write_ok (mem s) (dst + got) (window (off + got) k)) as (m & Hw & Hdm & Hr & Ho).
  { apply (allocated_dom (mem s0)); [done|]. intros i Hi.
    replace (dst + got + i) with (dst + (got + i)) by lia. apply dst_allocated. lia. }
  exists m. split; [done|]. split.
  - rewrite Z2Nat.inj_add by lia. rewrite <- (window_app off got k) by lia.
    apply mem_read_app.
    + rewrite <- Hgot. apply mem_read_agree. intros b Hb. apply Ho. lia.
    + rewrite Z2Nat.id by lia. rewrite <- Hr. f_equal. lia.
  - split; cbn; [congruence|]. intros b Hb. rewrite Ho by lia. by apply Hfr.
Qed.

Lemma window_take off' a b : 0 <= a <= b → take (Z.to_nat a) (window off' b) = window off' a.
Proof. intros. unfold window. rewrite take_take. f_equal. lia. Qed.

Lemma window_drop off' a b :
  0 <= off' → 0 <= a <= b → drop (Z.to_nat a) (window off' b) = window (off' + a) (b - a).
Proof.
  intros. unfold window. rewrite skipn_firstn_comm.
  rewrite drop_drop. rewrite Z2Nat.inj_add, Z2Nat.inj_sub by lia. done.
Qed.

Lemma window_full off' a :
  0 <= off' → 0 <= a → window off' a = window off' (Z.of_nat (length (window off' a))).
Proof.
  intros. rewrite window_length by lia. unfold window.
  destruct (Z.le_gt_cases a (Z.of_nat (length d) - off')).
  - f_equal. lia.
  - rewrite !take_ge; [done|llen..].
Qed.

Lemma bytes_read_eq op got :
  detail op = D_read (dst + got) → 0 <= got <= n → readop_bytes_read op p = Some got.
Proof.
  intros Hd Hg. unfold readop_bytes_read. rewrite Hd. f_equal. rewrite u32_id; unfold is_u32; lia.
Qed.

(** What complete_read stores in the handle when the read is over. *)
Lemma coherent_refill h lo e :
  offset_lo h = lo → 0 <= e <= 4096 → 0 <= lo → lo + e <= Z.of_nat (length d) →
  Z.of_nat (length (h_buffer h)) = 4096 →
  ∃ buf, put_bytes (h_buffer h) 0 (window lo e) = Some buf ∧ coherent (set_buffer lo e buf h).
Proof.
  intros Ho He Hlo Hd Hb.
  assert (Hlen : Z.of_nat (length (window lo e)) = e) by (rewrite window_length; lia).
  rewrite put_bytes_Some by lia. eexists. split; [done|]. split; cbn; try lia.
  - llen.
  - rewrite take_0. cbn [app]. rewrite take_app_length'; [done|lia].
Qed.

(** Answering the packet when [g] bytes are all there is. *)
Lemma read_over s g h :
  packets s !! pk = Some p → replies s = replies s0 →
  chandles s !! hd = Some h → coherent h → handle_id h = id → offset_lo h = off + g →
  mem_read (mem s) dst (Z.to_nat g) = Some (window off g) → frame s → same_heap s →
  0 <= g <= n → off + g <= Z.of_nat (length d) → window off n = window off g →
  ∃ s2, answer_packet s pk (s32 g) 0 = Some s2 ∧ pending s2 = pending s ∧
    read_done (set_pending [] s2).
Proof.
  intros Hp Hr Hh Hc Hid Hoff Hm Hf Hsame Hg Hd Hw.
  assert (Hlen : Z.of_nat (length (window off n)) = g) by (rewrite Hw, window_length; lia).
  erewrite answer_packet_ok by done. eexists. do 2 (split; [done|]).
  split.
  - done.
  - cbn. by rewrite Hr, Hlen, s32_id by lia.
  - cbn. rewrite <- (Nat2Z.id (length _)), Hlen, Hm. by rewrite Hw.
  - done.
  - done.
  - exists h. by rewrite Hlen.
Qed.

(** The end of complete_read when no more bytes are wanted or there: the [e]
    bytes that are left over become the read buffer. *)
Lemma read_finishes s g e h op :
  pending s = [op] → packets s !! pk = Some p → replies s = replies s0 →
  chandles s !! hd = Some h → offset_lo h = off + g → Z.of_nat (length (h_buffer h)) = 4096 →
  handle_id h = id → mem_read (mem s) dst (Z.to_nat g) = Some (window off g) → frame s → same_heap s →
  0 <= g <= n → 0 <= e <= 4096 → off + g + e <= Z.of_nat (length d) →
  window off n = window off g →
  ∃ s', (if Z.of_nat (length (window (off + g) e)) <? e then None else
         buf ← put_bytes (h_buffer h) 0 (take (Z.to_nat e) (window (off + g) e));
         s2 ← answer_packet (put_handle hd (set_buffer (offset_lo h) e buf h) s) pk (s32 g) 0;
         Some (unlink_pending s2 (op_addr op))) = Some s' ∧ read_done s'.
Proof.
  intros Hpend Hp Hr Hh Hoff Hb Hid Hm Hf Hsame Hg He Hd Hw.
  rewrite (proj2 (Z.ltb_ge _ e)) by (rewrite window_length; lia). rewrite window_take by lia.
  destruct (coherent_refill h (off + g) e Hoff) as (buf & -> & Hco); [lia..|done|].
  cbn [mbind option_bind]. rewrite Hoff.
  edestruct (read_over (put_handle hd (set_buffer (off + g) e buf h) s) g) as (s2 & -> & Hps & Hdone);
    try done; [apply lookup_insert_eq|by eapply same_heap_put|lia|].
  cbn [mbind option_bind]. eexists. split; [done|]. unfold unlink_pending. rewrite Hps.
  cbn [pending put_handle set_chandles]. rewrite Hpend. cbn [unlink]. by rewrite Z.eqb_refl.
Qed.

(** ... and when more bytes are wanted: the operation waits for the next answer. *)
Lemma read_continues s g h a q :
  let op q := PendingOp a q pk RL_MSG_READ_FILE_ANSWER complete_read_cb (D_read (dst + g)) in
  pending s = [op q] → packets s !! pk = Some p → HANDLE_FROM_LOCK s (dp_Arg1 p) = Some hd →
  replies s = replies s0 →
  chandles s !! hd = Some h → offset_lo h = off + g → Z.of_nat (length (h_buffer h)) = 4096 →
  handle_id h = id → mem_read (mem s) dst (Z.to_nat g) = Some (window off g) → frame s → same_heap s →
  0 <= g <= n → off + g <= Z.of_nat (length d) →
  ∃ s', ('(s2, rc) ← transmit_read_request
           (set_seqno (u32 (seqno s + 1))
              (set_pending (update_op (pending s) a (set_op_seqno (seqno s))) s))
           hd (op (seqno s)) (u32 (n - g));
         if negb (rc =? 0) then
           s3 ← answer_packet s2 pk 0 ERROR_SEEK_ERROR; Some (unlink_pending s3 a)
         else Some s2) = Some s' ∧ reading g s'.
Proof.
  intros op Hpend Hp Hl Hr Hh Hoff Hb Hid Hm Hf Hsame Hg Hd.
  unfold transmit_read_request. cbn [chandles set_seqno set_pending]. rewrite Hh.
  cbn [mbind option_bind]. unfold fs_transmit. cbn [transmit log_link mbind option_bind].
  eexists. split; [done|]. split; try done.
  - by exists h.
  - exists a, (seqno s). cbn. rewrite Hpend. cbn. rewrite Z.eqb_refl. split; [done|].
    eexists _, _. rewrite last_snoc. by rewrite Hoff, Hid.
Qed.

Lemma complete_read_step s got op msg :
  reading got s → pending s = [op] → body msg = answer_body (off + got) →
  ∃ s', complete_read s op msg = Some s' ∧
    (read_done s' ∨ ∃ k, 0 < k ∧ got + k < n ∧ reading (got + k) s').
Proof.
  intros [Hgot Hp Hl (h & Hh & Hoff & Hbuf & Hid) Hm [Hdom Hfr] Hsame Hrep
    (a & q & Hpend & hi & len & _)].
  rewrite Hpend. intros [= <-] Hbody.
  destruct (chunk_size (off + got)) as [Hc0 Hc1].
  unfold answer_body in Hbody. cbv zeta in Hbody.
  set (c := Z.of_nat (chunk (off + got))) in *. assert (Hcp : 0 < c) by (unfold c; lia).
  set (bs := window (off + got) c) in *. cbn in Hbody.
  assert (Hr : Z.of_nat (length bs) = Z.min c (Z.of_nat (length d) - (off + got)))
    by (unfold bs; rewrite window_length; lia).
  set (r := Z.of_nat (length bs)) in *.
  assert (Hbs : bs = window (off + got) r) by (unfold bs, r; apply window_full; lia).
  set (k := Z.min (n - got) r).
  destruct (store_slice s got k) as (m & Hw & Hmr & Hmf); [done..|lia|lia|lia|lia|].
  unfold complete_read. cbn [input_packet]. rewrite Hp. cbn [mbind option_bind]. rewrite Hl.
  cbn [mbind option_bind]. rewrite Hbody. cbn [detail na_length na_base].
  erewrite bytes_read_eq by (done || lia). cbn [mbind option_bind].
  fold r.
  rewrite (u32_id n) by (unfold is_u32; lia).
  rewrite (u32_id (n - got)) by (unfold is_u32; lia). fold k.
  unfold copy_to_client. fold r. rewrite (proj2 (Z.ltb_ge r k)) by lia.
  rewrite Hbs, window_take by lia. cbn [mem]. rewrite Hw. cbn [mbind option_bind].
  cbn [chandles set_mem]. rewrite Hh. cbn [mbind option_bind op_addr].
  rewrite Hoff, (u32_id (off + got + k)) by (unfold is_u32; lia).
  replace (dst + got + k) with (dst + (got + k)) by lia.
  erewrite bytes_read_eq by (done || lia). cbn [mbind option_bind].
  cbn [mem set_mem pending]. rewrite Hpend. cbn [update_op op_addr set_op_detail].
  rewrite Z.eqb_refl. cbn [request_seqno input_packet expected_answer_type callback].
  set (op1 := PendingOp a q pk _ _ _).
  set (s1 := put_handle hd _ _).
  assert (Hh1 : chandles s1 !! hd = Some (set_offset (off + got + k) h))
    by apply lookup_insert_eq.
  assert (Hsame1 : same_heap s1) by by eapply same_heap_put.
  destruct ((n =? got + k) || (0 =? r)) eqn:Hover.
  - rewrite window_drop, (u32_id (r - k)) by (unfold is_u32; lia).
    rewrite <- (Z.add_assoc off got k) in Hh1 |- *.
    edestruct (read_finishes s1 (got + k) (r - k) (set_offset (off + (got + k)) h)
                 (set_op_detail (D_read (dst + (got + k))) op1)) as (s' & He & Hdone);
      [..|exists s'; split; [exact He|by left]]; try done; try (cbn; lia).
    apply orb_true_iff in Hover as [E|E]; [f_equal; lia|].
    rewrite (window_full off n), window_length by lia. f_equal. lia.
  - apply orb_false_iff in Hover as [E1 E2].
    edestruct (read_continues s1 (got + k) (set_offset (off + got + k) h) a q) as (s' & He & Hs');
      [..|exists s'; split; [exact He|right; exists k; split_and!; [lia|lia|done]]];
      try done; cbn; lia.
Qed.

(** With one step for every byte and one for the end, the exchange ends. *)
Lemma exchange_reads fuel got x s :
  reads_file → inv x → reading got s → n - got < Z.of_nat fuel →
  ∃ x' s', exchange answer fuel x s = Some (x', s') ∧ inv x' ∧ read_done s'.
Proof.
  intros Hans. revert got x s. induction fuel as [|fuel IH]; intros got x s Hx Hs Hf;
    [destruct Hs; lia|].
  destruct (rd_pending _ _ Hs) as (a & q & Hpend & hi & len & Hlast).
  pose proof (rd_got _ _ Hs).
  destruct (Hans x hi (off + got) len q Hx) as (x1 & Ha & Hx1); [lia|].
  cbn [exchange]. rewrite Hpend, Hlast. cbn [mbind option_bind]. rewrite Ha.
  cbn [mbind option_bind].
  unfold rl_amigafs_process_network_message, find_pending_op. rewrite Hpend.
  cbn [find_op hdr_seq request_seqno RL_MSG_INIT]. rewrite Z.eqb_refl.
  change (rl_msg_kind_of _ =? expected_answer_type _) with true.
  cbn [callback run_callback].
  edestruct (complete_read_step s got) as (s1 & He & Hnext); [done|done| |rewrite He]; [done|].
  cbn [mbind option_bind]. destruct Hnext as [Hdone|(k & Hk & Hgk & Hr)].
  - exists x1, s1. split; [|done]. destruct fuel; cbn; by rewrite (rf_pending _ Hdone).
  - apply (IH (got + k)); [done|done|lia].
Qed.

Lemma used_put_handle s h h' a : chandles s !! a = Some h → used (put_handle a h' s) = used s.
Proof.
  intros Ha. unfold used, put_handle. cbn. rewrite dom_insert_L.
  apply elem_of_dom_2 in Ha. set_solver.
Qed.

(** The read buffer serves the bytes of the file at the cursor. *)
Lemma buffer_overlap_coherent h :
  coherent h → offset_lo h = off →
  (∃ c, buffer_overlap h n = Some (off - buffer_start h, c) ∧ 0 <= c <= n ∧
     off + c <= Z.of_nat (length d) ∧
     c <= Z.of_nat (length (h_buffer h) - Z.to_nat (off - buffer_start h)) ∧
     take (Z.to_nat c) (drop (Z.to_nat (off - buffer_start h)) (h_buffer h)) = window off c) ∨
  buffer_overlap h n = None.
Proof.
  intros [Ho Hs Hl He Ha Hf Hd] Hoff. unfold buffer_overlap. rewrite Hoff.
  rewrite (u32_id (buffer_start h + _)) by (unfold is_u32; lia).
  destruct (off <? buffer_start h) eqn:E1; [by right|].
  destruct (_ <=? off) eqn:E2; [by right|]. left.
  rewrite !u32_id by (unfold is_u32; lia). set (c := Z.min _ _). exists c.
  repeat split; try lia.
  transitivity (take (Z.to_nat c) (drop (Z.to_nat (off - buffer_start h))
    (take (Z.to_nat (buffer_len h)) (h_buffer h)))).
  - rewrite !firstn_skipn_comm, take_take. do 2 f_equal. lia.
  - rewrite Hd, window_drop, window_take by lia. f_equal. lia.
Qed.

(** Queueing the operation of a read of which [g] bytes are there. *)
Lemma start_reading s g h :
  packets s !! pk = Some p → HANDLE_FROM_LOCK s (dp_Arg1 p) = Some hd →
  chandles s !! hd = Some h → offset_lo h = off + g →
  Z.of_nat (length (h_buffer h)) = 4096 → handle_id h = id →
  mem_read (mem s) dst (Z.to_nat g) = Some (window off g) → frame s → same_heap s →
  replies s = replies s0 → pending s = [] → pool_alloc (used s) ≠ None →
  0 <= g <= n → off + g <= Z.of_nat (length d) →
  ∃ s', (let '(op, s) := alloc_pending s pk RL_MSG_READ_FILE_ANSWER complete_read_cb in
         match op with
         | None => fail_packet s pk None ERROR_NO_FREE_STORE
         | Some a =>
             o ← get_op (pending (set_pending (update_op (pending s) a
                   (set_op_detail (D_read (dst + (n - (n - g)))))) s)) a;
             '(s, rc) ← transmit_read_request (set_pending (update_op (pending s) a
                   (set_op_detail (D_read (dst + (n - (n - g)))))) s) hd o (n - g);
             if negb (rc =? 0) then fail_packet s pk (Some a) ERROR_SEEK_ERROR else Some s
         end) = Some s' ∧ reading g s'.
Proof.
  intros Hp Hl Hh Hoff Hb Hid Hm Hf Hsame Hr Hpend Hpool Hg Hd. unfold alloc_pending.
  destruct (pool_alloc (used s)) as [a|]; [|done]. cbv zeta.
  cbn [pending set_pending set_seqno]. rewrite Hpend. cbn [update_op op_addr].
  rewrite Z.eqb_refl. cbn [get_op op_addr set_op_detail]. rewrite Z.eqb_refl.
  replace (n - (n - g)) with g by lia.
  unfold transmit_read_request. cbn [chandles set_pending set_seqno mbind option_bind].
  rewrite Hh. cbn [mbind option_bind]. unfold fs_transmit.
  cbn [transmit log_link mbind option_bind]. eexists. split; [done|].
  split; try done.
  - by exists h.
  - exists a, (seqno s). split; [done|]. eexists _, _. cbn. rewrite last_snoc. by rewrite Hoff, Hid.
Qed.

(** A read from any controller that reads the file. *)
Lemma action_read_any h x fuel :
  reads_file → inv x →
  packets s0 !! pk = Some p → dp_Type p = ACTION_READ →
  HANDLE_FROM_LOCK s0 (dp_Arg1 p) = Some hd → chandles s0 !! hd = Some h →
  coherent h → offset_lo h = off → handle_id h = id →
  pending s0 = [] → pool_alloc (used s0) ≠ None → (Z.to_nat n < fuel)%nat →
  ∃ x' s', session answer fuel x s0 pk = Some (x', s') ∧ inv x' ∧ read_done s'.
Proof.
  intros Hans Hx Hp Ht Hl Hh Hc Hoff Hid Hpend Hpool Hfuel.
  assert (Hgo : ∀ g s, reading g s → ∃ x' s',
    exchange answer fuel x s = Some (x', s') ∧ inv x' ∧ read_done s').
  { intros g s Hs. apply (exchange_reads fuel g); [done..|]. pose proof (rd_got _ _ Hs). lia. }
  unfold session, process_fs_packet. rewrite Hp. cbn [mbind option_bind]. rewrite Ht.
  change (packet_handler ACTION_READ) with (Some (action_read (P := list rl_msg))). cbv iota.
  unfold action_read. rewrite Hp. cbn [mbind option_bind]. rewrite Hl.
  cbn [mbind option_bind]. rewrite Hh. cbn [mbind option_bind].
  rewrite (u32_id n) by (unfold is_u32; lia).
  destruct (buffer_overlap_coherent h Hc Hoff) as [(c & Ho & Hcr & Hcd & Hlen & Hdata)|Ho];
    rewrite Ho; cbv zeta beta iota.
  - destruct (store_slice s0 0 c) as (m & Hw & Hm & Hf); [done..|lia|lia|lia|lia|].
    rewrite !Z.add_0_r in Hw. rewrite !Z.add_0_l in Hm.
    unfold copy_to_client. rewrite length_drop.
    destruct Hc as [? ? ? ? ? ? ?].
    rewrite (proj2 (Z.ltb_ge _ c)) by lia. rewrite Hdata. cbn [mem put_handle set_chandles].
    rewrite Hw. cbn [mbind option_bind]. rewrite Hoff, !u32_id by (unfold is_u32; lia).
    set (h1 := set_offset (off + c) h). set (s1 := set_mem m _).
    assert (Hh1 : chandles s1 !! hd = Some h1) by apply lookup_insert_eq.
    assert (Hsame1 : same_heap s1) by by eapply same_heap_put.
    destruct (n - c =? 0) eqn:E.
    + edestruct (read_over s1 c h1) as (s2 & He & Hps & Hdone);
        [..|rewrite He; cbn [mbind option_bind]]; try done; try lia;
        [split; cbn; (done || lia)|f_equal; lia|].
      exists x, s2. assert (pending s2 = []) as Hnil by by rewrite Hps. split; [|split; [done|]].
      * destruct fuel; cbn; by rewrite Hnil.
      * rewrite <- Hnil in Hdone. by destruct s2.
    + edestruct (start_reading s1 c h1) as (s2 & He & Hs2);
        [..|rewrite He; cbn [mbind option_bind]; by apply (Hgo c)]; try done; try lia.
      change (used s1) with (used (put_handle hd h1 s0)). by erewrite used_put_handle.
  - cbn [mbind option_bind]. rewrite (u32_id (n - n)) by (unfold is_u32; lia).
    edestruct (start_reading s0 0 h) as (s2 & He & Hs2);
      [..|rewrite Z.sub_0_r in He; rewrite He; cbn [mbind option_bind]; by apply (Hgo 0)];
      destruct Hc; try done; lia.
Qed.
End Reading.

Section ReadFacts.
Context `{HHost : Host} `{HPool : Pool}.
#[local] Existing Instance log_link.

(** C9: a read delivers the bytes of the file at the handle's position into the
    client's buffer, as many as were asked for or as the file has, and touches
    no other byte; the answer is their number; the position advances by it and
    the read buffer is again a window of the file.  It needs at most one
    answer of the controller for each byte and one more, however small the
    controller's answers are. *)
Theorem action_read_fills d chunk pk p hd off (s0 : fsys (list rl_msg)) h fuel :
  Z.of_nat (length d) < 2147483648 →
  (∀ lo, (0 < chunk lo)%nat ∧ Z.of_nat (chunk lo) <= 4096) →
  0 <= dp_Arg3 p < 2147483648 → 0 <= off <= Z.of_nat (length d) →
  allocated (mem s0) (dp_Arg2 p) (dp_Arg3 p) →
  packets s0 !! pk = Some p → dp_Type p = ACTION_READ →
  HANDLE_FROM_LOCK s0 (dp_Arg1 p) = Some hd → chandles s0 !! hd = Some h →
  coherent d h → offset_lo h = off → pending s0 = [] → pool_alloc (used s0) ≠ None →
  (Z.to_nat (dp_Arg3 p) < fuel)%nat →
  ∃ s', session (stateless (server_answer d chunk)) fuel tt s0 pk = Some (tt, s') ∧
    read_done d (handle_id h) pk p hd off s0 s'.
Proof.
  intros. edestruct (action_read_any d chunk ltac:(done) ltac:(done)
    (stateless (server_answer d chunk)) (λ _, True) (handle_id h) pk p hd off s0)
    as ([] & s' & He & _ & Hd); eauto.
  by intros [] hi lo len q _ _; exists tt.
Qed.
End ReadFacts.

(** ** Writing *)

(** The bytes a pointer sees start with the bytes read through it. *)
Lemma mem_read_size m a n bs : mem_read m a n = Some bs → (n ≤ size m)%nat ∧ length bs = n.
Proof.
  intros H. assert (Hin : ∀ i, 0 <= i < Z.of_nat n → is_Some (m !! (a + i))).
  { revert a bs H. induction n as [|n IH]; intros a bs; cbn [mem_read]; [lia|].
    intros (x & Hx & (bs' & Hb & _)%bind_Some)%bind_Some i Hi.
    destruct (decide (i = 0)) as [->|Hi0]; [rewrite Z.add_0_r; eauto|].
    replace (a + i) with (a + 1 + (i - 1)) by lia. eapply IH; [done|lia]. }
  split.
  - rewrite <- size_dom. transitivity (size (list_to_set (C := gset Z) (seqZ a (Z.of_nat n)))).
    + rewrite size_list_to_set by apply NoDup_seqZ. rewrite length_seqZ. lia.
    + apply subseteq_size. intros k [Hk1 Hk2]%elem_of_list_to_set%elem_of_seqZ.
      apply elem_of_dom. replace k with (a + (k - a)) by lia. apply Hin. lia.
  - clear Hin. revert a bs H. induction n as [|n IH]; intros a bs; cbn [mem_read].
    + by intros [= <-].
    + intros (x & Hx & (bs' & Hb & [= <-])%bind_Some)%bind_Some. cbn. f_equal. by eapply IH.
Qed.

Lemma mem_from_prefix fuel m a n bs :
  mem_read m a n = Some bs → (n ≤ fuel)%nat →
  (n ≤ length (mem_from fuel m a))%nat ∧ take n (mem_from fuel m a) = bs.
Proof.
  revert a n bs. induction fuel as [|fuel IH]; intros a [|n] bs; cbn [mem_read mem_from];
    try (intros [= <-] _; split; [lia|by rewrite take_0]); [lia|].
  intros (x & Hx & (bs' & Hb & [= <-])%bind_Some)%bind_Some Hf. rewrite Hx.
  destruct (IH (a + 1) n bs' Hb) as [Hl Ht]; [lia|]. cbn. split; [lia|]. by rewrite Ht.
Qed.

Lemma mem_read_lookup m a n bs :
  mem_read m a n = Some bs ↔
  length bs = n ∧ ∀ i, (i < n)%nat → m !! (a + Z.of_nat i) = bs !! i.
Proof.
  revert a bs. induction n as [|n IH]; intros a bs; cbn [mem_read].
  { split; [intros [= <-]; split; [done|lia]|]. by intros [->%nil_length_inv _]. }
  split.
  - intros (x & Hx & (bs' & [Hl Hb]%IH & [= <-])%bind_Some)%bind_Some. split; [cbn; lia|].
    intros [|i] Hi; [by rewrite Z.add_0_r|]. cbn. rewrite <- Hb by lia. f_equal. lia.
  - intros [Hl Hb]. destruct bs as [|b bs]; [done|]. injection Hl as Hl.
    pose proof (Hb 0%nat) as H0. rewrite Z.add_0_r in H0. rewrite H0 by lia. cbn [mbind option_bind].
    change ((b :: bs) !! 0%nat) with (Some b). cbn [mbind option_bind].
    assert (mem_read m (a + 1) n = Some bs) as ->; [|done]. apply IH. split; [done|].
    intros i Hi. change (bs !! i) with ((b :: bs) !! S i). rewrite <- Hb by lia. f_equal. lia.
Qed.

Lemma mem_read_sub m a n bs i k :
  mem_read m a n = Some bs → (i + k ≤ n)%nat →
  mem_read m (a + Z.of_nat i) k = Some (take k (drop i bs)).
Proof.
  intros [Hl Hb]%mem_read_lookup Hk. apply mem_read_lookup. split; [llen|].
  intros j Hj. rewrite lookup_take_lt, lookup_drop by lia. rewrite <- Hb by lia. f_equal. lia.
Qed.

(** The array of a write request holds the bytes of the client. *)
Lemma pointer_to_bytes m a n bs :
  mem_read m a n = Some bs → na_bytes (NetArray (pointer_to m a) (Z.of_nat n)) = Some bs.
Proof.
  intros H. destruct (mem_read_size _ _ _ _ H) as [Hs _].
  destruct (mem_from_prefix _ _ _ _ _ H Hs) as [Hl Ht]. unfold na_bytes, pointer_to. cbn.
  rewrite decide_True by lia. by rewrite Nat2Z.id, Ht.
Qed.

Section Writing.
Context `{HHost : Host} `{HPool : Pool}.
#[local] Existing Instance log_link.
Implicit Types (s : fsys (list rl_msg)).

Definition payload (m : rl_msg) : list Z :=
  match body m with write_file_request _ a => array_contents a | _ => [] end.

(** A request that writes at most a buffer to the handle [id]. *)
Definition writes_to (id : Z) (m : rl_msg) : Prop :=
  ∃ a seq, m = RL_MSG_INIT (write_file_request id a) seq ∧ 0 <= na_length a <= 4096.

(** A controller that takes the bytes written to its handle [id], in requests
    of at most a buffer; [inv out] holds when it has taken the bytes [out]. *)
Context {X : Type} (answer : X → rl_msg → option (X * rl_msg)) (inv : list Z → X → Prop).
Definition takes_writes (id : Z) : Prop := ∀ x out a q bs,
  inv out x → na_bytes a = Some bs → 0 <= na_length a <= 4096 → ∃ x',
    answer x (RL_MSG_INIT (write_file_request id a) q) =
      Some (x', RL_MSG_INIT write_file_answer q) ∧ inv (out ++ bs) x'.

(** One write: the client's packet [pk] gives the bytes [bs]. *)
Context (pk : Z) (p : DosPacket) (hd : Z) (h : rl_client_handle) (s0 : fsys (list rl_msg))
  (bs out0 : list Z).
#[local] Abbreviation src := (dp_Arg2 p).
#[local] Abbreviation n := (dp_Arg3 p).
Hypothesis n_range : 0 <= n < 2147483648.
Hypothesis src_bytes : mem_read (mem s0) src (Z.to_nat n) = Some bs.

(** What a write leaves alone. *)
Definition same_objects s : Prop :=
  mem s = mem s0 ∧ locks s = locks s0 ∧ chandles s = chandles s0 ∧ fhs s = fhs s0 ∧
  root_addr s = root_addr s0 ∧ packets s !! pk = Some p.

Record sent_so_far (sent : Z) s : Prop := {
  sf_range : 0 <= sent <= n;
  sf_objects : same_objects s;
  sf_replies : replies s = replies s0;
  sf_messages : ∃ ms, fs_peer s = fs_peer s0 ++ ms ∧ Forall (writes_to (handle_id h)) ms ∧
    concat (payload <$> ms) = take (Z.to_nat sent) bs
}.

(** The state while the request for the last [l] of [sent] bytes is
    unanswered. *)
Record writing (sent l : Z) s : Prop := {
  wr_sent : sent_so_far sent s;
  wr_last : 0 <= l <= sent;
  wr_pending : ∃ a q, pending s =
    [PendingOp a q pk RL_MSG_WRITE_FILE_ANSWER complete_write_cb (D_write (src + sent - l) l)] ∧
    ∃ data, last (fs_peer s) = Some (RL_MSG_INIT (write_file_request (handle_id h) data) q) ∧
      na_bytes data = Some (take (Z.to_nat l) (drop (Z.to_nat (sent - l)) bs)) ∧
      0 <= na_length data <= 4096
}.

Record write_done s : Prop := {
  wf_pending : pending s = [];
  wf_replies : replies s = replies s0 ++ [(pk, n, 0)];
  wf_mem : mem s = mem s0;
  wf_heap : locks s = locks s0 ∧ chandles s = chandles s0 ∧ fhs s = fhs s0 ∧
    root_addr s = root_addr s0;
  wf_messages : ∃ ms, fs_peer s = fs_peer s0 ++ ms ∧ Forall (writes_to (handle_id h)) ms ∧
    concat (payload <$> ms) = bs
}.

Hypothesis lock_handle : HANDLE_FROM_LOCK s0 (dp_Arg1 p) = Some hd.
Hypothesis handle_there : chandles s0 !! hd = Some h.

Lemma same_objects_handle s :
  same_objects s → HANDLE_FROM_LOCK s (dp_Arg1 p) = Some hd ∧ chandles s !! hd = Some h.
Proof. intros (_ & Hl & Hc & _). unfold HANDLE_FROM_LOCK. by rewrite Hl, Hc. Qed.

(** Sending the next bytes. *)
Lemma send_next sent s a q k cb d0 :
  sent_so_far sent s → pending s = [PendingOp a q pk k cb d0] →
  k = RL_MSG_WRITE_FILE_ANSWER → cb = complete_write_cb →
  let l := Z.min (n - sent) 4096 in
  ∃ s', transmit_write_request s hd a (src + sent) (u32 l) = Some (s', 0) ∧
    writing (sent + l) l s'.
Proof.
  intros [Hr Hobj Hrep (ms & Hpeer & Hms & Hc)] Hpend -> -> l.
  destruct (same_objects_handle s Hobj) as [_ Hh].
  rewrite u32_id by (unfold is_u32; lia).
  unfold transmit_write_request. rewrite Hh. cbn [mbind option_bind]. rewrite Hpend.
  cbn [get_op op_addr]. rewrite Z.eqb_refl. cbn [mbind option_bind update_op op_addr].
  rewrite Z.eqb_refl. unfold fs_transmit. cbn [transmit log_link mbind option_bind].
  eexists. split; [done|].
  assert (Hb : na_bytes (NetArray (pointer_to (mem s) (src + sent)) l) =
               Some (take (Z.to_nat l) (drop (Z.to_nat sent) bs))).
  { rewrite <- (Z2Nat.id l), Nat2Z.id by lia. apply pointer_to_bytes. destruct Hobj as [-> _].
    rewrite <- (Z2Nat.id sent) at 1 by lia. eapply mem_read_sub; [exact src_bytes|lia]. }
  split; [split|lia|].
  - lia.
  - done.
  - done.
  - cbn. rewrite Hpeer. exists (ms ++ [RL_MSG_INIT (write_file_request (handle_id h)
      (NetArray (pointer_to (mem s) (src + sent)) l)) q]).
    rewrite app_assoc. split; [done|]. split.
    + apply Forall_app. split; [done|]. apply Forall_singleton. eexists _, _. split; [done|].
      cbn. lia.
    + rewrite fmap_app, concat_app, Hc. cbn. unfold array_contents. rewrite Hb. cbn [default].
      rewrite app_nil_r, Z2Nat.inj_add by lia. apply take_take_drop.
  - exists a, q. cbn. replace (src + (sent + l) - l) with (src + sent) by lia. split; [done|].
    eexists. rewrite last_snoc. split; [done|]. rewrite Z.add_simpl_r. split; [done|]. cbn. lia.
Qed.

Lemma exchange_writes fuel sent l x s :
  takes_writes (handle_id h) → writing sent l s →
  inv (out0 ++ take (Z.to_nat (sent - l)) bs) x → n - sent < Z.of_nat fuel →
  ∃ x' s', exchange answer fuel x s = Some (x', s') ∧ inv (out0 ++ bs) x' ∧ write_done s'.
Proof.
  intros Htakes. revert sent l x s. induction fuel as [|fuel IH];
    intros sent l x s [Hs Hl (a & q & Hpend & data & Hlast & Hdata & Hshort)] Hx Hf.
  { destruct Hs. lia. }
  destruct (Htakes x _ data q _ Hx Hdata Hshort) as (x1 & Hans & Hx1).
  rewrite <- app_assoc, take_take_drop, <- Z2Nat.inj_add, Z.sub_add in Hx1 by lia.
  cbn [exchange]. rewrite Hpend, Hlast. cbn [mbind option_bind]. rewrite Hans.
  cbn [mbind option_bind].
  unfold rl_amigafs_process_network_message, find_pending_op. rewrite Hpend.
  cbn [find_op hdr_seq request_seqno RL_MSG_INIT]. rewrite Z.eqb_refl.
  change (rl_msg_kind_of _ =? expected_answer_type _) with true.
  cbn [callback run_callback].
  destruct (sf_objects _ _ Hs) as (Hm & Hlk & Hch & Hfh & Hroot & Hp).
  destruct (same_objects_handle s (sf_objects _ _ Hs)) as [Hlock _].
  unfold complete_write. cbn [input_packet]. rewrite Hp. cbn [mbind option_bind].
  rewrite Hlock. cbn [mbind option_bind detail op_addr].
  replace (src + sent - l + l) with (src + sent) by lia.
  destruct (src + sent <? src + n) eqn:E.
  - replace (src + n - (src + sent)) with (n - sent) by lia.
    rewrite Hpend. cbn [update_op op_addr]. rewrite Z.eqb_refl. cbn [set_op_seqno].
    edestruct (send_next sent) as (s1 & Ht & Hs1); cycle 4.
    + rewrite Ht. cbn. apply (IH _ _ x1 _ Hs1); [by rewrite Z.add_simpl_r|lia].
    + destruct Hs. by split.
    + done.
    + done.
    + done.
  - destruct Hs as [Hr _ Hrep Hms].
    erewrite answer_packet_ok by done. cbn [mbind option_bind].
    assert (sent = n) as -> by lia.
    assert (Hlen : take (Z.to_nat n) bs = bs)
      by (apply mem_read_lookup in src_bytes as [? _]; apply take_ge; lia).
    rewrite Hlen in Hx1, Hms. exists x1. eexists. split; [|split; [done|]].
    + destruct fuel; cbn; rewrite Hpend; cbn; by rewrite Z.eqb_refl.
    + split; cbn; [|by rewrite Hrep|done..].
      rewrite Hpend. cbn. by rewrite Z.eqb_refl.
Qed.

(** A write to any controller that takes the bytes. *)
Lemma action_write_any fuel x :
  takes_writes (handle_id h) → inv out0 x →
  packets s0 !! pk = Some p → dp_Type p = ACTION_WRITE →
  pending s0 = [] → pool_alloc (used s0) ≠ None → (Z.to_nat n < fuel)%nat →
  ∃ x' s', session answer fuel x s0 pk = Some (x', s') ∧ inv (out0 ++ bs) x' ∧ write_done s'.
Proof.
  intros Htakes Hx Hp Ht Hpend Hpool Hfuel.
  unfold session, process_fs_packet. rewrite Hp. cbn [mbind option_bind]. rewrite Ht.
  change (packet_handler ACTION_WRITE) with (Some (action_write (P := list rl_msg))). cbv iota.
  unfold action_write. rewrite Hp. cbn [mbind option_bind]. rewrite lock_handle.
  cbn [mbind option_bind]. unfold alloc_pending.
  destruct (pool_alloc (used s0)) as [a|]; [|done]. rewrite Hpend.
  set (op := PendingOp _ _ _ _ _ _). set (s1 := set_pending _ _).
  destruct (send_next 0 s1 a (seqno s0) RL_MSG_WRITE_FILE_ANSWER complete_write_cb D_zero)
    as (s2 & He & Hs2); [|done..|].
  - split; try done; [lia|]. exists []. by rewrite app_nil_r.
  - rewrite Z.sub_0_r, Z.add_0_r in He. rewrite He. cbn.
    apply (exchange_writes fuel _ _ x s2 Htakes Hs2); [|lia].
    by rewrite Z.add_simpl_r, take_0, app_nil_r.
Qed.
End Writing.

(** The controller acknowledges every write. *)
Definition server_ack (req : rl_msg) : option rl_msg :=
  match body req with
  | write_file_request _ _ => Some (RL_MSG_INIT write_file_answer (hdr_seq req))
  | _ => None
  end.

Section WriteFacts.
Context `{HHost : Host} `{HPool : Pool}.
#[local] Existing Instance log_link.

(** C16: a write sends the client's bytes to the controller exactly once and in
    order, in requests of at most 4096 bytes for the handle of the file, and
    the packet is answered with their number when the last request has been
    acknowledged; the client's memory is untouched. *)
Theorem action_write_sends pk p hd h (s0 : fsys (list rl_msg)) bs fuel :
  0 <= dp_Arg3 p < 2147483648 →
  mem_read (mem s0) (dp_Arg2 p) (Z.to_nat (dp_Arg3 p)) = Some bs →
  packets s0 !! pk = Some p → dp_Type p = ACTION_WRITE →
  HANDLE_FROM_LOCK s0 (dp_Arg1 p) = Some hd → chandles s0 !! hd = Some h →
  pending s0 = [] → pool_alloc (used s0) ≠ None → (Z.to_nat (dp_Arg3 p) < fuel)%nat →
  ∃ s', session (stateless server_ack) fuel tt s0 pk = Some (tt, s') ∧
    write_done pk p h s0 bs s'.
Proof.
  intros. edestruct (action_write_any (stateless server_ack) (λ _ _, True) pk p hd h s0 bs [])
    as ([] & s' & He & _ & Hd); eauto.
  by intros [] out a q bs' _ _ _; exists tt.
Qed.
End WriteFacts.

(** ** Seeking *)
Section Seeking.
Context `{HHost : Host} `{HPool : Pool} {P : Type} `{Link : PeerLink P}.
Implicit Types (s : fsys P).

(** The position a seek asks for. *)
Definition seek_position (h : rl_client_handle) (p : DosPacket) : Z :=
  if decide (dp_Arg3 p = OFFSET_BEGINNING) then dp_Arg2 p
  else if decide (dp_Arg3 p = OFFSET_CURRENT) then offset_lo h + dp_Arg2 p
  else if decide (dp_Arg3 p = OFFSET_END) then size_lo h + dp_Arg2 p
  else offset_lo h.

(** C30: a seek in a file of less than 2 GB goes to the position it asks for
    when that lies in the file, and otherwise, before the start as well as
    behind the end, to the end of the file; it never fails, answers the
    position it left, and changes nothing else. *)
Theorem action_seek_spec s pk p hd h :
  packets s !! pk = Some p → dp_Type p = ACTION_SEEK →
  HANDLE_FROM_LOCK s (dp_Arg1 p) = Some hd → chandles s !! hd = Some h →
  0 <= offset_lo h <= size_lo h → size_lo h < 2147483648 →
  -2147483648 <= dp_Arg2 p < 2147483648 →
  let target := seek_position h p in
  let h' := set_offset (if decide (0 <= target <= size_lo h) then target else size_lo h) h in
  ∃ s', process_fs_packet s pk = Some s' ∧ replies s' = replies s ++ [(pk, offset_lo h, 0)] ∧
    chandles s' = <[hd := h']> (chandles s) ∧ pending s' = pending s ∧ locks s' = locks s ∧
    mem s' = mem s.
Proof.
  intros Hp Ht Hl Hh Ho Hs Ha target h'.
  unfold process_fs_packet. rewrite Hp. cbn [mbind option_bind]. rewrite Ht.
  change (packet_handler ACTION_SEEK) with (Some (action_seek (P := P))). cbv iota.
  unfold action_seek. rewrite Hp. cbn [mbind option_bind]. rewrite Hl. cbn [mbind option_bind].
  rewrite Hh. cbn [mbind option_bind]. rewrite !s32_id by lia.
  erewrite answer_packet_ok by done. eexists. split; [done|]. split; [done|].
  split; [|done]. cbn. f_equal. unfold h'. f_equal.
  assert (Hw : ∀ z, -2147483648 <= z < 4294967296 →
    (if size_lo h <? u32 z then size_lo h else u32 z) =
    if decide (0 <= z <= size_lo h) then z else size_lo h).
  { intros z Hz. destruct (decide (0 <= z)).
    - rewrite u32_id by (unfold is_u32; lia). case_decide; case_match; lia.
    - rewrite u32_neg by lia. case_decide; case_match; lia. }
  unfold target, seek_position, OFFSET_BEGINNING, OFFSET_CURRENT, OFFSET_END.
  destruct (Z.eqb_spec (dp_Arg3 p) (-1)) as [E1|E1];
    [rewrite (decide_True (P := dp_Arg3 p = -1)) by done; apply Hw; lia|].
  destruct (Z.eqb_spec (dp_Arg3 p) 0) as [E2|E2];
    [rewrite (decide_False (P := dp_Arg3 p = -1)), (decide_True (P := dp_Arg3 p = 0)) by done;
     apply Hw; lia|].
  destruct (Z.eqb_spec (dp_Arg3 p) 1) as [E3|E3];
    rewrite (decide_False (P := dp_Arg3 p = -1)), (decide_False (P := dp_Arg3 p = 0)) by done.
  - rewrite (decide_True (P := dp_Arg3 p = 1)) by done. apply Hw; lia.
  - rewrite (decide_False (P := dp_Arg3 p = 1)) by done.
    rewrite decide_True by lia. case_match; lia.
Qed.
End Seeking.

(** ** Concrete runs *)

(** The bytes 2 to 7 of a file of ten bytes, from a controller that sends three
    bytes at a time. *)
Definition demo_file : list Z := chars "ABCDEFGHIJ".
Definition demo_read : DosPacket := Packet ACTION_READ 128 1000 6 0 0 0 3000.

Lemma action_read_fills_witness :
  ∃ s', session (HHost := demo_host) (HPool := bump_pool)
          (stateless (server_answer demo_file (λ _, 3%nat))) 7 tt (demo_fs demo_read) 500 =
          Some (tt, s') ∧
    read_done demo_file 7 500 demo_read 256 2 (demo_fs demo_read) s'.
Proof.
  refine (action_read_fills (HHost := demo_host) (HPool := bump_pool) demo_file (λ _, 3%nat)
    500 demo_read 256 2 (demo_fs demo_read) demo_handle 7 _ _ _ _ _ _ _ _ _ _ _ _ _ _).
  - by vm_compute.
  - cbn. lia.
  - cbn. lia.
  - by vm_compute.
  - intros i Hi. cbn [demo_read dp_Arg3] in Hi.
    assert (i = 0 ∨ i = 1 ∨ i = 2 ∨ i = 3 ∨ i = 4 ∨ i = 5) as Hc by lia.
    destruct Hc as [->|[->|[->|[->|[->| ->]]]]]; vm_compute; eauto.
  - done.
  - done.
  - done.
  - done.
  - split; by vm_compute.
  - done.
  - done.
  - by vm_compute.
  - cbn. lia.
Defined.

Definition demo_write : DosPacket := Packet ACTION_WRITE 128 1002 5 0 0 0 3000.

Lemma action_write_sends_witness :
  ∃ s', session (HHost := demo_host) (HPool := bump_pool) (stateless server_ack) 6 tt
          (demo_fs demo_write) 500 = Some (tt, s') ∧
    write_done 500 demo_write demo_handle (demo_fs demo_write) (chars "23456") s'.
Proof.
  refine (action_write_sends (HHost := demo_host) (HPool := bump_pool) 500 demo_write 256
    demo_handle (demo_fs demo_write) (chars "23456") 6 _ _ _ _ _ _ _ _ _).
  - cbn. lia.
  - by vm_compute.
  - done.
  - done.
  - done.
  - done.
  - done.
  - by vm_compute.
  - cbn. lia.
Defined.

Definition demo_seek : DosPacket := Packet ACTION_SEEK 128 (-5) OFFSET_CURRENT 0 0 0 3000.

(** Five bytes back from position 2: the seek ends at the end of the file. *)
Lemma action_seek_spec_witness :
  ∃ s', process_fs_packet (HHost := demo_host) (HPool := bump_pool) (Link := log_link)
          (demo_fs demo_seek) 500 = Some s' ∧ replies s' = [] ++ [(500, 2, 0)] ∧
    chandles s' = <[256 := set_offset 10 demo_handle]> (chandles (demo_fs demo_seek)) ∧
    pending s' = [] ∧ locks s' = locks (demo_fs demo_seek) ∧ mem s' = mem (demo_fs demo_seek).
Proof.
  refine (action_seek_spec (HHost := demo_host) (HPool := bump_pool) (Link := log_link)
    (demo_fs demo_seek) 500 demo_seek 256 demo_handle _ _ _ _ _ _ _); cbn; (done || lia).
Defined.
