(* ===== verification/AmigaSession.v ===== *)
(** * AmigaSession: a program on the Amiga and the file server together

    The file system of the target with the file server of the controller at
    the other end of the connection: the answers of AmigaIo are now those of
    [rl_file_serve].  A file that is opened and read piece by piece gives the
    bytes of the file on the host. *)

From S2P Require Import Prelude Wire Messages CString Format Transport Peer FileServer.
From S2P Require Import AmigaFs AmigaActions AmigaIo.

(** ** The controller at the other end *)
Section Controller.
Context `{HHost : Host} {O : Type} `{OS : FileServer.Posix O}.
Context (rl_log_bits : Z).
#[local] Existing Instance log_link.
#[local] Abbreviation host := (FileServer.rl_controller * O)%type.

(** The file server answers a request; its peer is the list of its answers. *)
Definition controller_answer (x : host) (req : rl_msg) : option (host * rl_msg) :=
  '(out, c, o, _) ← FileServer.rl_file_serve rl_log_bits [] x.1 x.2 req;
  ans ← head out;
  Some (c, o, ans).

Lemma answer_open c o path root i sz fd o' n q :
  FileServer.ctl_ok c → wf_string path → is_u32 q →
  cstr_at (FileServer.native_path (FileServer.root_handle c)) = Some root →
  let native := take 259 (root ++ 47 :: path) in
  FileServer.find_slot (FileServer.handles c) = Some i →
  FileServer.stat o native = Some (false, sz) →
  FileServer.os_open o native (FileServer.OpenFlags FileServer.O_RDONLY false false) = (o', fd) →
  fd ≠ -1 → FileServer.fstat_size o' fd = Some n →
  ∃ c' f, controller_answer (c, o) (RL_MSG_INIT (open_handle_request path RL_OPENFLAG_READ) q) =
      Some (c', o', RL_MSG_INIT (open_handle_answer (Z.of_nat i) (u32 n) RL_NODE_TYPE_FILE) q) ∧
    FileServer.handles c' !! i = Some f ∧ FileServer.handle f = fd ∧
    (i < FileServer.RL_MAX_FILE_HANDLES)%nat.
Proof.
  intros Hc Hp Hq Hroot native Hi Hst Hop Hfd Hn.
  set (msg := RL_MSG_INIT (open_handle_request path RL_OPENFLAG_READ) q).
  assert (Hm : wf_msg msg).
  { split; [done|by vm_compute|done|]. split; [done|by vm_compute]. }
  destruct (FileServer.open_file_spec (Link := log_link) [] c o [] msg path i root sz fd o' n
    eq_refl Hc Hm eq_refl Hroot Hi Hst Hop Hfd Hn) as (p' & c' & f & Hrun & Hlink & _ & Hilt & _ & Hf & Hh & _).
  destruct Hlink as [Hlink|[]]. exists c', f. split; [|done].
  unfold controller_answer, FileServer.rl_file_serve.
  change (rl_msg_kind_of msg) with RL_MSG_OPEN_HANDLE_REQUEST.
  cbn [Z.eqb Pos.eqb fst snd]. rewrite Hrun. cbn [mbind option_bind]. by rewrite Hlink.
Qed.

Lemma answer_read c o i f d :
  (i < FileServer.RL_MAX_FILE_HANDLES)%nat → FileServer.handles c !! i = Some f →
  FileServer.handle f ≠ 0 → FileServer.file_data o (FileServer.handle f) = Some d →
  reads_file d (λ _, FileServer.read_buffer_size) controller_answer (eq (c, o)) (Z.of_nat i).
Proof.
  intros Hi Hf Hz Hd x hi lo len q <- Hlo. exists (c, o). split; [|done].
  unfold controller_answer, FileServer.rl_file_serve.
  change (rl_msg_kind_of _) with RL_MSG_READ_FILE_REQUEST. cbn [Z.eqb Pos.eqb fst snd].
  unfold FileServer.read_file_request_. cbn [body RL_MSG_INIT].
  rewrite FileServer.slot_id by done. cbn [FileServer.deref]. rewrite Hf.
  cbn [mbind option_bind]. rewrite (proj2 (Z.eqb_neq 0 _)) by done.
  by rewrite (FileServer.pread_data _ _ _ _ d Hd) by done.
Qed.
End Controller.

(** ** Opening *)

(** The name of a file without its device. *)
Definition file_part (s : list Z) : list Z :=
  match list_find (λ c, c = 58) s with Some (i, _) => drop (S i) s | None => s end.

Lemma skip_device_ok p s :
  cstr_at p = Some s → ∃ q, skip_device p = Some q ∧ cstr_at q = Some (file_part s).
Proof.
  intros (Hs & q & ->)%cstr_at_Some. unfold skip_device, file_part.
  destruct (list_find (λ c, c = 58) s) as [[i c]|] eqn:E.
  - apply list_find_Some in E as (Hi & -> & Hbefore).
    assert (s ++ 0 :: q = take i s ++ 58 :: drop (S i) s ++ 0 :: q) as ->.
    { rewrite <- (take_drop_middle s i 58 Hi) at 1. by rewrite <- app_assoc. }
    rewrite rl_strchr_found; [| |by apply Forall_take].
    + cbn. eexists. split; [done|]. apply cstr_at_app. by apply Forall_drop.
    + intros [j Hj]%list_elem_of_lookup. apply lookup_take_Some in Hj as [Hj Hlt].
      by eapply Hbefore.
  - rewrite rl_strchr_null; [| |done|done].
    2:{ apply list_find_None in E. rewrite Forall_forall in E. intros H. by apply (E 58). }
    eexists. split; [done|]. by apply cstr_at_app.
Qed.

Section Open.
Context `{HHost : Host} `{HPool : Pool}.
#[local] Existing Instance log_link.
Implicit Types (s : fsys (list rl_msg)).
Context {X : Type} (answer : X → rl_msg → option (X * rl_msg)).

(** A handle that has just been opened. *)
Definition fresh_handle (ty : rl_client_handle_type) (id n : Z) (name : list Z)
  : rl_client_handle :=
  ClientHandle id ty 0 0 n 0 name 0 0 buffer_zero.

(** The state after a successful open of the file handle at [fh], with the new
    lock [l] and handle [hh]. *)
Record opened s0 (ty : rl_client_handle_type) (pk fh l hh id n : Z) s : Prop := {
  op_pending : pending s = [];
  op_replies : replies s = replies s0 ++ [(pk, DOSTRUE, 0)];
  op_fhs : fhs s = <[fh := DosHandle (device_port s0) l]> (fhs s0);
  op_locks : ∃ lk, locks s = <[l := lk]> (locks s0) ∧ fl_Key lk = hh;
  op_handles : ∃ name, chandles s = <[hh := fresh_handle ty id n name]> (chandles s0);
  op_mem : mem s = mem s0;
  op_root : root_addr s = root_addr s0
}.

Lemma new_lock s ty id access n name full l hh :
  cstr_at name = Some full →
  pool_alloc (used s) = Some l → pool_alloc ({[l]} ∪ used s) = Some hh →
  ∃ m lk, fl_Key lk = hh ∧ cstr_at m = Some (take 107 full) ∧
    allocate_lock s ty id access name n =
      Some (Some l, put_lock l lk (put_handle hh (fresh_handle ty id n m)
                                     (put_lock l (Lock 0 0 0 0) s))).
Proof.
  intros Hname Hl Hh. unfold allocate_lock. rewrite Hl. cbv zeta.
  assert (used (put_lock l (Lock 0 0 0 0) s) = {[l]} ∪ used s) as ->.
  { unfold used. cbn. rewrite dom_insert_L. set_solver. }
  rewrite Hh, (rl_string_copy_ok _ _ _ full) by first [done|vm_compute; lia].
  cbn [mbind option_bind]. eexists _, (Lock _ _ _ _). split; [done|]. split; [|done].
  rewrite <- app_assoc. apply cstr_at_app. apply Forall_take. by apply cstr_at_Some in Hname as [].
Qed.

(** The answer to the open request of [op], the only operation. *)
Lemma file_opened s0 s op p full id n f0 l hh q :
  pending s = [op] → expected_answer_type op = RL_MSG_OPEN_HANDLE_ANSWER →
  callback op = complete_findinput_cb → request_seqno op = q →
  packets s !! input_packet op = Some p →
  cstr_at (pointer_to (mem s) (BCPL_CAST (dp_Arg3 p) + 1)) = Some full →
  fhs s !! BCPL_CAST (dp_Arg1 p) = Some f0 →
  pool_alloc (used s) = Some l → pool_alloc ({[l]} ∪ used s) = Some hh →
  replies s = replies s0 → fhs s = fhs s0 → locks s = locks s0 → chandles s = chandles s0 →
  mem s = mem s0 → root_addr s = root_addr s0 → device_port s = device_port s0 →
  ∃ s', rl_amigafs_process_network_message s
      (RL_MSG_INIT (open_handle_answer id n RL_NODE_TYPE_FILE) q) = Some (s', 0) ∧
    opened s0 RL_HANDLE_FILE (input_packet op) (BCPL_CAST (dp_Arg1 p)) l hh id n s' ∧
    fs_peer s' = fs_peer s.
Proof.
  intros Hpend Ht Hcb Hq Hp Hfull Hfh Hl Hhh Er Ef El Ec Em Ea Ed.
  unfold rl_amigafs_process_network_message, find_pending_op. rewrite Hpend.
  cbn [find_op hdr_seq RL_MSG_INIT]. rewrite Hq, Z.eqb_refl, Ht.
  change (rl_msg_kind_of _ =? RL_MSG_OPEN_HANDLE_ANSWER) with true. cbv iota.
  rewrite Hcb. cbn [run_callback]. unfold complete_findinput. rewrite Hp.
  cbn [mbind option_bind body RL_MSG_INIT].
  change (negb (RL_NODE_TYPE_FILE =? RL_NODE_TYPE_FILE)) with false. cbv iota.
  destruct (new_lock s RL_HANDLE_FILE id SHARED_LOCK n _ full l hh Hfull Hl Hhh) as (m & lk & Hkey & _ & ->).
  cbn [mbind option_bind]. set (s2 := put_lock l lk _).
  unfold set_result. change (packets s2) with (packets s). rewrite Hp.
  cbn [mbind option_bind]. unfold open_file_handle.
  change (fhs (set_packets _ s2)) with (fhs s). rewrite Hfh. cbn [mbind option_bind].
  unfold reply_to_packet. cbn [packets set_fhs set_packets]. rewrite lookup_insert_eq.
  cbn [mbind option_bind]. eexists. split; [done|]. split; [|done]. split; cbn; try congruence.
  - rewrite Hpend. cbn. by rewrite Z.eqb_refl.
  - exists lk. split; [|done]. by rewrite insert_insert_eq, El.
  - exists m. by rewrite Ec.
Qed.

(** Opening an existing file for input: one request and its answer. *)
Lemma findinput_opens s0 x x' pk p full id n f0 a l hh :
  packets s0 !! pk = Some p → dp_Type p = ACTION_FINDINPUT →
  cstr_at (pointer_to (mem s0) (BCPL_CAST (dp_Arg3 p) + 1)) = Some full →
  file_part full ≠ chars "+virtual-input+" →
  fhs s0 !! BCPL_CAST (dp_Arg1 p) = Some f0 → pending s0 = [] →
  pool_alloc (used s0) = Some a → pool_alloc ({[a]} ∪ used s0) = Some l →
  pool_alloc ({[l]} ∪ ({[a]} ∪ used s0)) = Some hh →
  answer x (RL_MSG_INIT (open_handle_request (file_part full) RL_OPENFLAG_READ) (seqno s0)) =
    Some (x', RL_MSG_INIT (open_handle_answer id n RL_NODE_TYPE_FILE) (seqno s0)) →
  ∃ s, session answer 1 x s0 pk = Some (x', s) ∧
    opened s0 RL_HANDLE_FILE pk (BCPL_CAST (dp_Arg1 p)) l hh id n s ∧
    fs_peer s = fs_peer s0 ++
      [RL_MSG_INIT (open_handle_request (file_part full) RL_OPENFLAG_READ) (seqno s0)].
Proof.
  intros Hp Ht Hfull Hvirtual Hfh Hpend Ha Hl Hhh Hans.
  unfold session, process_fs_packet. rewrite Hp. cbn [mbind option_bind]. rewrite Ht.
  change (packet_handler ACTION_FINDINPUT) with (Some (action_findinput (P := list rl_msg))).
  cbv iota. unfold action_findinput. rewrite Hp. cbn [mbind option_bind].
  destruct (skip_device_ok _ _ Hfull) as (q & -> & Hq). cbn [mbind option_bind].
  destruct (rl_strcmp_eq q RLAUNCH_VIRTUAL_INPUT_FILE (file_part full) (chars "+virtual-input+"))
    as (cmp & -> & Hcmp); [done|by vm_compute|]. cbn [mbind option_bind].
  rewrite (proj2 (Z.eqb_neq cmp 0)) by tauto.
  unfold alloc_pending. rewrite Ha, Hpend. cbv zeta.
  cbn [pending set_pending get_op op_addr]. rewrite Z.eqb_refl. cbn [mbind option_bind].
  rewrite Hq. cbn [mbind option_bind request_seqno]. unfold fs_transmit.
  cbn [transmit log_link mbind option_bind Z.eqb negb]. set (op := PendingOp a _ _ _ _ _).
  cbn [exchange pending set_peer set_pending fs_peer]. rewrite last_snoc.
  cbn [mbind option_bind]. rewrite Hans. cbn [mbind option_bind].
  set (s1 := set_peer _ _).
  assert (used s1 = {[a]} ∪ used s0) as Hused.
  { unfold used. change (op_addr <$> pending s1) with [a]. rewrite Hpend. cbn. set_solver. }
  destruct (file_opened s0 s1 op p full id n f0 l hh (seqno s0)) as (s' & -> & Hop & Hsent);
    try done; [by rewrite Hused..|].
  cbn [mbind option_bind]. rewrite (op_pending _ _ _ _ _ _ _ _ _ Hop). eexists.
  split; [done|]. split; [done|]. by rewrite Hsent.
Qed.
End Open.

(** ** Reading an open file piece by piece *)
Section ReadPieces.
Context `{HHost : Host} `{HPool : Pool}.
#[local] Existing Instance log_link.
Implicit Types (s : fsys (list rl_msg)).
Context {X : Type} (answer : X → rl_msg → option (X * rl_msg)).

(** A client that reads: it sends the packet [pk] for each piece, a number of
    bytes at an address, and takes as many bytes as the answer says. *)
Definition read_packet (f : FileHandle) (piece : Z * Z) (port : Z) : DosPacket :=
  Packet ACTION_READ (fh_Arg1 f) piece.1 piece.2 0 0 0 port.

Fixpoint read_pieces (fuel : nat) (x : X) s (fh pk port : Z) (pieces : list (Z * Z))
  : option (X * fsys (list rl_msg) * list Z) :=
  match pieces with
  | [] => Some (x, s, [])
  | piece :: pieces =>
      f ← fhs s !! fh;
      '(x, s) ← session answer fuel x
        (set_packets (<[pk := read_packet f piece port]> (packets s)) s) pk;
      '(_, n, _) ← last (replies s);
      bytes ← mem_read (mem s) piece.1 (Z.to_nat n);
      '(x, s, rest) ← read_pieces fuel x s fh pk port pieces;
      Some (x, s, bytes ++ rest)
  end.

(** The file of the handle [hd] stands at [off]. *)
Record at_position (d : list Z) (M U : gset Z) (id fh hd off : Z) s : Prop := {
  ap_pending : pending s = [];
  ap_fh : ∃ f lk, fhs s !! fh = Some f ∧ locks s !! fh_Arg1 f = Some lk ∧ fl_Key lk = hd;
  ap_handle : ∃ h, chandles s !! hd = Some h ∧ coherent d h ∧ offset_lo h = off ∧
                handle_id h = id;
  ap_used : used s = U;
  ap_mem : dom (mem s) = M
}.

Context (d : list Z) (chunk : Z → nat) (inv : X → Prop) (M U : gset Z) (id fh hd : Z).
Hypothesis d_size : Z.of_nat (length d) < 2147483648.
Hypothesis chunk_size : ∀ lo, (0 < chunk lo)%nat ∧ Z.of_nat (chunk lo) <= 4096.
Hypothesis answer_reads : reads_file d chunk answer inv id.
Hypothesis pool_serves : pool_alloc U ≠ None.

Definition piece_ok (fuel : nat) (piece : Z * Z) : Prop :=
  0 <= piece.2 < 2147483648 ∧ (Z.to_nat piece.2 < fuel)%nat ∧
  ∀ i, 0 <= i < piece.2 → piece.1 + i ∈ M.

Lemma read_piece fuel x s pk port off piece f :
  inv x → at_position d M U id fh hd off s → fhs s !! fh = Some f → piece_ok fuel piece →
  let bytes := window d off piece.2 in
  ∃ x' s', session answer fuel x
      (set_packets (<[pk := read_packet f piece port]> (packets s)) s) pk = Some (x', s') ∧
    inv x' ∧ at_position d M U id fh hd (off + Z.of_nat (length bytes)) s' ∧
    last (replies s') = Some (pk, Z.of_nat (length bytes), 0) ∧
    mem_read (mem s') piece.1 (length bytes) = Some bytes.
Proof.
  intros Hx [Hpend (f' & lk & Hf' & Hlk & Hkey) (h & Hh & Hco & Hoff & Hid) Hused Hmem] Hf
    (Hn & Hfuel & Hdst) bytes.
  assert (f' = f) as -> by congruence. set (s0 := set_packets _ s).
  destruct (action_read_any d chunk d_size chunk_size answer inv id pk (read_packet f piece port)
    hd off s0 ltac:(done) ltac:(destruct Hco; lia)) with (h := h) (x := x) (fuel := fuel)
    as (x' & s' & He & Hx' & Hd); try done.
  - intros i Hi. apply elem_of_dom. change (mem s0) with (mem s). rewrite Hmem. by apply Hdst.
  - apply lookup_insert_eq.
  - unfold HANDLE_FROM_LOCK. change (locks s0) with (locks s). cbn. rewrite Hlk. cbn. by rewrite Hkey.
  - by change (used s0) with (used s); rewrite Hused.
  - exists x', s'. split; [done|]. split; [done|].
    destruct Hd as [Hp Hr Hm [Hdom _] (Hlocks & Hfhs & Hroot & Hch) (h' & Hh' & Ho' & Hco' & Hid')].
    split; [split|split].
    + done.
    + exists f, lk. by rewrite Hfhs, Hlocks.
    + by exists h'.
    + rewrite <- Hused. unfold used. rewrite Hlocks, Hch, Hroot, Hp.
      by rewrite Hpend.
    + by rewrite Hdom.
    + rewrite Hr. apply last_snoc.
    + done.
Qed.

Definition total (pieces : list (Z * Z)) : Z := foldr Z.add 0 (snd <$> pieces).

Lemma total_nonneg fuel pieces : Forall (piece_ok fuel) pieces → 0 <= total pieces.
Proof.
  induction 1 as [|piece pieces (Hn & _) _ IH]; [done|].
  change (total (piece :: pieces)) with (piece.2 + total pieces). lia.
Qed.

(** The pieces make up the file from the position on. *)
Lemma read_pieces_ok fuel x s pk port off pieces :
  inv x → at_position d M U id fh hd off s → Forall (piece_ok fuel) pieces →
  ∃ x' s' off', read_pieces fuel x s fh pk port pieces =
      Some (x', s', window d off (total pieces)) ∧
    inv x' ∧ at_position d M U id fh hd off' s'.
Proof.
  intros Hx Hs Hall. revert x s off Hx Hs. induction Hall as [|piece pieces Hpiece Hall IH];
    intros x s off Hx Hs.
  { exists x, s, off. split; [|done]. unfold window. by rewrite take_0. }
  destruct (ap_fh _ _ _ _ _ _ _ _ Hs) as (f & lk & Hf & _). cbn [read_pieces]. rewrite Hf.
  cbn [mbind option_bind].
  destruct (read_piece fuel x s pk port off piece f Hx Hs Hf Hpiece)
    as (x1 & s1 & -> & Hx1 & Hs1 & Hl & Hm).
  destruct (ap_handle _ _ _ _ _ _ _ _ Hs) as (h & _ & Hco & Hoff & _). destruct Hco as [Ho _ _ _ _ _ _].
  rewrite Hoff in Ho. cbn [mbind option_bind]. rewrite Hl. cbn [mbind option_bind].
  rewrite Nat2Z.id, Hm. cbn [mbind option_bind].
  destruct (IH x1 s1 _ Hx1 Hs1) as (x2 & s2 & off2 & -> & Hx2 & Hs2). cbn [mbind option_bind].
  exists x2, s2, off2. split; [|done]. do 2 f_equal.
  change (total (piece :: pieces)) with (piece.2 + total pieces).
  destruct Hpiece as (Hn & _). pose proof (total_nonneg _ _ Hall).
  destruct (Z.le_gt_cases piece.2 (Z.of_nat (length d) - off)).
  - rewrite window_length by lia. rewrite Z.min_l, Z.max_r by lia. by rewrite window_app by lia.
  - rewrite window_length by lia. rewrite Z.min_r, Z.max_r by lia.
    unfold window. rewrite !(take_ge (drop (Z.to_nat off) d)) by (rewrite length_drop; lia).
    rewrite (drop_ge d (Z.to_nat (off + _))), take_nil by lia. by rewrite app_nil_r.
Qed.
End ReadPieces.

(** ** The whole way *)
Section EndToEnd.
Context (HTarget HController : Host) `{HPool : Pool} {O : Type} `{OS : FileServer.Posix O}.
Context (rl_log_bits : Z).
#[local] Existing Instance log_link.
Implicit Types (s : fsys (list rl_msg)).

#[local] Abbreviation server :=
  (controller_answer (HHost := HController) rl_log_bits).

(** A controller that can open the regular file [path], whose contents are
    [d], and has a free handle [i]. *)
Record can_open (c : FileServer.rl_controller) (o o' : O) (path : list Z) (i : nat) (fd : Z)
    (d : list Z) : Prop := {
  can_controller : FileServer.ctl_ok c;
  can_path : wf_string path;
  can_slot : FileServer.find_slot (FileServer.handles c) = Some i;
  can_size : Z.of_nat (length d) < 2147483648;
  can_os : ∃ root sz,
    let native := take 259 (root ++ 47 :: path) in
    cstr_at (FileServer.native_path (FileServer.root_handle c)) = Some root ∧
    FileServer.stat o native = Some (false, sz) ∧
    FileServer.os_open o native (FileServer.OpenFlags FileServer.O_RDONLY false false) = (o', fd);
  can_descriptor : fd ≠ -1 ∧ fd ≠ 0;
  can_stat : FileServer.fstat_size o' fd = Some (Z.of_nat (length d));
  can_data : FileServer.file_data o' fd = Some d
}.

(** The target has memory for the operation, the lock and the handle of an
    open, and for the operation of a read after that. *)
Definition memory_for_open (U : gset Z) (l hh : Z) : Prop :=
  (∃ a, pool_alloc U = Some a ∧ pool_alloc ({[a]} ∪ U) = Some l ∧
     pool_alloc ({[l]} ∪ ({[a]} ∪ U)) = Some hh) ∧
  pool_alloc ({[l; hh]} ∪ U) ≠ None.

(** A program on the Amiga opens a file of the host and reads it piece by piece,
    in pieces of any sizes at any addresses: it gets the bytes of the file in
    order from the first on, as many as the pieces ask for or the file has,
    whatever mixture of buffered and requested bytes serves them. *)
Lemma file_opened_and_read c o o' i fd d s0 pk p full f0 l hh fuel pk2 port pieces :
  can_open c o o' (file_part full) i fd d →
  packets s0 !! pk = Some p → dp_Type p = ACTION_FINDINPUT →
  cstr_at (pointer_to (mem s0) (BCPL_CAST (dp_Arg3 p) + 1)) = Some full →
  file_part full ≠ chars "+virtual-input+" →
  fhs s0 !! BCPL_CAST (dp_Arg1 p) = Some f0 → pending s0 = [] → is_u32 (seqno s0) →
  memory_for_open (used s0) l hh →
  Forall (piece_ok (dom (mem s0)) fuel) pieces →
  ∃ x s1 s2, session (HHost := HTarget) server 1 (c, o) s0 pk = Some (x, s1) ∧
    replies s1 = replies s0 ++ [(pk, DOSTRUE, 0)] ∧ pending s1 = [] ∧
    fs_peer s1 = fs_peer s0 ++
      [RL_MSG_INIT (open_handle_request (file_part full) RL_OPENFLAG_READ) (seqno s0)] ∧
    read_pieces (HHost := HTarget) server fuel x s1 (BCPL_CAST (dp_Arg1 p)) pk2 port pieces =
      Some (x, s2, take (Z.to_nat (total pieces)) d).
Proof.
  intros [Hc Hpath Hslot Hsize (root & sz & Hroot & Hst & Hop) [Hfd Hfd0] Hn Hd]
    Hp Ht Hfull Hvirtual Hfh Hpend Hseq [(a & Ha & Hl & Hhh) Hpool] Hpieces.
  destruct (answer_open (HHost := HController) rl_log_bits c o (file_part full) root i sz fd o' _
    (seqno s0) Hc Hpath Hseq Hroot Hslot Hst Hop Hfd Hn) as (c' & f & Hans & Hf & Hhf & Hi).
  rewrite (u32_id (Z.of_nat _)) in Hans by (unfold is_u32; lia).
  destruct (findinput_opens (HHost := HTarget) server s0 _ _ pk p full _ _ f0 a l hh Hp Ht Hfull Hvirtual Hfh Hpend
    Ha Hl Hhh Hans) as (s1 & He & [Hpend1 Hr1 Hfhs (lk & Hlocks & Hkey) (name & Hch) Hm Hroot1] & Hsent).
  assert (Hread := answer_read (HHost := HController) rl_log_bits c' o' i f d Hi Hf).
  rewrite Hhf in Hread. specialize (Hread Hfd0 Hd).
  destruct (read_pieces_ok (HHost := HTarget) server d (λ _, FileServer.read_buffer_size) (eq (c', o')) (dom (mem s0)) ({[l; hh]} ∪ used s0)
    (Z.of_nat i) (BCPL_CAST (dp_Arg1 p)) hh Hsize ltac:(intros; unfold FileServer.read_buffer_size; lia)
    Hread Hpool fuel (c', o') s1 pk2 port 0 pieces eq_refl) as (x' & s2 & off' & Hrun & <- & _);
    [|done|].
  - split.
    + done.
    + exists (DosHandle (device_port s0) l), lk. rewrite Hfhs, Hlocks. cbn.
      by rewrite !lookup_insert_eq.
    + exists (fresh_handle RL_HANDLE_FILE (Z.of_nat i) (Z.of_nat (length d)) name). rewrite Hch.
      split; [apply lookup_insert_eq|]. split; [|done]. split; cbn; try lia; done.
    + unfold used. rewrite Hpend1, Hlocks, Hch, Hroot1, Hpend, !dom_insert_L. cbn. set_solver.
    + by rewrite Hm.
  - exists (c', o'), s1, s2. do 4 (split; [done|]). rewrite Hrun. unfold window.
    by rewrite drop_0.
Qed.

End EndToEnd.

(** ** Concrete runs *)

(** The packet that opens RL:a, whose name is at 3000, into the file handle at
    1200. *)
Definition demo_find : DosPacket := Packet ACTION_FINDINPUT 300 0 750 0 0 0 5000.

Definition demo_open_fs : fsys (list rl_msg) :=
  Fsys _ [] 1 2000 (Volume 4000 (2 :: cstr "RL") 0 2000 0 ID_DOS_DISK) [] 64 ∅ ∅ {[ 500 := demo_find ]}
    {[ 1200 := DosHandle 0 0 ]} ∅ ∅
    (list_to_map (zip (seqZ 1000 16 ++ seqZ 3000 6)
                      (replicate 16 0 ++ 4 :: cstr "RL:a"))) [].

Lemma demo_can_open :
  can_open FileServer.demo_controller FileServer.demo_os FileServer.demo_os (chars "a") 0 3
    [10; 20; 30; 40; 50] (OS := FileServer.mem_posix).
Proof.
  split; try by vm_compute.
  - apply FileServer.demo_controller_ok.
  - split; [repeat constructor; done|cbn; lia].
  - exists (chars "/w"), 5. done.
Qed.

(** Two bytes and then seven, of a file of five. *)
Definition demo_pieces : list (Z * Z) := [(1000, 2); (1002, 7)].

Lemma range_in_dom (m : gmap Z Z) a n :
  bool_decide (Forall (λ i, i ∈ dom m) (seqZ a n)) = true → ∀ i, a <= i < a + n → i ∈ dom m.
Proof.
  intros H%bool_decide_eq_true i Hi. rewrite Forall_forall in H. apply H, elem_of_seqZ. lia.
Qed.

Lemma demo_pieces_ok : Forall (piece_ok (dom (mem demo_open_fs)) 8) demo_pieces.
Proof.
  pose proof (range_in_dom (mem demo_open_fs) 1000 16 ltac:(by vm_compute)) as Hm.
  repeat constructor; cbn; try lia; intros; apply Hm; lia.
Qed.
