(* ===== verification/AmigaTypes.v ===== *)
(** * AmigaTypes: the heap of the file system stays well formed

    Locks lead to handles, every lock but those on the root has a handle of its
    own, handles hold strings and buffers of the sizes of their arrays, numbers
    are 32 bits wide, and addresses are used once: whatever packets and messages
    arrive. *)

From S2P Require Import Prelude Wire Messages CString Format Transport Peer AmigaFs AmigaActions.
From S2P Require Import AmigaMount AmigaSafety AmigaSession.

(** ** Strings in arrays *)
Lemma string_copy_loop_length mem dest room source mem' dest' room' :
  string_copy_loop mem dest room source = Some (mem', dest', room') → length mem' = length mem.
Proof.
  revert mem dest source. induction room as [|room IH]; intros mem dest source; cbn.
  { by intros [= <- _ _]. }
  destruct source as [|ch source]; [done|]. destruct (ch =? 0); [by intros [= <- _ _]|].
  intros (m & Hm & H)%bind_Some. rewrite (IH _ _ _ H).
  unfold store_byte in Hm. case_decide; [|done]. injection Hm as <-. apply length_insert.
Qed.

(** The copy fits the array and ends in it. *)
Lemma rl_string_copy_typed n mem source mem' rc :
  rl_string_copy n mem source = Some (mem', rc) →
  length mem' = length mem ∧ ∃ text, cstr_at mem' = Some text.
Proof.
  unfold rl_string_copy. intros ([[m d] r] & Hl & H)%bind_Some.
  apply string_copy_loop_length in Hl.
  apply bind_Some in H as (m2 & Hm & [= <- _]). unfold store_byte in Hm.
  case_decide as Hd; [|done]. injection Hm as <-. rewrite length_insert. split; [done|].
  apply (cstr_at_exists _ d). by apply list_lookup_insert_eq.
Qed.

(** ** The types *)
Record chandle_ok (h : rl_client_handle) : Prop := {
  ch_id : is_u32 (handle_id h);
  ch_offset : is_u32 (offset_lo h) ∧ is_u32 (offset_hi h);
  ch_size : is_u32 (size_lo h);
  ch_path : length (path h) = RL_FSCLIENT_MAX_PATH ∧ ∃ text, cstr_at (path h) = Some text;
  ch_buffer : Z.of_nat (length (h_buffer h)) = 4096;
  ch_filled : is_u32 (buffer_start h) ∧ 0 <= buffer_len h <= 4096
}.

Definition addresses {P} (s : fsys P) : list Z := op_addr <$> pending s.

Record fsys_ok {P} (s : fsys P) : Prop := {
  fo_seqno : is_u32 (seqno s);
  fo_handles : ∀ a h, chandles s !! a = Some h → chandle_ok h;
  fo_root : is_Some (chandles s !! root_addr s);
  fo_device : ∀ a h, chandles s !! a = Some h →
    (h_type h = RL_HANDLE_DEVICE ↔ a = root_addr s);
  fo_locks : ∀ l lk, locks s !! l = Some lk → is_Some (chandles s !! fl_Key lk);
  fo_own : ∀ l1 l2 lk1 lk2, locks s !! l1 = Some lk1 → locks s !! l2 = Some lk2 →
    fl_Key lk1 = fl_Key lk2 → l1 = l2 ∨ fl_Key lk1 = root_addr s;
  fo_ops : Forall (λ op, is_u32 (request_seqno op)) (pending s);
  fo_once : NoDup (addresses s) ∧
    (∀ a, a ∈ addresses s → a ∉ dom (locks s) ∧ a ∉ dom (chandles s)) ∧
    dom (locks s) ## dom (chandles s)
}.

Section Types.
Context `{HHost : Host} `{HPool : Pool} {P : Type} `{Link : PeerLink P}.
Implicit Types (s : fsys P) (op : rl_pending_operation).

(** The invariant is about these fields. *)
Definition same_core s s' : Prop :=
  seqno s' = seqno s ∧ chandles s' = chandles s ∧ locks s' = locks s ∧
  pending s' = pending s ∧ root_addr s' = root_addr s.

Lemma core_ok s s' : same_core s s' → fsys_ok s → fsys_ok s'.
Proof.
  intros (Hq & Hc & Hl & Hp & Hr) []. split; unfold addresses in *;
    rewrite ?Hq, ?Hc, ?Hl, ?Hp, ?Hr; done.
Qed.

Lemma set_result_core s pk r1 r2 s' : set_result s pk r1 r2 = Some s' → same_core s s'.
Proof. unfold set_result. by intros (p & _ & [= <-])%bind_Some. Qed.
Lemma reply_core s pk s' : reply_to_packet s pk = Some s' → same_core s s'.
Proof. unfold reply_to_packet. by intros (p & _ & [= <-])%bind_Some. Qed.
Lemma open_file_handle_core s fh lock s' : open_file_handle s fh lock = Some s' → same_core s s'.
Proof. unfold open_file_handle. by intros (p & _ & [= <-])%bind_Some. Qed.
Lemma transmit_core s m s' rc : fs_transmit s m = Some (s', rc) → same_core s s'.
Proof. unfold fs_transmit. by intros ([p r] & _ & [= <- _])%bind_Some. Qed.
Lemma put_fib_core s a f s' : put_fib a f s = Some s' → same_core s s'.
Proof. unfold put_fib. by intros (p & _ & [= <-])%bind_Some. Qed.
Lemma infodata_core s a s' : fill_in_infodata s a = Some s' → same_core s s'.
Proof. unfold fill_in_infodata. by intros (p & _ & [= <-])%bind_Some. Qed.
Lemma copy_core s d b n s' : copy_to_client s d b n = Some s' → same_core s s'.
Proof. unfold copy_to_client. destruct (_ <? _); [done|]. by intros (p & _ & [= <-])%bind_Some. Qed.

Lemma set_result_typed s pk r1 r2 s' : set_result s pk r1 r2 = Some s' → fsys_ok s → fsys_ok s'.
Proof. intros H%set_result_core. by apply core_ok. Qed.
Lemma reply_typed s pk s' : reply_to_packet s pk = Some s' → fsys_ok s → fsys_ok s'.
Proof. intros H%reply_core. by apply core_ok. Qed.
Lemma answer_typed s pk r1 r2 s' : answer_packet s pk r1 r2 = Some s' → fsys_ok s → fsys_ok s'.
Proof.
  unfold answer_packet. intros (s1 & H1 & H2)%bind_Some Hok.
  eapply reply_typed; [done|]. by eapply set_result_typed.
Qed.
Lemma open_file_handle_typed s fh lock s' :
  open_file_handle s fh lock = Some s' → fsys_ok s → fsys_ok s'.
Proof. intros H%open_file_handle_core. by apply core_ok. Qed.
Lemma transmit_typed s m s' rc : fs_transmit s m = Some (s', rc) → fsys_ok s → fsys_ok s'.
Proof. intros H%transmit_core. by apply core_ok. Qed.
Lemma put_fib_typed s a f s' : put_fib a f s = Some s' → fsys_ok s → fsys_ok s'.
Proof. intros H%put_fib_core. by apply core_ok. Qed.
Lemma infodata_typed s a s' : fill_in_infodata s a = Some s' → fsys_ok s → fsys_ok s'.
Proof. intros H%infodata_core. by apply core_ok. Qed.
Lemma copy_typed s d b n s' : copy_to_client s d b n = Some s' → fsys_ok s → fsys_ok s'.
Proof. intros H%copy_core. by apply core_ok. Qed.

(** *** Numbers and operations *)
Lemma seqno_typed s q : fsys_ok s → fsys_ok (set_seqno (u32 q) s).
Proof. intros []. split; try done. apply u32_range. Qed.

Lemma update_op_In l a f op :
  op ∈ update_op l a f → op ∈ l ∨ ∃ op0, op0 ∈ l ∧ op = f op0.
Proof.
  induction l as [|o l IH]; [by intros ?%not_elem_of_nil|]. cbn.
  destruct (op_addr o =? a); intros [->|H]%elem_of_cons.
  - right. exists o. split; [by left|done].
  - left. by right.
  - left. by left.
  - destruct (IH H) as [H1|(o1 & H1 & ->)]; [left; by right|right; exists o1; split; [by right|done]].
Qed.

Lemma update_typed s a f :
  (∀ op, op_addr (f op) = op_addr op) →
  (∀ op, is_u32 (request_seqno op) → is_u32 (request_seqno (f op))) →
  fsys_ok s → fsys_ok (set_pending (update_op (pending s) a f) s).
Proof.
  intros Hf Hq [Hs Hh Hr Hd Hl Ho Hp Hn]. split; try done.
  - apply Forall_forall. cbn. rewrite Forall_forall in Hp.
    intros op [H|(op0 & H & ->)]%update_op_In; auto.
  - unfold addresses in *. cbn. by rewrite update_op_addrs.
Qed.

Lemma unlink_In l a op : op ∈ unlink l a → op ∈ l.
Proof.
  induction l as [|o l IH]; [done|]. cbn. destruct (op_addr o =? a); [by right|].
  intros [->|H]%elem_of_cons; [by left|right; auto].
Qed.
Lemma unlink_NoDup l a : NoDup (op_addr <$> l) → NoDup (op_addr <$> unlink l a).
Proof.
  induction l as [|o l IH]; [done|]. cbn. intros [Ho Hl]%NoDup_cons.
  destruct (op_addr o =? a); [done|]. cbn. constructor; [|by apply IH].
  intros (o1 & He & H1%unlink_In)%list_elem_of_fmap. apply Ho. rewrite He.
  by apply list_elem_of_fmap_2.
Qed.

Lemma unlink_typed s a : fsys_ok s → fsys_ok (unlink_pending s a).
Proof.
  intros [Hs Hh Hr Hd Hl Ho Hp (Hn & Hn1 & Hn2)]. split; try done.
  - apply Forall_forall. cbn. rewrite Forall_forall in Hp. intros op H%unlink_In. auto.
  - unfold addresses in *. cbn. split; [by apply unlink_NoDup|]. split; [|done].
    intros b (o & -> & H%unlink_In)%list_elem_of_fmap. apply Hn1. by apply list_elem_of_fmap_2.
Qed.

Lemma alloc_pending_typed s pk k cb a s' :
  alloc_pending s pk k cb = (a, s') → fsys_ok s → fsys_ok s'.
Proof.
  unfold alloc_pending. destruct (pool_alloc (used s)) as [b|] eqn:E; [|by intros [= _ <-]].
  intros [= _ <-] [Hs Hh Hr Hd Hl Ho Hp (Hn & Hn1 & Hn2)].
  apply pool_fresh in E as [Hb _]. unfold used in Hb.
  split; try done; cbn.
  - apply u32_range.
  - by constructor.
  - unfold addresses in *. cbn. split; [|split; [|done]].
    + constructor; [|done]. set_solver.
    + intros c [->|H]%elem_of_cons; [set_solver|by apply Hn1].
Qed.

(** *** Handles and locks *)
Lemma put_handle_typed s a h h' :
  chandles s !! a = Some h → h_type h' = h_type h → (chandle_ok h → chandle_ok h') →
  fsys_ok s → fsys_ok (put_handle a h' s).
Proof.
  intros Ha Ht Hh' [Hs Hh Hr Hd Hl Ho Hp (Hn & Hn1 & Hn2)].
  assert (Hdom : dom (<[a:=h']> (chandles s)) = dom (chandles s)).
  { rewrite dom_insert_L. apply elem_of_dom_2 in Ha. set_solver. }
  split; try done; cbn.
  - intros b k [[-> <-]|[Hb H]]%lookup_insert_Some; [eauto|by eapply Hh].
  - rewrite <- elem_of_dom, Hdom, elem_of_dom. done.
  - intros b k [[-> <-]|[Hb H]]%lookup_insert_Some; [rewrite Ht; by apply Hd|by apply Hd].
  - intros l lk H. rewrite <- elem_of_dom, Hdom, elem_of_dom. by eapply Hl.
  - unfold addresses in *. cbn. by rewrite Hdom.
Qed.

Lemma used_dom s a :
  a ∉ used s → a ∉ dom (locks s) ∧ a ∉ dom (chandles s) ∧ a ∉ addresses s ∧ a ≠ root_addr s.
Proof. unfold used, addresses. set_solver. Qed.

(** A new lock on the root. *)
Lemma root_lock_typed s mode r s' :
  rl_amigafs_alloc_root_lock s mode = (r, s') → fsys_ok s → fsys_ok s'.
Proof.
  unfold rl_amigafs_alloc_root_lock. destruct (pool_alloc (used s)) as [b|] eqn:E;
    [|by intros [= _ <-]]. intros [= _ <-] [Hs Hh Hr Hd Hl Ho Hp (Hn & Hn1 & Hn2)].
  apply pool_fresh in E as [(Hb1 & Hb2 & Hb3 & Hb4)%used_dom _].
  split; try done; cbn.
  - intros l lk [[-> <-]|[Hne H]]%lookup_insert_Some; [done|by eapply Hl].
  - intros l1 l2 lk1 lk2 [[<- <-]|[Hne1 H1]]%lookup_insert_Some
      [[<- <-]|[Hne2 H2]]%lookup_insert_Some Hk; cbn in *; auto.
    by eapply Ho.
  - unfold addresses in *. rewrite dom_insert_L. set_solver.
Qed.

(** A new lock with a handle of its own. *)
Lemma allocate_typed s ty id access name size r s' :
  allocate_lock s ty id access name size = Some (r, s') →
  ty ≠ RL_HANDLE_DEVICE → is_u32 id → is_u32 size → fsys_ok s → fsys_ok s'.
Proof.
  unfold allocate_lock. intros H Hty Hid Hsize Hok.
  destruct (pool_alloc (used s)) as [l|] eqn:El; [|by injection H as _ <-]. cbv zeta in H.
  apply pool_fresh in El as [(Hl1 & Hl2 & Hl3 & Hl4)%used_dom _].
  destruct (pool_alloc (used (put_lock l _ s))) as [hh|] eqn:Eh.
  2:{ injection H as _ <-. eapply core_ok; [|exact Hok]. split_and!; try done. cbn.
      apply delete_insert_id. by apply not_elem_of_dom. }
  apply pool_fresh in Eh as [(Hh1 & Hh2 & Hh3 & Hh4)%used_dom _]. cbn in Hh1, Hh2, Hh3, Hh4.
  rewrite dom_insert_L in Hh1.
  apply bind_Some in H as ([p rc] & [Hlen Hstr]%rl_string_copy_typed & [= _ <-]).
  destruct Hok as [Hs Hh Hr Hd Hl Ho Hp (Hn & Hn1 & Hn2)].
  assert (Hroot : hh ≠ root_addr s) by done.
  split; try done; cbn.
  - intros a h [[<- <-]|[Hne H]]%lookup_insert_Some; [|by eapply Hh].
    by split.
  - by rewrite lookup_insert_ne.
  - intros a h [[<- <-]|[Hne H]]%lookup_insert_Some; [|by apply Hd]. cbn. split; congruence.
  - rewrite insert_insert_eq.
    intros l1 lk [[<- <-]|[Hne H]]%lookup_insert_Some; cbn; [rewrite lookup_insert_eq; by eexists|].
    destruct (Hl _ _ H) as [h Hk]. destruct (decide (fl_Key lk = hh)) as [->|].
    + rewrite lookup_insert_eq. by eexists.
    + rewrite lookup_insert_ne by done. by eexists.
  - rewrite insert_insert_eq.
    assert (Hfresh : ∀ l1 lk1, locks s !! l1 = Some lk1 → fl_Key lk1 ≠ hh).
    { intros l1 lk1 H <-. destruct (Hl _ _ H) as [h Hk]. by apply elem_of_dom_2 in Hk. }
    intros l1 l2 lk1 lk2 [[<- <-]|[Hne1 H1]]%lookup_insert_Some
      [[<- <-]|[Hne2 H2]]%lookup_insert_Some Hk; cbn in *; auto.
    + exfalso. by eapply Hfresh.
    + exfalso. by eapply Hfresh.
    + by eapply Ho.
  - unfold addresses in *. cbn in *. rewrite !dom_insert_L. set_solver.
Qed.

(** Freeing a lock frees its handle, unless it is the root's. *)
Lemma free_lock_typed s lock s' :
  rl_amigafs_free_lock s lock = Some s' → fsys_ok s → fsys_ok s'.
Proof.
  unfold rl_amigafs_free_lock, HANDLE_FROM_LOCK.
  intros (hd & (lk & Hlk & [= <-])%bind_Some & (h & Hh0 & (s1 & H1 & [= <-])%bind_Some)%bind_Some)%bind_Some Hok.
  destruct Hok as [Hs Hh Hr Hd Hl Ho Hp (Hn & Hn1 & Hn2)].
  assert (Hs1 : is_u32 (seqno s1) ∧ locks s1 = locks s ∧ root_addr s1 = root_addr s ∧
    pending s1 = pending s ∧
    (fl_Key lk = root_addr s ∧ chandles s1 = chandles s ∨
     fl_Key lk ≠ root_addr s ∧ chandles s1 = delete (fl_Key lk) (chandles s))).
  { pose proof (Hd _ _ Hh0) as Hdev. case_decide as Hty.
    - apply bind_Some in H1 as ([s2 rc] & (Hq & Hc & Hlo & Hpe & Hro)%transmit_core & [= <-]).
      cbn in *. rewrite Hq, Hc. split_and!; try done; [apply u32_range|right; naive_solver].
    - injection H1 as <-. split_and!; try done. left. split; [|done].
      apply Hdev. by destruct (decide (h_type h = RL_HANDLE_DEVICE)). }
  destruct Hs1 as (Hq1 & Hl1 & Hr1 & Hp1 & Hc1).
  split; cbn; rewrite ?Hl1, ?Hr1, ?Hp1.
  - done.
  - intros a k. destruct Hc1 as [[_ ->]|[_ ->]]; [apply Hh|].
    intros [_ H]%lookup_delete_Some. by eapply Hh.
  - destruct Hc1 as [[_ ->]|[Hne ->]]; [done|]. by rewrite lookup_delete_ne.
  - intros a k. destruct Hc1 as [[_ ->]|[_ ->]]; [apply Hd|].
    intros [_ H]%lookup_delete_Some. by apply Hd.
  - intros l k [Hne H]%lookup_delete_Some. destruct Hc1 as [[_ ->]|[Hroot ->]]; [by eapply Hl|].
    rewrite lookup_delete_ne; [by eapply Hl|]. intros E.
    by destruct (Ho _ _ _ _ Hlk H E).
  - intros l1 l2 lk1 lk2 [_ H2]%lookup_delete_Some [_ H3]%lookup_delete_Some. by eapply Ho.
  - done.
  - unfold addresses in *. cbn. rewrite ?Hp1, ?dom_delete_L.
    destruct Hc1 as [[_ ->]|[_ ->]]; rewrite ?dom_delete_L; set_solver.
Qed.

(** ** The handlers *)
Definition keeps_types (h : action (P := P)) : Prop :=
  ∀ s pk s', h s pk = Some s' → fsys_ok s → fsys_ok s'.

Lemma fail_typed s pk waiting code s' : fail_packet s pk waiting code = Some s' → fsys_ok s → fsys_ok s'.
Proof.
  unfold fail_packet. intros H Hok. destruct waiting as [a|]; eapply answer_typed; eauto.
  by apply unlink_typed.
Qed.

Lemma read_request_typed s h op n s' rc :
  transmit_read_request s h op n = Some (s', rc) → fsys_ok s → fsys_ok s'.
Proof. unfold transmit_read_request. intros (hh & _ & H)%bind_Some. by eapply transmit_typed. Qed.

Lemma write_request_typed s h a d n s' rc :
  transmit_write_request s h a d n = Some (s', rc) → fsys_ok s → fsys_ok s'.
Proof.
  unfold transmit_write_request. intros (hh & _ & (o & _ & H)%bind_Some)%bind_Some Hok.
  eapply transmit_typed; [done|]. by apply update_typed.
Qed.

(** The last step of a run that has been taken apart, and the ones before it. *)
Ltac typed :=
  first
    [ eassumption
    | match goal with
      | H : answer_packet _ _ _ _ = Some ?s |- fsys_ok ?s => apply (answer_typed _ _ _ _ _ H)
      | H : fail_packet _ _ _ _ = Some ?s |- fsys_ok ?s => apply (fail_typed _ _ _ _ _ H)
      | H : reply_to_packet _ _ = Some ?s |- fsys_ok ?s => apply (reply_typed _ _ _ H)
      | H : set_result _ _ _ _ = Some ?s |- fsys_ok ?s => apply (set_result_typed _ _ _ _ _ H)
      | H : open_file_handle _ _ _ = Some ?s |- fsys_ok ?s =>
          apply (open_file_handle_typed _ _ _ _ H)
      | H : fs_transmit _ _ = Some (?s, _) |- fsys_ok ?s => apply (transmit_typed _ _ _ _ H)
      | H : transmit_read_request _ _ _ _ = Some (?s, _) |- fsys_ok ?s =>
          apply (read_request_typed _ _ _ _ _ _ H)
      | H : transmit_write_request _ _ _ _ _ = Some (?s, _) |- fsys_ok ?s =>
          apply (write_request_typed _ _ _ _ _ _ _ H)
      | H : put_fib _ _ _ = Some ?s |- fsys_ok ?s => apply (put_fib_typed _ _ _ _ H)
      | H : fill_in_infodata _ _ = Some ?s |- fsys_ok ?s => apply (infodata_typed _ _ _ H)
      | H : copy_to_client _ _ _ _ = Some ?s |- fsys_ok ?s => apply (copy_typed _ _ _ _ _ H)
      | H : alloc_pending _ _ _ _ = (_, ?s) |- fsys_ok ?s =>
          apply (alloc_pending_typed _ _ _ _ _ _ H)
      | H : rl_amigafs_alloc_root_lock _ _ = (_, ?s) |- fsys_ok ?s =>
          apply (root_lock_typed _ _ _ _ H)
      | H : allocate_lock _ _ _ _ _ _ = Some (_, ?s) |- fsys_ok ?s =>
          apply (allocate_typed _ _ _ _ _ _ _ _ H)
      | H : rl_amigafs_free_lock _ _ = Some ?s |- fsys_ok ?s => apply (free_lock_typed _ _ _ H)
      | |- fsys_ok (unlink_pending _ _) => apply unlink_typed
      | |- fsys_ok (set_pending (update_op _ _ _) _) => apply update_typed
      | |- fsys_ok (set_seqno (u32 _) _) => apply seqno_typed
      end ].
Ltac well_typed H :=
  run H; cases; subst; repeat typed; try done;
  try (eapply ch_id, fo_handles; eassumption); try (eapply ch_size, fo_handles; eassumption).

Lemma findinput_typed : keeps_types action_findinput.
Proof. unfold action_findinput. intros s pk s' H Hok. well_typed H. Qed.
Lemma findoutput_typed : keeps_types action_findoutput.
Proof. unfold action_findoutput. intros s pk s' H Hok. well_typed H. Qed.
Lemma locate_typed : keeps_types action_locate_object.
Proof. unfold action_locate_object. intros s pk s' H Hok. well_typed H. Qed.
Lemma action_free_lock_typed : keeps_types action_free_lock.
Proof. unfold action_free_lock. intros s pk s' H Hok. well_typed H. Qed.
Lemma end_typed : keeps_types action_end.
Proof. unfold action_end. intros s pk s' H Hok. well_typed H. Qed.
Lemma copy_dir_typed : keeps_types action_copy_dir.
Proof. unfold action_copy_dir. intros s pk s' H Hok. well_typed H. Qed.
Lemma parent_typed : keeps_types action_parent.
Proof. unfold action_parent. intros s pk s' H Hok. well_typed H. Qed.
Lemma examine_object_typed : keeps_types action_examine_object.
Proof. unfold action_examine_object. intros s pk s' H Hok. well_typed H. Qed.
Lemma alloc_pending_handles s pk k cb a s' :
  alloc_pending s pk k cb = (a, s') → chandles s' = chandles s.
Proof. unfold alloc_pending. by destruct (pool_alloc (used s)); intros [= _ <-]. Qed.

Lemma set_flags_ok f h : chandle_ok h → chandle_ok (set_flags f h).
Proof. intros []. by split. Qed.
Lemma set_offset_ok o h : is_u32 o → chandle_ok h → chandle_ok (set_offset o h).
Proof. intros Ho [? [? ?]]. by split. Qed.
Lemma set_buffer_ok start len buf h :
  is_u32 start → 0 <= len <= 4096 → length buf = length (h_buffer h) →
  chandle_ok h → chandle_ok (set_buffer start len buf h).
Proof. intros ? ? Hb []. split; try done. cbn. by rewrite Hb. Qed.

Lemma examine_next_typed : keeps_types action_examine_next.
Proof.
  unfold action_examine_next. intros s pk s' H Hok. well_typed H.
  match goal with
  | A : alloc_pending _ _ _ _ = _, T : fs_transmit _ _ = _ |- _ =>
      pose proof (transmit_core _ _ _ _ T) as (_ & Hc & _)
  end.
  eapply put_handle_typed; [by rewrite Hc|done|apply set_flags_ok|]. repeat typed.
Qed.
Lemma disk_info_typed : keeps_types action_disk_info.
Proof. unfold action_disk_info. intros s pk s' H Hok. well_typed H. Qed.
Lemma info_typed : keeps_types action_info.
Proof. unfold action_info. intros s pk s' H Hok. well_typed H. Qed.
(** The part of a read that the buffer serves. *)
Lemma buffered_typed s hd h dest buf want s1 left served :
  match buffer_overlap h want with
  | Some (offset, count) =>
      copy_to_client (put_handle hd (set_offset (u32 (offset_lo h + count)) h) s) dest
        (drop (Z.to_nat offset) buf) count
      ≫= λ s, Some (s, u32 (want - count), if u32 (want - count) =? 0 then Some count else None)
  | None => Some (s, want, None)
  end = Some (s1, left, served) → chandles s !! hd = Some h → fsys_ok s → fsys_ok s1.
Proof.
  destruct (buffer_overlap h want) as [[offset count]|]; [|by intros [= <- _ _]].
  intros (s2 & H & [= <- _ _])%bind_Some Hh Hok. eapply copy_typed; [exact H|].
  eapply put_handle_typed; [done|done|apply set_offset_ok, u32_range|done].
Qed.

Lemma read_typed : keeps_types action_read.
Proof.
  unfold action_read. intros s pk s' H Hok. well_typed H; by eapply buffered_typed.
Qed.
Lemma write_typed : keeps_types action_write.
Proof. unfold action_write. intros s pk s' H Hok. well_typed H. Qed.
Lemma seek_typed : keeps_types action_seek.
Proof.
  unfold action_seek. intros s pk s' H Hok. run H. repeat typed.
  eapply put_handle_typed; [eassumption|done| |done]. intros Hh. apply set_offset_ok; [|done].
  destruct Hh as [_ [Ho _] Hs _ _ _]. repeat case_match; try done; apply u32_range.
Qed.

Lemma answered_typed r1 r2 : keeps_types (λ s pk, answer_packet s pk r1 r2).
Proof. intros s pk s'. apply answer_typed. Qed.
Lemma die_typed : keeps_types action_die.
Proof. by intros s pk s' [= <-]. Qed.
Lemma volume_typed : keeps_types action_current_volume.
Proof. intros s pk s'. apply answer_typed. Qed.

#[local] Hint Resolve findinput_typed findoutput_typed locate_typed action_free_lock_typed
  end_typed copy_dir_typed parent_typed examine_object_typed examine_next_typed disk_info_typed
  info_typed read_typed write_typed seek_typed die_typed volume_typed : typing.
#[local] Hint Extern 3 (keeps_types _) => apply answered_typed : typing.

Lemma table_typed :
  Forall (λ h, match h with Some h => keeps_types h | None => True end) packet_handlers_range_1.
Proof.
  unfold packet_handlers_range_1. repeat (apply Forall_cons; split; [cbv beta iota; auto with typing|]).
  constructor.
Qed.

Lemma packet_handler_typed type :
  match packet_handler (P := P) type with Some h => keeps_types h | None => True end.
Proof.
  unfold packet_handler.
  repeat match goal with |- context [if ?b then _ else _] => destruct b end;
    cbv beta iota; auto with typing.
  destruct (packet_handlers_range_1 !! Z.to_nat type) as [h|] eqn:E; [|exact I].
  apply (Forall_lookup_1 _ _ _ _ table_typed E).
Qed.

Lemma process_fs_packet_typed : keeps_types process_fs_packet.
Proof.
  intros s pk s'. unfold process_fs_packet. intros (p & _ & H)%bind_Some.
  pose proof (packet_handler_typed (dp_Type p)) as Hh.
  destruct (packet_handler (dp_Type p)) as [h|]; [by eapply Hh|by eapply answer_typed].
Qed.

(** ** The completions *)
Definition completion_typed
    (cb : fsys P → rl_pending_operation → rl_msg → option (fsys P)) : Prop :=
  ∀ s op msg s', cb s op msg = Some s' → wf_body (body msg) → fsys_ok s → fsys_ok s'.

(** The runs inside a run. *)
Ltac inner_runs :=
  repeat match goal with
    | E : mbind _ _ = Some _ |- _ => progress run E
    | E : (if ?b then _ else _) = Some _ |- _ => destruct b; progress run E
    end.

Lemma complete_findinput_typed : completion_typed complete_findinput.
Proof.
  unfold complete_findinput. intros s op msg s' H Hm Hok. run H; subst.
  destruct Hm as (Hid & Hsize & _).
  inner_runs; cases; simplify_eq; repeat typed; done.
Qed.
Lemma complete_locate_typed : completion_typed complete_locate_object.
Proof.
  unfold complete_locate_object. intros s op msg s' H Hm Hok. run H; subst.
  destruct Hm as (Hid & Hsize & _).
  case_match; repeat typed; try done; by case_match.
Qed.
Lemma complete_examine_typed : completion_typed complete_examine_next.
Proof.
  unfold complete_examine_next. intros s op msg s' H Hm Hok. run H; subst.
  inner_runs; cases; simplify_eq; repeat typed; try done.
  all: eapply put_handle_typed; [eassumption|done|apply set_flags_ok|done].
Qed.
Lemma complete_write_typed : completion_typed complete_write.
Proof.
  unfold complete_write. intros s op msg s' H Hm Hok. run H; subst.
  all: repeat typed; try done; intros; apply Hok.
Qed.
(** What is read too early fits the buffer. *)
Lemma kept_ok h buf bs n :
  put_bytes (h_buffer h) 0 (take (Z.to_nat n) bs) = Some buf → 0 <= n <= Z.of_nat (length bs) →
  chandle_ok h → n <= 4096 ∧ length buf = length (h_buffer h).
Proof.
  intros H Hn []. split; [|by eapply put_bytes_length]. unfold put_bytes in H.
  case_decide as Hd; [|done]. revert Hd. rewrite length_take. lia.
Qed.

(** The step that every answer to a read makes. *)
Lemma advanced_typed s hd h o a d :
  chandles s !! hd = Some h → fsys_ok s →
  fsys_ok (put_handle hd (set_offset (u32 o) h)
             (set_pending (update_op (pending s) a (set_op_detail d)) s)).
Proof.
  intros Hh Hok. eapply put_handle_typed; [exact Hh|done|apply set_offset_ok, u32_range|].
  by apply update_typed.
Qed.

Lemma complete_read_typed : completion_typed complete_read.
Proof.
  unfold complete_read. intros s op msg s' H Hm Hok. run H; subst; repeat typed.
  all: try (intros; done || apply Hok); try (apply advanced_typed; by repeat typed).
  all: try (intros op0 _; apply (fo_seqno x2); by repeat typed).
  match goal with B : (_ <? _) = false |- _ => apply Z.ltb_ge in B end.
  eapply put_handle_typed; [apply lookup_insert_eq|done| |by apply advanced_typed; repeat typed].
  intros Hh. match goal with K : put_bytes _ _ _ = Some _ |- _ =>
    destruct (kept_ok _ _ _ _ K) as [Hle Hlen] end; [|done|].
  - split; [apply u32_range|done].
  - apply set_buffer_ok; [apply Hh|split; [apply u32_range|done]|done|done].
Qed.
Lemma run_callback_typed cb : completion_typed (run_callback cb).
Proof.
  destruct cb; [apply complete_findinput_typed|apply complete_examine_typed
    |apply complete_locate_typed|apply complete_read_typed|apply complete_write_typed].
Qed.

Lemma network_message_typed s msg s' rc :
  rl_amigafs_process_network_message s msg = Some (s', rc) → wf_body (body msg) →
  fsys_ok s → fsys_ok s'.
Proof.
  unfold rl_amigafs_process_network_message. intros H Hm Hok.
  destruct (find_pending_op s msg) as [op|]; [|by injection H as <- _].
  destruct (_ =? expected_answer_type op).
  { apply bind_Some in H as (s1 & H1 & [= <- _]). by eapply run_callback_typed. }
  destruct (_ =? RL_MSG_ERROR_ANSWER).
  - destruct (body msg); try discriminate H. apply bind_Some in H as (s1 & H1 & [= <- _]).
    by repeat typed.
  - apply bind_Some in H as (s1 & H1 & [= <- _]). by repeat typed.
Qed.

(** ** The life of the file system *)
Definition well_typed_event (e : event) : Prop :=
  match e with ev_packet _ _ => True | ev_message msg => wf_body (body msg) end.

Lemma step_typed s e s' :
  fs_step s e = Some s' → well_typed_event e → fsys_ok s → fsys_ok s'.
Proof.
  destruct e as [pk contents|msg]; cbn; intros H He Hok.
  - eapply process_fs_packet_typed; [exact H|]. by apply (core_ok s).
  - apply bind_Some in H as ([s1 rc] & H & [= <-]). by eapply network_message_typed.
Qed.

Lemma run_typed events s s' :
  fs_run events s = Some s' → Forall well_typed_event events → fsys_ok s → fsys_ok s'.
Proof.
  revert s. induction events as [|e events IH]; intros s H He Hok; cbn in H; [by injection H as <-|].
  apply bind_Some in H as (s1 & H1 & H). apply Forall_cons in He as [He Hes].
  eapply IH; [done..|]. by eapply step_typed.
Qed.

Context {D : Type} `{DOS : Dos D} (no_peer : P).

(** The root handle alone. *)
Lemma init_typed fuel s d p name s' d' :
  locks s = ∅ → chandles s = ∅ → no_nul name →
  rl_amigafs_init no_peer fuel s d p name = Some (s', d', 0) → fsys_ok s'.
Proof.
  intros Hl Hc Hn. unfold rl_amigafs_init. intros ([path rc] & [Hlen Hstr]%rl_string_copy_typed & H)%bind_Some.
  destruct (CreateMsgPort d) as [d1 port]. destruct (port =? 0); [by destruct (rl_amigafs_destroy _ _ _)|].
  apply bind_Some in H as ([d2 volume] & _ & H).
  destruct (dl_address volume =? 0); [by destruct (rl_amigafs_destroy _ _ _)|]. injection H as <- _.
  split; cbn; rewrite ?Hl, ?Hc.
  - done.
  - intros a h [[<- <-]|[Hne H]]%lookup_insert_Some; [|].
    + split; try done; split; done.
    + by rewrite lookup_insert_ne in H by done.
  - rewrite lookup_insert_eq. by eexists.
  - rewrite insert_insert_eq. intros a h [[<- <-]|[Hne H]]%lookup_insert_Some; [done|].
    by rewrite lookup_empty in H.
  - by intros l lk ?%lookup_empty_Some.
  - by intros l1 l2 lk1 lk2 ?%lookup_empty_Some.
  - constructor.
  - unfold addresses. cbn. rewrite dom_empty_L. split; [constructor|set_solver].
Qed.
End Types.

(** ** A concrete run *)

(** The volume RL, just mounted. *)
Definition demo_mounted : fsys (list rl_msg) :=
  match rl_amigafs_init (DOS := simple_dos) [] 1 demo_open_fs demo_dos [] (chars "RL") with
  | Some (s, _, _) => s
  | None => demo_open_fs
  end.
Lemma demo_mounted_ok : fsys_ok demo_mounted.
Proof.
  refine (init_typed (DOS := simple_dos) [] 1 demo_open_fs demo_dos [] (chars "RL") demo_mounted _
    eq_refl eq_refl _ _); [by repeat constructor|by vm_compute].
Qed.
