(* ===== verification/AmigaDir.v ===== *)
(** * AmigaDir: listing a directory of the host from the Amiga

    ACTION_EXAMINE_NEXT asks the file server for one entry after the other; the
    state of the listing is spread over a flag of the client's handle, the
    [DIR] pointer of the server's handle and the stream of the operating
    system.  The file shows that the three stay in step. *)

From S2P Require Import Prelude Wire Messages CString Format Transport Peer FileServer.
From S2P Require Import AmigaFs AmigaActions AmigaIo AmigaSession.

Definition ACTION_EXAMINE_NEXT : Z := 24.

Record entry := Entry { e_name : list Z; e_dir : bool; e_size : Z }.

(** ** The server's side *)
Section Stream.
Context {O : Type} `{OS : FileServer.Posix O}.

(** The stream [d] has the entries [es] left, each of which the operating system
    knows under its full path. *)
Fixpoint dir_stream (dir : list Z) (o : O) (d : Z) (es : list entry) : Prop :=
  match es with
  | [] => ∃ o', readdir o d = (o', D_end)
  | e :: es =>
      let item := dir ++ 47 :: e_name e in
      (length item ≤ 254)%nat ∧
      ∃ o', readdir o d = (o', D_name (e_name e)) ∧
        stat o' item = Some (e_dir e, e_size e) ∧ dir_stream dir o' d es
  end.

(** A listing that has been started has its stream in the server's handle, one
    that has not will open it. *)
Definition rewound (f : rl_filehandle) (o : O) : O :=
  match dir_handle f with Some d => closedir o d | None => o end.
Definition listing (dir : list Z) (f : rl_filehandle) (o : O) (started : bool)
    (es : list entry) : Prop :=
  if started then ∃ d, dir_handle f = Some d ∧ dir_stream dir o d es
  else ∃ o1 d, opendir (rewound f o) dir = (o1, Some d) ∧ dir_stream dir o1 d es.

Definition node_of (e : entry) : Z :=
  if e_dir e then RL_NODE_TYPE_DIRECTORY else RL_NODE_TYPE_FILE.
Definition next_answer (es : list entry) : rl_body :=
  match es with
  | [] => find_next_file_answer 1 RL_NODE_TYPE_DIRECTORY [] 0
  | e :: _ => find_next_file_answer 0 (node_of e) (e_name e) (u32 (e_size e))
  end.

Context `{HHost : Host} (rl_log_bits : Z).
#[local] Existing Instance log_link.
Implicit Types (c : rl_controller) (o : O) (f : rl_filehandle).

(** The handle with the number [id] is for the directory [dir], whose listing has
    the entries [es] left. *)
Definition lists_dir c o (id : Z) (dir : list Z) (started : bool) (es : list entry) : Prop :=
  ∃ h f, FileServer.get_handle_from_id id = Some h ∧ deref c h = Some f ∧
    FileServer.type f = RL_NODE_TYPE_DIRECTORY ∧ cstr_at (native_path f) = Some dir ∧
    listing dir f o started es.

Definition server_lists c o (i : nat) (dir : list Z) (started : bool) (es : list entry) : Prop :=
  (i < RL_MAX_FILE_HANDLES)%nat ∧ lists_dir c o (Z.of_nat i) dir started es.

(** The end of [find_next_file_request_], from [readdir] on. *)
Definition read_entry c f o (d : Z) (msg : rl_msg)
  : option (server_result (P := list rl_msg) (O := O)) :=
  let '(o, dent) := readdir o d in
  match dent with
  | D_end => reply [] c o msg (find_next_file_answer 1 RL_NODE_TYPE_DIRECTORY [] 0)
  | D_error => reply_error [] c o msg RL_NETERR_IO_ERROR
  | D_name name =>
      item ← item_path (native_path f) name;
      match stat o item with
      | None => reply_error [] c o msg RL_NETERR_IO_ERROR
      | Some (is_dir, st_size) =>
          reply [] c o msg
            (find_next_file_answer 0
               (if is_dir : bool then RL_NODE_TYPE_DIRECTORY else RL_NODE_TYPE_FILE) name
               (u32 st_size))
      end
  end.

Lemma deref_update c h f : is_Some (deref c h) → deref (update_handle c h f) h = Some f.
Proof.
  intros Hs. destruct c, h; try done. cbn in *. apply list_lookup_insert_eq. by apply lookup_lt_is_Some_1.
Qed.

(** What the server answers from the stream of its handle. *)
Lemma read_stream c o id h f d dir es msg :
  FileServer.get_handle_from_id id = Some h → is_Some (deref c h) →
  FileServer.type f = RL_NODE_TYPE_DIRECTORY → cstr_at (native_path f) = Some dir →
  dir_handle f = Some d → dir_stream dir o d es →
  let c' := update_handle c h f in
  ∃ o', read_entry c' f o d msg = Some ([RL_MSG_INIT (next_answer es) (hdr_seq msg)], c', o', 0) ∧
    (es ≠ [] → lists_dir c' o' id dir true (tail es)).
Proof.
  intros Hid Hslot Ht Hpath Hd Hs c'. unfold read_entry. destruct es as [|e es]; cbn [dir_stream] in Hs.
  { destruct Hs as (o' & Hr). exists o'. rewrite Hr. done. }
  destruct Hs as (Hlen & o' & Hr & Hstat & Hs). exists o'. rewrite Hr.
  destruct (readdir_name _ _ _ _ Hr) as [[Hn _] _].
  rewrite (item_path_spec _ _ _ Hpath Hn), take_ge by done. cbn [mbind option_bind].
  rewrite Hstat. split; [done|]. intros _. exists h, f. split; [done|].
  split; [by apply deref_update|]. split_and!; try done. by exists d.
Qed.

(** The answer to a client that knows whether its listing has been started. *)
Lemma serve_entry c o id dir started es q :
  lists_dir c o id dir started es →
  ∃ c' o', rl_file_serve rl_log_bits [] c o
      (RL_MSG_INIT (find_next_file_request id (if started then 0 else 1)) q) =
      Some ([RL_MSG_INIT (next_answer es) q], c', o', 0) ∧
    (es ≠ [] → lists_dir c' o' id dir true (tail es)).
Proof.
  intros (h & f & Hid & Hf & Ht & Hpath & Hl). unfold rl_file_serve.
  change (rl_msg_kind_of _) with RL_MSG_FIND_NEXT_FILE_REQUEST. cbn [Z.eqb Pos.eqb].
  unfold find_next_file_request_. cbn [body RL_MSG_INIT]. rewrite Hid, Hf.
  cbn [mbind option_bind]. rewrite Ht, Z.eqb_refl. cbn [negb].
  set (msg := RL_MSG_INIT _ q).
  assert (Hgo : ∀ f1 o1 d, FileServer.type f1 = RL_NODE_TYPE_DIRECTORY →
    native_path f1 = native_path f → dir_handle f1 = Some d → dir_stream dir o1 d es → _)
    by exact (λ f1 o1 d Ht1 Hp1 Hd1 Hs1, read_stream c o1 id h f1 d dir es msg Hid
                (mk_is_Some _ _ Hf) Ht1 (eq_trans (f_equal cstr_at Hp1) Hpath) Hd1 Hs1).
  assert (Hwrap : ∀ f1 o1 d o' m, read_entry (update_handle c h f1) f1 o1 d msg =
      Some ([m], update_handle c h f1, o', 0) →
    ('(p, c, o, _) ← read_entry (update_handle c h f1) f1 o1 d msg; Some (p, c, o, 0)) =
      Some ([m], update_handle c h f1, o', 0)) by (intros ????? ->; done).
  destruct started; cbn [listing] in Hl.
  - destruct Hl as (d & Hd & Hs).
    destruct (Hgo f o d Ht eq_refl Hd Hs) as (o' & He & Hnext).
    exists (update_handle c h f), o'. split; [|done].
    cbn [negb Z.eqb]. rewrite Hd. cbv iota beta. rewrite Hpath. cbn [mbind option_bind].
    rewrite !Hd. exact (Hwrap _ _ _ _ _ He).
  - destruct Hl as (o1 & d & Hopen & Hs).
    destruct (Hgo (set_dir (Some d) f) o1 d Ht eq_refl eq_refl Hs) as (o' & He & Hnext).
    exists (update_handle c h (set_dir (Some d) f)), o'. split; [|done].
    unfold rewound in Hopen. cbn [negb Z.eqb].
    destruct (dir_handle f) as [d0|] eqn:Hd0; cbv iota beta;
      [change (native_path (set_dir None f)) with (native_path f)|];
      rewrite Hpath; cbn [mbind option_bind];
      [change (dir_handle (set_dir None f)) with (@None Z)|rewrite Hd0];
      rewrite Hopen; exact (Hwrap _ _ _ _ _ He).
Qed.

Lemma answer_next c o i dir started es q :
  server_lists c o i dir started es →
  ∃ c' o', controller_answer rl_log_bits (c, o)
      (RL_MSG_INIT (find_next_file_request (Z.of_nat i) (if started then 0 else 1)) q) =
      Some (c', o', RL_MSG_INIT (next_answer es) q) ∧
    (es ≠ [] → server_lists c' o' i dir true (tail es)).
Proof.
  intros [Hi Hl]. destruct (serve_entry c o (Z.of_nat i) dir started es q Hl) as (c' & o' & E & Hn).
  exists c', o'. unfold controller_answer. cbn [fst snd]. rewrite E. split; [done|]. by split; [|apply Hn].
Qed.
End Stream.

(** ** The client's side *)

(** The name in a FileInfoBlock, cut at 106 characters. *)
Definition fib_name (name : list Z) : list Z :=
  let n := Nat.min 106 (length name) in
  Z.of_nat n :: take n name ++ 0 :: replicate (106 - n) 0.

Definition entry_fib (e : entry) : FileInfoBlock :=
  let kind := if e_dir e then 1 else -1 in
  Fib kind kind (fib_name (e_name e)) (Z.lor FIBF_WRITE FIBF_DELETE) (u32 (e_size e))
    (u32 (e_size e)) 0 (replicate 80 0).

Lemma construct_fib_name name :
  no_nul name → construct_bstr (replicate 108 0) 108 (name ++ [0]) = Some (fib_name name).
Proof.
  intros Hn. unfold construct_bstr. rewrite rl_strlen_spec, cstr_at_app by done.
  cbn [mbind option_bind]. change (u32 (108 - 2)) with 106. unfold fib_name.
  set (n := Nat.min 106 (length name)).
  assert ((if 106 <? Z.of_nat (length name) then 106 else Z.of_nat (length name)) =
          Z.of_nat n) as -> by (unfold n; case_match; lia).
  rewrite Nat2Z.id, u8_id by (unfold is_byte, n; lia).
  assert (n ≤ 106 ∧ n ≤ length name)%nat by lia.
  rewrite put_bytes_Some by llen. f_equal.
  rewrite take_0, drop_replicate. cbn [app]. f_equal. rewrite <- app_assoc. cbn [app].
  rewrite take_app_le by lia. do 3 f_equal. llen.
Qed.

Section Listing.
Context `{HHost : Host} `{HPool : Pool}.
#[local] Existing Instance log_link.
Implicit Types (s : fsys (list rl_msg)).
Context {X : Type} (answer : X → rl_msg → option (X * rl_msg)).
Context (lock fib hd id : Z) (U : gset Z).
Hypothesis pool_serves : pool_alloc U ≠ None.

(** The file system with a lock on a directory, between two packets; [started]
    is the flag of the handle. *)
Record at_directory (started : bool) s : Prop := {
  ad_pending : pending s = [];
  ad_lock : HANDLE_FROM_LOCK s lock = Some hd;
  ad_handle : ∃ h, chandles s !! hd = Some h ∧ handle_id h = id ∧
    flags h = if started then RL_CLIENT_FLAG_FILE_ENUM_IN_PROGRESS else 0;
  ad_fib : is_Some (fibs s !! fib);
  ad_used : used s = U
}.

Definition examined (pk : Z) (es : list entry) s : Prop :=
  match es with
  | [] => last (replies s) = Some (pk, DOSFALSE, ERROR_NO_MORE_ENTRIES) ∧ at_directory false s
  | e :: _ => last (replies s) = Some (pk, DOSTRUE, 0) ∧ fibs s !! fib = Some (entry_fib e) ∧
      at_directory true s
  end.

(** The answer to the request of [op], the only operation. *)
Lemma next_examined s op p h es :
  pending s = [op] → expected_answer_type op = RL_MSG_FIND_NEXT_FILE_ANSWER →
  callback op = complete_examine_next_cb → packets s !! input_packet op = Some p →
  BCPL_CAST (dp_Arg1 p) = lock → BCPL_CAST (dp_Arg2 p) = fib →
  HANDLE_FROM_LOCK s lock = Some hd → chandles s !! hd = Some h → handle_id h = id →
  flags h = RL_CLIENT_FLAG_FILE_ENUM_IN_PROGRESS → is_Some (fibs s !! fib) →
  used (set_pending [] s) = U → Forall (λ e, no_nul (e_name e)) es →
  ∃ s', rl_amigafs_process_network_message s
      (RL_MSG_INIT (next_answer es) (request_seqno op)) = Some (s', 0) ∧
    examined (input_packet op) es s'.
Proof.
  intros Hpend Ht Hcb Hp HA1 HA2 Hl Hh Hid Hflags [f0 Hf] HU Hnames.
  unfold rl_amigafs_process_network_message, find_pending_op. rewrite Hpend.
  assert (rl_msg_kind_of (RL_MSG_INIT (next_answer es) (request_seqno op)) =
          RL_MSG_FIND_NEXT_FILE_ANSWER) as -> by by destruct es.
  cbn [find_op hdr_seq RL_MSG_INIT]. rewrite Z.eqb_refl, Ht, Z.eqb_refl, Hcb. cbn [run_callback].
  unfold complete_examine_next. rewrite Hp. cbn [mbind option_bind]. rewrite HA1, Hl.
  cbn [mbind option_bind body RL_MSG_INIT next_answer].
  destruct es as [|e es]; cbn [next_answer Z.eqb negb].
  - rewrite Hh. cbn [mbind option_bind]. erewrite answer_packet_ok by done.
    cbn [mbind option_bind]. eexists. split; [done|]. split; [cbn; apply last_snoc|].
    split; cbn; try done.
    + rewrite Hpend. cbn. by rewrite Z.eqb_refl.
    + eexists. rewrite lookup_insert_eq. split; [done|]. split; [done|]. cbn. by rewrite Hflags.
    + rewrite <- HU. unfold used. cbn. rewrite Hpend. cbn. rewrite Z.eqb_refl, dom_insert_L.
      apply elem_of_dom_2 in Hh. set_solver.
  - apply Forall_cons in Hnames as [Hn _]. rewrite construct_fib_name by done.
    cbn [mbind option_bind]. unfold put_fib. rewrite HA2, Hf. cbn [mbind option_bind].
    erewrite answer_packet_ok by done. cbn [mbind option_bind]. eexists. split; [done|].
    split; [cbn; apply last_snoc|]. split.
    { cbn. rewrite lookup_insert_eq. unfold entry_fib, node_of. by destruct (e_dir e). }
    split; cbn; try done.
    + rewrite Hpend. cbn. by rewrite Z.eqb_refl.
    + by exists h.
    + rewrite lookup_insert_eq. done.
    + rewrite <- HU. unfold used. cbn. rewrite Hpend. cbn. by rewrite Z.eqb_refl.
Qed.
(** The packet of a client that lists the directory. *)
Record lists_directory (p : DosPacket) : Prop := {
  ld_type : dp_Type p = ACTION_EXAMINE_NEXT;
  ld_lock : BCPL_CAST (dp_Arg1 p) = lock;
  ld_fib : BCPL_CAST (dp_Arg2 p) = fib
}.

(** One packet: the request, and what its answer leads to. *)
Lemma examine_one s x x' started pk p es :
  at_directory started s → lists_directory p → Forall (λ e, no_nul (e_name e)) es →
  answer x (RL_MSG_INIT (find_next_file_request id (if started then 0 else 1)) (seqno s)) =
    Some (x', RL_MSG_INIT (next_answer es) (seqno s)) →
  ∃ s', session answer 1 x (set_packets (<[pk := p]> (packets s)) s) pk = Some (x', s') ∧
    examined pk es s'.
Proof.
  intros [Hpend Hl (h & Hh & Hid & Hflags) Hf HU] [Ht HA1 HA2] Hnames Hans.
  set (s0 := set_packets _ s).
  assert (Hp : packets s0 !! pk = Some p) by apply lookup_insert_eq.
  unfold session, process_fs_packet. rewrite Hp. cbn [mbind option_bind]. rewrite Ht.
  change (packet_handler ACTION_EXAMINE_NEXT)
    with (Some (action_examine_next (P := list rl_msg))). cbv iota.
  unfold action_examine_next. rewrite Hp. cbn [mbind option_bind]. rewrite HA1.
  change (HANDLE_FROM_LOCK s0 lock) with (HANDLE_FROM_LOCK s lock). rewrite Hl.
  cbn [mbind option_bind]. unfold alloc_pending. change (used s0) with (used s). rewrite HU.
  assert (∃ a, pool_alloc U = Some a) as [a ->] by (destruct (pool_alloc U); by eauto).
  change (pending s0) with (pending s).
  rewrite Hpend. cbv zeta. cbn [pending set_pending get_op op_addr]. rewrite Z.eqb_refl.
  cbn [mbind option_bind]. change (chandles _) with (chandles s) at 1. rewrite Hh.
  cbn [mbind option_bind]. unfold fs_transmit. cbn [transmit log_link mbind option_bind].
  change (negb (0 =? 0)) with false. cbv iota. cbn [mbind option_bind request_seqno].
  set (op := PendingOp a _ pk _ _ _). set (s1 := put_handle hd _ _).
  assert (Hreq : last (fs_peer s1) = Some (RL_MSG_INIT
    (find_next_file_request id (if started then 0 else 1)) (seqno s))).
  { cbn. rewrite last_snoc, Hid, Hflags. by destruct started. }
  cbn [exchange]. change (pending s1) with [op]. cbv iota. rewrite Hreq.
  cbn [mbind option_bind]. rewrite Hans. cbn [mbind option_bind].
  destruct (next_examined s1 op p
    (set_flags (Z.lor (flags h) RL_CLIENT_FLAG_FILE_ENUM_IN_PROGRESS) h) es)
    as (s' & He & Hex); try done.
  - apply lookup_insert_eq.
  - cbn. rewrite Hflags. by destruct started.
  - rewrite <- HU. unfold used. cbn. rewrite Hpend, dom_insert_L.
    apply elem_of_dom_2 in Hh. set_solver.
  - change (request_seqno op) with (seqno s) in He. rewrite He. cbn [mbind option_bind].
    exists s'. split; [|done]. destruct es; destruct Hex as (_ & Hex); [|destruct Hex as [_ Hex]];
      by rewrite (ad_pending _ _ Hex).
Qed.

(** A client that lists a directory: it examines the next entry until the
    answer is not success, and remembers what it found in the
    FileInfoBlock. *)
Fixpoint list_directory (fuel : nat) (x : X) s (pk : Z) (p : DosPacket)
  : option (X * fsys (list rl_msg) * list FileInfoBlock * Z) :=
  match fuel with
  | O => None
  | S fuel =>
      '(x, s) ← session answer 1 x (set_packets (<[pk := p]> (packets s)) s) pk;
      '(_, res1, res2) ← last (replies s);
      if res1 =? DOSTRUE then
        f ← fibs s !! fib;
        '(x, s, fs, code) ← list_directory fuel x s pk p;
        Some (x, s, f :: fs, code)
      else Some (x, s, [], res2)
  end.
End Listing.

(** ** The whole way *)
Section EndToEnd.
Context (HTarget HController : Host) `{HPool : Pool} {O : Type} `{OS : FileServer.Posix O}.
Context (rl_log_bits : Z).
#[local] Existing Instance log_link.
Implicit Types (s : fsys (list rl_msg)).

#[local] Abbreviation server := (controller_answer (HHost := HController) rl_log_bits).

Lemma dir_stream_names dir (o : O) d es :
  dir_stream dir o d es → Forall (λ e, no_nul (e_name e)) es.
Proof.
  revert o. induction es as [|e es IH]; intros o; [constructor|].
  intros (_ & o' & Hr & _ & Hs). constructor; [|by eapply IH].
  by destruct (readdir_name _ _ _ _ Hr) as [[Hn _] _].
Qed.

Lemma server_lists_names c (o : O) i dir started es :
  server_lists c o i dir started es → Forall (λ e, no_nul (e_name e)) es.
Proof.
  intros (_ & h & f & _ & _ & _ & _ & Hl). destruct started; cbn in Hl.
  - destruct Hl as (d & _ & Hs). by eapply dir_stream_names.
  - destruct Hl as (o1 & d & _ & Hs). by eapply dir_stream_names.
Qed.

(** A program on the Amiga that lists a directory of the host, from the start or
    from where an earlier listing stopped, is told every entry that is left
    exactly once and in the order of the host, and then that there are no more. *)
Lemma directory_listed lock fib hd i U c (o : O) dir started es s pk p fuel :
  pool_alloc U ≠ None →
  server_lists c o i dir started es → at_directory lock fib hd (Z.of_nat i) U started s →
  lists_directory lock fib p → (length es < fuel)%nat →
  ∃ x s', list_directory (HHost := HTarget) server fib fuel (c, o) s pk p =
      Some (x, s', entry_fib <$> es, ERROR_NO_MORE_ENTRIES) ∧
    at_directory lock fib hd (Z.of_nat i) U false s'.
Proof.
  intros Hpool Hsrv Hs Hp. revert es c o started s Hsrv Hs.
  induction fuel as [|fuel IH]; intros es c o started s Hsrv Hs Hfuel; [lia|].
  destruct (answer_next (HHost := HController) rl_log_bits c o i dir started es (seqno s) Hsrv)
    as (c' & o' & Hans & Hnext).
  destruct (examine_one (HHost := HTarget) server lock fib hd (Z.of_nat i) U Hpool s (c, o) (c', o')
    started pk p es Hs Hp (server_lists_names _ _ _ _ _ _ Hsrv) Hans) as (s1 & He & Hex).
  cbn [list_directory]. rewrite He. cbn [mbind option_bind].
  destruct es as [|e es]; cbn [examined] in Hex.
  - destruct Hex as [-> Hd]. cbn. by do 2 eexists.
  - destruct Hex as (-> & Hf & Hd). cbn [mbind option_bind]. cbn [Z.eqb DOSTRUE Pos.eqb].
    rewrite Hf. cbn [mbind option_bind].
    destruct (IH es c' o' true s1 (Hnext ltac:(done)) Hd ltac:(cbn in Hfuel; lia))
      as (x2 & s2 & -> & Hd2).
    cbn [mbind option_bind]. by do 2 eexists.
Qed.
End EndToEnd.

(** ** A concrete run *)

(** An operating system with one directory, /w, and a position in it. *)
Record dir_os := DirOS { do_entries : list entry; do_next : nat }.

#[refine] Definition dir_posix : FileServer.Posix dir_os := {|
  stat o path :=
    match list_find (λ e, chars "/w" ++ 47 :: e_name e = path) (do_entries o) with
    | Some (_, e) => Some (e_dir e, e_size e)
    | None => None
    end;
  os_open o _ _ := (o, -1);
  fstat_size _ _ := None;
  os_close o _ := o;
  pread _ _ _ _ := None;
  opendir o path :=
    if decide (path = chars "/w") then (DirOS (do_entries o) 0, Some 9) else (o, None);
  readdir o _ :=
    match do_entries o !! do_next o with
    | Some e =>
        if decide (no_nul (e_name e) ∧ (length (e_name e) ≤ 255)%nat ∧ Forall is_byte (e_name e))
        then (DirOS (do_entries o) (S (do_next o)), D_name (e_name e)) else (o, D_error)
    | None => (o, D_end)
    end;
  closedir o _ := o;
  errno _ := E_OTHER;
  fwrite_stdout o _ := o;
  file_data _ _ := None
|}.
Proof.
  - done.
  - done.
  - intros o d o' name. case_match; [|done]. case_decide as Hwf; [|done].
    intros [= _ <-]. destruct Hwf as (? & ? & ?). by split.
Defined.

Definition demo_entries : list entry :=
  [Entry (chars "sub") true 0; Entry (chars "a") false 5].
Definition demo_dir_os : dir_os := DirOS demo_entries 0.

(** The second slot is the directory. *)
Definition demo_dir_controller : rl_controller :=
  update_handle FileServer.demo_controller (H_slot 1)
    (FileServer.demo_handle (-1) (chars "/w") RL_NODE_TYPE_DIRECTORY).

(** A lock at 128 on a handle at 256, and a FileInfoBlock at 1200. *)
Definition demo_dir_fs : fsys (list rl_msg) :=
  Fsys _ [] 1 2000 (Volume 4000 (2 :: cstr "RL") 0 2000 0 ID_DOS_DISK) [] 64
    {[ 256 := ClientHandle 1 RL_HANDLE_DIR 0 0 0 0 path_zero 0 0 buffer_zero;
       64 := ClientHandle (u32 (-1)) RL_HANDLE_DEVICE 0 0 0 0 path_zero 0 0 buffer_zero ]}
    {[ 128 := Lock SHARED_LOCK 256 2000 1000 ]} ∅ ∅ {[ 1200 := fib_zero ]} ∅ ∅ [].
Definition demo_examine : DosPacket := Packet ACTION_EXAMINE_NEXT 32 300 0 0 0 0 5000.

Lemma demo_dir_serves :
  server_lists (OS := dir_posix) demo_dir_controller demo_dir_os 1 (chars "/w") false demo_entries.
Proof.
  split; [unfold RL_MAX_FILE_HANDLES; lia|].
  eexists _, _. split; [done|]. split; [done|]. split; [done|]. split; [by vm_compute|]. eexists _, _. split; [by vm_compute|].
  split; [cbn; lia|]. eexists. split; [by vm_compute|]. split; [by vm_compute|].
  split; [cbn; lia|]. eexists. split; [by vm_compute|]. split; [by vm_compute|].
  eexists. by vm_compute.
Qed.
