(* ===== verification/AmigaOutput.v ===== *)
(** * AmigaOutput: what a program prints

    A program on the Amiga writes to the virtual output file, the standard
    output that the target gives it; the file system sends the bytes to the
    controller, whose file server writes them to its own standard output. *)

From S2P Require Import Prelude Wire Messages CString Format Transport Peer FileServer.
From S2P Require Import AmigaFs AmigaActions AmigaIo AmigaSession.

(** ** The controller at the other end *)
Section Controller.
Context `{HHost : Host} {O : Type} `{OS : FileServer.Posix O}.
Context (rl_log_bits : Z) (stdout : O → list Z).
Hypothesis stdout_fwrite : ∀ o bs, stdout (FileServer.fwrite_stdout o bs) = stdout o ++ bs.
#[local] Existing Instance log_link.

(** The controller after it has written [out]. *)
Definition printed (c : FileServer.rl_controller) (out : list Z)
    (x : FileServer.rl_controller * O) : Prop :=
  x.1 = c ∧ stdout x.2 = out.

Lemma voutput_id :
  FileServer.get_handle_from_id RL_FILEHANDLE_VIRTUAL_OUTPUT = Some FileServer.H_voutput.
Proof. by vm_compute. Qed.

(** Writes to the virtual output are printed, whatever the log shows. *)
Lemma controller_prints c :
  takes_writes (controller_answer rl_log_bits) (printed c) RL_FILEHANDLE_VIRTUAL_OUTPUT.
Proof.
  intros [c' o] out a q bs [Hc Ho] Hbs _. cbn [fst snd] in *. subst c'.
  exists (c, FileServer.fwrite_stdout o bs). split; [|by split; [|cbn; rewrite stdout_fwrite, Ho]].
  unfold controller_answer, FileServer.rl_file_serve.
  change (rl_msg_kind_of _) with RL_MSG_WRITE_FILE_REQUEST. cbn [Z.eqb Pos.eqb fst snd].
  unfold FileServer.write_file_request_. cbn [body RL_MSG_INIT].
  rewrite voutput_id, bool_decide_false, andb_false_r by done.
  rewrite decide_True, Hbs by done. done.
Qed.

(** The end of the output is no request: nothing is closed, nothing answered. *)
Lemma controller_keeps_output c o q :
  FileServer.rl_file_serve rl_log_bits [] c o
    (RL_MSG_INIT (close_handle_request RL_FILEHANDLE_VIRTUAL_OUTPUT) q) = Some ([], c, o, 0).
Proof. done. Qed.
End Controller.

(** ** The client *)
Section Output.
Context `{HHost : Host} `{HPool : Pool}.
#[local] Existing Instance log_link.
Implicit Types (s : fsys (list rl_msg)).
Context {X : Type} (answer : X → rl_msg → option (X * rl_msg)).

(** A client prints: it stores each text at an address and sends the packet
    [pk]; the result has the numbers in the answers. *)
Definition write_packet (f : FileHandle) (src n port : Z) : DosPacket :=
  Packet ACTION_WRITE (fh_Arg1 f) src n 0 0 0 port.

Fixpoint write_pieces (fuel : nat) (x : X) s (fh pk port : Z) (pieces : list (Z * list Z))
  : option (X * fsys (list rl_msg) * list Z) :=
  match pieces with
  | [] => Some (x, s, [])
  | (a, bs) :: pieces =>
      f ← fhs s !! fh;
      m ← mem_write (mem s) a bs;
      let p := write_packet f a (Z.of_nat (length bs)) port in
      '(x, s) ← session answer fuel x (set_packets (<[pk := p]> (packets s)) (set_mem m s)) pk;
      '(_, n, _) ← last (replies s);
      '(x, s, ns) ← write_pieces fuel x s fh pk port pieces;
      Some (x, s, n :: ns)
  end.

(** ... and closes the file. *)
Definition close_file s (fh pk port : Z) : option (fsys (list rl_msg)) :=
  f ← fhs s !! fh;
  process_fs_packet
    (set_packets (<[pk := Packet ACTION_END (fh_Arg1 f) 0 0 0 0 0 port]> (packets s)) s) pk.

(** Opening the virtual output asks nobody. *)
Lemma findoutput_opens s0 pk p full f0 l hh :
  packets s0 !! pk = Some p → dp_Type p = ACTION_FINDOUTPUT →
  cstr_at (pointer_to (mem s0) (BCPL_CAST (dp_Arg3 p) + 1)) = Some full →
  file_part full = chars "+virtual-output+" →
  fhs s0 !! BCPL_CAST (dp_Arg1 p) = Some f0 → pending s0 = [] →
  pool_alloc (used s0) = Some l → pool_alloc ({[l]} ∪ used s0) = Some hh →
  ∃ s, process_fs_packet s0 pk = Some s ∧
    opened s0 RL_HANDLE_VIRTUAL_OUTPUT pk (BCPL_CAST (dp_Arg1 p)) l hh
      RL_FILEHANDLE_VIRTUAL_OUTPUT 0 s ∧ fs_peer s = fs_peer s0.
Proof.
  intros Hp Ht Hfull Hname Hfh Hpend Hl Hhh.
  unfold process_fs_packet. rewrite Hp. cbn [mbind option_bind]. rewrite Ht.
  change (packet_handler ACTION_FINDOUTPUT) with (Some (action_findoutput (P := list rl_msg))).
  cbv iota. unfold action_findoutput. rewrite Hp. cbn [mbind option_bind].
  destruct (skip_device_ok _ _ Hfull) as (q & -> & Hq). cbn [mbind option_bind].
  destruct (rl_strcmp_eq q RLAUNCH_VIRTUAL_OUTPUT_FILE (file_part full) (chars "+virtual-output+"))
    as (cmp & -> & Hcmp); [done|by vm_compute|]. cbn [mbind option_bind].
  rewrite (proj2 (Z.eqb_eq cmp 0)) by tauto. cbn [negb].
  destruct (new_lock s0 RL_HANDLE_VIRTUAL_OUTPUT RL_FILEHANDLE_VIRTUAL_OUTPUT EXCLUSIVE_LOCK
    0 _ full l hh Hfull Hl Hhh) as (m & lk & Hkey & _ & ->). cbn [mbind option_bind].
  set (s2 := put_lock l lk _). unfold open_file_handle. change (fhs s2) with (fhs s0).
  rewrite Hfh. cbn [mbind option_bind]. erewrite answer_packet_ok by exact Hp.
  eexists. split; [done|]. split; [|done]. split; cbn; try done.
  - exists lk. split; [|done]. by rewrite insert_insert_eq.
  - by exists m.
Qed.

(** A program with an open output, whose heap has the locks [L] and the
    handles [C]. *)
Context (M : gset Z) (L : gmap Z FileLock) (C : gmap Z rl_client_handle) (root fh id : Z)
  (f : FileHandle) (lk : FileLock) (h : rl_client_handle).
Hypothesis lock_there : L !! fh_Arg1 f = Some lk.
Hypothesis handle_there : C !! fl_Key lk = Some h.
Hypothesis handle_is : handle_id h = id.

Record at_output s : Prop := {
  ao_pending : pending s = [];
  ao_fh : fhs s !! fh = Some f;
  ao_locks : locks s = L;
  ao_handles : chandles s = C;
  ao_root : root_addr s = root;
  ao_mem : dom (mem s) = M
}.

Definition text_ok (fuel : nat) (piece : Z * list Z) : Prop :=
  Z.of_nat (length piece.2) < 2147483648 ∧ (length piece.2 < fuel)%nat ∧
  ∀ i, 0 <= i < Z.of_nat (length piece.2) → piece.1 + i ∈ M.

Context (inv : list Z → X → Prop).
Hypothesis answer_takes : takes_writes answer inv id.
Hypothesis pool_serves : pool_alloc (dom L ∪ dom C ∪ ∅ ∪ {[root]}) ≠ None.

Lemma write_pieces_ok fuel x s pk port out pieces :
  inv out x → at_output s → Forall (text_ok fuel) pieces →
  ∃ x' s', write_pieces fuel x s fh pk port pieces =
      Some (x', s', Z.of_nat ∘ length <$> pieces.*2) ∧
    inv (out ++ concat pieces.*2) x' ∧ at_output s'.
Proof.
  intros Hx Hs Hall. revert x s out Hx Hs.
  induction Hall as [|[a bs] pieces (Hlen & Hfuel & Hdst) Hall IH]; intros x s out Hx Hs.
  { exists x, s. by rewrite app_nil_r. }
  destruct Hs as [Hpend Hfh Hlk Hch Hroot Hmem]. cbn [write_pieces fst snd] in *. rewrite Hfh.
  cbn [mbind option_bind].
  destruct (mem_write_ok (mem s) a bs) as (m & -> & Hdom & Hread & _).
  { intros i Hi. apply elem_of_dom. rewrite Hmem. by apply Hdst. }
  cbn [mbind option_bind]. set (p := write_packet f a _ port). set (s1 := set_packets _ _).
  destruct (action_write_any answer inv pk p (fl_Key lk) h s1 bs out) with (fuel := fuel) (x := x)
    as (x1 & s2 & -> & Hx1 & [Hpend2 Hr2 Hm2 (Hl2 & Hc2 & Hf2 & Hroot2) _]); try done.
  - cbn. lia.
  - cbn. by rewrite Nat2Z.id.
  - unfold HANDLE_FROM_LOCK. cbn. by rewrite Hlk, lock_there.
  - cbn. by rewrite Hch.
  - by rewrite handle_is.
  - apply lookup_insert_eq.
  - unfold used. cbn. by rewrite Hlk, Hch, Hroot, Hpend.
  - cbn. by rewrite Nat2Z.id.
  - cbn [mbind option_bind]. rewrite Hr2, last_snoc. cbn [mbind option_bind].
    destruct (IH x1 s2 (out ++ bs) Hx1) as (x' & s' & -> & Hx' & Hs').
    { split; cbn in *; congruence. }
    exists x', s'. split; [done|]. by rewrite <- app_assoc in Hx'.
Qed.

(** Closing frees the lock and the handle, and tells the controller. *)
Lemma close_file_ok s pk port :
  at_output s → h_type h ≠ RL_HANDLE_DEVICE →
  ∃ s' q, close_file s fh pk port = Some s' ∧
    replies s' = replies s ++ [(pk, DOSTRUE, 0)] ∧ pending s' = [] ∧
    fs_peer s' = fs_peer s ++ [RL_MSG_INIT (close_handle_request id) q] ∧
    locks s' = delete (fh_Arg1 f) L ∧ chandles s' = delete (fl_Key lk) C.
Proof.
  intros [Hpend Hfh Hlk Hch Hroot Hmem] Hty. unfold close_file. rewrite Hfh.
  cbn [mbind option_bind]. set (p := Packet _ _ _ _ _ _ _ _). set (s1 := set_packets _ s).
  assert (Hp : packets s1 !! pk = Some p) by apply lookup_insert_eq.
  unfold process_fs_packet. rewrite Hp. cbn [mbind option_bind].
  change (packet_handler (dp_Type p)) with (Some (action_end (P := list rl_msg))). cbv iota.
  unfold action_end. rewrite Hp. cbn [mbind option_bind dp_Arg1 p].
  unfold rl_amigafs_free_lock, HANDLE_FROM_LOCK. change (locks s1) with (locks s).
  rewrite Hlk, lock_there. cbn [mbind option_bind]. change (chandles s1) with (chandles s).
  rewrite Hch, handle_there. cbn [mbind option_bind]. rewrite decide_True by done.
  unfold fs_transmit. cbn [transmit log_link mbind option_bind].
  erewrite answer_packet_ok by exact Hp. rewrite handle_is.
  eexists _, _. split; [done|]. split_and!; try done; cbn; by rewrite ?Hlk, ?Hch.
Qed.
End Output.

Section Printing.
Context `{HHost : Host} `{HPool : Pool}.
#[local] Existing Instance log_link.
Implicit Types (s : fsys (list rl_msg)).

(** The whole way: a program that opens its output, writes texts of any sizes
    and closes it.  The texts are taken once, whole and in order, each write is
    answered with its length, and after the close the heap is what it was and
    the controller has been told. *)
Lemma text_printed {X : Type} (answer : X → rl_msg → option (X * rl_msg)) (inv : list Z → X → Prop)
    x out s0 pk p full f0 l hh fuel pk2 pk3 port pieces :
  takes_writes answer inv RL_FILEHANDLE_VIRTUAL_OUTPUT → inv out x →
  packets s0 !! pk = Some p → dp_Type p = ACTION_FINDOUTPUT →
  cstr_at (pointer_to (mem s0) (BCPL_CAST (dp_Arg3 p) + 1)) = Some full →
  file_part full = chars "+virtual-output+" →
  fhs s0 !! BCPL_CAST (dp_Arg1 p) = Some f0 → pending s0 = [] →
  pool_alloc (used s0) = Some l → pool_alloc ({[l]} ∪ used s0) = Some hh →
  pool_alloc ({[l; hh]} ∪ used s0) ≠ None →
  Forall (text_ok (dom (mem s0)) fuel) pieces →
  let fh := BCPL_CAST (dp_Arg1 p) in
  ∃ s1 x' s2 s3 q,
    process_fs_packet s0 pk = Some s1 ∧ replies s1 = replies s0 ++ [(pk, DOSTRUE, 0)] ∧
    pending s1 = [] ∧ fs_peer s1 = fs_peer s0 ∧
    write_pieces answer fuel x s1 fh pk2 port pieces =
      Some (x', s2, Z.of_nat ∘ length <$> pieces.*2) ∧
    inv (out ++ concat pieces.*2) x' ∧ pending s2 = [] ∧
    close_file s2 fh pk3 port = Some s3 ∧
    replies s3 = replies s2 ++ [(pk3, DOSTRUE, 0)] ∧ pending s3 = [] ∧
    locks s3 = locks s0 ∧ chandles s3 = chandles s0 ∧
    fs_peer s3 = fs_peer s2 ++
      [RL_MSG_INIT (close_handle_request RL_FILEHANDLE_VIRTUAL_OUTPUT) q].
Proof.
  intros Htakes Hx Hp Ht Hfull Hname Hfh Hpend Hl Hhh Hpool Hpieces fh.
  destruct (findoutput_opens s0 pk p full f0 l hh Hp Ht Hfull Hname Hfh Hpend Hl Hhh)
    as (s1 & Hopen & [Hpend1 Hr1 Hfhs (lk & Hlocks & Hkey) (name & Hch) Hm Hroot1] & Hpeer1).
  set (f := DosHandle (device_port s0) l).
  set (h := fresh_handle RL_HANDLE_VIRTUAL_OUTPUT RL_FILEHANDLE_VIRTUAL_OUTPUT 0 name).
  assert (Hlk : locks s1 !! fh_Arg1 f = Some lk) by (rewrite Hlocks; apply lookup_insert_eq).
  assert (Hh : chandles s1 !! fl_Key lk = Some h) by (rewrite Hch, Hkey; apply lookup_insert_eq).
  assert (Hat : at_output (dom (mem s0)) (locks s1) (chandles s1) (root_addr s0) fh f s1).
  { split; try done; [|by rewrite Hm]. by rewrite Hfhs; apply lookup_insert_eq. }
  destruct (write_pieces_ok answer (dom (mem s0)) (locks s1) (chandles s1)
    (root_addr s0) fh RL_FILEHANDLE_VIRTUAL_OUTPUT f lk h Hlk Hh eq_refl inv Htakes
    ltac:(rewrite Hlocks, Hch, !dom_insert_L;
          replace (_ ∪ _ ∪ ∅ ∪ _) with ({[l; hh]} ∪ used s0); [exact Hpool|];
          unfold used; rewrite Hpend; cbn; set_solver)
    fuel x s1 pk2 port out pieces Hx Hat Hpieces) as (x' & s2 & Hrun & Hout & Hat2).
  destruct (close_file_ok (dom (mem s0)) (locks s1) (chandles s1) (root_addr s0)
    fh RL_FILEHANDLE_VIRTUAL_OUTPUT f lk h Hlk Hh eq_refl s2 pk3 port Hat2 ltac:(done))
    as (s3 & q & Hclose & Hr3 & Hpend3 & Hpeer & Hl3 & Hc3).
  apply pool_fresh in Hl as [Hl _]. apply pool_fresh in Hhh as [Hhh _].
  exists s1, x', s2, s3, q. split_and!; try done; [apply Hat2|..].
  - rewrite Hl3, Hlocks. cbn. apply delete_insert_id. unfold used in Hl.
    apply not_elem_of_dom. set_solver.
  - rewrite Hc3, Hch, Hkey. apply delete_insert_id. unfold used in Hhh.
    apply not_elem_of_dom. set_solver.
Qed.
End Printing.
