(* ===== verification/AmigaLocks.v ===== *)
(** * AmigaLocks: what the locks of the file system stand for

    Names relative to locks, parents and duplicates: which object of the host a
    lock designates, what the requests that it leads to say, and where the two
    part. *)

From S2P Require Import Prelude Wire Messages CString Format Transport Peer FileServer.
From S2P Require Import AmigaFs AmigaActions AmigaIo AmigaSession AmigaDir.

Definition ACTION_FREE_LOCK : Z := 15.
Definition ACTION_COPY_DIR : Z := 19.
Definition ACTION_PARENT : Z := 29.

(** ** Lists and addresses *)
Lemma last_slash_S text n :
  last_slash text (S n) =
    if bool_decide (text !! n = Some 47) then Z.of_nat n else last_slash text n.
Proof. done. Qed.

Lemma last_slash_none text rest n :
  47 ∉ text → (n ≤ length text)%nat → last_slash (text ++ rest) n = -1.
Proof.
  intros Hn. induction n as [|n IH]; intros Hl; [done|]. rewrite last_slash_S.
  rewrite lookup_app_l by lia. rewrite bool_decide_false; [by apply IH; lia|].
  intros H. apply Hn. by eapply list_elem_of_lookup_2.
Qed.

Lemma last_slash_at dir name rest n :
  47 ∉ name → (n ≤ length name)%nat →
  last_slash (dir ++ 47 :: name ++ rest) (S (length dir + n)) = Z.of_nat (length dir).
Proof.
  intros Hn. induction n as [|n IH]; intros Hl; rewrite last_slash_S.
  - rewrite Nat.add_0_r, bool_decide_true; [done|].
    by rewrite lookup_app_r, Nat.sub_diag by lia.
  - rewrite bool_decide_false; [rewrite Nat.add_succ_r; apply IH; lia|].
    rewrite lookup_app_r by lia. replace (length dir + S n - length dir)%nat with (S n) by lia.
    change ((47 :: name ++ rest) !! S n) with ((name ++ rest) !! n). rewrite lookup_app_l by lia.
    intros H. apply Hn. by eapply list_elem_of_lookup_2.
Qed.

(** A pointer of the pool survives the way through a BPTR. *)
Lemma bptr_round a : 0 < a < 2147483648 → Z.rem a 4 = 0 → BCPL_CAST (MKBADDR a) = a.
Proof.
  intros Ha Hr. unfold BCPL_CAST, MKBADDR. rewrite Z.shiftl_mul_pow2, Z.shiftr_div_pow2 by lia.
  change (2 ^ 2) with 4. rewrite Z.rem_mod_nonneg in Hr by lia.
  replace (a / 4 * 4) with a by (pose proof (Z.div_mod a 4); lia). apply s32_id. lia.
Qed.

(** ** Names *)
Section Paths.
Context `{HHost : Host} {P : Type}.
Implicit Types (s : fsys P).

(** The path that a name means: from the root behind a colon, else below the
    directory of the lock. *)
Definition path_below (parent : option (list Z)) (name : list Z) : list Z :=
  match list_find (λ c, c = 58) name, parent with
  | None, Some dir => dir ++ 47 :: name
  | _, _ => file_part name
  end.

(** The directory of a lock; the root has none. *)
Definition directory_of s (dir_lock : Z) (parent : option (list Z)) : Prop :=
  ∃ handle, (if dir_lock =? 0 then Some (root_addr s) else HANDLE_FROM_LOCK s dir_lock) = Some handle ∧
  if decide (handle = root_addr s) then parent = None
  else ∃ h dir, chandles s !! handle = Some h ∧ cstr_at (path h) = Some dir ∧ parent = Some dir.

Lemma colon_cases name :
  no_nul name → rl_strchr (name ++ [0]) 58 =
    Some (match list_find (λ c, c = 58) name with
          | Some (i, _) => Some (58 :: drop (S i) name ++ [0])
          | None => None
          end).
Proof.
  intros Hn. destruct (list_find (λ c, c = 58) name) as [[i c]|] eqn:E.
  - apply list_find_Some in E as (Hi & -> & Hbefore).
    rewrite <- (take_drop_middle name i 58 Hi) at 1. rewrite <- app_assoc.
    apply rl_strchr_found; [|by apply Forall_take].
    intros [j Hj]%list_elem_of_lookup. apply lookup_take_Some in Hj as [Hj Hlt]. by eapply Hbefore.
  - apply rl_strchr_null; [|done|done].
    apply list_find_None in E. rewrite Forall_forall in E. intros H. by apply (E 58).
Qed.

Lemma normalized s size dir_lock bstr name parent :
  (0 < size)%nat → mem s !! bstr = Some (Z.of_nat (length name)) →
  mem_read (mem s) (bstr + 1) (length name) = Some name → no_nul name →
  directory_of s dir_lock parent →
  normalize_object_path s size dir_lock bstr =
    if decide (length name ≤ 107)%nat then Some (take (size - 1) (path_below parent name)) else None.
Proof.
  intros Hsize Hlen Hname Hn (handle & Hh & Hdir). unfold normalize_object_path.
  rewrite Hh. cbn [mbind option_bind]. rewrite Hlen. cbn [mbind option_bind].
  rewrite Nat2Z.id, Hname. cbn [mbind option_bind].
  change RL_AMIGA_PATH_MAX with 108%nat.
  destruct (Nat.ltb_spec 108 (length name + 1)); [by rewrite decide_False by lia|].
  rewrite decide_True by lia. rewrite colon_cases by done. cbn [mbind option_bind].
  unfold path_below, file_part.
  destruct (list_find (λ c, c = 58) name) as [[i c]|].
  - rewrite Z.eqb_refl. cbn [negb drop]. apply (format_text_spec size); [|by apply Forall_drop|done].
    apply render_s. apply cstr_at_app. by apply Forall_drop.
  - destruct (decide (handle = root_addr s)) as [->|Hne].
    + subst parent. rewrite Z.eqb_refl. cbn [negb].
      apply (format_text_spec size); [|done|done]. apply render_s. by apply cstr_at_app.
    + destruct Hdir as (h & dir & Hch & Hd & ->). rewrite (proj2 (Z.eqb_neq _ _)) by done.
      cbn [negb]. rewrite Hch. cbn [mbind option_bind].
      apply (format_text_spec size); [| |done].
      * apply (render_s_char_s _ _ 47); [done..|]. by apply cstr_at_app.
      * apply Forall_app. split; [by apply cstr_at_Some in Hd as []|by constructor].
Qed.

(** C19: the path that the file system makes of a name, for every name and lock:
    a name with a colon is taken from the root, any other below the directory
    of the lock, and the path is cut at the size of the buffer; but a name of
    more than 107 characters is written behind the end of an array. *)
Theorem normalize_object_path_spec s size dir_lock bstr name parent :
  (0 < size)%nat → mem s !! bstr = Some (Z.of_nat (length name)) →
  mem_read (mem s) (bstr + 1) (length name) = Some name → no_nul name →
  directory_of s dir_lock parent →
  normalize_object_path s size dir_lock bstr =
    if decide (length name ≤ 107)%nat then Some (take (size - 1) (path_below parent name)) else None.
Proof. apply normalized. Qed.

End Paths.

(** ** Parents *)
Section Locks.
Context `{HHost : Host} `{HPool : Pool}.
#[local] Existing Instance log_link.
Implicit Types (s : fsys (list rl_msg)).

(** A client writes the packet [p] at [pk] and sends it. *)
Definition sends s (pk : Z) (p : DosPacket) : option (fsys (list rl_msg)) :=
  process_fs_packet (set_packets (<[pk := p]> (packets s)) s) pk.


Definition lock_packet (type lock arg2 port : Z) : DosPacket :=
  Packet type (MKBADDR lock) arg2 0 0 0 0 port.

Lemma bptr_lock X l : pool_alloc X = Some l → BCPL_CAST (MKBADDR l) = l ∧ l ≠ 0.
Proof. intros (_ & Hl & Hr)%pool_fresh. split; [by apply bptr_round|lia]. Qed.

(** What [process_fs_packet] does with a packet of a known type. *)
Lemma sends_run s pk p handler :
  packet_handler (dp_Type p) = Some handler →
  sends s pk p = handler (set_packets (<[pk := p]> (packets s)) s) pk.
Proof.
  intros Hh. unfold sends, process_fs_packet. cbn [packets set_packets].
  rewrite lookup_insert_eq. cbn [mbind option_bind]. by rewrite Hh.
Qed.

(** The requests that a lock leads to carry the number in its handle. *)
Lemma next_asks_handle s pk lock fib port hd h op :
  BCPL_CAST (MKBADDR lock) = lock → HANDLE_FROM_LOCK s lock = Some hd →
  chandles s !! hd = Some h → flags h = 0 → pool_alloc (used s) = Some op → pending s = [] →
  ∃ s', sends s pk (lock_packet ACTION_EXAMINE_NEXT lock fib port) = Some s' ∧
    fs_peer s' = fs_peer s ++ [RL_MSG_INIT (find_next_file_request (handle_id h) 1) (seqno s)].
Proof.
  intros Hb Hlk Hh Hf Hop Hpend.
  rewrite (sends_run _ _ _ (action_examine_next (P := list rl_msg))) by done.
  unfold action_examine_next. cbn [packets set_packets]. rewrite lookup_insert_eq.
  cbn [mbind option_bind lock_packet dp_Arg1]. rewrite Hb.
  unfold HANDLE_FROM_LOCK in *. cbn [locks set_packets]. rewrite Hlk. cbn [mbind option_bind].
  unfold alloc_pending, used in *. cbn [locks chandles pending root_addr set_packets seqno].
  rewrite Hop. rewrite Hpend. cbn [get_op pending set_pending op_addr chandles set_seqno set_packets].
  rewrite Z.eqb_refl. cbn [mbind option_bind]. rewrite Hh. cbn [mbind option_bind]. rewrite Hf.
  eexists. split; [done|]. done.
Qed.

Lemma free_lock_tells s pk lock port hd h :
  BCPL_CAST (MKBADDR lock) = lock → lock ≠ 0 → HANDLE_FROM_LOCK s lock = Some hd →
  chandles s !! hd = Some h → h_type h ≠ RL_HANDLE_DEVICE →
  ∃ s', sends s pk (lock_packet ACTION_FREE_LOCK lock 0 port) = Some s' ∧
    fs_peer s' = fs_peer s ++ [RL_MSG_INIT (close_handle_request (handle_id h)) (seqno s)] ∧
    replies s' = replies s ++ [(pk, DOSTRUE, 0)] ∧
    locks s' = delete lock (locks s) ∧ chandles s' = delete hd (chandles s).
Proof.
  intros Hb H0 Hlk Hh Ht.
  rewrite (sends_run _ _ _ (action_free_lock (P := list rl_msg))) by done.
  unfold action_free_lock. cbn [packets set_packets]. rewrite lookup_insert_eq.
  cbn [mbind option_bind lock_packet dp_Arg1]. rewrite Hb, (proj2 (Z.eqb_neq _ _)) by done.
  cbn [negb]. unfold rl_amigafs_free_lock, HANDLE_FROM_LOCK in *. cbn [locks set_packets].
  rewrite Hlk. cbn [mbind option_bind chandles set_packets]. rewrite Hh. cbn [mbind option_bind].
  rewrite decide_True by done. unfold fs_transmit. cbn [transmit log_link mbind option_bind].
  erewrite answer_packet_ok by apply lookup_insert_eq. eexists. split; [done|]. by split_and!.
Qed.

(** The parent of [dir/name]. *)
Lemma parent_lock s pk lock port hd h dir name l hh :
  BCPL_CAST (MKBADDR lock) = lock → HANDLE_FROM_LOCK s lock = Some hd →
  hd ≠ root_addr s → hd ≠ 0 → chandles s !! hd = Some h →
  cstr_at (path h) = Some (dir ++ 47 :: name) → 47 ∉ name → dir ≠ [] →
  (length (dir ++ 47%Z :: name) ≤ 107)%nat →
  pool_alloc (used s) = Some l → pool_alloc ({[l]} ∪ used s) = Some hh →
  ∃ s' lk m, sends s pk (lock_packet ACTION_PARENT lock 0 port) = Some s' ∧
    replies s' = replies s ++ [(pk, MKBADDR l, 0)] ∧ fl_Key lk = hh ∧
    locks s' = <[l := lk]> (locks s) ∧
    chandles s' = <[hh := fresh_handle RL_HANDLE_DIR (u32 (-1)) 0 m]> (chandles s) ∧
    cstr_at m = Some dir ∧ fs_peer s' = fs_peer s ∧ pending s' = pending s ∧
    seqno s' = seqno s ∧ root_addr s' = root_addr s.
Proof.
  intros Hb Hlk Hroot H0 Hh Hpath Hname Hdir Hlen Hl Hhh.
  rewrite (sends_run _ _ _ (action_parent (P := list rl_msg))) by done.
  unfold action_parent. cbn [packets set_packets]. rewrite lookup_insert_eq.
  cbn [mbind option_bind lock_packet dp_Arg1]. rewrite Hb.
  set (s1 := set_packets _ s). change (HANDLE_FROM_LOCK s1 lock) with (HANDLE_FROM_LOCK s lock).
  rewrite Hlk. cbn [mbind option_bind]. change (root_addr s1) with (root_addr s).
  rewrite (proj2 (Z.eqb_neq _ _) Hroot), (proj2 (Z.eqb_neq _ _) H0). cbn [orb].
  change (chandles s1) with (chandles s). rewrite Hh. cbn [mbind option_bind].
  pose proof (proj1 (cstr_at_Some _ _ Hpath)) as Hn.
  rewrite (rl_string_copy_ok _ _ _ _ Hpath) by (rewrite length_replicate; lia).
  cbn [mbind option_bind]. rewrite (take_ge (dir ++ _)) by lia. rewrite <- app_assoc. cbn [app].
  rewrite rl_strlen_spec, cstr_at_app by done. cbn [mbind option_bind].
  assert (Hslash : ∀ rest, last_slash ((dir ++ 47 :: name) ++ rest) (length (dir ++ 47%Z :: name)) =
    Z.of_nat (length dir)).
  { intros rest. rewrite <- app_assoc, length_app. cbn [app length]. rewrite Nat.add_succ_r.
    by apply last_slash_at. }
  rewrite Hslash.
  destruct (Z.leb_spec (Z.of_nat (length dir)) 0); [by destruct dir; cbn in *|].
  rewrite Nat2Z.id, <- app_assoc, take_app_length.
  assert (Hnd : no_nul dir) by by apply Forall_app in Hn as [? _].
  destruct (new_lock s1 RL_HANDLE_DIR (u32 (-1)) SHARED_LOCK 0 (dir ++ [0]) dir l hh
    (cstr_at_app _ _ Hnd) Hl Hhh) as (m & lk & Hkey & Hm & ->). cbn [mbind option_bind].
  erewrite answer_packet_ok by apply lookup_insert_eq.
  eexists _, lk, m. split; [done|]. split; [done|]. split; [done|].
  split; [cbn; by rewrite insert_insert_eq|]. split; [done|].
  split; [|done]. rewrite Hm, take_ge; [done|]. rewrite length_app in Hlen. lia.
Qed.

(** The requests of a client that lists the directory with the number [id]. *)
Fixpoint listing_requests (id : Z) (started : bool) (qs : list Z) : list rl_msg :=
  match qs with
  | [] => []
  | q :: qs => RL_MSG_INIT (find_next_file_request id (if started then 0 else 1)) q ::
      listing_requests id true qs
  end.

Fixpoint serve_all {O} `{OS : FileServer.Posix O} (rl_log_bits : Z) c (o : O) (msgs : list rl_msg)
  : option (list rl_msg * FileServer.rl_controller * O) :=
  match msgs with
  | [] => Some ([], c, o)
  | msg :: msgs =>
      '(out, c, o, _) ← FileServer.rl_file_serve rl_log_bits [] c o msg;
      '(outs, c, o) ← serve_all rl_log_bits c o msgs;
      Some (out ++ outs, c, o)
  end.

(** The entries of a directory, and the end. *)
Fixpoint listing_answers (es : list entry) (qs : list Z) : list rl_msg :=
  match qs with
  | [] => []
  | q :: qs => RL_MSG_INIT (next_answer es) q :: listing_answers (tail es) qs
  end.

Lemma listing_served {O} `{OS : FileServer.Posix O} bits c (o : O) id dir started es qs :
  lists_dir c o id dir started es → (length qs ≤ S (length es))%nat →
  ∃ c' o', serve_all bits c o (listing_requests id started qs) = Some (listing_answers es qs, c', o').
Proof.
  revert c o started es. induction qs as [|q qs IH]; intros c o started es Hl Hlen; [by eexists _, _|].
  destruct (serve_entry bits c o id dir started es q Hl) as (c1 & o1 & E & Hn).
  cbn [listing_requests serve_all]. rewrite E. cbn [mbind option_bind].
  destruct qs as [|q' qs]; [by eexists _, _|].
  destruct es as [|e es]; [cbn in Hlen; lia|].
  destruct (IH c1 o1 true (tail (e :: es))) as (c' & o' & E'); [by apply Hn|cbn in *; lia|].
  exists c', o'. by rewrite E'.
Qed.

(** The root of the host has no descriptor, so that closing it changes nothing. *)
Lemma close_root {O} `{OS : FileServer.Posix O} bits c (o : O) q :
  FileServer.handle (FileServer.root_handle c) = 0 →
  FileServer.rl_file_serve bits [] c o (RL_MSG_INIT (close_handle_request (u32 (-1))) q) =
    Some ([], c, o, 0).
Proof.
  intros H0. destruct c as [st [z d np ty sz] vi vo hs ex ar res]. cbn in H0. by subst z.
Qed.

(** C20: the lock that ACTION_PARENT gives for a file or directory below a
    directory that is not the root shows the right path, but its handle has the
    number of the root: asked for the entries of this directory, the server
    lists those of its root, one by one and to the end, whatever the directory
    holds; and freeing the lock asks the server to close its root, which it
    takes in silence and which, its root having no descriptor, changes nothing. *)
Theorem parent_lists_root {O} `{OS : FileServer.Posix O} bits s pk lock port hd h dir name l hh op fib
    c (o : O) root es qs :
  BCPL_CAST (MKBADDR lock) = lock → HANDLE_FROM_LOCK s lock = Some hd →
  hd ≠ root_addr s → hd ≠ 0 → chandles s !! hd = Some h →
  cstr_at (path h) = Some (dir ++ 47 :: name) → 47 ∉ name → dir ≠ [] →
  (length (dir ++ 47%Z :: name) ≤ 107)%nat → pending s = [] →
  pool_alloc (used s) = Some l → pool_alloc ({[l]} ∪ used s) = Some hh →
  pool_alloc ({[l; hh]} ∪ used s) = Some op →
  FileServer.handle (FileServer.root_handle c) = 0 →
  FileServer.type (FileServer.root_handle c) = RL_NODE_TYPE_DIRECTORY →
  cstr_at (FileServer.native_path (FileServer.root_handle c)) = Some root →
  listing root (FileServer.root_handle c) o false es → length qs = length es →
  ∃ s1 s2 s3 h1 c' o',
    sends s pk (lock_packet ACTION_PARENT lock 0 port) = Some s1 ∧
    replies s1 = replies s ++ [(pk, MKBADDR l, 0)] ∧
    HANDLE_FROM_LOCK s1 l = Some hh ∧ chandles s1 !! hh = Some h1 ∧ cstr_at (path h1) = Some dir ∧
    sends s1 pk (lock_packet ACTION_EXAMINE_NEXT l fib port) = Some s2 ∧
    fs_peer s2 = fs_peer s ++ listing_requests (handle_id h1) false [seqno s] ∧
    serve_all bits c o (listing_requests (handle_id h1) false (seqno s :: qs)) =
      Some (listing_answers es (seqno s :: qs), c', o') ∧
    sends s1 pk (lock_packet ACTION_FREE_LOCK l 0 port) = Some s3 ∧
    let close := RL_MSG_INIT (close_handle_request (handle_id h1)) (seqno s) in
    fs_peer s3 = fs_peer s ++ [close] ∧
    FileServer.rl_file_serve bits [] c o close = Some ([], c, o, 0).
Proof.
  intros Hb Hlk Hroot H0 Hh Hpath Hname Hdir Hlen Hpend Hl Hhh Hop Hfd Htype Hnative Hes Hqs.
  destruct (parent_lock s pk lock port hd h dir name l hh) as
    (s1 & lk & m & Hrun & Hrep & Hkey & Hlocks & Hch & Hm & Hpeer & Hp & Hq & Hr); [done..|].
  destruct (bptr_lock _ _ Hl) as [Hlb Hl0].
  assert (Hlk1 : HANDLE_FROM_LOCK s1 l = Some hh).
  { unfold HANDLE_FROM_LOCK. rewrite Hlocks, lookup_insert_eq. cbn [mbind option_bind]. by rewrite Hkey. }
  assert (Hh1 : chandles s1 !! hh = Some (fresh_handle RL_HANDLE_DIR (u32 (-1)) 0 m))
    by (rewrite Hch; apply lookup_insert_eq).
  assert (Hused : used s1 = {[l; hh]} ∪ used s).
  { unfold used. rewrite Hlocks, Hch, Hp, Hr, !dom_insert_L. set_solver. }
  destruct (next_asks_handle s1 pk l fib port hh _ op Hlb Hlk1 Hh1 eq_refl) as (s2 & H2 & E2);
    [by rewrite Hused|by rewrite Hp|].
  destruct (free_lock_tells s1 pk l port hh _ Hlb Hl0 Hlk1 Hh1 ltac:(done))
    as (s3 & H3 & E3 & _). rewrite Hpeer, Hq in E2, E3.
  assert (Hroot_id : lists_dir c o (u32 (-1)) root false es)
    by (exists FileServer.H_root, (FileServer.root_handle c); by split_and!).
  destruct (listing_served bits c o _ root false es (seqno s :: qs) Hroot_id) as (c' & o' & Hserve);
    [cbn; lia|].
  eexists s1, s2, s3, _, c', o'. cbv zeta. split_and!; try done. by apply close_root.
Qed.

(** ** Duplicates *)

Lemma copied_lock s pk lock port hd h text l hh :
  BCPL_CAST (MKBADDR lock) = lock → lock ≠ 0 → HANDLE_FROM_LOCK s lock = Some hd →
  chandles s !! hd = Some h → h_type h ≠ RL_HANDLE_DEVICE → cstr_at (path h) = Some text →
  pool_alloc (used s) = Some l → pool_alloc ({[l]} ∪ used s) = Some hh →
  ∃ s' lk m, sends s pk (lock_packet ACTION_COPY_DIR lock 0 port) = Some s' ∧
    replies s' = replies s ++ [(pk, MKBADDR l, 0)] ∧ fl_Key lk = hh ∧
    locks s' = <[l := lk]> (locks s) ∧
    chandles s' = <[hh := fresh_handle (h_type h) (handle_id h) (size_lo h) m]> (chandles s) ∧
    fs_peer s' = fs_peer s ∧ seqno s' = seqno s.
Proof.
  intros Hb H0 Hlk Hh Ht Hpath Hl Hhh.
  rewrite (sends_run _ _ _ (action_copy_dir (P := list rl_msg))) by done.
  unfold action_copy_dir. cbn [packets set_packets]. rewrite lookup_insert_eq.
  cbn [mbind option_bind lock_packet dp_Arg1]. rewrite Hb, (proj2 (Z.eqb_neq _ _)) by done.
  cbn [negb]. set (s1 := set_packets _ s).
  change (HANDLE_FROM_LOCK s1 lock) with (HANDLE_FROM_LOCK s lock). rewrite Hlk.
  cbn [mbind option_bind]. change (chandles s1) with (chandles s). rewrite Hh.
  cbn [mbind option_bind]. rewrite decide_False by done.
  destruct (new_lock s1 (h_type h) (handle_id h) SHARED_LOCK (size_lo h) (path h) text l hh
    Hpath Hl Hhh) as (m & lk & Hkey & _ & ->). cbn [mbind option_bind].
  erewrite answer_packet_ok by apply lookup_insert_eq.
  eexists _, lk, m. split; [done|]. split; [done|]. split; [done|].
  split; [cbn; by rewrite insert_insert_eq|done].
Qed.

(** C21: a lock of the host's object with number [i] that is duplicated, and
    whose duplicate is freed, is as it was for the client and for the file
    system, but the server has closed the object: its slot is free, and the
    next object to be opened may get it, and with it the requests of the
    lock. *)
Theorem copied_lock_closes {O} `{OS : FileServer.Posix O} rl_log_bits s pk lock port hd h text l hh
    c (o : O) i f :
  BCPL_CAST (MKBADDR lock) = lock → lock ≠ 0 → HANDLE_FROM_LOCK s lock = Some hd →
  chandles s !! hd = Some h → h_type h ≠ RL_HANDLE_DEVICE → cstr_at (path h) = Some text →
  pool_alloc (used s) = Some l → pool_alloc ({[l]} ∪ used s) = Some hh →
  handle_id h = Z.of_nat i → (i < FileServer.RL_MAX_FILE_HANDLES)%nat →
  FileServer.handles c !! i = Some f →
  let m := RL_MSG_INIT (close_handle_request (Z.of_nat i)) (seqno s) in
  ∃ s1 s2 c' o',
    sends s pk (lock_packet ACTION_COPY_DIR lock 0 port) = Some s1 ∧
    replies s1 = replies s ++ [(pk, MKBADDR l, 0)] ∧
    sends s1 pk (lock_packet ACTION_FREE_LOCK l 0 port) = Some s2 ∧
    replies s2 = replies s1 ++ [(pk, DOSTRUE, 0)] ∧
    locks s2 = locks s ∧ chandles s2 = chandles s ∧ fs_peer s2 = fs_peer s ++ [m] ∧
    FileServer.rl_file_serve rl_log_bits [] c o m = Some ([], c', o', 0) ∧
    FileServer.handles c' !! i = Some (FileServer.set_handle 0 f) ∧
    ∃ j, (j ≤ i)%nat ∧ FileServer.find_slot (FileServer.handles c') = Some j.
Proof.
  intros Hb H0 Hlk Hh Ht Hpath Hl Hhh Hid Hi Hf m.
  destruct (copied_lock s pk lock port hd h text l hh) as
    (s1 & lk & n & Hrun & Hrep & Hkey & Hlocks & Hch & Hpeer & Hq); [done..|].
  destruct (bptr_lock _ _ Hl) as [Hlb Hl0].
  destruct (free_lock_tells s1 pk l port hh
    (fresh_handle (h_type h) (handle_id h) (size_lo h) n) Hlb Hl0)
    as (s2 & H2 & E2 & R2 & L2 & C2); [|by rewrite Hch, lookup_insert_eq|done|].
  { unfold HANDLE_FROM_LOCK. rewrite Hlocks, lookup_insert_eq. cbn [mbind option_bind]. by rewrite Hkey. }
  apply pool_fresh in Hl as [Hl _]. apply pool_fresh in Hhh as [Hhh _].
  destruct (FileServer.slot_freed c i f Hf) as [Hfree Hslot].
  eexists s1, s2, (FileServer.update_handle c (FileServer.H_slot i) (FileServer.set_handle 0 f)), _.
  split_and!; [done..| | | | |done|done].
  - rewrite L2, Hlocks. apply delete_insert_id, not_elem_of_dom. unfold used in Hl. set_solver.
  - rewrite C2, Hch. apply delete_insert_id, not_elem_of_dom. unfold used in Hhh. set_solver.
  - rewrite E2, Hpeer, Hq. cbn [handle_id fresh_handle]. by rewrite Hid.
  - unfold FileServer.rl_file_serve. change (rl_msg_kind_of m) with RL_MSG_CLOSE_HANDLE_REQUEST.
    cbn [Z.eqb Pos.eqb RL_MSG_CLOSE_HANDLE_REQUEST RL_MSG_READ_FILE_REQUEST
      RL_MSG_WRITE_FILE_REQUEST RL_MSG_OPEN_HANDLE_REQUEST].
    by rewrite (FileServer.close_slot [] c o m i f).
Qed.
End Locks.

(** ** Concrete locks: the file work/file of the volume RL, whose lock is at 128 *)
Definition demo_named (name : list Z) : fsys (list rl_msg) :=
  set_mem (list_to_map (zip (seqZ 3000 (Z.of_nat (S (length name)))) (Z.of_nat (length name) :: name)))
    (demo_fs (lock_packet 0 0 0 0)).

Lemma normalize_object_path_spec_witness :
  normalize_object_path (HHost := demo_host) (demo_named (chars "RL:a/b")) 108 128 3000 =
    Some (chars "a/b").
Proof.
  refine (normalize_object_path_spec (HHost := demo_host) (demo_named (chars "RL:a/b")) 108 128 3000
    (chars "RL:a/b") (Some (chars "work/file")) _ _ _ _ _).
  - lia.
  - by vm_compute.
  - by vm_compute.
  - repeat constructor; discriminate.
  - exists 256. split; [done|]. rewrite decide_False by done.
    exists demo_handle, (chars "work/file"). split; [done|]. by vm_compute.
Defined.

Lemma demo_root_listing :
  listing (OS := dir_posix) (chars "/w") (FileServer.root_handle FileServer.demo_controller)
    demo_dir_os false demo_entries.
Proof. by destruct demo_dir_serves as (_ & h & f & [= <-] & [= <-] & _ & _ & Hl). Qed.

(** The parent of work/file shows the entries of /w, the root, not of /w/work. *)
Lemma parent_lists_root_witness :
  let s := demo_named [] in
  let c := FileServer.demo_controller in
  ∃ s1 s2 s3 h1 c' o',
    sends (HHost := demo_host) (HPool := bump_pool) s 500 (lock_packet ACTION_PARENT 128 0 5000) =
      Some s1 ∧ replies s1 = [] ++ [(500, 65, 0)] ∧
    HANDLE_FROM_LOCK s1 260 = Some 264 ∧ chandles s1 !! 264 = Some h1 ∧
    cstr_at (path h1) = Some (chars "work") ∧
    sends (HHost := demo_host) (HPool := bump_pool) s1 500
      (lock_packet ACTION_EXAMINE_NEXT 260 300 5000) = Some s2 ∧
    fs_peer s2 = [] ++ listing_requests (handle_id h1) false [1] ∧
    serve_all (HHost := demo_host) (OS := dir_posix) 16 c demo_dir_os
      (listing_requests (handle_id h1) false [1; 2; 3]) =
      Some ([RL_MSG_INIT (find_next_file_answer 0 2 (chars "sub") 0) 1;
             RL_MSG_INIT (find_next_file_answer 0 1 (chars "a") 5) 2;
             RL_MSG_INIT (find_next_file_answer 1 2 [] 0) 3], c', o') ∧
    sends (HHost := demo_host) (HPool := bump_pool) s1 500
      (lock_packet ACTION_FREE_LOCK 260 0 5000) = Some s3 ∧
    let close := RL_MSG_INIT (close_handle_request (handle_id h1)) 1 in
    fs_peer s3 = [] ++ [close] ∧
    FileServer.rl_file_serve (HHost := demo_host) (OS := dir_posix) (Link := log_link) 16 [] c
      demo_dir_os close = Some ([], c, demo_dir_os, 0).
Proof.
  refine (parent_lists_root (HHost := demo_host) (HPool := bump_pool) (OS := dir_posix) 16
    (demo_named []) 500 128 5000 256 demo_handle (chars "work") (chars "file") 260 264 268 300
    FileServer.demo_controller demo_dir_os (chars "/w") demo_entries [2; 3]
    _ _ _ _ _ _ _ _ _ _ _ _ _ _ _ _ demo_root_listing _);
    try done; try by vm_compute.
  - apply (bool_decide_unpack _). by vm_compute.
  - cbn. lia.
Defined.

Lemma copied_lock_closes_witness :
  let s := demo_named [] in
  let f := FileServer.demo_handle 3 (chars "/w/a") 1 in
  let c := FileServer.update_handle FileServer.demo_controller (FileServer.H_slot 7) f in
  let m := RL_MSG_INIT (close_handle_request 7) 1 in
  ∃ s1 s2 c' o',
    sends (HHost := demo_host) (HPool := bump_pool) s 500 (lock_packet ACTION_COPY_DIR 128 0 5000) =
      Some s1 ∧ replies s1 = [] ++ [(500, 65, 0)] ∧
    sends (HHost := demo_host) (HPool := bump_pool) s1 500
      (lock_packet ACTION_FREE_LOCK 260 0 5000) = Some s2 ∧
    replies s2 = replies s1 ++ [(500, DOSTRUE, 0)] ∧
    locks s2 = locks s ∧ chandles s2 = chandles s ∧ fs_peer s2 = [] ++ [m] ∧
    FileServer.rl_file_serve (HHost := demo_host) (Link := log_link) (OS := FileServer.mem_posix) 16
      [] c FileServer.demo_os m = Some ([], c', o', 0) ∧
    FileServer.handles c' !! 7%nat = Some (FileServer.set_handle 0 f) ∧
    ∃ j, (j ≤ 7)%nat ∧ FileServer.find_slot (FileServer.handles c') = Some j.
Proof.
  refine (copied_lock_closes (HHost := demo_host) (HPool := bump_pool) (OS := FileServer.mem_posix) 16
    (demo_named []) 500 128 5000 256 demo_handle (chars "work/file") 260 264
    (FileServer.update_handle FileServer.demo_controller (FileServer.H_slot 7)
       (FileServer.demo_handle 3 (chars "/w/a") 1)) FileServer.demo_os 7
    (FileServer.demo_handle 3 (chars "/w/a") 1) _ _ _ _ _ _ _ _ _ _ _); try done; try by vm_compute.
  unfold FileServer.RL_MAX_FILE_HANDLES. lia.
Defined.
