(* ===== verification/Names.v ===== *)
(** * Names: the names that the log prints

    The states and actions of a peer (peer.c), the types of client handles and
    the types of AmigaDOS packets (amigafs.c).  The numbers of the packet types
    are those of dos/dosextens.h. *)

From S2P Require Import Prelude Wire Messages CString Format Transport Peer.
From S2P Require Import AmigaFs AmigaActions.

#[local] Open Scope string_scope.
#[local] Open Scope Z_scope.

(** ** Peers *)

(** The default cases of the source stand for values outside the enumeration. *)
Definition peer_state_name (s : peer_state) : string :=
  match s with
  | PEER_INITIAL => "initial"
  | PEER_WAIT_HANDSHAKE => "wait-handshake"
  | PEER_CONNECTED => "connected"
  | PEER_ERROR => "error"
  | PEER_DISCONNECTED => "disconnected"
  end.

Definition peer_action_name (a : peer_action) : string :=
  match a with
  | PEER_ACTION_RECEIVE_MESSAGE => "receive_message"
  | PEER_ACTION_TRANSMIT_MESSAGE => "transmit_message"
  | PEER_ACTION_RECEIVE_HANDSHAKE => "receive_handshake"
  | PEER_ACTION_TRANSMIT_HANDSHAKE => "transmit_handshake"
  | PEER_ACTION_DISCONNECT => "disconnect"
  | PEER_ACTION_UPDATE => "update"
  end.

(** ** The file system of the target *)
Definition rl_client_handle_type_name (type : rl_client_handle_type) : string :=
  match type with
  | RL_HANDLE_FILE => "file"
  | RL_HANDLE_DIR => "directory"
  | RL_HANDLE_DEVICE => "device"
  | RL_HANDLE_VIRTUAL_INPUT => "virtual input"
  | RL_HANDLE_VIRTUAL_OUTPUT => "virtual output"
  end.

Definition packet_type_name (packet_type : Z) : string :=
  match packet_type with
  | 0 => "ACTION_STARTUP"
  | 2 => "ACTION_GET_BLOCK"
  | 4 => "ACTION_SET_MAP"
  | 5 => "ACTION_DIE"
  | 6 => "ACTION_EVENT"
  | 7 => "ACTION_CURRENT_VOLUME"
  | 8 => "ACTION_LOCATE_OBJECT"
  | 9 => "ACTION_RENAME_DISK"
  | 87 => "ACTION_WRITE"
  | 82 => "ACTION_READ"
  | 15 => "ACTION_FREE_LOCK"
  | 16 => "ACTION_DELETE_OBJECT"
  | 17 => "ACTION_RENAME_OBJECT"
  | 18 => "ACTION_MORE_CACHE"
  | 19 => "ACTION_COPY_DIR"
  | 20 => "ACTION_WAIT_CHAR"
  | 21 => "ACTION_SET_PROTECT"
  | 22 => "ACTION_CREATE_DIR"
  | 23 => "ACTION_EXAMINE_OBJECT"
  | 24 => "ACTION_EXAMINE_NEXT"
  | 25 => "ACTION_DISK_INFO"
  | 26 => "ACTION_INFO"
  | 27 => "ACTION_FLUSH"
  | 28 => "ACTION_SET_COMMENT"
  | 29 => "ACTION_PARENT"
  | 30 => "ACTION_TIMER"
  | 31 => "ACTION_INHIBIT"
  | 32 => "ACTION_DISK_TYPE"
  | 33 => "ACTION_DISK_CHANGE"
  | 34 => "ACTION_SET_DATE"
  | 994 => "ACTION_SCREEN_MODE"
  | 1001 => "ACTION_READ_RETURN"
  | 1002 => "ACTION_WRITE_RETURN"
  | 1008 => "ACTION_SEEK"
  | 1004 => "ACTION_FINDUPDATE"
  | 1005 => "ACTION_FINDINPUT"
  | 1006 => "ACTION_FINDOUTPUT"
  | 1007 => "ACTION_END"
  | 1022 => "ACTION_SET_FILE_SIZE"
  | 1023 => "ACTION_WRITE_PROTECT"
  | 40 => "ACTION_SAME_LOCK"
  | 995 => "ACTION_CHANGE_SIGNAL"
  | 1020 => "ACTION_FORMAT"
  | 1021 => "ACTION_MAKE_LINK"
  | 1024 => "ACTION_READ_LINK"
  | 1026 => "ACTION_FH_FROM_LOCK"
  | 1027 => "ACTION_IS_FILESYSTEM"
  | 1028 => "ACTION_CHANGE_MODE"
  | 1030 => "ACTION_COPY_DIR_FH"
  | 1031 => "ACTION_PARENT_FH"
  | 1033 => "ACTION_EXAMINE_ALL"
  | 1034 => "ACTION_EXAMINE_FH"
  | 2008 => "ACTION_LOCK_RECORD"
  | 2009 => "ACTION_FREE_RECORD"
  | 4097 => "ACTION_ADD_NOTIFY"
  | 4098 => "ACTION_REMOVE_NOTIFY"
  | 1035 => "ACTION_EXAMINE_ALL_END"
  | 1036 => "ACTION_SET_OWNER"
  | 4200 => "ACTION_SERIALIZE_DISK"
  | _ => "<unknown>"
  end.

Definition get_packet_type_name (packet : DosPacket) : string :=
  packet_type_name (dp_Type packet).

(** ** What the names tell *)
#[export] Instance peer_state_name_inj : Inj (=) (=) peer_state_name.
Proof. intros [] []; done. Qed.

#[export] Instance peer_action_name_inj : Inj (=) (=) peer_action_name.
Proof. intros [] []; done. Qed.

#[export] Instance rl_client_handle_type_name_inj : Inj (=) (=) rl_client_handle_type_name.
Proof. intros [] []; done. Qed.

(** The types that have a name. *)
Definition named_types : list Z :=
  [0; 2; 4; 5; 6; 7; 8; 9; 87; 82; 15; 16; 17; 18; 19; 20; 21; 22; 23; 24; 25; 26; 27;
   28; 29; 30; 31; 32; 33; 34; 994; 1001; 1002; 1008; 1004; 1005; 1006; 1007; 1022;
   1023; 40; 995; 1020; 1021; 1024; 1026; 1027; 1028; 1030; 1031; 1033; 1034; 2008;
   2009; 4097; 4098; 1035; 1036; 4200].

Lemma named_type t : packet_type_name t ≠ "<unknown>" → t ∈ named_types.
Proof.
  unfold packet_type_name. intros Hn.
  repeat case_match; solve [destruct (Hn eq_refl)
    | apply (bool_decide_unpack _); vm_compute; exact I].
Qed.

Lemma names_differ :
  Forall (λ t, Forall (λ u, packet_type_name t = packet_type_name u → t = u) named_types)
    named_types.
Proof. apply (bool_decide_unpack _). vm_compute. done. Qed.

Lemma packet_type_name_inj t u :
  packet_type_name t ≠ "<unknown>" → packet_type_name t = packet_type_name u → t = u.
Proof.
  intros Ht E. pose proof names_differ as N. rewrite Forall_forall in N.
  specialize (N t (named_type t Ht)). rewrite Forall_forall in N.
  apply (N u); [apply named_type; congruence | exact E].
Qed.

Section Handled.
Context `{HHost : Host} `{HPool : Pool} {P : Type} `{Link : PeerLink P}.

(** The types of packets that the file system serves. *)
Definition served_types : list Z :=
  [5; 7; 8; 9; 15; 16; 17; 19; 21; 22; 23; 24; 25; 26; 27; 28; 29; 31; 34;
   ACTION_READ; ACTION_WRITE; ACTION_IS_FILESYSTEM; ACTION_FINDINPUT;
   ACTION_FINDOUTPUT; ACTION_SEEK; ACTION_END].

(** The dispatcher serves these types and no others. *)
Lemma packet_handler_served t : is_Some (packet_handler t) ↔ t ∈ served_types.
Proof.
  split.
  - unfold packet_handler. intros [h E].
    repeat case_match; try discriminate; rewrite ?andb_true_iff, ?Z.eqb_eq, ?Z.leb_le in *;
      subst; try (unfold served_types; set_solver).
    assert (Ht : t ∈ seqZ 0 35)
      by (apply elem_of_seqZ; unfold HANDLER_RANGE_1_FIRST, HANDLER_RANGE_1_LAST in *; lia).
    repeat (apply elem_of_cons in Ht as [-> | Ht];
      [first [discriminate E | unfold served_types; set_solver] |]).
    inversion Ht.
  - intros Ht. repeat (apply elem_of_cons in Ht as [-> | Ht]; [eexists; reflexivity |]).
    inversion Ht.
Qed.

(** The log tells the packets that are served from all others and from each
    other. *)
Lemma served_named p q :
  is_Some (packet_handler (dp_Type p)) →
  get_packet_type_name p ≠ "<unknown>" ∧
  (get_packet_type_name p = get_packet_type_name q → dp_Type p = dp_Type q).
Proof.
  intros Hp%packet_handler_served.
  assert (Hn : get_packet_type_name p ≠ "<unknown>").
  { unfold get_packet_type_name.
    repeat (apply elem_of_cons in Hp as [-> | Hp]; [discriminate |]). inversion Hp. }
  split; [exact Hn | apply packet_type_name_inj, Hn].
Qed.
End Handled.
