(* ===== verification/AmigaLink.v ===== *)
(** * AmigaLink: the file system does not depend on its link

    The theorems of AmigaIo, AmigaSession, AmigaDir and AmigaOutput are about a
    link that records.  Here every packet handler and every completion is
    compared over the recording link and over any other: it sends at most one
    message, the same one, and leaves the same state. *)

From S2P Require Import Prelude Wire Messages CString Format Transport Peer AmigaFs AmigaActions.

(** The same file system with another peer. *)
Definition with_peer {P Q} (p : P) (s : fsys Q) : fsys P :=
  Fsys P p (seqno s) (device_port s) (device_list s) (pending s) (root_addr s) (chandles s)
    (locks s) (packets s) (fhs s) (fibs s) (infos s) (mem s) (replies s).

Lemma for_this_value {A} (Q : A → Prop) x : Q x → ∀ y, Some x = Some y → Q y.
Proof. by intros ? y [= <-]. Qed.

(** What the file system asks of the controller. *)
Definition file_request (m : rl_msg) : bool :=
  let k := rl_msg_kind_of m in
  (k =? RL_MSG_OPEN_HANDLE_REQUEST) || (k =? RL_MSG_CLOSE_HANDLE_REQUEST) ||
  (k =? RL_MSG_READ_FILE_REQUEST) || (k =? RL_MSG_WRITE_FILE_REQUEST) ||
  (k =? RL_MSG_FIND_NEXT_FILE_REQUEST).

(** The fields, whatever the peer. *)
Ltac fields :=
  unfold mbind, option_bind;
  cbn [mbind option_bind with_peer fs_peer seqno device_port device_list pending root_addr chandles
    locks packets fhs fibs infos mem replies set_peer set_seqno set_device_port set_device_list
    set_pending set_chandles set_locks set_packets set_fhs set_fibs set_infos set_mem add_reply
    transmit log_link fst snd];
  change (negb (0 =? 0)) with false; cbv iota beta.

(** The case that comes first. *)
Ltac split_on x :=
  lazymatch x with
  | match ?y with _ => _ end => split_on y
  | _ => destruct x eqn:?
  end.

(** The bodies of the handlers and of the completions. *)
Ltac unfold_handler :=
  unfold action_findinput, action_findoutput, action_locate_object, action_free_lock, action_end,
    action_copy_dir, action_parent, action_examine_object, action_examine_next, action_disk_info,
    action_info, action_read, action_write, action_seek, action_is_filesystem, action_flush,
    action_set_protect, action_die, action_current_volume, action_delete_object, action_inhibit,
    action_rename_disk, action_rename_object, action_create_dir, action_set_comment,
    action_set_file_date, fail_packet, rl_amigafs_free_lock, allocate_lock,
    rl_amigafs_alloc_root_lock, alloc_pending, transmit_read_request, transmit_write_request,
    copy_to_client, fill_in_infodata, put_fib, open_file_handle, fs_transmit,
    answer_packet, set_result, reply_to_packet, put_handle, put_lock, unlink_pending,
    normalize_object_path, HANDLE_FROM_LOCK, used.
Ltac unfold_completion :=
  unfold complete_findinput, complete_locate_object, complete_examine_next, complete_read,
    complete_write, allocate_lock, transmit_read_request, transmit_write_request,
    copy_to_client, readop_bytes_read, put_fib, open_file_handle, fs_transmit,
    answer_packet, set_result, reply_to_packet, put_handle, put_lock, unlink_pending,
    normalize_object_path, HANDLE_FROM_LOCK, used.

Section Link.
Context `{HHost : Host} `{HPool : Pool} {P : Type} `{Link : PeerLink P}.
#[local] Existing Instance log_link.
Implicit Types (t : fsys (list rl_msg)).

(** [r] is what [rl] is, with one message sent or none. *)
Definition same_run t (r : P → option (fsys P)) (rl : option (fsys (list rl_msg))) : Prop :=
  ∀ t', rl = Some t' →
  (fs_peer t' = fs_peer t ∧ ∀ p, r p = Some (with_peer p t')) ∨
  ∃ m, fs_peer t' = fs_peer t ++ [m] ∧ file_request m = true ∧
    ∀ p p', transmit p m = Some (p', 0) → r p = Some (with_peer p' t').

Ltac use_value :=
  match goal with H : ?x = _ |- context [match ?x with _ => _ end] => rewrite H end; fields.

(** Both runs look at the same values, up to the message. *)
Ltac run_step :=
  match goal with
  | |- ∀ t', None = Some t' → _ => by intros
  | |- ∀ t', Some ?t0 = Some t' → _ =>
      apply for_this_value;
      first [ left; split; [reflexivity|intros; reflexivity]
            | right; eexists; split; [fields; reflexivity|split; [reflexivity|]; intros ?? ->; fields; by repeat use_value] ]
  | |- ∀ t', match ?x with _ => _ end = Some t' → _ => split_on x
  end; fields.

Ltac same_run :=
  unfold same_run; fields; repeat run_step.

(** ** The packet handlers *)
Definition link_free (h : action (P := P)) (h_log : action (P := list rl_msg)) : Prop :=
  ∀ pk t, same_run t (λ p, h (with_peer p t) pk) (h_log t pk).

Ltac handler :=
  intros pk t;
  unfold_handler;
  same_run.

Lemma findinput_free : link_free action_findinput action_findinput.
Proof. handler. Qed.
Lemma findoutput_free : link_free action_findoutput action_findoutput.
Proof. handler. Qed.
Lemma locate_free : link_free action_locate_object action_locate_object.
Proof. handler. Qed.
Lemma free_lock_free : link_free action_free_lock action_free_lock.
Proof. handler. Qed.
Lemma end_free : link_free action_end action_end.
Proof. handler. Qed.
Lemma copy_dir_free : link_free action_copy_dir action_copy_dir.
Proof. handler. Qed.
Lemma parent_free : link_free action_parent action_parent.
Proof. handler. Qed.
Lemma examine_object_free : link_free action_examine_object action_examine_object.
Proof. handler. Qed.
Lemma examine_next_free : link_free action_examine_next action_examine_next.
Proof. handler. Qed.
Lemma disk_info_free : link_free action_disk_info action_disk_info.
Proof. handler. Qed.
Lemma info_free : link_free action_info action_info.
Proof. handler. Qed.
Lemma read_free : link_free action_read action_read.
Proof. handler. Qed.
Lemma write_free : link_free action_write action_write.
Proof. handler. Qed.
Lemma seek_free : link_free action_seek action_seek.
Proof. handler. Qed.

#[local] Hint Resolve findinput_free findoutput_free locate_free free_lock_free end_free
  copy_dir_free parent_free examine_object_free examine_next_free disk_info_free info_free
  read_free write_free seek_free : link_free.
#[local] Hint Extern 3 (link_free _ _) => handler : link_free.

Definition both_free (h : option (action (P := P))) (h_log : option (action (P := list rl_msg)))
  : Prop :=
  match h, h_log with
  | Some h, Some h_log => link_free h h_log
  | None, None => True
  | _, _ => False
  end.

Lemma table_free : Forall2 both_free packet_handlers_range_1 packet_handlers_range_1.
Proof.
  unfold packet_handlers_range_1.
  repeat (apply Forall2_cons_2; [cbn [both_free]; auto with link_free|]). apply Forall2_nil_2.
Qed.

Lemma packet_handler_free type : both_free (packet_handler type) (packet_handler type).
Proof.
  unfold packet_handler. repeat case_match; cbn [both_free]; auto with link_free.
  pose proof (Forall2_length _ _ _ table_free) as Hl.
  destruct (packet_handlers_range_1 !! Z.to_nat type) as [h|] eqn:E1,
    (packet_handlers_range_1 (P := list rl_msg) !! Z.to_nat type) as [h2|] eqn:E2; cbn [default].
  - by eapply Forall2_lookup_lr; [apply table_free|..].
  - apply lookup_lt_Some in E1. apply lookup_ge_None in E2. lia.
  - apply lookup_lt_Some in E2. apply lookup_ge_None in E1. lia.
  - done.
Qed.

(** A packet is handled in the same way over every link. *)
Lemma process_fs_packet_free : link_free process_fs_packet process_fs_packet.
Proof.
  intros pk t. unfold process_fs_packet. cbn [packets with_peer].
  destruct (packets t !! pk) as [p|]; [|by intros t' [=]]. cbn [mbind option_bind].
  pose proof (packet_handler_free (dp_Type p)) as H.
  destruct (packet_handler (dp_Type p)) as [h|], (packet_handler (dp_Type p)) as [h2|];
    cbn [both_free] in H; try done.
  unfold answer_packet, set_result, reply_to_packet. same_run.
Qed.

(** ** The messages of the controller *)
Definition callback_free (op : rl_pending_operation) (msg : rl_msg)
    (cb : fsys P → rl_pending_operation → rl_msg → option (fsys P))
    (cb_log : fsys (list rl_msg) → rl_pending_operation → rl_msg → option (fsys (list rl_msg)))
  : Prop :=
  ∀ t, same_run t (λ p, cb (with_peer p t) op msg) (cb_log t op msg).

Ltac completion :=
  intros t;
  unfold_completion;
  same_run.

Lemma complete_findinput_free op msg : callback_free op msg complete_findinput complete_findinput.
Proof. completion. Qed.
Lemma complete_locate_free op msg :
  callback_free op msg complete_locate_object complete_locate_object.
Proof. completion. Qed.
Lemma complete_examine_free op msg :
  callback_free op msg complete_examine_next complete_examine_next.
Proof. completion. Qed.
Lemma complete_write_free op msg : callback_free op msg complete_write complete_write.
Proof. completion. Qed.
Lemma complete_read_free op msg : callback_free op msg complete_read complete_read.
Proof. completion. Qed.

Lemma run_callback_free op msg : callback_free op msg (run_callback (callback op)) (run_callback (callback op)).
Proof.
  intros t. destruct (callback op); cbn [run_callback].
  - apply complete_findinput_free.
  - apply complete_examine_free.
  - apply complete_locate_free.
  - apply complete_read_free.
  - apply complete_write_free.
Qed.

(** An answer is handled in the same way over every link. *)
Lemma network_message_free t msg t' rc :
  rl_amigafs_process_network_message t msg = Some (t', rc) →
  (fs_peer t' = fs_peer t ∧ ∀ p : P,
     rl_amigafs_process_network_message (with_peer p t) msg = Some (with_peer p t', rc)) ∨
  ∃ m, fs_peer t' = fs_peer t ++ [m] ∧ file_request m = true ∧ ∀ p p' : P, transmit p m = Some (p', 0) →
     rl_amigafs_process_network_message (with_peer p t) msg = Some (with_peer p' t', rc).
Proof.
  unfold rl_amigafs_process_network_message, find_pending_op.
  cbn [pending with_peer]. destruct (find_op (pending t) (hdr_seq msg)) as [op|];
    [|intros [= <- <-]; by left].
  destruct (_ =? expected_answer_type op).
  { pose proof (run_callback_free op msg t) as H.
    destruct (run_callback (callback op) t op msg) as [t1|]; [|done]. intros [= <- <-].
    destruct (H t1 eq_refl) as [[Hp Hr]|(m & Hp & Hm & Hr)]; [left|right; exists m].
    - split; [done|]. intros p. by rewrite (Hr p).
    - split; [done|]. split; [done|]. intros p p' Ht. by rewrite (Hr p p' Ht). }
  unfold answer_packet, set_result, reply_to_packet, unlink_pending.
  destruct (_ =? RL_MSG_ERROR_ANSWER); [destruct (body msg); try done|]; fields;
    destruct (packets t !! input_packet op); try done; fields;
    rewrite lookup_insert_eq; intros [= <- <-]; by left.
Qed.

End Link.

(** ** The only operation *)
Section Single.
Context `{HHost : Host} `{HPool : Pool}.
#[local] Existing Instance log_link.
Implicit Types (t : fsys (list rl_msg)).

(** The operation is over; or it waits for the answer to one more request; or
    it has given up a handle, which no answer is needed for. *)
Definition farewell (m : rl_msg) : Prop :=
  ∃ id q, m = RL_MSG_INIT (close_handle_request id) q.
Definition single_next t t' : Prop :=
  (fs_peer t' = fs_peer t ∧ pending t' = []) ∨
  (∃ m op', fs_peer t' = fs_peer t ++ [m] ∧ pending t' = [op']) ∨
  ∃ m, fs_peer t' = fs_peer t ++ [m] ∧ farewell m ∧ pending t' = [].

(** An operation goes on in the same way, with requests of its kind, until it
    is over. *)
Definition request_of (cb : completion) : Z :=
  match cb with
  | complete_findinput_cb | complete_locate_object_cb => RL_MSG_OPEN_HANDLE_REQUEST
  | complete_examine_next_cb => RL_MSG_FIND_NEXT_FILE_REQUEST
  | complete_read_cb => RL_MSG_READ_FILE_REQUEST
  | complete_write_cb => RL_MSG_WRITE_FILE_REQUEST
  end.
Definition goes_on (cb : completion) t t' : Prop :=
  (fs_peer t' = fs_peer t ∧ pending t' = []) ∨
  ∃ m op', fs_peer t' = fs_peer t ++ [m] ∧ pending t' = [op'] ∧ callback op' = cb ∧
    body_kind (body m) = request_of cb.

Ltac single_step Hpend :=
  match goal with
  | |- ∀ t', None = Some t' → _ => by intros
  | |- ∀ t', Some ?t0 = Some t' → _ =>
      apply for_this_value; unfold single_next, goes_on, farewell; fields; rewrite Hpend;
      cbn [unlink update_op op_addr set_op_detail set_op_seqno]; rewrite ?Z.eqb_refl;
      cbn [unlink update_op op_addr set_op_detail set_op_seqno]; rewrite ?Z.eqb_refl; eauto 9
  | |- ∀ t', match ?x with _ => _ end = Some t' → _ => split_on x
  end; fields.

Lemma callback_single t msg op :
  pending t = [op] →
  ∀ t', run_callback (callback op) t op msg = Some t' → single_next t t'.
Proof.
  intros Hpend. destruct (callback op); cbn [run_callback];
    unfold_completion; fields; repeat single_step Hpend.
Qed.

Lemma callback_goes_on t msg op :
  pending t = [op] → callback op ≠ complete_findinput_cb → callback op ≠ complete_locate_object_cb →
  ∀ t', run_callback (callback op) t op msg = Some t' → goes_on (callback op) t t'.
Proof.
  intros Hpend Hcb Hcb'. unfold goes_on. destruct (callback op) eqn:E; cbn [run_callback]; try done;
    unfold_completion; fields; repeat single_step Hpend.
Qed.

Lemma complete_cases t msg t' op :
  pending t = [op] → rl_amigafs_process_network_message t msg = Some (t', 0) →
  run_callback (callback op) t op msg = Some t' ∨ (fs_peer t' = fs_peer t ∧ pending t' = []).
Proof.
  intros Hpend. unfold rl_amigafs_process_network_message, find_pending_op. rewrite Hpend.
  cbn [find_op]. destruct (_ =? request_seqno op); [|by intros [=]].
  destruct (_ =? expected_answer_type op).
  { destruct (run_callback (callback op) t op msg) as [t1|]; [|done]. intros [= <-]. by left. }
  unfold answer_packet, set_result, reply_to_packet, unlink_pending.
  destruct (_ =? RL_MSG_ERROR_ANSWER); [destruct (body msg); try done|]; fields;
    destruct (packets t !! input_packet op); try done; fields;
    rewrite lookup_insert_eq; intros [= <-]. right. cbn. by rewrite Hpend; cbn; rewrite Z.eqb_refl.
Qed.

Lemma complete_goes_on t msg t' op :
  pending t = [op] → callback op ≠ complete_findinput_cb → callback op ≠ complete_locate_object_cb →
  rl_amigafs_process_network_message t msg = Some (t', 0) → goes_on (callback op) t t'.
Proof.
  intros Hpend ? ? [H|H]%(complete_cases _ _ _ op); [by eapply callback_goes_on|by left|done].
Qed.

Lemma complete_single t msg t' op :
  pending t = [op] → rl_amigafs_process_network_message t msg = Some (t', 0) → single_next t t'.
Proof.
  intros Hpend [H|H]%(complete_cases _ _ _ op); [by eapply callback_single|by left|done].
Qed.

Definition starts_single (h : action (P := list rl_msg)) : Prop :=
  ∀ pk t t', pending t = [] → h t pk = Some t' → single_next t t'.

Ltac starts :=
  intros pk t t' Hpend; revert t';
  unfold_handler;
  fields; repeat single_step Hpend.

(** Reading, writing and listing wait for each answer. *)
Definition starts_waiting (cb : completion) (h : action (P := list rl_msg)) : Prop :=
  ∀ pk t t', pending t = [] → h t pk = Some t' → goes_on cb t t'.
Lemma read_waits : starts_waiting complete_read_cb action_read.
Proof. starts. Qed.
Lemma write_waits : starts_waiting complete_write_cb action_write.
Proof. starts. Qed.
Lemma examine_next_waits : starts_waiting complete_examine_next_cb action_examine_next.
Proof. starts. Qed.

Lemma table_single :
  Forall (λ h, match h with Some h => starts_single h | None => True end) packet_handlers_range_1.
Proof.
  unfold packet_handlers_range_1. repeat (apply Forall_cons; split; [first [exact I|starts]|]).
  constructor.
Qed.

Lemma packet_handler_single type :
  match packet_handler (P := list rl_msg) type with Some h => starts_single h | None => True end.
Proof.
  unfold packet_handler.
  repeat match goal with |- context [if ?b then _ else _] => destruct b end;
    try exact I; try (cbv beta iota; starts).
  destruct (packet_handlers_range_1 !! Z.to_nat type) as [h|] eqn:E; [|exact I].
  apply (Forall_lookup_1 _ _ _ _ table_single E).
Qed.

(** A packet starts at most one operation. *)
Lemma process_fs_packet_single : starts_single process_fs_packet.
Proof.
  intros pk t t' Hpend. unfold process_fs_packet.
  destruct (packets t !! pk) as [p|]; [|done]. cbn [mbind option_bind].
  pose proof (packet_handler_single (dp_Type p)) as H.
  destruct (packet_handler (dp_Type p)) as [h|]; [by apply H|].
  revert t'. unfold answer_packet, set_result, reply_to_packet. fields.
  repeat single_step Hpend.
Qed.
End Single.

(** ** Messages that lie elsewhere *)
Section Equiv.
Context `{HHost : Host} `{HPool : Pool}.

Lemma array_slice d d' k e :
  wf_array d → d' ≡ d → (k + e ≤ Z.to_nat (na_length d))%nat →
  (k + e ≤ length (na_base d))%nat ∧ (k + e ≤ length (na_base d'))%nat ∧
  take e (drop k (na_base d')) = take e (drop k (na_base d)).
Proof.
  intros Hd [Hl Hb] Hke. destruct (array_contents_wf _ Hd) as [Hbs _]. rewrite Hbs in Hb.
  unfold na_bytes in Hb, Hbs. rewrite Hl in Hb. repeat case_decide; simplify_eq.
  split; [lia|]. split; [lia|]. rewrite !firstn_skipn_comm.
  rewrite <- (Nat.min_l _ _ Hke), <- !take_take. by rewrite Hb, Hbs.
Qed.

Lemma complete_read_equiv {P} `{Link : PeerLink P} (s : fsys P) op msg msg' d d' :
  body msg = read_file_answer d → body msg' = read_file_answer d' → wf_array d → d' ≡ d →
  complete_read s op msg' = complete_read s op msg.
Proof.
  intros Hb Hb' Hd Heq. unfold complete_read. rewrite Hb, Hb'. destruct Heq as [Hl Hbytes].
  rewrite Hl. destruct (packets s !! input_packet op) as [p|]; [|done]. cbn [mbind option_bind].
  destruct (HANDLE_FROM_LOCK s (dp_Arg1 p)) as [hd|]; [|done]. cbn [mbind option_bind].
  destruct (detail op); try done. destruct (readop_bytes_read op p) as [n|]; [|done].
  cbn [mbind option_bind]. cbv zeta.
  pose proof Hd as [Hd1 Hd2].
  assert (Hleft : 0 <= u32 (u32 (dp_Arg3 p) - n)) by apply u32_range.
  set (slice := Z.min (u32 (u32 (dp_Arg3 p) - n)) (na_length d)).
  assert (Hs : 0 <= slice <= na_length d) by (unfold slice; lia).
  rewrite (u32_id (na_length d - slice)) by (unfold is_u32; lia).
  destruct (array_slice d d' 0 (Z.to_nat slice)) as (H1 & H2 & H3); [done|by split|lia|].
  destruct (array_slice d d' (Z.to_nat slice) (Z.to_nat (na_length d - slice)))
    as (H4 & H5 & H6); [done|by split|lia|].
  rewrite !drop_0 in H3. unfold copy_to_client. rewrite H3, H6, !length_drop.
  by rewrite !(proj2 (Z.ltb_ge _ _)) by lia.
Qed.

Lemma callback_equiv {P} `{Link : PeerLink P} (s : fsys P) cb op msg msg' :
  wf_body (body msg) → body msg' ≡ body msg →
  run_callback cb s op msg' = run_callback cb s op msg.
Proof.
  intros Hwf Hb. unfold equiv, body_equiv in Hb.
  destruct cb; cbn [run_callback];
    unfold complete_findinput, complete_examine_next, complete_locate_object, complete_write;
    try done; try (destruct (body msg) eqn:E, (body msg') eqn:E'; by simplify_eq).
  destruct (body msg) eqn:E, (body msg') eqn:E'; simplify_eq;
    first [by eapply complete_read_equiv|unfold complete_read; by rewrite E, E'].
Qed.

(** An answer is handled alike wherever its array lies. *)
Lemma network_message_equiv {P} `{Link : PeerLink P} (s : fsys P) msg msg' :
  wf_body (body msg) →
  hdr_type msg' = hdr_type msg → hdr_seq msg' = hdr_seq msg → body msg' ≡ body msg →
  rl_amigafs_process_network_message s msg' = rl_amigafs_process_network_message s msg.
Proof.
  intros Hwf Ht Hs Hb.
  unfold rl_amigafs_process_network_message, find_pending_op, rl_msg_kind_of. rewrite Ht, Hs.
  destruct (find_op (pending s) (hdr_seq msg)) as [op|]; [|done].
  rewrite (callback_equiv s _ op msg msg') by done.
  destruct (_ =? expected_answer_type op); [done|]. destruct (_ =? RL_MSG_ERROR_ANSWER); [|done].
  unfold equiv, body_equiv in Hb. destruct (body msg), (body msg'); by simplify_eq.
Qed.
End Equiv.
