(* ===== verification/AmigaRequests.v ===== *)
(** * AmigaRequests: what the file system asks can be sent

    A file system whose heap is well typed (AmigaTypes) only sends messages that
    the encoder takes and that fit the buffers of the network, unless a path or
    a chunk of data of its client is too long. *)

From S2P Require Import Prelude Wire Messages CString Format Transport Peer AmigaFs AmigaActions.
From S2P Require Import AmigaSafety AmigaTypes AmigaLink.

(** ** Requests that fit *)

(** Paths and data have the sizes of the protocol. *)
Definition brief (m : rl_msg) : Prop :=
  match body m with
  | open_handle_request path _ => wf_string path
  | write_file_request _ data => wf_array data ∧ na_length data <= 4096
  | _ => True
  end.

#[export] Instance brief_dec m : Decision (brief m).
Proof. unfold brief, wf_string, wf_array. destruct (body m); apply _. Defined.

Lemma open_request_ok path mode q :
  brief (RL_MSG_INIT (open_handle_request path mode) q) → is_u32 mode → is_u32 q →
  msg_ok (RL_MSG_INIT (open_handle_request path mode) q).
Proof.
  intros Hp Hm Hq. split; [by split|]. unfold wire_length. cbn [body RL_MSG_INIT body_bytes].
  unfold str_bytes. destruct Hp as [_ Hp]. llen.
Qed.
Lemma close_request_ok id q : is_u32 id → is_u32 q → msg_ok (RL_MSG_INIT (close_handle_request id) q).
Proof.
  intros Hi Hq. split; [by split|]. unfold wire_length. cbn [body RL_MSG_INIT body_bytes]. llen.
Qed.
Lemma read_request_ok id hi lo n q :
  is_u32 id → is_u32 hi → is_u32 lo → is_u32 n → is_u32 q →
  msg_ok (RL_MSG_INIT (read_file_request id hi lo n) q).
Proof.
  intros. split; [by split|]. unfold wire_length. cbn [body RL_MSG_INIT body_bytes]. llen.
Qed.
Lemma find_next_request_ok id reset q :
  is_u32 id → is_byte reset → is_u32 q → msg_ok (RL_MSG_INIT (find_next_file_request id reset) q).
Proof.
  intros. split; [by split|]. unfold wire_length. cbn [body RL_MSG_INIT body_bytes]. llen.
Qed.
Lemma write_request_ok id data q :
  brief (RL_MSG_INIT (write_file_request id data) q) → is_u32 id → is_u32 q →
  msg_ok (RL_MSG_INIT (write_file_request id data) q).
Proof.
  intros [Hd Hn] Hi Hq. cbn [body RL_MSG_INIT] in Hn.
  split; [by split|]. unfold wire_length. cbn [body RL_MSG_INIT body_bytes].
  destruct (array_contents_wf _ Hd) as [_ Hl]. unfold arr_bytes. llen.
Qed.

Section Requests.
Context `{HHost : Host} `{HPool : Pool}.
#[local] Existing Instance log_link.
Implicit Types (t : fsys (list rl_msg)).

(** What a step sends, if anything, can be sent when it is brief. *)
Definition asks_well t t' : Prop :=
  fs_peer t' = fs_peer t ∨ ∃ m, fs_peer t' = fs_peer t ++ [m] ∧ (brief m → msg_ok m).

Lemma max_u32 n : is_u32 n → is_u32 (Z.max n 4096).
Proof. unfold is_u32. lia. Qed.

Lemma get_op_number l a op :
  get_op l a = Some op → Forall (λ op, is_u32 (request_seqno op)) l → is_u32 (request_seqno op).
Proof.
  intros H Hl. induction Hl as [|o l Ho Hl IH]; [done|]. cbn in H.
  destruct (op_addr o =? a); [by injection H as <-|by apply IH].
Qed.
Lemma update_number l a f :
  (∀ op, is_u32 (request_seqno op) → is_u32 (request_seqno (f op))) →
  Forall (λ op, is_u32 (request_seqno op)) l →
  Forall (λ op, is_u32 (request_seqno op)) (update_op l a f).
Proof.
  intros Hf Hl. apply Forall_forall. rewrite Forall_forall in Hl.
  intros op [H|(o & H & ->)]%update_op_In; auto.
Qed.

(** The numbers of a request come from the heap. *)
Ltac number :=
  first
    [ eapply get_op_number; [eassumption|numbers]
    | apply u32_range | apply max_u32; number | assumption
    | apply fo_seqno; assumption
    | match goal with H : wf_body (open_handle_answer _ _ _) |- _ => exact (proj1 H) end
    | eapply ch_id, fo_handles; eassumption
    | eapply ch_size, fo_handles; eassumption
    | eapply (λ h H, proj1 (ch_offset h H)), fo_handles; eassumption
    | eapply (λ h H, proj2 (ch_offset h H)), fo_handles; eassumption
    | by split ]
with numbers :=
  first
    [ apply fo_ops; assumption
    | apply Forall_cons; split; [number|numbers]
    | apply update_number; [intros; number|numbers]
    | constructor ].
Ltac sendable :=
  repeat match goal with
    | H : <[_ := _]> _ !! _ = Some _ |- _ => apply lookup_insert_Some in H as [[_ <-]|[_ H]]
    end;
  cbn [handle_id offset_hi offset_lo set_offset set_buffer set_flags];
  first
    [ apply open_request_ok; [assumption|by split|number]
    | apply close_request_ok; number
    | apply read_request_ok; number
    | apply find_next_request_ok; [number|by repeat case_match|number]
    | apply write_request_ok; [assumption|number|number] ].
Ltac ask_step Hpend :=
  match goal with
  | |- ∀ t', None = Some t' → _ => by intros
  | |- ∀ t', Some ?t0 = Some t' → _ =>
      apply for_this_value; unfold asks_well; fields;
      first [ left; reflexivity
            | right; eexists; split; [reflexivity|]; intros Hbrief; sendable ]
  | |- ∀ t', match ?x with _ => _ end = Some t' → _ => split_on x
  end; fields.

Definition asks (h : action (P := list rl_msg)) : Prop :=
  ∀ pk t t', pending t = [] → fsys_ok t → h t pk = Some t' → asks_well t t'.

Ltac asking :=
  intros pk t t' Hpend Hok; revert t'; unfold_handler; fields; repeat ask_step Hpend.

Lemma findinput_asks : asks action_findinput.
Proof. asking. Qed.
Lemma findoutput_asks : asks action_findoutput.
Proof. asking. Qed.
Lemma locate_asks : asks action_locate_object.
Proof. asking. Qed.
Lemma free_lock_asks : asks action_free_lock.
Proof. asking. Qed.
Lemma end_asks : asks action_end.
Proof. asking. Qed.
Lemma copy_dir_asks : asks action_copy_dir.
Proof. asking. Qed.
Lemma parent_asks : asks action_parent.
Proof. asking. Qed.
Lemma examine_object_asks : asks action_examine_object.
Proof. asking. Qed.
Lemma examine_next_asks : asks action_examine_next.
Proof. asking. Qed.
Lemma read_asks : asks action_read.
Proof. asking. Qed.
Lemma write_asks : asks action_write.
Proof. asking. Qed.
Lemma seek_asks : asks action_seek.
Proof. asking. Qed.
Lemma disk_info_asks : asks action_disk_info.
Proof. asking. Qed.
Lemma info_asks : asks action_info.
Proof. asking. Qed.

#[local] Hint Resolve findinput_asks findoutput_asks locate_asks free_lock_asks end_asks
  copy_dir_asks parent_asks examine_object_asks examine_next_asks read_asks write_asks seek_asks
  disk_info_asks info_asks : asks.
#[local] Hint Extern 3 (asks _) => asking : asks.

Lemma table_asks :
  Forall (λ h, match h with Some h => asks h | None => True end) packet_handlers_range_1.
Proof.
  unfold packet_handlers_range_1. repeat (apply Forall_cons; split; [cbv beta iota; auto with asks|]).
  constructor.
Qed.

Lemma packet_handler_asks type :
  match packet_handler (P := list rl_msg) type with Some h => asks h | None => True end.
Proof.
  unfold packet_handler.
  repeat match goal with |- context [if ?b then _ else _] => destruct b end;
    cbv beta iota; auto with asks.
  destruct (packet_handlers_range_1 !! Z.to_nat type) as [h|] eqn:E; [|exact I].
  apply (Forall_lookup_1 _ _ _ _ table_asks E).
Qed.

Lemma process_fs_packet_asks : asks process_fs_packet.
Proof.
  intros pk t t' Hpend Hok. unfold process_fs_packet.
  destruct (packets t !! pk) as [p|]; [|done]. cbn [mbind option_bind].
  pose proof (packet_handler_asks (dp_Type p)) as H.
  destruct (packet_handler (dp_Type p)) as [h|]; [by apply H|].
  revert t'. unfold answer_packet, set_result, reply_to_packet. fields.
  repeat ask_step Hpend.
Qed.

(** *** Answers *)
Lemma callback_asks t msg op :
  pending t = [op] → fsys_ok t → wf_body (body msg) →
  ∀ t', run_callback (callback op) t op msg = Some t' → asks_well t t'.
Proof.
  intros Hpend Hok Hm.
  assert (Hop : is_u32 (request_seqno op)).
  { pose proof (fo_ops _ Hok) as H. rewrite Hpend, Forall_singleton in H. done. }
  destruct (callback op); cbn [run_callback]; unfold_completion; fields; repeat ask_step Hpend.
Qed.

Lemma network_message_asks t msg t' op :
  pending t = [op] → fsys_ok t → wf_body (body msg) →
  rl_amigafs_process_network_message t msg = Some (t', 0) → asks_well t t'.
Proof.
  intros Hpend Hok Hm [H|[H _]]%(complete_cases _ _ _ op); [|by left|done].
  by eapply callback_asks.
Qed.

(** Brief messages that a step sends can be sent. *)
Lemma asks_well_sent t t' out :
  asks_well t t' → fs_peer t' = fs_peer t ++ out → Forall brief out → Forall msg_ok out.
Proof.
  intros [E|(m & E & H)]; rewrite E.
  - rewrite <- (app_nil_r (fs_peer t)) at 1. intros <-%app_inv_head. constructor.
  - intros <-%app_inv_head. rewrite !Forall_singleton. done.
Qed.
End Requests.
