(* ===== verification/AmigaContract.v ===== *)
(** * AmigaContract: what keeps the file system inside its memory

    What clients and the controller owe the file system: packets whose operands
    exist, left in place until they are answered, and answers that fit.  Under
    this contract no step is undefined, and the heap stays well typed; an answer
    to a read that is longer by one byte is written behind the read buffer. *)

From S2P Require Import Prelude Wire Messages CString Format Transport Peer FileServer.
From S2P Require Import AmigaFs AmigaActions AmigaMount AmigaSafety AmigaIo AmigaSession.
From S2P Require Import AmigaTypes AmigaDir AmigaLocks AmigaLink AmigaRequests Names.

Definition ACTION_LOCATE_OBJECT : Z := 8.
Definition ACTION_EXAMINE_OBJECT : Z := 23.
Definition ACTION_DISK_INFO : Z := 25.
Definition ACTION_INFO : Z := 26.

Section Contract.
Context `{HHost : Host} `{HPool : Pool} {P : Type} `{Link : PeerLink P}.
Implicit Types (s : fsys P) (op : rl_pending_operation) (p : DosPacket).

(** ** The contract *)

(** A name with the length in front, as AmigaDOS passes it. *)
Definition bstr_at (m : gmap Z Z) (a : Z) : Prop :=
  ∃ name, m !! a = Some (Z.of_nat (length name)) ∧ mem_read m (a + 1) (length name) = Some name ∧
    no_nul name ∧ (length name ≤ 107)%nat.

(** A name that ends in a null byte. *)
Definition cstring_at (m : gmap Z Z) (a : Z) : Prop :=
  ∃ text, cstr_at (pointer_to m a) = Some text ∧ (length text ≤ 255)%nat.

Definition live s (lock : Z) : Prop := is_Some (locks s !! lock).

(** The operands that the types of packets have: locks that were given out and
    not freed, names, and memory of the client. *)
Record operands s p : Prop := {
  op_file : dp_Type p = ACTION_FINDINPUT ∨ dp_Type p = ACTION_FINDOUTPUT →
    cstring_at (mem s) (BCPL_CAST (dp_Arg3 p) + 1) ∧ is_Some (fhs s !! BCPL_CAST (dp_Arg1 p));
  op_object : dp_Type p = ACTION_LOCATE_OBJECT → bstr_at (mem s) (BCPL_CAST (dp_Arg2 p));
  op_maybe_lock : dp_Type p ∈ [ACTION_LOCATE_OBJECT; ACTION_FREE_LOCK; ACTION_COPY_DIR;
      ACTION_EXAMINE_OBJECT; ACTION_INFO] →
    BCPL_CAST (dp_Arg1 p) = 0 ∨ live s (BCPL_CAST (dp_Arg1 p));
  op_lock : dp_Type p ∈ [ACTION_PARENT; ACTION_EXAMINE_NEXT] → live s (BCPL_CAST (dp_Arg1 p));
  op_fib : dp_Type p ∈ [ACTION_EXAMINE_OBJECT; ACTION_EXAMINE_NEXT] →
    is_Some (fibs s !! BCPL_CAST (dp_Arg2 p));
  op_info : dp_Type p = ACTION_INFO → is_Some (infos s !! BCPL_CAST (dp_Arg2 p));
  op_disk_info : dp_Type p = ACTION_DISK_INFO → is_Some (infos s !! BCPL_CAST (dp_Arg1 p));
  op_handle : dp_Type p ∈ [ACTION_READ; ACTION_WRITE; ACTION_SEEK; ACTION_END] →
    live s (dp_Arg1 p);
  op_read : dp_Type p = ACTION_READ → allocated (mem s) (dp_Arg2 p) (u32 (dp_Arg3 p));
  op_write : dp_Type p = ACTION_WRITE →
    0 <= dp_Arg3 p ∧ allocated (mem s) (dp_Arg2 p) (dp_Arg3 p)
}.

(** What a read still has to deliver. *)
Definition bytes_left op p : Z :=
  match detail op with
  | D_read destination => u32 (u32 (dp_Arg3 p) - u32 (destination - dp_Arg2 p))
  | _ => 0
  end.

(** A client sends a packet that is not already under way.  To locate the root
    takes memory for a lock: the error path reads a variable that was never
    assigned. *)
Definition packet_ok s (pk : Z) p : Prop :=
  pk ∉ pending_packets s ∧ operands s p ∧
  (dp_Type p = ACTION_LOCATE_OBJECT →
   normalize_object_path s RL_AMIGA_PATH_MAX (BCPL_CAST (dp_Arg1 p)) (BCPL_CAST (dp_Arg2 p)) =
     Some [] → is_Some (pool_alloc (used s))).

(** The controller sends messages that can be decoded; the operands of the packet
    that a message completes are still there, and what a read gets beyond its
    length fits the buffer of the handle. *)
Definition message_ok s (msg : rl_msg) : Prop :=
  wf_msg msg ∧
  ∀ op p, find_pending_op s msg = Some op → packets s !! input_packet op = Some p →
    operands s p ∧
    ∀ data, body msg = read_file_answer data → na_length data <= bytes_left op p + 4096.

Definition event_ok s (e : event) : Prop :=
  match e with
  | ev_packet pk p => packet_ok s pk p
  | ev_message msg => message_ok s msg
  end.

Fixpoint run_ok (events : list event) s : Prop :=
  match events with
  | [] => True
  | e :: events => event_ok s e ∧ ∀ s', fs_step s e = Some s' → run_ok events s'
  end.

(** ** The invariant *)

(** A pending operation is what the handler of its packet made. *)
Definition op_ok (packets : gmap Z DosPacket) op : Prop :=
  ∃ p, packets !! input_packet op = Some p ∧
  match callback op with
  | complete_findinput_cb =>
      dp_Type p = ACTION_FINDINPUT ∧ expected_answer_type op = RL_MSG_OPEN_HANDLE_ANSWER
  | complete_locate_object_cb =>
      dp_Type p = ACTION_LOCATE_OBJECT ∧ expected_answer_type op = RL_MSG_OPEN_HANDLE_ANSWER
  | complete_examine_next_cb =>
      dp_Type p = ACTION_EXAMINE_NEXT ∧ expected_answer_type op = RL_MSG_FIND_NEXT_FILE_ANSWER
  | complete_read_cb =>
      dp_Type p = ACTION_READ ∧ expected_answer_type op = RL_MSG_READ_FILE_ANSWER ∧
      ∃ n, detail op = D_read (dp_Arg2 p + n) ∧ 0 <= n <= u32 (dp_Arg3 p)
  | complete_write_cb =>
      dp_Type p = ACTION_WRITE ∧ expected_answer_type op = RL_MSG_WRITE_FILE_ANSWER ∧
      ∃ n len, detail op = D_write (dp_Arg2 p + n) len ∧ 0 <= n ∧ 0 <= len
  end.

Definition link_up (p : P) : Prop := (∃ ms, link_sent p ms) ∨ link_down p.

Record working s : Prop := {
  wk_types : fsys_ok s;
  wk_link : link_up (fs_peer s);
  wk_ops : Forall (op_ok (packets s)) (pending s);
  wk_name : ∃ name, dl_Name (device_list s) = bstr name ∧ (length name ≤ 107)%nat
}.

(** Clients' packets keep their types and operands. *)
Definition args_kept (m m' : gmap Z DosPacket) : Prop :=
  ∀ pk p, m !! pk = Some p → ∃ p', m' !! pk = Some p' ∧ dp_Type p' = dp_Type p ∧
    dp_Arg1 p' = dp_Arg1 p ∧ dp_Arg2 p' = dp_Arg2 p ∧ dp_Arg3 p' = dp_Arg3 p.

Lemma op_ok_kept m m' op : args_kept m m' → op_ok m op → op_ok m' op.
Proof.
  intros Hk (p & Hp & H). destruct (Hk _ _ Hp) as (p' & Hp' & E1 & E2 & E3 & E4).
  exists p'. split; [done|]. by rewrite E1, E3, E4.
Qed.

(** What every step of a handler leaves. *)
Record kept s s' : Prop := {
  kp_args : args_kept (packets s) (packets s');
  kp_link : link_up (fs_peer s) → link_up (fs_peer s');
  kp_list : device_list s' = device_list s;
  kp_port : device_port s' = device_port s;
  kp_ops : ∀ op, op ∈ pending s' → op ∈ pending s ∨ op_ok (packets s') op
}.

Lemma args_kept_refl m : args_kept m m.
Proof. intros pk p Hp. by exists p. Qed.
Lemma args_kept_insert m pk p r1 r2 port :
  m !! pk = Some p → args_kept m (<[pk := set_port port (set_res r1 r2 p)]> m).
Proof.
  intros Hp pk' p' Hp'. destruct (decide (pk' = pk)) as [->|Hne].
  - rewrite lookup_insert_eq. eexists. split; [done|]. by simplify_eq.
  - rewrite lookup_insert_ne by done. by exists p'.
Qed.

#[export] Instance kept_preorder : PreOrder kept.
Proof.
  split.
  - intros s. split; auto using args_kept_refl.
  - intros s1 s2 s3 [A1 L1 D1 P1 O1] [A2 L2 D2 P2 O2]. split; auto; [|congruence|congruence|].
    + intros pk p Hp. destruct (A1 _ _ Hp) as (p2 & Hp2 & E1 & E2 & E3 & E4).
      destruct (A2 _ _ Hp2) as (p3 & Hp3 & F1 & F2 & F3 & F4).
      exists p3. split; [done|]. split_and!; congruence.
    + intros op [H|H]%O2; [|by right]. apply O1 in H as [H|H]; [by left|right].
      by eapply op_ok_kept.
Qed.

(** The steps that only touch locks, handles and the memory of clients. *)
Lemma kept_same s s' :
  packets s' = packets s → fs_peer s' = fs_peer s → device_list s' = device_list s →
  device_port s' = device_port s → pending s' = pending s → kept s s'.
Proof.
  intros Hp Hl Hd Hport Ho. split; rewrite ?Hp, ?Hl, ?Ho; auto using args_kept_refl.
Qed.

(** A run that ends well. *)
Definition safe s (r : option (fsys P)) : Prop := ∃ s', r = Some s' ∧ kept s s'.

Lemma safe_some s s' : kept s s' → safe s (Some s').
Proof. by exists s'. Qed.

Lemma safe_answer s s1 pk p r1 r2 :
  kept s s1 → packets s1 !! pk = Some p → safe s (answer_packet s1 pk r1 r2).
Proof.
  intros Hk Hp. rewrite (answer_packet_ok _ _ p) by done. apply safe_some. etrans; [exact Hk|].
  split; cbn; auto. by apply args_kept_insert.
Qed.

(** An operation leaves the list with its answer. *)
Lemma safe_unlinked s r a :
  safe s r → safe s (s' ← r; Some (unlink_pending s' a)).
Proof.
  intros (s' & -> & Hk). apply safe_some. etrans; [exact Hk|]. split; cbn; auto using args_kept_refl.
  intros op H%unlink_In. by left.
Qed.

Lemma link_transmits (q : P) m :
  link_up q → msg_ok m → ∃ q', transmit q m = Some (q', 0) ∧ link_up q'.
Proof.
  intros [[ms H]|H] Hm.
  - destruct (transmit_sent q ms m H Hm) as (q' & Ht & [Hs|Hd]); exists q'; (split; [done|]);
      [left; by eexists|by right].
  - destruct (transmit_down q m H) as (q' & Ht & Hd). exists q'. split; [done|by right].
Qed.

Lemma fs_transmits s m :
  link_up (fs_peer s) → msg_ok m →
  ∃ q', fs_transmit s m = Some (set_peer q' s, 0) ∧ link_up q'.
Proof.
  intros Hl Hm. destruct (link_transmits _ _ Hl Hm) as (q' & Ht & Hq').
  exists q'. unfold fs_transmit. by rewrite Ht.
Qed.

(** ** Locks *)

(** What making and freeing locks leaves alone. *)
Record same_rest s s' : Prop := {
  sr_packets : packets s' = packets s;
  sr_list : device_list s' = device_list s;
  sr_port : device_port s' = device_port s;
  sr_pending : pending s' = pending s;
  sr_fhs : fhs s' = fhs s;
  sr_fibs : fibs s' = fibs s;
  sr_infos : infos s' = infos s;
  sr_mem : mem s' = mem s
}.

Lemma allocate_safe s ty id access name size text :
  cstr_at name = Some text →
  ∃ r s', allocate_lock s ty id access name size = Some (r, s') ∧ same_rest s s' ∧
    fs_peer s' = fs_peer s.
Proof.
  intros Hname. unfold allocate_lock. destruct (pool_alloc (used s)); [|by exists None, s].
  cbv zeta. destruct (pool_alloc (used _)); [|by eexists None, _].
  rewrite (rl_string_copy_ok _ _ _ text) by first [done|vm_compute; lia].
  cbn [mbind option_bind]. by eexists (Some _), _.
Qed.

Lemma root_lock_safe s mode :
  ∃ r s', rl_amigafs_alloc_root_lock s mode = (r, s') ∧ same_rest s s' ∧ fs_peer s' = fs_peer s.
Proof. unfold rl_amigafs_alloc_root_lock. destruct (pool_alloc _); by eexists _, _. Qed.

Lemma rest_kept s s' : same_rest s s' → fs_peer s' = fs_peer s → kept s s'.
Proof. intros [] ?. by apply kept_same. Qed.

Lemma free_lock_safe s lock :
  working s → live s lock →
  ∃ s', rl_amigafs_free_lock s lock = Some s' ∧ same_rest s s' ∧ kept s s'.
Proof.
  intros [Hok Hl _ _] [lk Hlk]. unfold rl_amigafs_free_lock, HANDLE_FROM_LOCK. rewrite Hlk.
  cbn [mbind option_bind]. destruct (fo_locks _ Hok _ _ Hlk) as [h Hh]. rewrite Hh.
  cbn [mbind option_bind]. case_decide.
  - destruct (fs_transmits (set_seqno (u32 (seqno s + 1)) s)
      (RL_MSG_INIT (close_handle_request (handle_id h)) (seqno s))) as (q & -> & Hq); [done| |].
    { apply close_request_ok; [by eapply ch_id, fo_handles|by apply fo_seqno]. }
    cbn [mbind option_bind]. eexists. split; [done|]. split; [done|].
    split; cbn; auto using args_kept_refl.
  - cbn [mbind option_bind]. eexists. split; [done|]. split; [done|by apply kept_same].
Qed.

(** ** The handlers *)

(** Fails into an answer. *)
Lemma safe_fail s s1 pk p e : kept s s1 → packets s1 !! pk = Some p → safe s (fail_packet s1 pk None e).
Proof. apply safe_answer. Qed.

(** A new operation at the head of the list. *)
Lemma kept_pending s s' op :
  packets s' = packets s → link_up (fs_peer s') → device_list s' = device_list s →
  device_port s' = device_port s → pending s' = op :: pending s → op_ok (packets s) op → kept s s'.
Proof.
  intros Hp Hl Hd Hport Ho Hop. split; rewrite ?Hp; auto using args_kept_refl.
  intros op' H. rewrite Ho in H. apply elem_of_cons in H as [->|H]; [by right|by left].
Qed.

Definition served (type : Z) (h : action (P := P)) : Prop :=
  ∀ s pk p, working s → packets s !! pk = Some p → operands s p → dp_Type p = type → safe s (h s pk).

Ltac serve_start :=
  intros s pk p Hw Hp Hops Ht;
  unfold action_findinput, action_findoutput, action_free_lock, action_end, action_copy_dir,
    action_parent, action_examine_object, action_examine_next, action_disk_info, action_info,
    action_read, action_write, action_seek;
  rewrite Hp; cbn [mbind option_bind].

Lemma cname_strchr m text :
  cstr_at m = Some text → ∃ name, skip_device m = Some name ∧
    ∃ t, cstr_at name = Some t ∧ (length t ≤ length text)%nat.
Proof.
  intros (Hn & rest & ->)%cstr_at_Some. unfold skip_device.
  destruct (decide (58 ∈ text)) as [Hin|Hin].
  - apply list_elem_of_split_l in Hin as (l & r & -> & Hl).
    apply Forall_app in Hn as [Hn1 [_ Hn2]%Forall_cons].
    rewrite <- app_assoc. cbn [app]. rewrite rl_strchr_found by done. cbn [mbind option_bind drop].
    eexists. split; [done|]. exists r. split; [by apply cstr_at_app|]. rewrite length_app. cbn. lia.
  - rewrite rl_strchr_null by done. cbn [mbind option_bind]. eexists. split; [done|].
    exists text. split; [by apply cstr_at_app|done].
Qed.

(** A handle is opened and the packet answered. *)
Lemma safe_opened s s1 pk p fh f lock :
  kept s s1 → packets s1 !! pk = Some p → fhs s1 !! fh = Some f →
  safe s (s2 ← set_result s1 pk DOSTRUE 0; s3 ← open_file_handle s2 fh lock; reply_to_packet s3 pk).
Proof.
  intros Hk Hp Hf. unfold set_result, open_file_handle, reply_to_packet. rewrite Hp.
  cbn [mbind option_bind fhs set_packets]. rewrite Hf. cbn [mbind option_bind packets set_fhs set_packets].
  rewrite lookup_insert_eq. cbn [mbind option_bind]. apply safe_some. etrans; [exact Hk|].
  split; cbn; auto. rewrite insert_insert_eq. by apply args_kept_insert.
Qed.

(** The request that a packet waits for. *)
Lemma safe_request s pk p k cb body e :
  working s → packets s !! pk = Some p →
  op_ok (packets s) (PendingOp (default 0 (pool_alloc (used s))) (seqno s) pk k cb D_zero) →
  msg_ok (RL_MSG_INIT body (seqno s)) →
  safe s (let '(op, s) := alloc_pending s pk k cb in
          match op with
          | None => fail_packet s pk None ERROR_NO_FREE_STORE
          | Some a =>
              o ← get_op (pending s) a;
              '(s, rc) ← fs_transmit s (RL_MSG_INIT body (request_seqno o));
              if negb (rc =? 0) then fail_packet s pk (Some a) e else Some s
          end).
Proof.
  intros [Hok Hl _ _] Hp Hop Hm. unfold alloc_pending.
  destruct (pool_alloc (used s)) as [a|]; [|by eapply safe_fail].
  cbn [get_op pending set_pending op_addr]. rewrite Z.eqb_refl. cbn [mbind option_bind request_seqno].
  destruct (fs_transmits (set_pending (PendingOp a (seqno s) pk k cb D_zero :: pending s)
    (set_seqno (u32 (seqno s + 1)) s)) _ Hl Hm) as (q & -> & Hq).
  cbn [mbind option_bind Z.eqb negb]. apply safe_some. by eapply kept_pending.
Qed.

Lemma findinput_served : served ACTION_FINDINPUT action_findinput.
Proof.
  serve_start. destruct (op_file _ _ Hops) as ((text & Htext & Hlen) & [f Hf]); [by left|].
  destruct (cname_strchr _ _ Htext) as (name & -> & t & Ht' & Hl). cbn [mbind option_bind].
  destruct (rl_strcmp_eq name RLAUNCH_VIRTUAL_INPUT_FILE t (chars "+virtual-input+"))
    as (n & -> & _); [done..|]. cbn [mbind option_bind]. destruct (n =? 0).
  - destruct (allocate_safe s RL_HANDLE_VIRTUAL_INPUT RL_FILEHANDLE_VIRTUAL_INPUT SHARED_LOCK _ 0 _
      Htext) as ([lock|] & s1 & -> & Hr & Hpe); cbn [mbind option_bind].
    + eapply safe_opened; [by apply rest_kept|by rewrite (sr_packets _ _ Hr)|by rewrite (sr_fhs _ _ Hr)].
    + eapply safe_fail; [by apply rest_kept|by rewrite (sr_packets _ _ Hr)].
  - rewrite Ht'. cbn [mbind option_bind]. eapply safe_request; [done..|by exists p|].
    apply open_request_ok; [|by split|apply fo_seqno, Hw].
    split; [by apply cstr_at_Some in Ht' as []|lia].
Qed.

Lemma findoutput_served : served ACTION_FINDOUTPUT action_findoutput.
Proof.
  serve_start. destruct (op_file _ _ Hops) as ((text & Htext & Hlen) & [f Hf]); [by right|].
  destruct (cname_strchr _ _ Htext) as (name & -> & t & Ht' & Hl). cbn [mbind option_bind].
  destruct (rl_strcmp_eq name RLAUNCH_VIRTUAL_OUTPUT_FILE t (chars "+virtual-output+"))
    as (n & -> & _); [done..|]. cbn [mbind option_bind].
  destruct (n =? 0); cbn [negb]; [|by eapply safe_fail].
  destruct (allocate_safe s RL_HANDLE_VIRTUAL_OUTPUT RL_FILEHANDLE_VIRTUAL_OUTPUT EXCLUSIVE_LOCK _ 0
    _ Htext) as ([lock|] & s1 & -> & Hr & Hpe); cbn [mbind option_bind].
  - unfold open_file_handle. rewrite (sr_fhs _ _ Hr), Hf. cbn [mbind option_bind].
    eapply safe_answer; [|cbn; by rewrite (sr_packets _ _ Hr)]. etrans; [by apply rest_kept|by apply kept_same].
  - eapply safe_fail; [by apply rest_kept|by rewrite (sr_packets _ _ Hr)].
Qed.

(** *** Paths *)
Lemma path_below_no_nul parent name :
  no_nul name → (∀ dir, parent = Some dir → no_nul dir) → no_nul (path_below parent name).
Proof.
  intros Hn Hd. unfold path_below, file_part.
  destruct (list_find (λ c, c = 58) name) as [[i c]|]; [by apply Forall_drop|].
  destruct parent as [dir|]; [|done]. apply Forall_app. split; [by apply Hd|by constructor].
Qed.

Lemma normalize_safe s lock name :
  fsys_ok s → lock = 0 ∨ live s lock → bstr_at (mem s) name →
  ∃ full, normalize_object_path s RL_AMIGA_PATH_MAX lock name = Some full ∧
    no_nul full ∧ (length full ≤ 107)%nat.
Proof.
  intros Hok Hlock (text & Hlen & Htext & Hn & Hl).
  assert (∃ parent, directory_of s lock parent ∧ ∀ dir, parent = Some dir → no_nul dir)
    as (parent & Hdir & Hpn).
  { unfold directory_of. destruct (Z.eqb_spec lock 0) as [->|Hne].
    { exists None. split; [|done]. exists (root_addr s). by rewrite decide_True. }
    destruct Hlock as [|[lk Hlk]]; [done|]. unfold HANDLE_FROM_LOCK. rewrite Hlk.
    destruct (decide (fl_Key lk = root_addr s)) as [E|E].
    { exists None. split; [|done]. exists (fl_Key lk). by rewrite decide_True. }
    destruct (fo_locks _ Hok _ _ Hlk) as [h Hh].
    destruct (ch_path _ (fo_handles _ Hok _ _ Hh)) as [_ [dir Hd]].
    exists (Some dir). split.
    - exists (fl_Key lk). rewrite decide_False by done. split; [done|]. by exists h, dir.
    - intros d [= <-]. by apply cstr_at_Some in Hd as []. }
  rewrite (normalized s RL_AMIGA_PATH_MAX lock name text parent) by (done || vm_compute; lia).
  rewrite decide_True by done. eexists. split; [done|]. split.
  - by apply Forall_take, path_below_no_nul.
  - rewrite length_take. unfold RL_AMIGA_PATH_MAX. lia.
Qed.

Lemma locate_served s pk p :
  working s → packets s !! pk = Some p → operands s p → dp_Type p = ACTION_LOCATE_OBJECT →
  (normalize_object_path s RL_AMIGA_PATH_MAX (BCPL_CAST (dp_Arg1 p)) (BCPL_CAST (dp_Arg2 p)) =
     Some [] → is_Some (pool_alloc (used s))) →
  safe s (action_locate_object s pk).
Proof.
  intros Hw Hp Hops Ht Hpool. unfold action_locate_object. rewrite Hp. cbn [mbind option_bind].
  destruct (normalize_safe s (BCPL_CAST (dp_Arg1 p)) (BCPL_CAST (dp_Arg2 p))) as (full & E & Hn & Hl);
    [apply Hw|apply Hops; rewrite Ht; set_solver|by apply Hops|].
  rewrite E in *. cbn [mbind option_bind]. destruct (length full =? 0)%nat eqn:E0.
  - apply Nat.eqb_eq, nil_length_inv in E0. subst full. destruct (Hpool eq_refl) as [a Ha].
    unfold rl_amigafs_alloc_root_lock. rewrite Ha. eapply safe_answer; [by apply kept_same|done].
  - eapply safe_request; [done..|by exists p|].
    apply open_request_ok; [|by split|apply fo_seqno, Hw]. split; [done|lia].
Qed.

(** *** Locks *)
Lemma free_lock_served : served ACTION_FREE_LOCK action_free_lock.
Proof.
  serve_start. destruct (Z.eqb_spec (BCPL_CAST (dp_Arg1 p)) 0) as [E|E]; cbn [negb];
    [by eapply safe_answer|].
  destruct (free_lock_safe s (BCPL_CAST (dp_Arg1 p)) Hw) as (s1 & -> & Hr & Hk).
  { destruct (op_maybe_lock _ _ Hops); [rewrite Ht; set_solver|done|done]. }
  cbn [mbind option_bind]. eapply safe_answer; [done|by rewrite (sr_packets _ _ Hr)].
Qed.

Lemma end_served : served ACTION_END action_end.
Proof.
  serve_start. destruct (free_lock_safe s (dp_Arg1 p) Hw) as (s1 & -> & Hr & Hk).
  { apply Hops. rewrite Ht. set_solver. }
  cbn [mbind option_bind]. eapply safe_answer; [done|by rewrite (sr_packets _ _ Hr)].
Qed.

(** A live lock leads to a handle. *)
Lemma live_handle s lock :
  fsys_ok s → live s lock →
  ∃ hd h, HANDLE_FROM_LOCK s lock = Some hd ∧ chandles s !! hd = Some h ∧ chandle_ok h.
Proof.
  intros Hok [lk Hlk]. unfold HANDLE_FROM_LOCK. rewrite Hlk.
  destruct (fo_locks _ Hok _ _ Hlk) as [h Hh]. exists (fl_Key lk), h. split; [done|].
  split; [done|]. by eapply fo_handles.
Qed.

Lemma copy_dir_served : served ACTION_COPY_DIR action_copy_dir.
Proof.
  serve_start. destruct (Z.eqb_spec (BCPL_CAST (dp_Arg1 p)) 0) as [E|E]; cbn [negb];
    [by eapply safe_answer|].
  destruct (live_handle s (BCPL_CAST (dp_Arg1 p))) as (hd & h & -> & Hh & Hhok); [apply Hw| |].
  { destruct (op_maybe_lock _ _ Hops); [rewrite Ht; set_solver|done|done]. }
  cbn [mbind option_bind]. rewrite Hh. cbn [mbind option_bind].
  destruct (ch_path _ Hhok) as [_ [text Htext]]. case_decide.
  - destruct (root_lock_safe s SHARED_LOCK) as (r & s1 & -> & Hr & Hpe). cbn [mbind option_bind].
    destruct r; (eapply safe_answer; [by apply rest_kept|by rewrite (sr_packets _ _ Hr)]).
  - destruct (allocate_safe s (h_type h) (handle_id h) SHARED_LOCK _ (size_lo h) _ Htext)
      as (r & s1 & -> & Hr & Hpe). cbn [mbind option_bind].
    destruct r; (eapply safe_answer; [by apply rest_kept|by rewrite (sr_packets _ _ Hr)]).
Qed.

Lemma parent_served : served ACTION_PARENT action_parent.
Proof.
  serve_start. destruct (live_handle s (BCPL_CAST (dp_Arg1 p))) as (hd & h & -> & Hh & Hhok);
    [apply Hw|apply Hops; rewrite Ht; set_solver|].
  cbn [mbind option_bind]. destruct (_ || _); [by eapply safe_answer|]. rewrite Hh.
  cbn [mbind option_bind]. destruct (ch_path _ Hhok) as [_ [text Htext]].
  pose proof (proj1 (cstr_at_Some _ _ Htext)) as Hn.
  rewrite (rl_string_copy_ok _ _ _ text) by first [done|vm_compute; lia].
  cbn [mbind option_bind]. rewrite <- app_assoc, rl_strlen_spec. cbn [app].
  rewrite cstr_at_app by by apply Forall_take. cbn [mbind option_bind].
  set (len := last_slash _ _). destruct (len <=? 0).
  - destruct (root_lock_safe s SHARED_LOCK) as (r & s1 & -> & Hr & Hpe). cbn [mbind option_bind].
    destruct r; (eapply safe_answer; [by apply rest_kept|by rewrite (sr_packets _ _ Hr)]).
  - set (name := take (Z.to_nat len) _ ++ [0]).
    assert (∃ t, cstr_at name = Some t) as [t Ht'].
    { apply (cstr_at_exists _ (length name - 1)). subst name. rewrite length_app. cbn [length].
      rewrite lookup_app_r by lia. by replace (_ - _)%nat with 0%nat by lia. }
    destruct (allocate_safe s RL_HANDLE_DIR (u32 (-1)) SHARED_LOCK _ 0 _ Ht')
      as (r & s1 & -> & Hr & Hpe). cbn [mbind option_bind].
    destruct r; (eapply safe_answer; [by apply rest_kept|by rewrite (sr_packets _ _ Hr)]).
Qed.

(** *** Examining *)
Lemma bstr_fits n (size : Z) input text :
  cstr_at input = Some text → 2 <= size < 256 → n = Z.to_nat size →
  ∃ out, construct_bstr (replicate n 0) size input = Some out.
Proof.
  intros Ht Hs ->. unfold construct_bstr. rewrite rl_strlen_spec, Ht. cbn [mbind option_bind].
  rewrite u32_id by (unfold is_u32; lia). eexists. apply put_bytes_Some.
  rewrite length_replicate. cbn [length]. rewrite length_app, length_take. cbn [length].
  destruct (Z.ltb_spec (size - 2) (Z.of_nat (length text))); lia.
Qed.

Lemma put_fib_safe s a f : is_Some (fibs s !! a) → put_fib a f s = Some (set_fibs (<[a := f]> (fibs s)) s).
Proof. intros [g Hg]. unfold put_fib. by rewrite Hg. Qed.

Lemma examine_object_served : served ACTION_EXAMINE_OBJECT action_examine_object.
Proof.
  serve_start. assert (Hfib : is_Some (fibs s !! BCPL_CAST (dp_Arg2 p)))
    by (apply Hops; rewrite Ht; set_solver).
  assert (∃ hd, (if negb (BCPL_CAST (dp_Arg1 p) =? 0) then HANDLE_FROM_LOCK s (BCPL_CAST (dp_Arg1 p))
      else Some 0) = Some hd ∧ (hd = 0 ∨ is_Some (chandles s !! hd))) as (hd & -> & Hhd).
  { destruct (Z.eqb_spec (BCPL_CAST (dp_Arg1 p)) 0) as [E|E]; cbn [negb]; [by exists 0; auto|].
    destruct (live_handle s (BCPL_CAST (dp_Arg1 p))) as (hd & h & -> & Hh & _); [apply Hw| |by eauto].
    destruct (op_maybe_lock _ _ Hops); [rewrite Ht; set_solver|done|done]. }
  cbn [mbind option_bind]. set (k := if hd =? 0 then root_addr s else hd).
  assert (is_Some (chandles s !! k)) as [h Hh].
  { subst k. destruct (Z.eqb_spec hd 0); [apply fo_root, Hw|by destruct Hhd]. }
  destruct (root_addr s =? k).
  - destruct (wk_name _ Hw) as (name & -> & Hl).
    change (bstr name !! 0%nat) with (Some (Z.of_nat (length name))). cbn [mbind option_bind].
    unfold bstr. cbn [length]. rewrite length_app. cbn [length].
    destruct (Nat.ltb_spec (S (length name + 1)) (Z.to_nat (Z.of_nat (length name)) + 1)); [lia|].
    rewrite put_bytes_Some by (rewrite length_replicate, length_take; lia).
    cbn [mbind option_bind].
    destruct (bstr_fits 80 80 (cstr "This is a remote launch device") (chars "This is a remote launch device"))
      as (out & ->); [done..|]. cbn [mbind option_bind].
    rewrite put_fib_safe by done. eapply safe_answer; [by apply kept_same|done].
  - rewrite Hh. cbn [mbind option_bind].
    destruct (ch_path _ (fo_handles _ (wk_types _ Hw) _ _ Hh)) as [_ [text Htext]].
    destruct (bstr_fits 108 108 _ _ Htext) as (out & ->); [done..|]. cbn [mbind option_bind].
    rewrite put_fib_safe by done. eapply safe_answer; [by apply kept_same|done].
Qed.

Lemma examine_next_served : served ACTION_EXAMINE_NEXT action_examine_next.
Proof.
  serve_start. destruct (live_handle s (BCPL_CAST (dp_Arg1 p))) as (hd & h & -> & Hh & Hhok);
    [apply Hw|apply Hops; rewrite Ht; set_solver|].
  cbn [mbind option_bind]. unfold alloc_pending.
  destruct (pool_alloc (used s)) as [a|]; [|by eapply safe_fail].
  cbn [get_op pending set_pending op_addr]. rewrite Z.eqb_refl.
  cbn [mbind option_bind chandles set_pending set_seqno]. rewrite Hh. cbn [mbind option_bind request_seqno].
  set (s1 := set_pending _ _).
  destruct (fs_transmits s1 (RL_MSG_INIT (find_next_file_request (handle_id h)
      (if negb (Z.land (flags h) RL_CLIENT_FLAG_FILE_ENUM_IN_PROGRESS =? 0) then 0 else 1)) (seqno s)))
    as (q & -> & Hq); [apply Hw| |].
  { apply find_next_request_ok; [apply Hhok|by case_match|apply fo_seqno, Hw]. }
  cbn [mbind option_bind Z.eqb negb]. apply safe_some. eapply kept_pending; [done..|by exists p].
Qed.

Lemma disk_info_served : served ACTION_DISK_INFO action_disk_info.
Proof.
  serve_start. destruct (op_disk_info _ _ Hops Ht) as [i Hi]. unfold fill_in_infodata. rewrite Hi.
  cbn [mbind option_bind]. eapply safe_answer; [by apply kept_same|done].
Qed.

Lemma info_served : served ACTION_INFO action_info.
Proof.
  serve_start. destruct (Z.eqb_spec (BCPL_CAST (dp_Arg1 p)) 0); [by eapply safe_answer|].
  destruct (op_maybe_lock _ _ Hops) as [|[lk Hlk]]; [rewrite Ht; set_solver|done|].
  rewrite Hlk. cbn [mbind option_bind]. destruct (negb _); [by eapply safe_answer|].
  destruct (fl_Key lk =? root_addr s); [|by eapply safe_answer].
  destruct (op_info _ _ Hops Ht) as [i Hi]. unfold fill_in_infodata. rewrite Hi.
  cbn [mbind option_bind]. eapply safe_answer; [by apply kept_same|done].
Qed.

(** *** Reading *)
Lemma allocated_sub m a n i k : allocated m a n → 0 <= i → i + k <= n → allocated m (a + i) k.
Proof. intros Ha Hi Hk j Hj. replace (a + i + j) with (a + (i + j)) by lia. apply Ha. lia. Qed.

Lemma copy_safe s dest src n :
  0 <= n <= Z.of_nat (length src) → allocated (mem s) dest n →
  ∃ m, copy_to_client s dest src n = Some (set_mem m s).
Proof.
  intros Hn Ha. unfold copy_to_client. destruct (Z.ltb_spec (Z.of_nat (length src)) n); [lia|].
  destruct (mem_write_ok (mem s) dest (take (Z.to_nat n) src)) as (m & -> & _).
  { rewrite length_take, Nat.min_l, Z2Nat.id by lia. done. }
  by exists m.
Qed.

(** What the buffer gives lies in the buffer. *)
Lemma overlap_fits h want offset count :
  chandle_ok h → is_u32 want → buffer_overlap h want = Some (offset, count) →
  0 <= offset ∧ 0 <= count <= want ∧ offset + count <= 4096.
Proof.
  intros [_ [Ho _] _ _ _ [Hb Hl]] Hw. unfold buffer_overlap, is_u32 in *.
  destruct (Z.ltb_spec (offset_lo h) (buffer_start h)); [done|].
  set (hi := u32 _). destruct (Z.leb_spec hi (offset_lo h)); [done|].
  assert (Hhi : hi <= buffer_start h + buffer_len h) by (apply Z.mod_le; lia).
  assert (Hr : is_u32 hi) by apply u32_range. unfold is_u32 in Hr.
  rewrite !u32_id by (unfold is_u32; lia). intros [= <- <-]. lia.
Qed.

Lemma buffered_safe s hd h dest want :
  fsys_ok s → chandles s !! hd = Some h → is_u32 want → allocated (mem s) dest want →
  ∃ s1 h1 n served,
    match buffer_overlap h want with
    | Some (offset, count) =>
        copy_to_client (put_handle hd (set_offset (u32 (offset_lo h + count)) h) s) dest
          (drop (Z.to_nat offset) (h_buffer h)) count
        ≫= λ s, Some (s, u32 (want - count), if u32 (want - count) =? 0 then Some count else None)
    | None => Some (s, want, None)
    end = Some (s1, want - n, served) ∧ 0 <= n <= want ∧
    packets s1 = packets s ∧ pending s1 = pending s ∧ device_list s1 = device_list s ∧
    device_port s1 = device_port s ∧
    fs_peer s1 = fs_peer s ∧ seqno s1 = seqno s ∧ chandles s1 !! hd = Some h1 ∧ chandle_ok h1.
Proof.
  intros Hok Hh Hw Ha. pose proof (fo_handles _ Hok _ _ Hh) as Hhok.
  destruct (buffer_overlap h want) as [[offset count]|] eqn:E.
  - destruct (overlap_fits _ _ _ _ Hhok Hw E) as (Ho & Hc & Hs).
    pose proof (ch_buffer _ Hhok) as Hb.
    destruct (copy_safe (put_handle hd (set_offset (u32 (offset_lo h + count)) h) s) dest
      (drop (Z.to_nat offset) (h_buffer h)) count) as (m & ->).
    + rewrite length_drop. lia.
    + cbn. rewrite <- (Z.add_0_r dest). eapply allocated_sub; [exact Ha|lia..].
    + cbn [mbind option_bind]. rewrite (u32_id (want - count)) by (unfold is_u32 in *; lia).
      eexists _, _, count, _. split; [done|]. split; [done|]. cbn.
      rewrite lookup_insert_eq. split_and!; try done. apply set_offset_ok; [apply u32_range|done].
  - eexists s, h, 0, None. rewrite Z.sub_0_r. unfold is_u32 in Hw. split_and!; (done || lia).
Qed.

Lemma read_transmits s hd h op n :
  link_up (fs_peer s) → chandles s !! hd = Some h → chandle_ok h → is_u32 n →
  is_u32 (request_seqno op) →
  ∃ q, transmit_read_request s hd op n = Some (set_peer q s, 0) ∧ link_up q.
Proof.
  intros Hl Hh Hhok Hn Hq. unfold transmit_read_request. rewrite Hh. cbn [mbind option_bind].
  apply fs_transmits; [done|]. apply read_request_ok; try apply Hhok; [by apply max_u32|done].
Qed.

Lemma action_read_served : served ACTION_READ action_read.
Proof.
  serve_start. destruct (live_handle s (dp_Arg1 p)) as (hd & h & -> & Hh & Hhok);
    [apply Hw|apply Hops; rewrite Ht; set_solver|].
  cbn [mbind option_bind]. rewrite Hh. cbn [mbind option_bind].
  destruct (buffered_safe s hd h (dp_Arg2 p) (u32 (dp_Arg3 p))) as
    (s1 & h1 & n & bytes & -> & Hn & Hp1 & Ho1 & Hd1 & Hdp1 & Hl1 & Hq1 & Hh1 & Hhok1);
    [apply Hw|done|apply u32_range|by apply Hops|].
  cbn [mbind option_bind]. pose proof (u32_range (dp_Arg3 p)) as Hwant. unfold is_u32 in Hwant.
  assert (Hk1 : kept s s1) by by apply kept_same.
  destruct bytes as [count|]; [eapply safe_answer; [done|by rewrite Hp1]|].
  unfold alloc_pending. destruct (pool_alloc (used s1)) as [a|];
    [|eapply safe_fail; [done|by rewrite Hp1]].
  cbn [pending set_pending update_op op_addr]. rewrite Z.eqb_refl.
  cbn [pending set_pending get_op set_op_detail op_addr]. rewrite Z.eqb_refl. cbn [mbind option_bind].
  replace (u32 (dp_Arg3 p) - (u32 (dp_Arg3 p) - n)) with n by lia.
  rewrite (u32_id n) by (unfold is_u32; lia).
  match goal with |- context [transmit_read_request ?t hd ?o ?k] =>
    destruct (read_transmits t hd h1 o k) as (q & -> & Hq) end;
    [cbn; rewrite Hl1; apply Hw|done|done|unfold is_u32; lia|cbn; rewrite Hq1; apply fo_seqno, Hw|].
  cbn [mbind option_bind Z.eqb negb]. apply safe_some.
  eapply kept_pending; [by cbn|done|by cbn|by cbn|by cbn; rewrite Ho1|].
  exists p. split; [done|]. split; [done|]. split; [done|]. by exists n.
Qed.

(** *** Writing *)
Lemma allocated_read m a n : allocated m a (Z.of_nat n) → ∃ bs, mem_read m a n = Some bs.
Proof.
  revert a. induction n as [|n IH]; intros a Ha; [by exists []|]. cbn [mem_read].
  destruct (Ha 0) as [b Hb]; [lia|]. rewrite Z.add_0_r in Hb. rewrite Hb. cbn [mbind option_bind].
  destruct (IH (a + 1)) as (bs & ->); [|by eexists].
  intros i Hi. replace (a + 1 + i) with (a + (1 + i)) by lia. apply Ha. lia.
Qed.

Lemma chunk_ok m a n : allocated m a n → 0 <= n <= 4096 → wf_array (NetArray (pointer_to m a) n).
Proof.
  intros Ha Hn. rewrite <- (Z2Nat.id n) in Ha by lia. destruct (allocated_read _ _ _ Ha) as (bs & Hb).
  destruct (mem_read_size _ _ _ _ Hb) as [Hs _]. destruct (mem_from_prefix _ _ _ _ _ Hb Hs) as [Hl _].
  unfold wf_array, pointer_to. cbn. lia.
Qed.

Lemma write_transmits s hd h a op data count :
  link_up (fs_peer s) → chandles s !! hd = Some h → chandle_ok h → get_op (pending s) a = Some op →
  is_u32 (request_seqno op) → allocated (mem s) data count → 0 <= count <= 4096 →
  ∃ q, transmit_write_request s hd a data count =
      Some (set_peer q (set_pending (update_op (pending s) a (set_op_detail (D_write data count))) s), 0) ∧
    link_up q.
Proof.
  intros Hl Hh Hhok Hop Hq Ha Hc. unfold transmit_write_request. rewrite Hh. cbn [mbind option_bind].
  rewrite Hop. cbn [mbind option_bind]. apply fs_transmits; [done|].
  apply write_request_ok; [split; [by apply chunk_ok|cbn; lia]|apply Hhok|done].
Qed.

Lemma action_write_served : served ACTION_WRITE action_write.
Proof.
  serve_start. destruct (live_handle s (dp_Arg1 p)) as (hd & h & -> & Hh & Hhok);
    [apply Hw|apply Hops; rewrite Ht; set_solver|].
  destruct (op_write _ _ Hops Ht) as [H0 Ha].
  cbn [mbind option_bind]. unfold alloc_pending.
  destruct (pool_alloc (used s)) as [a|]; [|by eapply safe_fail].
  set (s1 := set_pending _ _). rewrite u32_id by (unfold is_u32; lia).
  destruct (write_transmits s1 hd h a (PendingOp a (seqno s) pk RL_MSG_WRITE_FILE_ANSWER
    complete_write_cb D_zero) (dp_Arg2 p) (Z.min (dp_Arg3 p) 4096)) as (q & -> & Hq).
  - apply Hw.
  - done.
  - done.
  - cbn. by rewrite Z.eqb_refl.
  - apply fo_seqno, Hw.
  - cbn. rewrite <- (Z.add_0_r (dp_Arg2 p)). eapply allocated_sub; [exact Ha|lia..].
  - lia.
  - cbn [mbind option_bind Z.eqb negb]. apply safe_some.
    eapply kept_pending; [by cbn|done|done|done|cbn; by rewrite Z.eqb_refl|].
    exists p. split; [done|]. split; [done|]. split; [done|]. cbn.
    eexists 0, _. rewrite Z.add_0_r. split; [done|lia].
Qed.

Lemma seek_served : served ACTION_SEEK action_seek.
Proof.
  serve_start. destruct (live_handle s (dp_Arg1 p)) as (hd & h & -> & Hh & Hhok);
    [apply Hw|apply Hops; rewrite Ht; set_solver|].
  cbn [mbind option_bind]. rewrite Hh. cbn [mbind option_bind].
  eapply safe_answer; [by apply kept_same|done].
Qed.

(** *** Every packet *)
Lemma at_once_served type r1 r2 : served type (λ s pk, answer_packet s pk r1 r2).
Proof. intros s pk p Hw Hp _ _. by eapply safe_answer. Qed.
Lemma die_served : served 5 action_die.
Proof. intros s pk p Hw Hp _ _. by apply safe_some. Qed.
Lemma volume_served : served 7 action_current_volume.
Proof. intros s pk p Hw Hp _ _. by eapply safe_answer. Qed.

Lemma handler_served s pk p h :
  working s → packets s !! pk = Some p → operands s p →
  (dp_Type p = ACTION_LOCATE_OBJECT →
   normalize_object_path s RL_AMIGA_PATH_MAX (BCPL_CAST (dp_Arg1 p)) (BCPL_CAST (dp_Arg2 p)) =
     Some [] → is_Some (pool_alloc (used s))) →
  packet_handler (dp_Type p) = Some h → safe s (h s pk).
Proof.
  intros Hw Hp Hops Hroot Hh.
  assert (Ht : dp_Type p ∈ served_types) by by apply packet_handler_served; eexists.
  unfold served_types in Ht.
  repeat (apply elem_of_cons in Ht as [Ht | Ht]; [rewrite Ht in Hh; injection Hh as <-;
    first [ by eapply (at_once_served _ _ _ s pk p) | by eapply die_served | by eapply volume_served
          | by (eapply locate_served; eauto) | by eapply free_lock_served
          | by eapply copy_dir_served | by eapply parent_served | by eapply examine_object_served
          | by eapply examine_next_served | by eapply disk_info_served | by eapply info_served
          | by eapply action_read_served | by eapply action_write_served | by eapply seek_served
          | by eapply end_served | by eapply findinput_served | by eapply findoutput_served ] |]).
  by apply not_elem_of_nil in Ht.
Qed.

Lemma packet_served s pk p :
  working s → packets s !! pk = Some p → operands s p →
  (dp_Type p = ACTION_LOCATE_OBJECT →
   normalize_object_path s RL_AMIGA_PATH_MAX (BCPL_CAST (dp_Arg1 p)) (BCPL_CAST (dp_Arg2 p)) =
     Some [] → is_Some (pool_alloc (used s))) →
  safe s (process_fs_packet s pk).
Proof.
  intros Hw Hp Hops Hroot. unfold process_fs_packet. rewrite Hp. cbn [mbind option_bind].
  destruct (packet_handler (dp_Type p)) as [h|] eqn:E; [by eapply handler_served|by eapply safe_answer].
Qed.

(** ** The completions *)

(** What is known of the operation that a message completes. *)
Record completing s op p : Prop := {
  cp_working : working s;
  cp_in : op ∈ pending s;
  cp_packet : packets s !! input_packet op = Some p;
  cp_operands : operands s p
}.

Lemma same_address l op op' :
  NoDup (op_addr <$> l) → op ∈ l → op' ∈ l → op_addr op' = op_addr op → op' = op.
Proof.
  induction l as [|o l IH]; [by intros _ ?%not_elem_of_nil|]. cbn.
  intros [Ho Hl]%NoDup_cons [->|H]%elem_of_cons [->|H']%elem_of_cons E; auto.
  - destruct Ho. rewrite <- E. by apply list_elem_of_fmap_2.
  - destruct Ho. rewrite E. by apply list_elem_of_fmap_2.
Qed.

Lemma op_number s op : working s → op ∈ pending s → is_u32 (request_seqno op).
Proof.
  intros Hw H. pose proof (fo_ops _ (wk_types _ Hw)) as Ho. rewrite Forall_forall in Ho. by apply Ho.
Qed.

(** The handle of the packet's lock. *)
Lemma completing_handle s op p lock :
  completing s op p → live s lock →
  ∃ hd h, HANDLE_FROM_LOCK s lock = Some hd ∧ chandles s !! hd = Some h ∧ chandle_ok h.
Proof. intros [Hw _ _ _]. apply live_handle, Hw. Qed.

Lemma findinput_completed s op p msg handle size type :
  completing s op p → dp_Type p = ACTION_FINDINPUT → body msg = open_handle_answer handle size type →
  wf_body (body msg) → safe s (complete_findinput s op msg).
Proof.
  intros [Hw Hin Hp Hops] Ht Hb Hwf. unfold complete_findinput. rewrite Hp, Hb in *.
  cbn [mbind option_bind]. destruct Hwf as (Hid & _).
  destruct (op_file _ _ Hops) as ((text & Htext & _) & [f Hf]); [by left|].
  assert (Hclose : ∀ s1 r1 r2, same_rest s s1 → fs_peer s1 = fs_peer s → is_u32 (seqno s1) →
    safe s (s2 ← set_result s1 (input_packet op) r1 r2;
            s3 ← ('(s3, _) ← fs_transmit (set_seqno (u32 (seqno s2 + 1)) s2)
                    (RL_MSG_INIT (close_handle_request handle) (seqno s2)); Some s3);
            s4 ← reply_to_packet s3 (input_packet op); Some (unlink_pending s4 (op_addr op)))).
  { intros s1 r1 r2 Hr Hpe Hq. unfold set_result. rewrite (sr_packets _ _ Hr), Hp.
    cbn [mbind option_bind]. set (s2 := set_packets _ s1).
    destruct (fs_transmits (set_seqno (u32 (seqno s2 + 1)) s2)
      (RL_MSG_INIT (close_handle_request handle) (seqno s2))) as (q & -> & Hq');
      [cbn; rewrite Hpe; apply Hw|by apply close_request_ok|].
    cbn [mbind option_bind]. apply safe_unlinked. unfold reply_to_packet. cbn [packets set_peer set_seqno s2 set_packets].
    rewrite lookup_insert_eq. cbn [mbind option_bind]. apply safe_some.
    etrans; [by apply rest_kept|]. split; cbn; auto. rewrite insert_insert_eq, <- (sr_packets _ _ Hr).
    apply args_kept_insert. by rewrite (sr_packets _ _ Hr). }
  pose proof (fo_seqno _ (wk_types _ Hw)) as Hq.
  destruct (RL_NODE_TYPE_FILE =? type); cbn [negb].
  2:{ specialize (Hclose s DOSFALSE ERROR_OBJECT_WRONG_TYPE). unfold set_result in *.
      rewrite Hp in *. cbn [mbind option_bind] in *. by apply Hclose. }
  destruct (allocate_safe s RL_HANDLE_FILE handle SHARED_LOCK _ size _ Htext)
    as (r & s1 & E & Hr & Hpe). rewrite E. cbn [mbind option_bind].
  assert (Hq1 : is_u32 (seqno s1)).
  { unfold allocate_lock in E. destruct (pool_alloc (used s)); [|by injection E as _ <-]. cbv zeta in E.
    destruct (pool_alloc _); [|by injection E as _ <-]. apply bind_Some in E as ([??] & _ & [= _ <-]). done. }
  destruct r as [lock|].
  - unfold set_result, open_file_handle. rewrite (sr_packets _ _ Hr), Hp.
    cbn [mbind option_bind fhs set_packets]. rewrite (sr_fhs _ _ Hr), Hf.
    cbn [mbind option_bind]. apply safe_unlinked. unfold reply_to_packet.
    cbn [packets set_packets set_fhs]. rewrite lookup_insert_eq. cbn [mbind option_bind].
    apply safe_some. etrans; [by apply rest_kept|]. split; cbn; auto.
    rewrite insert_insert_eq, <- (sr_packets _ _ Hr). apply args_kept_insert. by rewrite (sr_packets _ _ Hr).
  - specialize (Hclose s1 DOSFALSE ERROR_NO_FREE_STORE Hr Hpe Hq1). unfold set_result in *.
    rewrite (sr_packets _ _ Hr), Hp in *. by cbn [mbind option_bind] in *.
Qed.

Lemma locate_completed s op p msg handle size type :
  completing s op p → dp_Type p = ACTION_LOCATE_OBJECT →
  body msg = open_handle_answer handle size type → safe s (complete_locate_object s op msg).
Proof.
  intros [Hw Hin Hp Hops] Ht Hb. unfold complete_locate_object. rewrite Hp, Hb.
  cbn [mbind option_bind].
  destruct (normalize_safe s (BCPL_CAST (dp_Arg1 p)) (BCPL_CAST (dp_Arg2 p))) as (full & -> & Hn & Hl);
    [apply Hw|apply Hops; rewrite Ht; set_solver|by apply Hops|]. cbn [mbind option_bind].
  destruct (allocate_safe s (if RL_NODE_TYPE_DIRECTORY =? type then RL_HANDLE_DIR else RL_HANDLE_FILE)
    handle 0 (full ++ [0]) size full) as (r & s1 & -> & Hr & Hpe); [by apply cstr_at_app|].
  cbn [mbind option_bind]. apply safe_unlinked.
  destruct r; (eapply safe_answer; [by apply rest_kept|by rewrite (sr_packets _ _ Hr)]).
Qed.

Lemma examine_completed s op p msg last type name size :
  completing s op p → dp_Type p = ACTION_EXAMINE_NEXT →
  body msg = find_next_file_answer last type name size → wf_body (body msg) →
  safe s (complete_examine_next s op msg).
Proof.
  intros Hc Ht Hb Hwf. pose proof Hc as [Hw Hin Hp Hops]. unfold complete_examine_next.
  rewrite Hp, Hb in *. cbn [mbind option_bind].
  destruct (completing_handle _ _ _ (BCPL_CAST (dp_Arg1 p)) Hc) as (hd & h & -> & Hh & _);
    [apply Hops; rewrite Ht; set_solver|].
  cbn [mbind option_bind]. apply safe_unlinked. destruct (last =? 0); cbn [negb].
  - assert (Hname : no_nul name) by (cbn in Hwf; unfold wf_string in Hwf; tauto).
    destruct (bstr_fits 108 108 (name ++ [0]) name) as (out & ->);
      [by apply cstr_at_app|done|done|]. cbn [mbind option_bind].
    rewrite put_fib_safe by (apply Hops; rewrite Ht; set_solver). cbn [mbind option_bind].
    eapply safe_answer; [by apply kept_same|done].
  - rewrite Hh. cbn [mbind option_bind]. eapply safe_answer; [by apply kept_same|done].
Qed.

(** *** Reads *)

(** A pending read that has delivered [n] bytes. *)
Definition reading op p n : Prop :=
  dp_Type p = ACTION_READ ∧ detail op = D_read (dp_Arg2 p + n) ∧ 0 <= n <= u32 (dp_Arg3 p).

Lemma reading_left op p n : reading op p n → bytes_left op p = u32 (dp_Arg3 p) - n.
Proof.
  intros (_ & Hd & Hn). unfold bytes_left. rewrite Hd. pose proof (u32_range (dp_Arg3 p)) as Hr.
  unfold is_u32 in Hr. replace (dp_Arg2 p + n - dp_Arg2 p) with n by lia.
  rewrite (u32_id n) by (unfold is_u32; lia). apply u32_id. unfold is_u32. lia.
Qed.

(** The operations after an update of [op] that keeps it what it is. *)
Lemma update_kept s s' op f :
  working s → op ∈ pending s → packets s' = packets s → device_list s' = device_list s →
  device_port s' = device_port s → link_up (fs_peer s') → pending s' = update_op (pending s) (op_addr op) f →
  op_ok (packets s) (f op) → kept s s'.
Proof.
  intros Hw Hin Hp Hd Hport Hl Ho Hf. split; rewrite ?Hp; auto using args_kept_refl.
  rewrite Ho. clear Ho. intros o Ho.
  assert (o ∈ pending s ∨ ∃ o0, o0 ∈ pending s ∧ op_addr o0 = op_addr op ∧ o = f o0)
    as [H|(o0 & H0 & E & ->)]; [|by left|].
  { revert Ho. generalize (pending s). intros l. induction l as [|x l IH]; [by left|]. cbn.
    destruct (Z.eqb_spec (op_addr x) (op_addr op)); intros [->|H]%elem_of_cons.
    - right. exists x. split; [by left|done].
    - left. by right.
    - left. by left.
    - destruct (IH H) as [H1|(o1 & H1 & E1 & ->)]; [left; by right|right].
      exists o1. split; [by right|done]. }
  right. replace o0 with op; [done|]. symmetry. eapply same_address; [|done..].
  apply (fo_once _ (wk_types _ Hw)).
Qed.

Lemma update_op_twice l a f g :
  (∀ op, op_addr (f op) = op_addr op) →
  update_op (update_op l a f) a g = update_op l a (λ op, g (f op)).
Proof.
  intros Hf. induction l as [|op l IH]; [done|]. cbn. destruct (op_addr op =? a) eqn:E; cbn.
  - by rewrite Hf, E.
  - by rewrite E, IH.
Qed.

Lemma read_completed s op p msg data n :
  completing s op p → callback op = complete_read_cb →
  expected_answer_type op = RL_MSG_READ_FILE_ANSWER → reading op p n →
  body msg = read_file_answer data → wf_array data → na_length data <= bytes_left op p + 4096 →
  safe s (complete_read s op msg).
Proof.
  intros Hc Hcb Hexp Hread Hb [Ha _] Hfit. pose proof Hc as [Hw Hin Hp Hops].
  rewrite (reading_left _ _ _ Hread) in Hfit. destruct Hread as (Ht & Hd & Hn).
  unfold complete_read. rewrite Hp, Hb. cbn [mbind option_bind].
  destruct (completing_handle _ _ _ (dp_Arg1 p) Hc) as (hd & h & -> & Hh & Hhok);
    [apply Hops; rewrite Ht; set_solver|].
  cbn [mbind option_bind]. rewrite Hd. unfold readop_bytes_read. rewrite Hd.
  cbn [mbind option_bind detail set_op_detail].
  pose proof (u32_range (dp_Arg3 p)) as Hwant. unfold is_u32 in Hwant.
  replace (dp_Arg2 p + n - dp_Arg2 p) with n by lia.
  rewrite (u32_id n) by (unfold is_u32; lia). rewrite (u32_id (u32 _ - n)) by (unfold is_u32; lia).
  set (slice := Z.min _ _). assert (Hslice : 0 <= slice <= u32 (dp_Arg3 p) - n) by lia.
  destruct (copy_safe s (dp_Arg2 p + n) (na_base data) slice) as (m & ->); [lia| |].
  { eapply allocated_sub; [by apply Hops|lia..]. }
  cbn [mbind option_bind chandles set_mem]. rewrite Hh. cbn [mbind option_bind].
  replace (dp_Arg2 p + n + slice - dp_Arg2 p) with (n + slice) by lia.
  rewrite (u32_id (n + slice)) by (unfold is_u32; lia).
  destruct (_ || _) eqn:Eend.
  - rewrite length_drop. rewrite (u32_id (na_length data - slice)) by (unfold is_u32; lia).
    destruct (Z.ltb_spec (Z.of_nat (length (na_base data) - Z.to_nat slice)) (na_length data - slice));
      [lia|].
    pose proof (ch_buffer _ Hhok) as Hbuf.
    rewrite put_bytes_Some by (cbn [h_buffer set_offset]; rewrite length_take, length_drop; lia).
    cbn [mbind option_bind]. apply safe_unlinked.
    eapply safe_answer; [|by cbn]. eapply (update_kept _ _ op); try done; [by apply Hw|].
    exists p. split; [done|]. cbn. rewrite Hcb. split; [done|]. split; [done|].
    exists (n + slice). rewrite Z.add_assoc. split; [done|lia].
  - match goal with |- context [transmit_read_request ?t hd ?o ?k] =>
      destruct (read_transmits t hd (set_offset (u32 (offset_lo h + slice)) h) o k) as (q & -> & Hq) end.
    + apply Hw.
    + cbn. apply lookup_insert_eq.
    + apply set_offset_ok; [apply u32_range|done].
    + apply u32_range.
    + cbn. apply fo_seqno, Hw.
    + cbn [mbind option_bind Z.eqb negb]. apply safe_some.
      eapply (update_kept _ _ op _ Hw Hin); try done; [cbn; by rewrite update_op_twice|].
      exists p. split; [done|]. cbn. rewrite Hcb. split; [done|]. split; [done|].
      exists (n + slice). rewrite Z.add_assoc. split; [done|lia].
Qed.

(** An answer that is longer by a byte is written behind the buffer. *)
Lemma read_overruns s op p msg data n :
  working s → packets s !! input_packet op = Some p → reading op p n →
  body msg = read_file_answer data → wf_array data → bytes_left op p + 4096 < na_length data →
  complete_read s op msg = None.
Proof.
  intros Hw Hp Hread Hb [Ha Hsz] Hlong. rewrite (reading_left _ _ _ Hread) in Hlong.
  destruct Hread as (Ht & Hd & Hn). unfold complete_read. rewrite Hp, Hb. cbn [mbind option_bind].
  destruct (HANDLE_FROM_LOCK s (dp_Arg1 p)) as [hd|]; [|done]. cbn [mbind option_bind]. rewrite Hd.
  unfold readop_bytes_read. rewrite Hd. cbn [mbind option_bind detail set_op_detail].
  pose proof (u32_range (dp_Arg3 p)) as Hwant. unfold is_u32 in Hwant.
  replace (dp_Arg2 p + n - dp_Arg2 p) with n by lia.
  rewrite (u32_id n) by (unfold is_u32; lia). rewrite (u32_id (u32 _ - n)) by (unfold is_u32; lia).
  rewrite Z.min_l by lia. destruct (copy_to_client _ _ _ _) as [s1|] eqn:E; [|done].
  cbn [mbind option_bind].
  assert (chandles s1 = chandles s) as -> by (by apply copy_core in E as (_ & ? & _)).
  destruct (chandles s !! hd) as [h|] eqn:Hh; [|done]. cbn [mbind option_bind].
  replace (dp_Arg2 p + n + (u32 (dp_Arg3 p) - n) - dp_Arg2 p) with (u32 (dp_Arg3 p)) by lia.
  rewrite (u32_id (u32 (dp_Arg3 p))) by (unfold is_u32; lia). rewrite Z.eqb_refl. cbn [orb].
  set (extra := u32 (na_length data - _)).
  assert (4096 < extra) by (subst extra; rewrite u32_id by (unfold is_u32; lia); lia).
  rewrite length_drop. destruct (Z.ltb_spec (Z.of_nat (length (na_base data) - Z.to_nat (u32 (dp_Arg3 p) - n))) extra);
    [done|].
  pose proof (ch_buffer _ (fo_handles _ (wk_types _ Hw) _ _ Hh)) as Hbuf.
  unfold put_bytes. cbn [h_buffer set_offset]. by rewrite decide_False
    by (rewrite length_take, length_drop; lia).
Qed.

(** *** Writes *)
Lemma write_completed s op p msg n len :
  completing s op p → callback op = complete_write_cb →
  expected_answer_type op = RL_MSG_WRITE_FILE_ANSWER → dp_Type p = ACTION_WRITE →
  detail op = D_write (dp_Arg2 p + n) len → 0 <= n → 0 <= len → safe s (complete_write s op msg).
Proof.
  intros Hc Hcb Hexp Ht Hd Hn Hlen. pose proof Hc as [Hw Hin Hp Hops].
  destruct (op_write _ _ Hops Ht) as [H0 Ha].
  unfold complete_write. rewrite Hp. cbn [mbind option_bind].
  destruct (completing_handle _ _ _ (dp_Arg1 p) Hc) as (hd & h & -> & Hh & Hhok);
    [apply Hops; rewrite Ht; set_solver|].
  cbn [mbind option_bind]. rewrite Hd.
  destruct (Z.ltb_spec (dp_Arg2 p + n + len) (dp_Arg2 p + dp_Arg3 p)) as [Hlt|Hge].
  - set (count := Z.min _ 4096). rewrite (u32_id count) by (unfold is_u32; lia).
    set (s1 := set_seqno _ _).
    assert (∃ o, get_op (pending s1) (op_addr op) = Some o ∧ is_u32 (request_seqno o)) as (o & Ho & Hoq).
    { cbn. pose proof (fo_seqno _ (wk_types _ Hw)) as Hq. clear -Hin Hq. induction (pending s) as [|x l IH];
        [by apply not_elem_of_nil in Hin|]. cbn. destruct (op_addr x =? op_addr op) eqn:E; cbn; rewrite E.
      - by eexists.
      - apply elem_of_cons in Hin as [->|Hin]; [by rewrite Z.eqb_refl in E|by apply IH]. }
    destruct (write_transmits s1 hd h (op_addr op) o (dp_Arg2 p + n + len) count) as (q & -> & Hq);
      [apply Hw|done|done|done|done| |lia|].
    { cbn. rewrite <- Z.add_assoc. eapply allocated_sub; [exact Ha|lia..]. }
    cbn [mbind option_bind Z.eqb negb]. apply safe_some.
    eapply (update_kept _ _ op _ Hw Hin); try done; [cbn; by rewrite update_op_twice|].
    exists p. split; [done|]. cbn. rewrite Hcb. split; [done|]. split; [done|].
    exists (n + len), count. rewrite Z.add_assoc. split; [done|lia].
  - apply safe_unlinked. by eapply safe_answer.
Qed.

(** *** Every message *)
Lemma callback_completed_ok s op p msg :
  completing s op p → op_ok (packets s) op → wf_msg msg → rl_msg_kind_of msg = expected_answer_type op →
  (∀ data, body msg = read_file_answer data → na_length data <= bytes_left op p + 4096) →
  safe s (run_callback (callback op) s op msg).
Proof.
  intros Hc (p' & Hp' & Hop) [Hty _ _ Hb] Hk Hfit. pose proof (cp_packet _ _ _ Hc) as Hp. simplify_eq.
  unfold rl_msg_kind_of in Hk. rewrite Hty in Hk. destruct (callback op) eqn:Hcb; cbn [run_callback].
  - destruct Hop as [Ht He]. rewrite He in Hk. destruct (body msg) eqn:E; try done.
    eapply findinput_completed; [done|done|exact E|by rewrite E].
  - destruct Hop as [Ht He]. rewrite He in Hk. destruct (body msg) eqn:E; try done.
    eapply examine_completed; [done|done|exact E|by rewrite E].
  - destruct Hop as [Ht He]. rewrite He in Hk. destruct (body msg) eqn:E; try done.
    by eapply locate_completed.
  - destruct Hop as (Ht & He & n & Hd & Hn). rewrite He in Hk. destruct (body msg) eqn:E; try done.
    eapply read_completed; [done|done|done|by split|exact E|done|by apply Hfit].
  - destruct Hop as (Ht & He & n & len & Hd & Hn & Hl). by eapply write_completed.
Qed.

Lemma message_completed s msg :
  working s → message_ok s msg → safe s ('(s, _) ← rl_amigafs_process_network_message s msg; Some s).
Proof.
  intros Hw [Hwf Hm]. unfold rl_amigafs_process_network_message.
  destruct (find_pending_op s msg) as [op|] eqn:Hop; [|by apply safe_some].
  pose proof (find_op_In _ _ _ Hop) as Hin.
  pose proof (proj1 (Forall_forall _ _) (wk_ops _ Hw) _ Hin) as Hok.
  pose proof Hok as (p & Hp & _). destruct (Hm _ _ eq_refl Hp) as [Hops Hfit].
  assert (Hc : completing s op p) by by split.
  destruct (Z.eqb_spec (rl_msg_kind_of msg) (expected_answer_type op)) as [Hk|Hk].
  { destruct (callback_completed_ok s op p msg Hc Hok Hwf Hk Hfit) as (s' & -> & Hs').
    by apply safe_some. }
  assert (Hanswer : ∀ r1 r2 rc, safe s ('(s', _) ←
      (s' ← answer_packet s (input_packet op) r1 r2; Some (unlink_pending s' (op_addr op), rc : Z));
      Some s')).
  { intros r1 r2 rc. destruct (safe_unlinked s (answer_packet s (input_packet op) r1 r2) (op_addr op))
      as (s' & E & Hs'); [by eapply safe_answer|].
    destruct (answer_packet s (input_packet op) r1 r2); [|done]. by exists s'. }
  destruct (Z.eqb_spec (rl_msg_kind_of msg) RL_MSG_ERROR_ANSWER) as [He|He]; [|apply Hanswer].
  unfold rl_msg_kind_of in He. rewrite (wf_type _ Hwf) in He.
  destruct (body msg); first [discriminate He | apply Hanswer].
Qed.

(** ** Runs *)
Lemma working_kept s s' : working s → fsys_ok s' → kept s s' → working s'.
Proof.
  intros [_ Hl Ho Hn] Hok [Ha Hl' Hd _ Ho']. split; [done|auto| |by rewrite Hd].
  apply Forall_forall. intros op [H|H]%Ho'; [|done]. rewrite Forall_forall in Ho.
  eapply op_ok_kept; [exact Ha|by apply Ho].
Qed.

(** The packet of a client is put into memory that no pending packet uses. *)
Lemma working_sent s pk p :
  working s → pk ∉ pending_packets s → working (set_packets (<[pk := p]> (packets s)) s).
Proof.
  intros [Hok Hl Ho Hn] Hpk. split; [by apply (core_ok s)|done| |done].
  apply Forall_forall. cbn. intros op Hop. rewrite Forall_forall in Ho.
  destruct (Ho _ Hop) as (p' & Hp' & H). exists p'. split; [|done].
  rewrite lookup_insert_ne; [done|]. intros ->. apply Hpk. unfold pending_packets.
  by apply list_elem_of_fmap_2.
Qed.

Lemma step_works s e : working s → event_ok s e → ∃ s', fs_step s e = Some s' ∧ working s'.
Proof.
  intros Hw He. destruct e as [pk p|msg]; cbn in He |- *.
  - destruct He as (Hpk & Hops & Hroot). pose proof (working_sent _ _ p Hw Hpk) as Hw1.
    destruct (packet_served (set_packets (<[pk := p]> (packets s)) s) pk p) as (s' & E & Hk);
      [done|apply lookup_insert_eq|by destruct Hops|done|].
    exists s'. split; [done|]. eapply working_kept; [exact Hw1| |done].
    eapply process_fs_packet_typed; [exact E|apply Hw1].
  - destruct (message_completed s msg Hw He) as (s' & E & Hk). exists s'. split; [done|].
    eapply working_kept; [exact Hw| |done].
    apply bind_Some in E as ([s1 rc] & E & [= ->]).
    eapply network_message_typed; [exact E|apply He|apply Hw].
Qed.

Lemma run_works events s : working s → run_ok events s → ∃ s', fs_run events s = Some s' ∧ working s'.
Proof.
  revert s. induction events as [|e events IH]; intros s Hw Hr; [by exists s|].
  destruct Hr as [He Hr]. destruct (step_works s e Hw He) as (s1 & E & Hw1).
  cbn [fs_run]. rewrite E. by apply IH, Hr.
Qed.

(** The packets that wait at a port, already in the memory of the clients. *)
Definition packet_there s (pk : Z) : Prop :=
  ∃ p, packets s !! pk = Some p ∧ operands s p ∧
  (dp_Type p = ACTION_LOCATE_OBJECT →
   normalize_object_path s RL_AMIGA_PATH_MAX (BCPL_CAST (dp_Arg1 p)) (BCPL_CAST (dp_Arg2 p)) =
     Some [] → is_Some (pool_alloc (used s))).

Fixpoint queue_ok (queue : list Z) s : Prop :=
  match queue with
  | [] => True
  | pk :: queue =>
      packet_there s pk ∧ ∀ s', process_fs_packet s pk = Some s' → queue_ok queue s'
  end.

Lemma queue_served queue s :
  working s → queue_ok queue s →
  ∃ s', rl_amigafs_process_device_message queue s = Some s' ∧ working s' ∧
    device_list s' = device_list s ∧ device_port s' = device_port s.
Proof.
  revert s. induction queue as [|pk queue IH]; intros s Hw Hq; [by exists s|].
  destruct Hq as [(p & Hp & Hops & Hroot) Hq].
  destruct (packet_served s pk p Hw Hp Hops Hroot) as (s1 & E & Hk).
  assert (Hw1 : working s1).
  { eapply working_kept; [exact Hw| |exact Hk]. eapply process_fs_packet_typed; [exact E|apply Hw]. }
  destruct (IH s1 Hw1 (Hq _ E)) as (s' & E' & Hw' & Hl & Hport).
  exists s'. cbn [rl_amigafs_process_device_message]. rewrite E. split; [done|]. split; [done|].
  by rewrite Hl, Hport, (kp_list _ _ Hk), (kp_port _ _ Hk).
Qed.

Context {D : Type} `{DOS : Dos D} (no_peer : P).

Lemma init_works fuel s0 d (q : P) name s d' :
  locks s0 = ∅ → chandles s0 = ∅ → no_nul name → (length name ≤ 107)%nat → link_up q →
  rl_amigafs_init no_peer fuel s0 d q name = Some (s, d', 0) → working s.
Proof.
  intros Hl Hc Hn Hlen Hq Hi. pose proof (init_typed _ _ _ _ _ _ _ _ Hl Hc Hn Hi) as Hok.
  revert Hi. unfold rl_amigafs_init. intros ([path rc] & _ & H)%bind_Some.
  destruct (CreateMsgPort d) as [d1 port]. destruct (port =? 0); [by destruct (rl_amigafs_destroy _ _ _)|].
  apply bind_Some in H as ([d2 volume] & Hm & H).
  destruct (dl_address volume =? 0) eqn:E0; [by destruct (rl_amigafs_destroy _ _ _)|]. injection H as <- _.
  split; [done|done|constructor|]. exists name. split; [|done]. cbn. revert Hm. unfold mount_volume.
  destruct (port =? 0); [by intros [= _ <-]|]. intros (d3 & _ & Hm)%bind_Some.
  destruct (negb _); [by injection Hm as _ <-|]. destruct (MakeDosEntry _ _) as [d4 a].
  destruct (a =? 0); [by injection Hm as _ <-|]. by apply bind_Some in Hm as (d5 & _ & [= _ <-]).
Qed.

End Contract.

(** ** A concrete run *)

(** RL:a is opened and read, and the answer holds more than was asked for. *)
Definition demo_opened : event :=
  ev_message (RL_MSG_INIT (open_handle_answer 3 5 RL_NODE_TYPE_FILE) 0).
Definition demo_asks : DosPacket := Packet ACTION_READ 72 1000 4 0 0 0 5000.
Definition demo_bytes : event :=
  ev_message (RL_MSG_INIT (read_file_answer (NetArray (chars "text and more") 13)) 1).
Definition demo_traffic : list event :=
  [ev_packet 500 demo_find; demo_opened; ev_packet 504 demo_asks; demo_bytes].

#[local] Existing Instance demo_host.
#[local] Existing Instance bump_pool.
#[local] Existing Instance log_link.

Definition demo_step (s : fsys (list rl_msg)) (e : event) : fsys (list rl_msg) :=
  default s (fs_step s e).
Definition demo_1 := demo_step demo_mounted (ev_packet 500 demo_find).
Definition demo_2 := demo_step demo_1 demo_opened.
Definition demo_3 := demo_step demo_2 (ev_packet 504 demo_asks).
Definition demo_typed := demo_step demo_3 demo_bytes.

Lemma run_ok_step (s : fsys (list rl_msg)) e events :
  event_ok s e → run_ok events (demo_step s e) → run_ok (e :: events) s.
Proof. intros He Hr. split; [done|]. intros s' E. unfold demo_step in Hr. by rewrite E in Hr. Qed.

Lemma demo_name {P} (s : fsys P) :
  mem s = mem demo_mounted → fhs s !! 1200 ≠ None → operands s demo_find.
Proof.
  intros Hm Hf. split; cbn; intros H; try (exfalso; revert H; apply (bool_decide_unpack (¬ _)); by vm_compute).
  split; [|destruct (fhs s !! _) eqn:E in Hf |- *; [by eexists|done]].
  rewrite Hm. exists (chars "RL:a"). split; [by vm_compute|cbn; lia].
Qed.

Lemma demo_buffer (s : fsys (list rl_msg)) :
  mem s = mem demo_mounted → locks s !! 72 ≠ None → operands s demo_asks.
Proof.
  intros Hm Hl. split; cbn; intros H; try (exfalso; revert H; apply (bool_decide_unpack (¬ _)); by vm_compute).
  - unfold live. cbn. destruct (locks s !! 72); [by eexists|done].
  - rewrite Hm. change (u32 4) with 4. intros i Hi.
    assert (i = 0 ∨ i = 1 ∨ i = 2 ∨ i = 3) as [-> | [-> | [-> | ->]]] by lia;
      eexists; vm_compute; reflexivity.
Qed.

Lemma demo_traffic_ok : run_ok demo_traffic demo_mounted.
Proof.
  unfold demo_traffic. apply run_ok_step; [|apply run_ok_step; [|apply run_ok_step; [|apply run_ok_step]]];
    fold demo_1 demo_2 demo_3 demo_typed; [..|done].
  - split; [apply (bool_decide_unpack _); by vm_compute|]. split; [by apply demo_name; vm_compute|done].
  - split; [by split; vm_compute|]. intros op p Hop Hp. vm_compute in Hop. injection Hop as <-.
    vm_compute in Hp. injection Hp as <-. split; [by apply demo_name; vm_compute|done].
  - split; [apply (bool_decide_unpack _); by vm_compute|]. split; [by apply demo_buffer; vm_compute|done].
  - split; [split; by vm_compute|]. intros op p Hop Hp. vm_compute in Hop. injection Hop as <-.
    vm_compute in Hp. injection Hp as <-. split; [by apply demo_buffer; vm_compute|].
    intros data [= <-]. by vm_compute.
Qed.

