(* ===== verification/ServerLink.v ===== *)
(** * ServerLink: the file server does not depend on its link

    The file server over the recording link and over any other: it sends at
    most one answer, the same one, and does the same to the controller and the
    operating system.  Messages that differ only in where their arrays lie are
    served alike. *)

From S2P Require Import Prelude Wire Messages CString Format Transport Peer FileServer.

Section Server.
Context `{HHost : Host} {P : Type} `{Link : PeerLink P} {O : Type} `{OS : Posix O}.
Context (rl_log_bits : Z).
#[local] Existing Instance log_link.
Implicit Types (c : rl_controller) (o : O) (msg : rl_msg).

(** What a handler does over the recording link, [rl], and over this one. *)
Definition same_answer c (r : P → option (server_result (P := P) (O := O)))
    (rl : option (server_result (P := list rl_msg) (O := O))) : Prop :=
  ∀ out c' o' rc, rl = Some (out, c', o', rc) →
  ctl_state c' = ctl_state c ∧ executable c' = executable c ∧ arguments c' = arguments c ∧
  ((out = [] ∧ ∀ p, r p = Some (p, c', o', rc)) ∨
   ∃ ans, out = [ans] ∧ ∀ p p', transmit p ans = Some (p', 0) → r p = Some (p', c', o', rc)).

(** A controller that still is what it was apart from its handles. *)
Definition same_controller c c' : Prop :=
  ctl_state c' = ctl_state c ∧ executable c' = executable c ∧ arguments c' = arguments c.

Lemma update_same c c' h f : same_controller c c' → same_controller c (update_handle c' h f).
Proof. by destruct c', h. Qed.

Lemma reply_same c c' o' msg b :
  same_controller c c' → same_answer c (λ p, reply p c' o' msg b) (reply [] c' o' msg b).
Proof.
  intros (? & ? & ?) out c1 o1 rc [= <- <- <- <-]. split_and!; [done..|]. right. eexists.
  split; [done|]. unfold reply. by intros p p' ->.
Qed.

Lemma reply_error_same c c' o' msg code :
  same_controller c c' →
  same_answer c (λ p, reply_error p c' o' msg code) (reply_error [] c' o' msg code).
Proof.
  intros (? & ? & ?) out c1 o1 rc [= <- <- <- <-]. split_and!; [done..|]. right. eexists.
  split; [done|]. unfold reply_error, reply_with_error. by intros p p' ->.
Qed.

Lemma no_answer_same c c' o' :
  same_controller c c' →
  same_answer c (λ p, Some (p, c', o', 0)) (Some ([], c', o', 0)).
Proof. intros (? & ? & ?) out c1 o1 rc [= <- <- <- <-]. split_and!; [done..|]. by left. Qed.

Lemma drop_rc_same c r rl :
  same_answer c r rl →
  same_answer c (λ p, '(p, c, o, _) ← r p; Some (p, c, o, 0))
    ('(p, c, o, _) ← rl; Some (p, c, o, 0)).
Proof.
  intros H out c' o' rc. destruct rl as [[[[out1 c1] o1] rc1]|]; [|done].
  intros [= <- <- <- <-]. destruct (H _ _ _ _ eq_refl) as (? & ? & ? & Hr).
  split_and!; [done..|]. destruct Hr as [[-> Hr]|(ans & -> & Hr)]; [left|right; exists ans];
    (split; [done|]).
  - intros p. by rewrite (Hr p).
  - intros p p' Ht. by rewrite (Hr p p' Ht).
Qed.

Lemma reply_drop_same c c' o' msg b :
  same_controller c c' →
  same_answer c (λ p, '(p, c, o, _) ← reply p c' o' msg b; Some (p, c, o, 0))
    ('(p, c, o, _) ← reply [] c' o' msg b; Some (p, c, o, 0)).
Proof. intros. by apply drop_rc_same, reply_same. Qed.

Lemma undefined_same c r : same_answer c r None.
Proof. by intros ????. Qed.

Lemma make_handle_same c o path mode c' o' r :
  make_handle c o path mode = Some (c', o', r) → same_controller c c'.
Proof.
  unfold make_handle. intros (text & _ & H)%bind_Some.
  assert (Hc : same_controller c c) by done.
  destruct (find_slot (handles c)) as [i|]; [|by injection H as <- _ _].
  apply bind_Some in H as (slot & _ & H).
  assert (Hdone : ∀ s o1, ('(mem, _) ← rl_string_copy 260 (native_path s) (text ++ [0]);
     Some (update_handle c (H_slot i) (set_path mem s), o1, inr (A := Z) i)) = Some (c', o', r) →
     same_controller c c').
  { intros s o1 ([mem rc] & _ & [= <- _ _])%bind_Some. by apply update_same. }
  repeat first
    [ by eapply Hdone
    | by injection H as <- _ _; apply update_same
    | by apply update_same
    | case_match; simplify_eq ].
Qed.

#[local] Hint Resolve update_same : same.
#[local] Hint Extern 1 (same_controller _ _) => done : same.
#[local] Hint Extern 2 (same_answer _ _ _) =>
  first [apply undefined_same | apply reply_drop_same | apply reply_same | apply reply_error_same | apply no_answer_same]
  : same.

(** Case analysis on what both runs look at. *)
Ltac same_cases :=
  repeat first
    [ solve [auto with same]
    | match goal with
      | |- same_answer _ _ (match ?x with _ => _ end) => destruct x eqn:?
      | |- same_answer _ _ (mbind _ ?x) => destruct x as [?|] eqn:?; cbn [mbind option_bind]
      end ].

Lemma open_same c o msg :
  same_answer c (λ p, open_handle_request_ p c o msg) (open_handle_request_ [] c o msg).
Proof.
  unfold open_handle_request_. destruct (body msg); try apply undefined_same.
  destruct (make_handle c o path (s32 mode)) as [[[c1 o1] r]|] eqn:E; [|apply undefined_same].
  apply make_handle_same in E. cbn [mbind option_bind]. destruct r as [code|i];
    [by apply reply_error_same|].
  destruct (handles c1 !! i); [|apply undefined_same]. by apply reply_same.
Qed.

Lemma close_same c o msg :
  same_answer c (λ p, close_handle_request_ p c o msg) (close_handle_request_ [] c o msg).
Proof.
  unfold close_handle_request_. destruct (body msg); try apply undefined_same. same_cases.
Qed.

Lemma read_same c o msg :
  same_answer c (λ p, read_file_request_ p c o msg) (read_file_request_ [] c o msg).
Proof.
  unfold read_file_request_. destruct (body msg); try apply undefined_same. same_cases.
Qed.

Lemma write_same c o msg :
  same_answer c (λ p, write_file_request_ rl_log_bits p c o msg)
    (write_file_request_ rl_log_bits [] c o msg).
Proof.
  unfold write_file_request_. destruct (body msg); try apply undefined_same. cbv zeta. same_cases.
Qed.

Lemma find_next_same c o msg :
  same_answer c (λ p, find_next_file_request_ p c o msg) (find_next_file_request_ [] c o msg).
Proof.
  unfold find_next_file_request_. destruct (body msg); try apply undefined_same. cbv zeta.
  same_cases.
Qed.

(** One message or none, and the same effect. *)
Lemma serve_same c o msg :
  same_answer c (λ p, rl_file_serve rl_log_bits p c o msg) (rl_file_serve rl_log_bits [] c o msg).
Proof.
  unfold rl_file_serve. cbv zeta. apply drop_rc_same.
  destruct (_ =? RL_MSG_READ_FILE_REQUEST); [apply read_same|].
  destruct (_ =? RL_MSG_WRITE_FILE_REQUEST); [apply write_same|].
  destruct (_ =? RL_MSG_OPEN_HANDLE_REQUEST); [apply open_same|].
  destruct (_ =? RL_MSG_CLOSE_HANDLE_REQUEST); [apply close_same|].
  destruct (_ =? RL_MSG_FIND_NEXT_FILE_REQUEST); [apply find_next_same|].
  by apply reply_same.
Qed.
End Server.

(** ** Messages that lie elsewhere *)
Lemma serve_equiv `{HHost : Host} {P} `{Link : PeerLink P} {O} `{OS : Posix O} bits p c o msg msg' :
  hdr_type msg' = hdr_type msg → hdr_seq msg' = hdr_seq msg → body msg' ≡ body msg →
  rl_file_serve bits p c o msg' = rl_file_serve bits p c o msg.
Proof.
  intros Ht Hs Hb. unfold rl_file_serve, rl_msg_kind_of. rewrite Ht.
  unfold read_file_request_, write_file_request_, open_handle_request_, close_handle_request_,
    find_next_file_request_, reply, reply_error, reply_with_error. rewrite Hs.
  unfold equiv, body_equiv in Hb.
  destruct (body msg), (body msg'); simplify_eq; try done.
  destruct Hb as [-> [_ Hb]]. by rewrite Hb.
Qed.
