(* ===== verification/Controller.v ===== *)
(** * Controller: the program on the development host (controller.c)

    The callbacks of the controller's peer, the command line and its grammar, the
    set-up of the file server and the loop that drives the peer.
    [connect_to_target], which gives the peer, and [main] are in Programs. *)

From S2P Require Import Prelude Wire Messages CString Format Transport Peer FileServer.

Definition set_ctl_state (s : controller_state) (c : rl_controller) : rl_controller :=
  Controller s (root_handle c) (vinput_handle c) (voutput_handle c) (handles c) (executable c)
    (arguments c) (result c).
Definition set_result (r : Z) (c : rl_controller) : rl_controller :=
  Controller (ctl_state c) (root_handle c) (vinput_handle c) (voutput_handle c) (handles c)
    (executable c) (arguments c) r.

(** ** The callbacks of the peer *)
Section Callbacks.
Context `{HHost : Host} {P : Type} `{Link : PeerLink P} {O : Type} `{OS : FileServer.Posix O}.
Context (rl_log_bits : Z).

(** The loop that joins the arguments; [p] is the index of the cursor in the
    array of 256 bytes. *)
Fixpoint format_arguments (args : list (list Z)) (i : nat) (arguments : list Z) (p : nat)
  : option (list Z * nat) :=
  let p_max := 255%nat in
  match args with
  | [] => Some (arguments, p)
  | a :: args =>
      if (p <? p_max)%nat then
        '(tail, n) ← rl_format_msg word_bits is_amiga (drop p arguments) (p_max - p)
                       (if (0 <? i)%nat then cstr " %s" else cstr "%s") [VStr (a ++ [0])];
        format_arguments args (S i) (take p arguments ++ tail) (p + n)
      else Some (arguments, p)
  end.

Definition on_connected_ (peer : P) (self : rl_controller) : option (P * rl_controller * Z) :=
  '(buf, p) ← format_arguments (arguments self) 0 (replicate 256 0) 0;
  buf ← store_byte buf p 0;
  text ← cstr_at buf;
  '(peer, rc) ← transmit peer
    (RL_MSG_INIT (launch_executable_request (executable self) text) 0);
  if rc =? 0 then Some (peer, set_ctl_state CONTROLLER_WAIT_EXECUTABLE_LAUNCHED self, 0)
  else Some (peer, set_ctl_state CONTROLLER_ERROR self, 1).

Definition on_message_received_ (peer : P) (self : rl_controller) (o : O) (msg : rl_msg)
  : option (P * rl_controller * O * Z) :=
  match ctl_state self with
  | CONTROLLER_FILE_SERVING | CONTROLLER_WAIT_EXECUTABLE_LAUNCHED =>
      if rl_msg_kind_of msg =? RL_MSG_LAUNCH_EXECUTABLE_ANSWER
      then Some (peer, set_ctl_state CONTROLLER_FILE_SERVING self, o, 0)
      else if rl_msg_kind_of msg =? RL_MSG_EXECUTABLE_DONE_REQUEST then
        match body msg with
        | executable_done_request result_code =>
            Some (peer, set_result (s32 result_code) self, o, 1)
        | _ => None
        end
      else
        '(peer, self, o, _) ← rl_file_serve rl_log_bits peer self o msg;
        Some (peer, self, o, 0)
  | _ => Some (peer, set_ctl_state CONTROLLER_ERROR self, o, 0)
  end.
End Callbacks.

(** ** The command line *)
Record options := Options {
  opt_done : bool;
  opt_fsroot : list Z;
  opt_port : list Z;
  opt_log_bits : Z;
  opt_hostname : option (list Z);
  opt_executable : option (list Z);
  opt_arguments : list (list Z)
}.

Definition RL_MAX_ARGUMENTS : nat := 16.

Definition default_options (rl_log_bits : Z) : options :=
  Options false [] (chars "7001") rl_log_bits None None [].

(** The loop over [argv]; [Some None] is the exit with the usage text. *)
Fixpoint parse_options (argv : list (list Z)) (o : options) : option (option options) :=
  match argv with
  | [] => Some (Some o)
  | this_arg :: rest =>
      let next_arg := default [] (head rest) in
      if negb (opt_done o) && bool_decide (this_arg = chars "-fsroot") then
        let o := Options (opt_done o) next_arg (opt_port o) (opt_log_bits o) (opt_hostname o)
                   (opt_executable o) (opt_arguments o) in
        match rest with [] => Some (Some o) | _ :: rest => parse_options rest o end
      else if negb (opt_done o) && bool_decide (this_arg = chars "-port") then
        let o := Options (opt_done o) (opt_fsroot o) next_arg (opt_log_bits o) (opt_hostname o)
                   (opt_executable o) (opt_arguments o) in
        match rest with [] => Some (Some o) | _ :: rest => parse_options rest o end
      else if negb (opt_done o) && bool_decide (this_arg = chars "-log") then
        bits ← rl_toggle_log_bits (next_arg ++ [0]) (opt_log_bits o);
        let o := Options (opt_done o) (opt_fsroot o) (opt_port o) bits (opt_hostname o)
                   (opt_executable o) (opt_arguments o) in
        match rest with [] => Some (Some o) | _ :: rest => parse_options rest o end
      else
        match opt_hostname o, opt_executable o with
        | None, _ =>
            parse_options rest
              (Options true (opt_fsroot o) (opt_port o) (opt_log_bits o) (Some this_arg)
                 (opt_executable o) (opt_arguments o))
        | Some _, None =>
            parse_options rest
              (Options true (opt_fsroot o) (opt_port o) (opt_log_bits o) (opt_hostname o)
                 (Some this_arg) (opt_arguments o))
        | Some _, Some _ =>
            if opt_done o && (length (opt_arguments o) <? RL_MAX_ARGUMENTS)%nat then
              parse_options rest
                (Options (opt_done o) (opt_fsroot o) (opt_port o) (opt_log_bits o)
                   (opt_hostname o) (opt_executable o) (opt_arguments o ++ [this_arg]))
            else Some None
        end
  end.

(** ** Set-up of the file server *)
Definition NATIVE_PATH_TERMINATOR : Z := 47.
Definition native_path_size : nat := 260.
Definition zero_handle : rl_filehandle := FileHandle 0 None (replicate native_path_size 0) 0 0.

(** The root path without the separator at its end. *)
Definition strip_terminator (native_path : list Z) : option (list Z) :=
  dirlen ← rl_strlen native_path;
  match dirlen with
  | O => Some native_path
  | S last =>
      if bool_decide (native_path !! last = Some NATIVE_PATH_TERMINATOR)
      then store_byte native_path last 0 else Some native_path
  end.

(** [getcwd] gives the working directory; when it fails the contents of the
    array are unspecified. *)
Definition setup (getcwd : option (list Z)) (fsroot executable : list Z)
    (arguments : list (list Z)) : option rl_controller :=
  let zero := replicate native_path_size 0 in
  root ← (match fsroot with
          | _ :: _ => '(m, _) ← rl_string_copy native_path_size zero (fsroot ++ [0]); Some m
          | [] =>
              cwd ← getcwd;
              if (length cwd <? native_path_size)%nat then put_bytes zero 0 (cwd ++ [0]) else None
          end);
  root ← strip_terminator root;
  '(vin, _) ← rl_string_copy native_path_size zero (cstr "(virtual input)");
  '(vout, _) ← rl_string_copy native_path_size zero (cstr "(virtual output)");
  Some (Controller CONTROLLER_INITIAL
          (FileHandle 0 None root RL_NODE_TYPE_DIRECTORY 0)
          (FileHandle 0 None vin RL_NODE_TYPE_FILE 0)
          (FileHandle 1 None vout RL_NODE_TYPE_FILE 0)
          (replicate RL_MAX_FILE_HANDLES zero_handle) executable arguments 0).

(** ** The main loop *)
Section Pump.
Context `{HHost : Host} `{Alloc : Allocator} {O : Type} `{OS : FileServer.Posix O}
  {S : Type} `{Sock : Socket S}.
Context (rl_log_bits : Z) (time : O → O * Z).

(** The file server talks through the peer that owns it. *)
#[local] Existing Instance peer_link.

Definition world : Type := rl_controller * O.

Definition controller_callbacks : PeerCallbacks world := {|
  on_message p w m :=
    '(p, c, o, rc) ← on_message_received_ (Link := peer_link []) rl_log_bits p w.1 w.2 m;
    Some (p, (c, o), rc);
  on_connected p w :=
    '(p, c, rc) ← on_connected_ (Link := peer_link []) p w.1; Some (p, (c, w.2), rc);
  rl_time w := let '(o, t) := time w.2 in ((w.1, o), t)
|}.

Inductive pump_result := pump_running | pump_failed | pump_finished.

(** Each element is what one call of [select] returns: failure, or whether
    the socket is ready for reading and for writing.  A descriptor that is
    not in the set for writing is not reported. *)
Fixpoint pump_peer_state_machine (selects : list (option (bool * bool))) (peer : Peer.peer)
    (w : world) (sock : S) (peer_status : Z) (first_update : bool)
  : option (Peer.peer * world * S * pump_result) :=
  match selects with
  | [] => Some (peer, w, sock, pump_running)
  | None :: _ => Some (peer, w, sock, pump_failed)
  | Some (can_read, can_write) :: selects =>
      let output_set :=
        first_update || negb (Z.land PEER_STATUS_NEED_OUTPUT peer_status =? 0) in
      '(peer, w, sock, peer_status) ←
        peer_update (CB := controller_callbacks) peer w sock can_read (output_set && can_write);
      if Z.land PEER_STATUS_REMOVE_ME peer_status =? 0
      then pump_peer_state_machine selects peer w sock peer_status false
      else Some (peer, w, sock, pump_finished)
  end.
End Pump.

(** ** The argument string *)

(** The arguments with blanks between them. *)
Fixpoint args_text (first : bool) (args : list (list Z)) : list Z :=
  match args with
  | [] => []
  | a :: args => (if first then a else 32 :: a) ++ args_text false args
  end.

Section Arguments.
Context `{HHost : Host}.

Lemma take_take_app {A} n (l k : list A) : take n (take n l ++ k) = take n (l ++ k).
Proof.
  destruct (decide (n ≤ length l)%nat).
  - rewrite !take_app_le by (rewrite ?length_take; lia). rewrite take_take. f_equal. lia.
  - by rewrite (take_ge l) by lia.
Qed.

Lemma format_arguments_spec args i buf p :
  Forall no_nul args → length buf = 256%nat → (p ≤ 254)%nat →
  ∃ buf' p', format_arguments args i buf p = Some (buf', p') ∧ length buf' = 256%nat ∧
    (p' ≤ 254)%nat ∧ take p' buf' = take 254 (take p buf ++ args_text (i =? 0)%nat args).
Proof.
  revert i buf p. induction args as [|a args IH]; intros i buf p Hn Hl Hp; cbn [format_arguments].
  { exists buf, p. split; [done|]. split; [done|]. split; [done|]. cbn [args_text].
    by rewrite app_nil_r, take_take, Nat.min_r by lia. }
  apply Forall_cons in Hn as [Ha Hn]. destruct (Nat.ltb_spec p 255); [|lia].
  set (t := if (i =? 0)%nat then a else 32 :: a).
  rewrite (rl_format_msg_ok _ _ _ _ _ _ t).
  2: { unfold t. destruct i; cbn [Nat.ltb Nat.leb Nat.eqb];
       [apply render_s|apply (render_char_s _ _ 32); [done..|]]; by apply cstr_at_app. }
  2: llen.
  cbn [mbind option_bind]. set (out := take (255 - p - 1) t).
  assert (Hout : (length out ≤ 254 - p)%nat) by (unfold out; rewrite length_take; lia).
  destruct (IH (S i) (take p buf ++ out ++ 0 :: drop (length out + 1) (drop p buf)) (p + length out)%nat)
    as (buf' & p' & He & Hl' & Hp' & Ht); [done| |lia|].
  { rewrite !length_app, length_take. cbn [length]. rewrite !length_drop. lia. }
  exists buf', p'. split; [done|]. do 2 (split; [done|]). rewrite Ht. cbn [args_text Nat.eqb].
  fold t. rewrite (app_assoc (take p buf) out).
  assert (Hlen : length (take p buf ++ out) = (p + length out)%nat) by llen.
  rewrite <- Hlen at 1. rewrite take_app_length.
  rewrite app_assoc. rewrite <- (take_take_app 254 (take p buf ++ t)). do 2 f_equal.
  rewrite take_app, take_take, length_take. unfold out. f_equal; f_equal; lia.
Qed.
End Arguments.

Lemma args_text_no_nul first args : Forall no_nul args → no_nul (args_text first args).
Proof.
  intros Hn. revert first. induction Hn as [|a args Ha _ IH]; intros first; [constructor|].
  cbn [args_text]. apply Forall_app. split; [|apply IH]. destruct first; [done|].
  by constructor.
Qed.

Section Facts.
Context `{HHost : Host} {P : Type} `{Link : PeerLink P} {O : Type} `{OS : FileServer.Posix O}.
Context (rl_log_bits : Z).
Implicit Types (p : P) (c : rl_controller) (o : O).

(** The request that a connected controller makes. *)
Definition launch_request c : rl_msg :=
  RL_MSG_INIT (launch_executable_request (executable c)
                 (take 254 (args_text true (arguments c)))) 0.

Lemma launch_request_ok c :
  wf_string (executable c) → Forall no_nul (arguments c) → msg_ok (launch_request c).
Proof.
  intros He Ha. unfold launch_request. set (text := take 254 _).
  assert (Hw : wf_string text).
  { split; [by apply Forall_take, args_text_no_nul|unfold text; rewrite length_take; lia]. }
  split.
  - split; cbn; try done.
  - unfold wire_length. cbn [body RL_MSG_INIT body_bytes]. rewrite length_app.
    unfold str_bytes. cbn [length]. rewrite !length_app. cbn [length].
    destruct He, Hw. lia.
Qed.

Lemma on_connected_transmits p c :
  Forall no_nul (arguments c) →
  on_connected_ p c =
    ('(p, rc) ← transmit p (launch_request c);
     if rc =? 0 then Some (p, set_ctl_state CONTROLLER_WAIT_EXECUTABLE_LAUNCHED c, 0)
     else Some (p, set_ctl_state CONTROLLER_ERROR c, 1)).
Proof.
  intros Ha. unfold on_connected_, launch_request.
  destruct (format_arguments_spec (arguments c) 0 (replicate 256 0) 0)
    as (buf & n & -> & Hl & Hn & Ht); [done|done|lia|].
  cbn [mbind option_bind]. rewrite store_byte_Some by lia. cbn [mbind option_bind].
  cbn [take app Nat.eqb] in Ht. set (text := take 254 _) in *.
  assert (Hc : cstr_at (<[n:=0]> buf) = Some text).
  { rewrite <- (take_drop n buf), insert_app_r_alt by llen.
    rewrite length_take_le, Nat.sub_diag by lia.
    destruct (drop n buf) as [|x l] eqn:E.
    { apply (f_equal length) in E. rewrite length_drop in E. cbn in E. lia. }
    cbn [insert list_insert]. rewrite Ht. apply cstr_at_app. unfold text.
    by apply Forall_take, args_text_no_nul. }
  by rewrite Hc.
Qed.

(** Once connected, the controller asks the target to launch its
    executable, with the command line's arguments joined by blanks and cut at
    254 characters, and waits for the launch; or the link is down. *)
Theorem on_connected_spec p c ms :
  link_sent p ms → wf_string (executable c) → Forall no_nul (arguments c) →
  ∃ p', on_connected_ p c =
      Some (p', set_ctl_state CONTROLLER_WAIT_EXECUTABLE_LAUNCHED c, 0) ∧
    (link_sent p' (ms ++ [RL_MSG_INIT (launch_executable_request (executable c)
                            (take 254 (args_text true (arguments c)))) 0]) ∨ link_down p').
Proof.
  intros Hs He Ha. rewrite on_connected_transmits by done.
  destruct (transmit_sent p ms (launch_request c)) as (p' & -> & Hp');
    [done|by apply launch_request_ok|by exists p'].
Qed.

(** C32: the exit code of the program reaches the result of the controller, as
    a signed number, and stops the loop; a launch that succeeded starts file
    serving; everything else that arrives while the program runs is served by
    the file server. *)
Theorem on_message_received_spec p c o msg :
  ctl_state c = CONTROLLER_FILE_SERVING ∨ ctl_state c = CONTROLLER_WAIT_EXECUTABLE_LAUNCHED →
  wf_msg msg →
  match body msg with
  | executable_done_request code =>
      on_message_received_ rl_log_bits p c o msg = Some (p, set_result (s32 code) c, o, 1)
  | launch_executable_answer =>
      on_message_received_ rl_log_bits p c o msg =
        Some (p, set_ctl_state CONTROLLER_FILE_SERVING c, o, 0)
  | _ => on_message_received_ rl_log_bits p c o msg = rl_file_serve rl_log_bits p c o msg
  end.
Proof.
  intros Hst Hm. unfold on_message_received_.
  assert (Hk : rl_msg_kind_of msg = body_kind (body msg)) by apply Hm. rewrite Hk.
  assert (Hz : ∀ r, rl_file_serve rl_log_bits p c o msg = Some r → r.2 = 0).
  { unfold rl_file_serve. intros r (x & _ & H)%bind_Some. destruct x as [[[? ?] ?] ?].
    by injection H as <-. }
  assert (Hf : ('(p1, c1, o1, _) ← rl_file_serve rl_log_bits p c o msg; Some (p1, c1, o1, 0)) =
               rl_file_serve rl_log_bits p c o msg).
  { destruct (rl_file_serve _ _ _ _ _) as [[[[p1 c1] o1] rc]|] eqn:E; [|done].
    cbn. by rewrite <- (Hz _ eq_refl). }
  destruct Hst as [-> | ->]; by destruct (body msg).
Qed.

(** A launch that fails is not noticed: the target's error answer is taken
    for a request, answered with an error of its own, and the controller
    keeps waiting. *)
Theorem launch_failure_ignored p c o ms msg code :
  link_sent p ms → ctl_state c = CONTROLLER_WAIT_EXECUTABLE_LAUNCHED → wf_msg msg →
  body msg = error_answer code →
  ∃ p', on_message_received_ rl_log_bits p c o msg = Some (p', c, o, 0) ∧
    (link_sent p' (ms ++ [RL_MSG_INIT (error_answer RL_NETERR_BAD_REQUEST) (hdr_seq msg)]) ∨
     link_down p').
Proof.
  intros Hs Hc Hm Hb. unfold on_message_received_. rewrite Hc.
  assert (Hk : rl_msg_kind_of msg = RL_MSG_ERROR_ANSWER)
    by (unfold rl_msg_kind_of; rewrite (wf_type _ Hm), Hb; done).
  rewrite Hk. cbn [Z.eqb Pos.eqb]. unfold rl_file_serve. rewrite Hk.
  unfold reply.
  edestruct (transmit_sent p ms (RL_MSG_INIT (error_answer RL_NETERR_BAD_REQUEST) (hdr_seq msg)))
    as (p' & Ht & Hp'); [done| |].
  - split; [|by vm_compute]. split; cbn; try done. apply Hm.
  - exists p'. cbn in Ht |- *. rewrite Ht. done.
Qed.
End Facts.

(** ** The command line *)

(** An argument that is none of the options. *)
Definition not_option (a : list Z) : Prop :=
  a ≠ chars "-fsroot" ∧ a ≠ chars "-port" ∧ a ≠ chars "-log".

Lemma parse_arguments args o h e :
  opt_done o = true → opt_hostname o = Some h → opt_executable o = Some e →
  (length (opt_arguments o) ≤ RL_MAX_ARGUMENTS)%nat →
  parse_options args o =
    if decide (length (opt_arguments o ++ args) ≤ RL_MAX_ARGUMENTS)%nat
    then Some (Some (Options true (opt_fsroot o) (opt_port o) (opt_log_bits o) (Some h) (Some e)
                       (opt_arguments o ++ args)))
    else Some None.
Proof.
  revert o. induction args as [|a args IH]; intros o Hd Hh He Hl; cbn [parse_options].
  - rewrite app_nil_r, decide_True by done. destruct o; cbn in *. by subst.
  - rewrite Hd, Hh, He. cbn [negb andb].
    destruct (Nat.ltb_spec (length (opt_arguments o)) RL_MAX_ARGUMENTS) as [Hlt|Hge].
    + rewrite IH; [|done..|cbn; rewrite length_app; cbn; lia]. cbn. by rewrite <- app_assoc.
    + rewrite decide_False; [done|rewrite length_app; cbn; lia].
Qed.

Lemma parse_hostname h rest o :
  not_option h → opt_hostname o = None →
  parse_options (h :: rest) o =
    parse_options rest (Options true (opt_fsroot o) (opt_port o) (opt_log_bits o) (Some h)
                          (opt_executable o) (opt_arguments o)).
Proof.
  intros (H1 & H2 & H3) Hh. cbn [parse_options]. rewrite !bool_decide_eq_false_2 by done.
  by rewrite !andb_false_r, Hh.
Qed.

Lemma parse_executable e rest o h :
  opt_done o = true → opt_hostname o = Some h → opt_executable o = None →
  parse_options (e :: rest) o =
    parse_options rest (Options true (opt_fsroot o) (opt_port o) (opt_log_bits o) (Some h)
                          (Some e) (opt_arguments o)).
Proof. intros Hd Hh He. cbn [parse_options]. by rewrite Hd, Hh, He. Qed.

(** *** The grammar of the command line *)
Inductive option_name := on_fsroot | on_port | on_log.
#[export] Instance option_name_eq_dec : EqDecision option_name.
Proof. solve_decision. Defined.

Definition word (f : option_name) : list Z :=
  match f with on_fsroot => chars "-fsroot" | on_port => chars "-port" | on_log => chars "-log" end.

(** Options, each with the word behind it as its value, then the rest from the
    first word on that is none; an option that is the last word has the empty
    value. *)
Inductive command_line : list (list Z) → list (option_name * list Z) → list (list Z) → Prop :=
  | cl_end : command_line [] [] []
  | cl_host host rest : not_option host → command_line (host :: rest) [] (host :: rest)
  | cl_option f v argv opts rest :
      command_line argv opts rest → command_line (word f :: v :: argv) ((f, v) :: opts) rest
  | cl_last f : command_line [word f] [(f, [])] [].

(** The values given for one option, in order. *)
Definition values (f : option_name) (opts : list (option_name * list Z)) : list (list Z) :=
  snd <$> filter (λ g, g.1 = f) opts.

Lemma values_cons f g v opts :
  values f ((g, v) :: opts) = (if decide (g = f) then [v] else []) ++ values f opts.
Proof. unfold values. rewrite filter_cons. cbn [fst]. by repeat case_decide. Qed.

Lemma option_or_not a : (∃ f, a = word f) ∨ not_option a.
Proof.
  destruct (decide (a = chars "-fsroot")); [left; by exists on_fsroot|].
  destruct (decide (a = chars "-port")); [left; by exists on_port|].
  destruct (decide (a = chars "-log")); [left; by exists on_log|by right].
Qed.

(** Every list of words is a command line. *)
Lemma command_line_total argv : ∃ opts rest, command_line argv opts rest.
Proof.
  induction argv as [[|a [|v argv]] IH] using (induction_ltof1 _ length).
  - exists [], []. constructor.
  - destruct (option_or_not a) as [[f ->]|H]; eexists _, _; by constructor.
  - destruct (option_or_not a) as [[f ->]|H].
    + destruct (IH argv) as (opts & rest & H); [unfold ltof; cbn; lia|].
      exists ((f, v) :: opts), rest. by constructor.
    + exists [], (a :: v :: argv). by constructor.
Qed.

(** The letters of several values, one after the other. *)
Lemma toggle_words v : no_nul v → ∀ bits, ∃ bits',
  ∀ rest, rl_toggle_log_bits (v ++ rest) bits = rl_toggle_log_bits rest bits'.
Proof.
  induction 1 as [|c v Hc _ IH]; intros bits; [by exists bits|].
  destruct (IH (Z.lxor (if c =? 97 then RL_ALL_LOG_BITS else if c =? 48 then 0 else bits)
    (log_bit c))) as [bits' H].
  exists bits'. intros rest. rewrite <- app_comm_cons. cbn [rl_toggle_log_bits].
  by rewrite (proj2 (Z.eqb_neq c 0)), H.
Qed.

(** One option sets its own field. *)
Definition set_option (f : option_name) (v : list Z) (bits : Z) (o : options) : options :=
  Options (opt_done o) (if decide (f = on_fsroot) then v else opt_fsroot o)
    (if decide (f = on_port) then v else opt_port o) bits
    (opt_hostname o) (opt_executable o) (opt_arguments o).

Lemma parse_option f rest o :
  opt_done o = false →
  parse_options (word f :: rest) o =
    bits ← (if decide (f = on_log)
            then rl_toggle_log_bits (default [] (head rest) ++ [0]) (opt_log_bits o)
            else Some (opt_log_bits o));
    parse_options (tail rest) (set_option f (default [] (head rest)) bits o).
Proof.
  intros Hd. cbn [parse_options]. rewrite Hd.
  destruct f; cbn [word negb andb];
    repeat match goal with |- context [bool_decide (chars ?a = chars ?b)] =>
      let r := eval vm_compute in (bool_decide (chars a = chars b)) in
      change (bool_decide (chars a = chars b)) with r end;
    [| |rewrite decide_True by done; destruct (rl_toggle_log_bits _ _); [|done]];
    unfold set_option; rewrite Hd; by destruct rest.
Qed.

(** What the words leave when [rest] is behind the options. *)
Definition parsed (fsroot port : list Z) (bits : Z) (rest : list (list Z)) : option options :=
  if decide (length rest ≤ 2 + RL_MAX_ARGUMENTS)%nat then
    Some (Options (bool_decide (rest ≠ [])) fsroot port bits (head rest) (head (tail rest))
            (drop 2 rest))
  else None.

(** No word has been taken. *)
Record fresh_options (o : options) : Prop := {
  fr_done : opt_done o = false;
  fr_hostname : opt_hostname o = None;
  fr_executable : opt_executable o = None;
  fr_arguments : opt_arguments o = []
}.

Lemma parse_rest rest o :
  fresh_options o → from_option not_option True (head rest) →
  parse_options rest o = Some (parsed (opt_fsroot o) (opt_port o) (opt_log_bits o) rest).
Proof.
  intros [Hd Hh He Ha]. destruct o as [d r p b h e args]. cbn in *. subst. unfold parsed.
  destruct rest as [|host rest]; intros Hn; [done|].
  rewrite parse_hostname by done. cbn [opt_executable opt_arguments opt_fsroot opt_port opt_log_bits].
  destruct rest as [|exe args]; [done|].
  rewrite (parse_executable _ _ _ host), (parse_arguments args _ host exe) by (done || cbn; lia).
  cbn [opt_arguments app length]. by repeat case_decide; try lia.
Qed.

(** The last value given counts. *)
Lemma last_given (P : Prop) `{Decision P} (v d : list Z) vs :
  default d (last ((if decide P then [v] else []) ++ vs)) =
  default (if decide P then v else d) (last vs).
Proof. case_decide; [|done]. cbn [app]. rewrite last_cons. by destruct (last vs). Qed.

Lemma parse_command argv opts rest : command_line argv opts rest → ∀ o,
  fresh_options o → Forall no_nul argv → ∃ bits,
    rl_toggle_log_bits (concat (values on_log opts) ++ [0]) (opt_log_bits o) = Some bits ∧
    parse_options argv o =
      Some (parsed (default (opt_fsroot o) (last (values on_fsroot opts)))
              (default (opt_port o) (last (values on_port opts))) bits rest).
Proof.
  induction 1 as [|host rest Hh|f v argv opts rest _ IH|f]; intros o Ho Hn.
  1, 2: exists (opt_log_bits o); split; [done|]; by apply parse_rest.
  - apply Forall_cons in Hn as [_ Hn]. apply Forall_cons in Hn as [Hv Hn].
    destruct (toggle_words v Hv (opt_log_bits o)) as [b1 Hb1].
    rewrite parse_option by apply Ho. cbn [head default tail from_option].
    destruct (IH (set_option f v (if decide (f = on_log) then b1 else opt_log_bits o) o))
      as (bits & Hbits & E); [by destruct Ho|done|].
    cbn [set_option opt_log_bits opt_fsroot opt_port] in Hbits, E.
    exists bits. rewrite !values_cons.
    rewrite !last_given. cbn [id]. case_decide.
    + cbn [app concat]. rewrite <- app_assoc, !Hb1. cbn [rl_toggle_log_bits Z.eqb mbind option_bind].
      by rewrite E.
    + cbn [app mbind option_bind]. by rewrite E.
  - rewrite parse_option by apply Ho. exists (opt_log_bits o). rewrite !values_cons, !last_given.
    cbn [values filter list_filter fmap list_fmap last default from_option head tail id].
    split; [by case_decide|]. trans (parse_options [] (set_option f [] (opt_log_bits o) o)).
    { by case_decide. }
    rewrite parse_rest; [done|by destruct Ho|done].
Qed.

(** ** Set-up *)
Lemma zero_handle_ok : handle_ok zero_handle.
Proof. split; [done|]. by exists []. Qed.

Lemma strip_terminator_spec m s :
  cstr_at m = Some s →
  ∃ m', strip_terminator m = Some m' ∧ length m' = length m ∧
    cstr_at m' = Some (if decide (last s = Some NATIVE_PATH_TERMINATOR)
                       then take (length s - 1) s else s).
Proof.
  intros Hc. unfold strip_terminator. rewrite rl_strlen_spec, Hc. cbn [mbind option_bind].
  pose proof (cstr_at_Some _ _ Hc) as [Hn [q ->]].
  destruct s as [|x s _] using rev_ind; [by exists ([] ++ 0 :: q)|].
  rewrite length_app. cbn [length]. rewrite Nat.add_1_r.
  rewrite last_snoc. rewrite <- app_assoc. cbn [app].
  rewrite lookup_app_r, Nat.sub_diag by lia. cbn [lookup list_lookup].
  case_bool_decide as Hx; simplify_eq.
  - rewrite decide_True by done. rewrite store_byte_Some by llen. eexists. split; [done|].
    rewrite length_insert. split; [done|]. rewrite insert_app_r_alt, Nat.sub_diag by lia.
    cbn [insert list_insert]. replace (S (length s) - 1)%nat with (length s) by lia.
    rewrite take_app_length. apply cstr_at_app. by apply Forall_app in Hn as [].
  - rewrite decide_False by congruence. eexists. split; [done|]. split; [done|].
    rewrite <- Hc. by rewrite <- app_assoc.
Qed.

(** The file server starts with a well-formed handle table, in the state
    before the launch; its root is the directory of the command line, or else
    the working directory, without a slash at the end. *)
Theorem setup_spec cwd fsroot exe args :
  let root := match fsroot with [] => cwd | _ => fsroot end in
  no_nul root → (length root ≤ 259)%nat →
  ∃ c, setup (Some cwd) fsroot exe args = Some c ∧ ctl_ok c ∧
    ctl_state c = CONTROLLER_INITIAL ∧ executable c = exe ∧ arguments c = args ∧
    cstr_at (native_path (root_handle c)) =
      Some (if decide (last root = Some NATIVE_PATH_TERMINATOR)
            then take (length root - 1) root else root).
Proof.
  intros root Hn Hl. unfold setup.
  assert (∃ m, (match fsroot with
          | _ :: _ => '(m, _) ← rl_string_copy native_path_size (replicate native_path_size 0)
                        (fsroot ++ [0]); Some m
          | [] =>
              cwd ← Some cwd;
              if (length cwd <? native_path_size)%nat
              then put_bytes (replicate native_path_size 0) 0 (cwd ++ [0]) else None
          end) = Some m ∧ length m = 260%nat ∧ cstr_at m = Some root) as (m & -> & Hm & Hc).
  { subst root. destruct fsroot as [|x l].
    - cbn [mbind option_bind]. unfold native_path_size.
      destruct (Nat.ltb_spec (length cwd) 260); [|lia].
      rewrite put_bytes_Some by llen. eexists. split; [done|]. split; [llen|].
      cbn [take app]. rewrite <- app_assoc. by apply cstr_at_app.
    - change (length (x :: l) ≤ 259)%nat in Hl.
      rewrite (rl_string_copy_ok native_path_size _ _ (x :: l))
        by (first [by apply cstr_at_app | unfold native_path_size; llen]).
      cbn [mbind option_bind]. eexists. split; [done|]. unfold native_path_size.
      rewrite (take_ge (x :: l)) by lia. rewrite <- app_assoc. split; [|by apply cstr_at_app].
      rewrite !length_app, length_drop, length_replicate. cbn [length] in *. lia. }
  cbn [mbind option_bind].
  destruct (strip_terminator_spec m root Hc) as (m' & -> & Hl' & Hc'). cbn [mbind option_bind].
  rewrite (rl_string_copy_ok native_path_size _ (cstr "(virtual input)") (chars "(virtual input)"))
    by (done || unfold native_path_size; llen).
  rewrite (rl_string_copy_ok native_path_size _ (cstr "(virtual output)") (chars "(virtual output)"))
    by (done || unfold native_path_size; llen).
  cbn [mbind option_bind]. eexists. split; [done|]. split; [|done]. split.
  - split; cbn; [by rewrite Hl'|by eexists].
  - split; [done|]. by exists (chars "(virtual input)").
  - split; [done|]. by exists (chars "(virtual output)").
  - done.
  - apply Forall_replicate, zero_handle_ok.
Qed.

(** ** Concrete runs *)
Lemma on_connected_spec_witness :
  let c := Controller CONTROLLER_INITIAL zero_handle zero_handle zero_handle [] (chars "prog")
             [chars "-x"; chars "file"] 0 in
  ∃ p', on_connected_ (HHost := demo_host) (Link := log_link) [] c =
      Some (p', set_ctl_state CONTROLLER_WAIT_EXECUTABLE_LAUNCHED c, 0) ∧
    (p' = [] ++ [RL_MSG_INIT (launch_executable_request (chars "prog")
                   (take 254 (args_text true [chars "-x"; chars "file"]))) 0] ∨ False).
Proof.
  refine (on_connected_spec (HHost := demo_host) (Link := log_link) [] (Controller
    CONTROLLER_INITIAL zero_handle zero_handle zero_handle [] (chars "prog")
    [chars "-x"; chars "file"] 0) [] _ _ _).
  - done.
  - split; [by repeat constructor|cbn; lia].
  - by repeat constructor.
Defined.

Lemma on_message_received_spec_witness :
  let m := RL_MSG_INIT (executable_done_request 4294967295) 0 in
  on_message_received_ (HHost := demo_host) (Link := log_link) (OS := mem_posix) 0 [] demo_controller demo_os m =
    Some ([], set_result (-1) demo_controller, demo_os, 1).
Proof.
  refine (on_message_received_spec (HHost := demo_host) (Link := log_link) (OS := mem_posix) 0 [] demo_controller demo_os
    (RL_MSG_INIT (executable_done_request 4294967295) 0) _ _).
  - by left.
  - split; cbn; (done || lia).
Defined.

Lemma launch_failure_ignored_witness :
  let c := set_ctl_state CONTROLLER_WAIT_EXECUTABLE_LAUNCHED demo_controller in
  ∃ p', on_message_received_ (HHost := demo_host) (Link := log_link) (OS := mem_posix) 0 [] c demo_os (RL_MSG_INIT (error_answer 9) 5) =
      Some (p', c, demo_os, 0) ∧
    (p' = [] ++ [RL_MSG_INIT (error_answer RL_NETERR_BAD_REQUEST) 5] ∨ False).
Proof.
  refine (launch_failure_ignored (HHost := demo_host) (Link := log_link) (OS := mem_posix) 0 []
    (set_ctl_state CONTROLLER_WAIT_EXECUTABLE_LAUNCHED demo_controller) demo_os []
    (RL_MSG_INIT (error_answer 9) 5) 9 _ _ _ _); try done.
Defined.

Lemma setup_spec_witness :
  ∃ c, setup (Some (chars "/home")) (chars "/w/") (chars "prog") [] = Some c ∧ ctl_ok c ∧
    ctl_state c = CONTROLLER_INITIAL ∧ executable c = chars "prog" ∧ arguments c = [] ∧
    cstr_at (native_path (root_handle c)) = Some (chars "/w").
Proof.
  refine (setup_spec (chars "/home") (chars "/w/") (chars "prog") [] _ _).
  - by repeat constructor.
  - cbn. lia.
Defined.
