(* ===== verification/Target.v ===== *)
(** * Target: the program on the Amiga (target.c)

    Launching executables, the callbacks of the target's peers and the walk
    over them that ends each turn of the server.  The peers form a linked list of heap nodes; dereferencing
    a node that has been freed is [None]. *)

From S2P Require Import Prelude Wire Messages CString Format Transport Peer AmigaFs AmigaActions.

Definition RLAUNCH_BASE_DEVICE_NAME : list Z := chars "TBL".

(** ** Launching *)
Record launch_msg := LaunchMsg {
  command_path : list Z;           (* the text in the array of 128 bytes *)
  input_path : list Z;             (* 64 bytes *)
  output_path : list Z;            (* 64 bytes *)
  launch_arguments : list Z;       (* 256 bytes *)
  launch_peer_index : Z;
  root_lock : Z;
  result_code : Z
}.

Section Launch.
Context `{HHost : Host} `{HPool : Pool} {P : Type} `{Link : PeerLink P}.
Implicit Types (fs : fsys P).

(** The text of a local array of [size] bytes filled by [rl_string_copy]. *)
Definition copy_text (size : nat) (source : list Z) : option (list Z) :=
  '(m, _) ← rl_string_copy size (replicate size 0) (source ++ [0]); cstr_at m.

Definition device_name (peer_index : Z) : option (list Z) :=
  format_text 32 (RLAUNCH_BASE_DEVICE_NAME ++ cstr "%d") [VInt peer_index].

(** [allocated] and [new_process]: whether the allocator and
    [CreateNewProcTagList] succeed.  The last component is the message that
    has been given to the new process. *)
Definition async_spawn fs (peer_index : Z) (cmd arguments : list Z)
    (allocated new_process : bool) : option (fsys P * option launch_msg * Z) :=
  if negb allocated then Some (fs, None, 1) else
  device ← device_name peer_index;
  colon ← rl_strchr (cmd ++ [0]) 58;
  command ← (match colon with
             | None => format_text 128 (cstr "%s:%s") [VStr (device ++ [0]); VStr (cmd ++ [0])]
             | Some _ => copy_text 128 cmd
             end);
  args ← copy_text 256 arguments;
  input ← format_text 64 (cstr "%s:%s")
            [VStr (device ++ [0]); VStr (RLAUNCH_VIRTUAL_INPUT_FILE)];
  output ← format_text 64 (cstr "%s:%s")
            [VStr (device ++ [0]); VStr (RLAUNCH_VIRTUAL_OUTPUT_FILE)];
  let '(lock, fs) := rl_amigafs_alloc_root_lock fs SHARED_LOCK in
  let lock := default 0 lock in
  if negb new_process then
    fs ← (if negb (lock =? 0) then rl_amigafs_free_lock fs lock else Some fs);
    Some (fs, None, 1)
  else Some (fs, Some (LaunchMsg command input output args peer_index lock 0), 0).

(** The launcher's process: the command line it gives to [SystemTagList],
    whose result is [system]; the last component says whether it unlocks the
    root lock itself. *)
Definition cmd_launcher (msg : launch_msg) (system : list Z → Z)
  : option (launch_msg * bool) :=
  cmdline ← (match launch_arguments msg with
             | _ :: _ => format_text 512 (cstr "%s %s")
                 [VStr (command_path msg ++ [0]); VStr (launch_arguments msg ++ [0])]
             | [] => format_text 512 (cstr "%s") [VStr (command_path msg ++ [0])]
             end);
  let code := system cmdline in
  let failed := code =? -1 in
  Some (LaunchMsg (command_path msg) (input_path msg) (output_path msg) (launch_arguments msg)
          (launch_peer_index msg) (root_lock msg) (if failed then 1 else code), failed).
End Launch.

(** ** The callbacks of the target's peers *)

(** The file systems by the address of their peer, the processes launched, what
    the allocator and the operating system answer to the next launches, and the
    clock. *)
Record target_world := TargetWorld {
  file_systems : gmap Z (fsys peer);
  launched : list launch_msg;
  launch_outcomes : list (bool * bool);
  clock : Z
}.

Section Callbacks.
Context `{HHost : Host} `{Alloc : Allocator} `{HPool : Pool}.
#[local] Instance target_link : PeerLink peer := peer_link [].

(** A peer and its file system point at each other: the file system sees the
    peer as it is now, and the peer is what the file system leaves. *)
Definition on_launch_executable_request (p : peer) (w : target_world) (msg : rl_msg)
  : option (peer * target_world * Z) :=
  match body msg with
  | launch_executable_request path arguments =>
      fs ← file_systems w !! self_ptr p;
      let '(allocated, new_process) := default (true, true) (head (launch_outcomes w)) in
      '(fs, started, spawn_result) ←
        async_spawn (set_peer p fs) (peer_index p) path arguments allocated new_process;
      let w := TargetWorld (<[self_ptr p := fs]> (file_systems w))
                 (launched w ++ option_list started) (tail (launch_outcomes w)) (clock w) in
      '(p, rc) ← transmit (fs_peer fs)
        (if spawn_result =? 0 then RL_MSG_INIT launch_executable_answer (hdr_seq msg)
         else RL_MSG_INIT (error_answer RL_NETERR_SPAWN_FAILURE) 0);
      Some (p, w, rc)
  | _ => None
  end.

Definition on_message_received (p : peer) (w : target_world) (msg : rl_msg)
  : option (peer * target_world * Z) :=
  if rl_msg_kind_of msg =? RL_MSG_LAUNCH_EXECUTABLE_REQUEST
  then on_launch_executable_request p w msg
  else
    match file_systems w !! self_ptr p with
    | Some fs =>
        '(fs, rc) ← rl_amigafs_process_network_message (set_peer p fs) msg;
        Some (fs_peer fs,
              TargetWorld (<[self_ptr p := fs]> (file_systems w)) (launched w)
                (launch_outcomes w) (clock w), rc)
    | None => Some (p, w, 1)
    end.

Definition server_callbacks : PeerCallbacks target_world := {|
  on_message := on_message_received;
  on_connected p w := Some (p, w, 0);
  rl_time w := (w, clock w)
|}.

End Callbacks.

(** ** The list of peers

    A node is a peer, its socket and the address of the next node; address 0 is
    the null pointer. *)
Section Serve.
Context `{HHost : Host} `{Alloc : Allocator} {W : Type} `{CB : PeerCallbacks W}
  {S : Type} `{Sock : Socket S}.

Record node := Node { n_peer : peer; n_sock : S; n_next : Z }.

(** The sets for [select]: every descriptor is watched for input, those with
    pending output also for output.  The result is the largest descriptor. *)
Fixpoint add_peers_to_fd_set (fuel : nat) (nodes : gmap Z node) (head : Z)
    (read_fds write_fds : gset Z) (max : Z) : option (gset Z * gset Z * Z) :=
  match fuel with
  | O => None
  | Datatypes.S fuel =>
      if head =? 0 then Some (read_fds, write_fds, max) else
      n ← nodes !! head;
      let this_fd := fd (n_peer n) in
      add_peers_to_fd_set fuel nodes (n_next n) ({[this_fd]} ∪ read_fds)
        (if negb (Z.land (update_result (n_peer n)) PEER_STATUS_NEED_OUTPUT =? 0)
         then {[this_fd]} ∪ write_fds else write_fds)
        (Z.max max this_fd)
  end.

(** What the Amiga build gives back with a peer, [rl_amigafs_destroy], and the
    socket that [peer_destroy] closes. *)
Context (release : W → peer → W).

Definition remove_peer (w : W) (p : peer) : option W :=
  let w := release w p in
  _ ← peer_destroy p;
  Some w.

(** The walk over the peers after [select]: each is updated, and freed when
    it asks for it. *)
Fixpoint update_peers (fuel : nat) (new_peer_socket : Z) (read_fds write_fds : gset Z)
    (nodes : gmap Z node) (w : W) (peers ci next : Z) : option (gmap Z node * W * Z) :=
  match fuel with
  | O => None
  | Datatypes.S fuel =>
      if ci =? 0 then Some (nodes, w, peers) else
      n ← nodes !! ci;
      let this_fd := fd (n_peer n) in
      let can_read := (this_fd =? new_peer_socket) || bool_decide (this_fd ∈ read_fds) in
      let can_write := (this_fd =? new_peer_socket) || bool_decide (this_fd ∈ write_fds) in
      let prev := next in
      let next := n_next n in
      '(p, w, sock, status) ← peer_update (n_peer n) w (n_sock n) can_read can_write;
      let nodes := <[ci := Node p sock next]> nodes in
      if negb (Z.land PEER_STATUS_REMOVE_ME status =? 0) then
        '(nodes, peers) ←
          (if negb (prev =? 0) then
             m ← nodes !! prev;
             Some (<[prev := Node (n_peer m) (n_sock m) next]> nodes, peers)
           else Some (nodes, next));
        w ← remove_peer w p;
        update_peers fuel new_peer_socket read_fds write_fds (delete ci nodes) w peers next next
      else
        update_peers fuel new_peer_socket read_fds write_fds nodes w peers next next
  end.

Definition serve_pass (new_peer_socket : Z) (read_fds write_fds : gset Z)
    (nodes : gmap Z node) (w : W) (peers : Z) : option (gmap Z node * W * Z) :=
  update_peers (Datatypes.S (size nodes)) new_peer_socket read_fds write_fds nodes w peers peers 0.

(** A list of peers in memory. *)
Fixpoint linked (nodes : gmap Z node) (p : Z) (l : list Z) : Prop :=
  match l with
  | [] => p = 0
  | a :: l => p = a ∧ a ≠ 0 ∧ ∃ n, nodes !! a = Some n ∧ linked nodes (n_next n) l
  end.

(** A walk along the list from [p] comes to [q]. *)
Inductive reaches (nodes : gmap Z node) : Z → Z → Prop :=
  | reach_refl p : reaches nodes p p
  | reach_next p n q :
      p ≠ 0 → nodes !! p = Some n → reaches nodes (n_next n) q → reaches nodes p q.

(** The list leads to a node that has been freed. *)
Definition dangling (nodes : gmap Z node) (p : Z) : Prop :=
  ∃ q, reaches nodes p q ∧ q ≠ 0 ∧ nodes !! q = None.

Definition removed (status : Z) : bool := negb (Z.land PEER_STATUS_REMOVE_ME status =? 0).

(** The updates of the peers of a list, one after the other: the new nodes and
    the status of each. *)
Section Updates.
Context (new_peer_socket : Z) (read_fds write_fds : gset Z).

Fixpoint update_all (nodes : gmap Z node) (w : W) (l : list Z)
  : option (list (Z * node * Z) * W) :=
  match l with
  | [] => Some ([], w)
  | a :: l =>
      n ← nodes !! a;
      let ready fds := (fd (n_peer n) =? new_peer_socket) || bool_decide (fd (n_peer n) ∈ fds) in
      '(p, w, sock, status) ←
        peer_update (n_peer n) w (n_sock n) (ready read_fds) (ready write_fds);
      w ← (if removed status then remove_peer w p else Some w);
      '(rs, w) ← update_all nodes w l;
      Some ((a, Node p sock (n_next n), status) :: rs, w)
  end.

Definition put_result (nodes : gmap Z node) (r : Z * node * Z) : gmap Z node :=
  let '(a, n, status) := r in if removed status then delete a nodes else <[a := n]> nodes.

Lemma update_all_frame nodes w l a n rs w' :
  a ∉ l → update_all nodes w l = Some (rs, w') →
  update_all (<[a := n]> nodes) w l = Some (rs, w') ∧
  update_all (delete a nodes) w l = Some (rs, w').
Proof.
  revert w rs w'. induction l as [|b l IH]; intros w rs w' Ha H; [done|].
  apply not_elem_of_cons in Ha as [Hab Ha]. cbn [update_all] in *.
  rewrite lookup_insert_ne, lookup_delete_ne by done.
  destruct (nodes !! b) as [m|]; [|done]. cbn [mbind option_bind] in *.
  destruct (peer_update _ _ _ _ _) as [[[[p w1] sock] st]|]; [|done].
  cbn [mbind option_bind] in *.
  destruct (if removed st then _ else _) as [w3|]; [|done]. cbn [mbind option_bind] in *.
  destruct (update_all nodes w3 l) as [[rs1 w2]|] eqn:E; [|done].
  destruct (IH _ _ _ Ha E) as [-> ->]. done.
Qed.

Lemma linked_frame nodes p l a n :
  a ∉ l → linked nodes p l → linked (<[a := n]> nodes) p l ∧ linked (delete a nodes) p l.
Proof.
  revert p. induction l as [|b l IH]; intros p Ha; [done|].
  apply not_elem_of_cons in Ha as [Hab Ha]. intros (-> & Hb & m & Hm & Hl).
  destruct (IH _ Ha Hl). cbn [linked].
  rewrite lookup_insert_ne, lookup_delete_ne by done. eauto 10.
Qed.

(** One step of the walk frees or stores the node, and moves the head when
    there is no previous node. *)
Lemma update_peers_step fuel nodes w peers ci next l rs w' :
  linked nodes ci l → NoDup l → update_all nodes w l = Some (rs, w') →
  (length l < fuel)%nat → next = ci ∨ next = 0 →
  update_peers fuel new_peer_socket read_fds write_fds nodes w peers ci next =
    Some (foldl put_result nodes rs, w',
          match rs with
          | (a, n, status) :: _ => if removed status && (next =? 0) then n_next n else peers
          | [] => peers
          end).
Proof.
  revert nodes w peers ci next rs w' fuel.
  induction l as [|a l IH]; intros nodes w peers ci next rs w' fuel Hl Hnd Hu Hf Hnext.
  - cbn in Hl, Hu. injection Hu as <- <-. subst ci. by destruct fuel; [lia|].
  - destruct Hl as (-> & Ha & n & Hn & Hl). apply NoDup_cons in Hnd as [Hal Hnd].
    destruct fuel as [|fuel]; [cbn in Hf; lia|]. cbn [update_all] in Hu. rewrite Hn in Hu.
    cbn [mbind option_bind] in Hu. cbn [update_peers].
    rewrite (proj2 (Z.eqb_neq a 0)) by done. rewrite Hn. cbn [mbind option_bind].
    destruct (peer_update _ _ _ _ _) as [[[[p w1] sock] st]|]; [|done].
    cbn [mbind option_bind] in *.
    destruct (if removed st then remove_peer w1 p else _) as [w3|] eqn:Ed; [|done].
    cbn [mbind option_bind] in *.
    destruct (update_all nodes w3 l) as [[rs1 w2]|] eqn:E; [|done].
    injection Hu as <- <-. fold (removed st).
    assert (Hni : n_next n = n_next n ∨ n_next n = 0) by by left. cbn [length] in Hf.
    destruct (linked_frame nodes (n_next n) l a (Node p sock (n_next n)) Hal Hl) as [Hl1 Hl2].
    destruct (update_all_frame nodes w3 l a (Node p sock (n_next n)) rs1 w2 Hal E) as [Hu1 Hu2].
    cbn [foldl put_result andb]. destruct (removed st) eqn:Er.
    + assert (Hhead : ∀ hd, match rs1 with
        | (b, m, status) :: _ => if removed status && (n_next n =? 0) then n_next m else hd
        | [] => hd end = hd).
      { intros hd. destruct rs1 as [|[[b m] st2] rs1]; [done|].
        destruct l as [|b' l]; [cbn in E; congruence|]. destruct Hl as (-> & Hb & _).
        by rewrite (proj2 (Z.eqb_neq b' 0)), andb_false_r by done. }
      assert (Hrec : ∀ hd, update_peers fuel new_peer_socket read_fds write_fds (delete a nodes)
        w3 hd (n_next n) (n_next n) = Some (foldl put_result (delete a nodes) rs1, w2, hd)).
      { intros hd. rewrite (IH _ _ hd (n_next n) (n_next n) rs1 w2) by (done || lia).
        by rewrite Hhead. }
      destruct Hnext as [-> | ->].
      * rewrite (proj2 (Z.eqb_neq a 0)) by done. cbn [negb]. rewrite lookup_insert_eq.
        cbn [mbind option_bind n_peer n_sock]. rewrite Ed. cbn [mbind option_bind].
        rewrite insert_insert_eq, delete_insert_eq. by rewrite Hrec.
      * cbn [negb Z.eqb mbind option_bind]. rewrite Ed. cbn [mbind option_bind].
        rewrite delete_insert_eq. by rewrite Hrec.
    + injection Ed as <-. rewrite (IH _ _ peers (n_next n) (n_next n) rs1 w2) by (done || lia).
      do 2 f_equal. destruct rs1 as [|[[b m] st2] rs1]; [done|].
      destruct l as [|b' l]; [cbn in E; congruence|]. destruct Hl as (-> & Hb & _).
      by rewrite (proj2 (Z.eqb_neq b' 0)), andb_false_r by done.
Qed.

Lemma update_all_nodes nodes w l rs w' :
  update_all nodes w l = Some (rs, w') →
  (λ r, r.1.1) <$> rs = l ∧
  ∀ a n st, (a, n, st) ∈ rs → ∃ m, nodes !! a = Some m ∧ n_next n = n_next m.
Proof.
  revert w rs w'. induction l as [|a l IH]; intros w rs w'; cbn [update_all].
  { intros [= <- _]. split; [done|]. by intros ??? ?%not_elem_of_nil. }
  intros (n & Hn & H)%bind_Some. apply bind_Some in H as ([[[p w1] sock] st] & _ & H).
  apply bind_Some in H as (w3 & _ & ([rs1 w2] & Hu & [= <- <-])%bind_Some).
  destruct (IH _ _ _ Hu) as [Ha Hin]. split; [cbn; by rewrite Ha|].
  intros b m st' [[= -> -> ->]|Hb]%elem_of_cons; [by exists n|by eapply Hin].
Qed.

Lemma put_results_lookup_other nodes rs a :
  a ∉ (λ r, r.1.1) <$> rs → foldl put_result nodes rs !! a = nodes !! a.
Proof.
  revert nodes. induction rs as [|[[b n] st] rs IH]; intros nodes Ha; [done|].
  cbn in Ha. apply not_elem_of_cons in Ha as [Hab Ha]. cbn [foldl]. rewrite IH by done.
  cbn. destruct (removed st); [by rewrite lookup_delete_ne|by rewrite lookup_insert_ne].
Qed.

Lemma put_results_lookup nodes (rs : list (Z * node * Z)) a n st :
  NoDup ((λ r, r.1.1) <$> rs) → (a, n, st) ∈ rs →
  foldl put_result nodes rs !! a = if removed st then None else Some n.
Proof.
  revert nodes. induction rs as [|[[b m] st'] rs IH]; intros nodes Hnd;
    [by intros ?%not_elem_of_nil|].
  apply NoDup_cons in Hnd as [Hb Hnd]. cbn [foldl].
  intros [[= -> -> ->]|Ha]%elem_of_cons; [|by apply IH].
  rewrite put_results_lookup_other by done. cbn.
  destruct (removed st'); [apply lookup_delete_eq|apply lookup_insert_eq].
Qed.

Lemma linked_size nodes p l : linked nodes p l → NoDup l → (length l ≤ size nodes)%nat.
Proof.
  intros Hl Hnd. rewrite <- size_dom, <- (size_list_to_set (C := gset Z)) by done.
  apply subseteq_size. intros a Ha%elem_of_list_to_set. apply elem_of_dom.
  clear Hnd. revert p Hl. induction l as [|b l IH]; intros p; [by apply not_elem_of_nil in Ha|].
  intros (-> & _ & n & Hn & Hl). apply elem_of_cons in Ha as [->|Ha]; [done|by eapply IH].
Qed.

Lemma serve_pass_run nodes w peers l rs w' :
  linked nodes peers l → NoDup l → update_all nodes w l = Some (rs, w') →
  serve_pass new_peer_socket read_fds write_fds nodes w peers =
    Some (foldl put_result nodes rs, w',
          match rs with
          | (a, n, status) :: _ => if removed status then n_next n else peers
          | [] => peers
          end).
Proof.
  intros Hl Hnd Hu. unfold serve_pass.
  pose proof (linked_size _ _ _ Hl Hnd).
  rewrite (update_peers_step _ _ _ _ _ _ _ _ _ Hl Hnd Hu) by (lia || by right).
  do 2 f_equal. destruct rs as [|[[a n] st] rs]; [done|]. by rewrite andb_true_r.
Qed.

(** The nodes that survive. *)
Definition kept (rs : list (Z * node * Z)) : list Z :=
  omap (λ r, if removed r.2 then None else Some r.1.1) rs.

Lemma linked_results nodes nodes' p l (rs : list (Z * node * Z)) :
  linked nodes p l → (λ r, r.1.1) <$> rs = l →
  (∀ a n st, (a, n, st) ∈ rs → ∃ m, nodes !! a = Some m ∧ n_next n = n_next m) →
  (∀ a n st, (a, n, st) ∈ rs → nodes' !! a = Some n) →
  linked nodes' p l.
Proof.
  revert p rs. induction l as [|a l IH]; intros p rs; [done|].
  intros (-> & Ha & n & Hn & Hl) Hrs Hold Hnew. destruct rs as [|[[b m] st] rs]; [done|].
  injection Hrs as -> Hrs. split; [done|]. split; [done|]. exists m.
  split; [eapply Hnew; by left|].
  destruct (Hold a m st) as (n' & Hn' & ->); [by left|].
  assert (n' = n) as -> by congruence. apply (IH _ rs); [done|done| |].
  - intros. eapply Hold. by right.
  - intros. eapply Hnew. by right.
Qed.

(** C28: as long as no peer but the newest asks to be removed, a pass of the
    server updates every peer once, in the order of the list, frees the
    peer that asked for it, and leaves the list of the others, with their
    new states. *)
Theorem serve_pass_spec nodes w peers l rs w' :
  linked nodes peers l → NoDup l → update_all nodes w l = Some (rs, w') →
  Forall (λ r, removed r.2 = false) (tail rs) →
  ∃ nodes' peers',
    serve_pass new_peer_socket read_fds write_fds nodes w peers = Some (nodes', w', peers') ∧
    linked nodes' peers' (kept rs) ∧
    ∀ a n st, (a, n, st) ∈ rs → nodes' !! a = if removed st then None else Some n.
Proof.
  intros Hl Hnd Hu Htl. destruct (update_all_nodes _ _ _ _ _ Hu) as [Hrs Hold].
  assert (Hlook : ∀ a n st, (a, n, st) ∈ rs →
    foldl put_result nodes rs !! a = if removed st then None else Some n).
  { intros. apply put_results_lookup; [by rewrite Hrs|done]. }
  assert (Hk : ∀ rs', Forall (λ r, removed r.2 = false) rs' →
    kept rs' = (λ r, r.1.1) <$> rs').
  { induction 1 as [|[[a n] st] rs' Ha _ IH]; [done|].
    unfold kept in *. cbn in Ha |- *. rewrite Ha. cbn. by f_equal. }
  rewrite (serve_pass_run _ _ _ _ _ _ Hl Hnd Hu). do 2 eexists. split; [done|].
  split; [|done].
  destruct rs as [|[[a n] st] rs]; cbn in Hrs; subst l; [done|].
  destruct Hl as (-> & Ha & m & Hm & Hl). destruct (Hold a n st) as (m' & Hm' & Hnx); [by left|].
  assert (m' = m) as -> by congruence. cbn [tail] in Htl.
  assert (Hrest : linked (foldl put_result nodes ((a, n, st) :: rs)) (n_next m)
                    ((λ r, r.1.1) <$> rs)).
  { apply (linked_results nodes _ _ _ rs); [done|done| |].
    - intros. eapply Hold. by right.
    - intros b k st' Hb. rewrite (Hlook b k st') by by right.
      rewrite Forall_forall in Htl. pose proof (Htl _ Hb) as Hs. cbn in Hs. by rewrite Hs. }
  unfold kept. cbn [omap list_omap]. fold (kept rs). cbn [snd fst].
  destruct (removed st) eqn:Er.
  - rewrite Hk, Hnx by done. exact Hrest.
  - rewrite Hk by done. split; [done|]. split; [done|]. exists n.
    split; [|by rewrite Hnx].
    rewrite (Hlook a n st) by by left. by rewrite Er.
Qed.

(** C27: when a peer other than the newest is removed, the list of peers still
    leads to it after it has been freed: the next pass of the server uses
    freed memory. *)
Theorem serve_pass_dangling nodes w peers l pre b n st post w' :
  linked nodes peers l → NoDup l → pre ≠ [] →
  update_all nodes w l = Some (pre ++ (b, n, st) :: post, w') → removed st = true →
  ∃ nodes' peers',
    serve_pass new_peer_socket read_fds write_fds nodes w peers = Some (nodes', w', peers') ∧
    dangling nodes' peers'.
Proof.
  intros Hl Hnd Hpre Hu Hst. destruct (update_all_nodes _ _ _ _ _ Hu) as [Hrs Hold].
  rewrite (serve_pass_run _ _ _ _ _ _ Hl Hnd Hu). do 2 eexists. split; [done|].
  set (rs := pre ++ (b, n, st) :: post) in *. set (nodes' := foldl put_result nodes rs).
  assert (Hlook : ∀ a k st, (a, k, st) ∈ rs →
    nodes' !! a = if removed st then None else Some k).
  { intros. apply put_results_lookup; [by rewrite Hrs|done]. }
  assert (Hwalk : ∀ p l1 r1, linked nodes p l1 → (λ r, r.1.1) <$> r1 = l1 →
    (∀ r, r ∈ r1 → r ∈ rs) → (b, n, st) ∈ r1 → dangling nodes' p).
  { intros p l1 r1. revert p l1. induction r1 as [|[[a k] sk] r1 IH]; intros p l1 Hl1 Hr1 Hsub Hin;
      [by apply not_elem_of_nil in Hin|]. cbn in Hr1. subst l1.
    destruct Hl1 as (-> & Ha & m & Hm & Hl1).
    assert (Hk := Hlook a k sk (Hsub _ ltac:(by left))).
    destruct (removed sk) eqn:Er; [exists a; split; [constructor|done]|].
    apply elem_of_cons in Hin as [[= -> -> ->]|Hin]; [congruence|].
    destruct (Hold a k sk) as (m' & Hm' & Hnx); [apply Hsub; by left|].
    assert (m' = m) as -> by congruence.
    destruct (IH _ _ Hl1 eq_refl ltac:(intros; apply Hsub; by right) Hin) as (q & Hq & Hq0 & Hf).
    exists q. split; [|done]. eapply reach_next; [done|exact Hk|]. by rewrite Hnx. }
  destruct pre as [|[[a k] sk] pre]; [done|].
  subst rs. cbn [app] in *. cbn in Hrs. subst l.
  pose proof Hl as (-> & Ha & m & Hm & Hl1).
  destruct (removed sk) eqn:Er.
  - destruct (Hold a k sk) as (m' & Hm' & Hnx); [by left|].
    assert (m' = m) as -> by congruence. rewrite Hnx.
    apply (Hwalk _ _ (pre ++ (b, n, st) :: post) Hl1 eq_refl); [by right|set_solver].
  - apply (Hwalk _ _ ((a, k, sk) :: pre ++ (b, n, st) :: post) Hl eq_refl); [done|set_solver].
Qed.
End Updates.
End Serve.

(** ** Launching a program *)
Section LaunchFacts.
Context `{HHost : Host} `{HPool : Pool} {P : Type} `{Link : PeerLink P}.
Implicit Types (fs : fsys P).

(** What the command line of the program starts with: a command with a colon
    is an absolute path, any other lives on the device. *)
Definition launch_command (device cmd : list Z) : list Z :=
  take 127 (if decide (58 ∈ cmd) then cmd else device ++ 58 :: cmd).

Lemma strchr_colon cmd :
  no_nul cmd →
  ∃ r, rl_strchr (cmd ++ [0]) 58 = Some r ∧
    match r with Some _ => 58 ∈ cmd | None => 58 ∉ cmd end.
Proof.
  intros Hn. destruct (decide (58 ∈ cmd)) as [Hc|Hc].
  - destruct (list_elem_of_split_l _ _ Hc) as (l1 & l2 & -> & Hl).
    apply Forall_app in Hn as [Hn _]. rewrite <- app_assoc. cbn [app].
    rewrite rl_strchr_found by done. by eexists.
  - rewrite rl_strchr_null by done. by eexists.
Qed.

Lemma copy_text_ok size s :
  no_nul s → (1 < size)%nat → copy_text size s = Some (take (size - 1) s).
Proof.
  intros Hn Hs. unfold copy_text.
  rewrite (rl_string_copy_ok size _ _ s)
    by (first [by apply cstr_at_app | rewrite length_replicate; lia]).
  cbn [mbind option_bind]. rewrite <- app_assoc. apply cstr_at_app. by apply Forall_take.
Qed.

Lemma colon_text size s1 p2 s2 :
  no_nul s1 → cstr_at p2 = Some s2 → (0 < size)%nat →
  format_text size (cstr "%s:%s") [VStr (s1 ++ [0]); VStr p2] =
    Some (take (size - 1) (s1 ++ 58 :: s2)).
Proof.
  intros Hn H2 Hs. apply format_text_spec; [|apply Forall_app; split; [done|]|done].
  - apply (render_s_char_s _ _ 58); [done..| |done]. by apply cstr_at_app.
  - constructor; [done|]. by apply cstr_at_Some in H2 as [].
Qed.

(** The message to the new process. *)
Definition launch_message (i : Z) (device cmd arguments : list Z) (lock : Z) : launch_msg :=
  LaunchMsg (launch_command device cmd)
    (take 63 (device ++ chars ":+virtual-input+"))
    (take 63 (device ++ chars ":+virtual-output+"))
    (take 255 arguments) i lock 0.

Lemma device_name_no_nul i device : device_name i = Some device → no_nul device.
Proof.
  unfold device_name, format_text. intros ([b n] & _ & Hd)%bind_Some.
  by apply cstr_at_Some in Hd as [].
Qed.

Lemma async_spawn_texts fs i device cmd arguments new_process :
  device_name i = Some device → no_nul cmd → no_nul arguments →
  async_spawn fs i cmd arguments true new_process =
    (let '(lock, fs) := rl_amigafs_alloc_root_lock fs SHARED_LOCK in
     let lock := default 0 lock in
     if negb new_process then
       fs ← (if negb (lock =? 0) then rl_amigafs_free_lock fs lock else Some fs);
       Some (fs, None, 1)
     else Some (fs, Some (launch_message i device cmd arguments lock), 0)).
Proof.
  intros Hd Hc Ha. unfold async_spawn. cbn [negb]. rewrite Hd. cbn [mbind option_bind].
  pose proof (device_name_no_nul _ _ Hd) as Hdev.
  destruct (strchr_colon cmd Hc) as (r & -> & Hr). cbn [mbind option_bind].
  assert (Hcmd : match r with
    | None => format_text 128 (cstr "%s:%s") [VStr (device ++ [0]); VStr (cmd ++ [0])]
    | Some _ => copy_text 128 cmd end = Some (launch_command device cmd)).
  { unfold launch_command. destruct r as [r|].
    - rewrite decide_True by done. apply copy_text_ok; [done|lia].
    - rewrite decide_False by done. apply colon_text; [done| |lia]. by apply cstr_at_app. }
  rewrite Hcmd. cbn [mbind option_bind]. rewrite (copy_text_ok 256) by (done || lia).
  cbn [mbind option_bind].
  rewrite (colon_text 64 _ RLAUNCH_VIRTUAL_INPUT_FILE (chars "+virtual-input+")); [|done|reflexivity|lia].
  cbn [mbind option_bind].
  rewrite (colon_text 64 _ RLAUNCH_VIRTUAL_OUTPUT_FILE (chars "+virtual-output+")); [|done|reflexivity|lia].
  done.
Qed.

Lemma root_lock_spec fs a :
  pool_alloc (used fs) = Some a →
  rl_amigafs_alloc_root_lock fs SHARED_LOCK =
    (Some a, put_lock a (Lock SHARED_LOCK (root_addr fs) (device_port fs)
                           (MKBADDR (dl_address (device_list fs)))) fs) ∧ a ≠ 0.
Proof.
  intros Hpool. unfold rl_amigafs_alloc_root_lock. rewrite Hpool.
  destruct (pool_fresh _ _ Hpool) as (_ & Hr & _). split; [done|lia].
Qed.

(** C31: launching gives the new process the command with the device of the
    peer in front unless it names a device itself, its arguments, and the
    device's virtual files for input and output, each cut to its array, and a
    new lock on the root; when no process can be created the file system is
    left as it was. *)
Theorem async_spawn_spec fs i device cmd arguments a root new_process :
  device_name i = Some device → no_nul cmd → no_nul arguments →
  pool_alloc (used fs) = Some a → chandles fs !! root_addr fs = Some root →
  h_type root = RL_HANDLE_DEVICE →
  async_spawn fs i cmd arguments true new_process =
    if new_process then
      Some (put_lock a (Lock SHARED_LOCK (root_addr fs) (device_port fs)
                          (MKBADDR (dl_address (device_list fs)))) fs,
            Some (LaunchMsg (launch_command device cmd)
                    (take 63 (device ++ chars ":+virtual-input+"))
                    (take 63 (device ++ chars ":+virtual-output+"))
                    (take 255 arguments) i a 0), 0)
    else Some (fs, None, 1).
Proof.
  intros Hd Hc Ha Hpool Hroot Htype. rewrite (async_spawn_texts _ _ device) by done.
  destruct (root_lock_spec fs a Hpool) as [-> Hnz].
  cbv beta iota zeta. change (default 0 (Some a)) with a.
  destruct new_process; [done|]. cbn [negb].
  rewrite (proj2 (Z.eqb_neq a 0)) by done. cbn [negb].
  unfold rl_amigafs_free_lock, HANDLE_FROM_LOCK. cbn [locks put_lock set_locks].
  rewrite lookup_insert_eq. cbn [mbind option_bind fl_Key chandles set_locks put_lock].
  rewrite Hroot. cbn [mbind option_bind]. rewrite decide_False by (intros Hx; by apply Hx).
  cbn [mbind option_bind locks set_locks put_lock]. rewrite delete_insert_id.
  - by destruct fs.
  - destruct (pool_fresh _ _ Hpool) as (Hfresh & _ & _).
    apply not_elem_of_dom. unfold used in Hfresh. set_solver.
Qed.
End LaunchFacts.

(** ** Concrete runs *)
Definition demo_packet : DosPacket := Packet 0 0 0 0 0 0 0 0.

Lemma async_spawn_spec_witness :
  async_spawn (HHost := demo_host) (HPool := bump_pool) (Link := log_link)
    (put_handle 64 (ClientHandle (u32 (-1)) RL_HANDLE_DEVICE 0 0 0 0 path_zero 0 0 buffer_zero)
       (demo_fs demo_packet)) 2 (chars "work/prog") (chars "-v") true true =
  Some (put_lock 260 (Lock SHARED_LOCK 64 2000 1000)
          (put_handle 64 (ClientHandle (u32 (-1)) RL_HANDLE_DEVICE 0 0 0 0 path_zero 0 0
             buffer_zero) (demo_fs demo_packet)),
        Some (LaunchMsg (chars "TBL2:work/prog") (chars "TBL2:+virtual-input+")
                (chars "TBL2:+virtual-output+") (chars "-v") 2 260 0), 0).
Proof.
  refine (async_spawn_spec (HHost := demo_host) (HPool := bump_pool) (Link := log_link)
    (put_handle 64 (ClientHandle (u32 (-1)) RL_HANDLE_DEVICE 0 0 0 0 path_zero 0 0 buffer_zero)
       (demo_fs demo_packet)) 2 (chars "TBL2") (chars "work/prog") (chars "-v") 260
    (ClientHandle (u32 (-1)) RL_HANDLE_DEVICE 0 0 0 0 path_zero 0 0 buffer_zero) true
    _ _ _ _ _ _).
  - by vm_compute.
  - by repeat constructor.
  - by repeat constructor.
  - by vm_compute.
  - done.
  - done.
Defined.

(** A peer with a small input buffer. *)
Definition small_peer (s : peer_state) : peer :=
  Peer 0 s 3 [] 0 (Transport (IOBuf (replicate 16 0) 0 0 true) ∅ None None 0 None false false) 0
    PEER_INIT_TARGET 100 false.

(** A list of two peers, the newer one at address 8. *)
Definition two_peers (s1 s2 : peer_state) : gmap Z (node (S := list Z * list Z)) :=
  {[ 8 := Node (small_peer s1) ([], []) 16;
     16 := Node (small_peer s2) ([], []) 0 ]}.

Section Demo.
#[local] Instance the_owner : PeerCallbacks (list rl_msg) := demo_owner 100.
#[local] Instance the_socket : Socket (list Z * list Z) := chunk_socket 4.
#[local] Existing Instance demo_host.
#[local] Existing Instance no_memory.

Definition no_release (w : list rl_msg) (_ : peer) : list rl_msg := w.

Definition demo_updates (s1 s2 : peer_state) : list (Z * node (S := list Z * list Z) * Z) :=
  default [] (fst <$> update_all no_release (-1) ∅ ∅ (two_peers s1 s2) [] [8; 16]).

Lemma two_peers_linked s1 s2 : linked (two_peers s1 s2) 8 [8; 16].
Proof.
  split; [done|]. split; [done|]. eexists. split; [done|].
  split; [done|]. split; [done|]. by eexists.
Qed.

(** The newer peer is removed. *)
Lemma serve_pass_spec_witness :
  ∃ nodes' peers',
    serve_pass no_release (-1) ∅ ∅ (two_peers PEER_ERROR PEER_CONNECTED) [] 8 = Some (nodes', [], peers') ∧
    linked nodes' peers' (kept (demo_updates PEER_ERROR PEER_CONNECTED)) ∧
    ∀ a n st, (a, n, st) ∈ demo_updates PEER_ERROR PEER_CONNECTED →
      nodes' !! a = if removed st then None else Some n.
Proof.
  refine (serve_pass_spec no_release (-1) ∅ ∅ (two_peers PEER_ERROR PEER_CONNECTED) [] 8 [8; 16]
    (demo_updates PEER_ERROR PEER_CONNECTED) [] (two_peers_linked _ _) _ _ _).
  - apply (bool_decide_unpack _). by vm_compute.
  - by vm_compute.
  - apply (bool_decide_unpack _). by vm_compute.
Defined.

(** The older one is removed. *)
Lemma serve_pass_dangling_witness :
  ∃ nodes' peers',
    serve_pass no_release (-1) ∅ ∅ (two_peers PEER_CONNECTED PEER_ERROR) [] 8 = Some (nodes', [], peers') ∧
    dangling nodes' peers'.
Proof.
  set (rs := demo_updates PEER_CONNECTED PEER_ERROR).
  refine (serve_pass_dangling no_release (-1) ∅ ∅ (two_peers PEER_CONNECTED PEER_ERROR) [] 8 [8; 16]
    (take 1 rs) 16 (Node (Peer.set_result 2 (small_peer PEER_ERROR)) ([], []) 0) 2 [] []
    (two_peers_linked _ _) _ _ _ _).
  - apply (bool_decide_unpack _). by vm_compute.
  - by vm_compute.
  - vm_compute. done.
  - done.
Defined.
End Demo.
