(* ===== verification/Serve.v ===== *)
(** * Serve: the server of the target (target.c)

    Accepting connections, the loop of [serve] and the destruction of the peers
    that are left, over the walk of Target and the file systems of AmigaMount.
    ServeEnd shows how the server ends.  What [WaitSelect] reports and what
    [accept], the allocator and the clients of the devices do is a value
    [wakeup] per turn. *)

From S2P Require Import Prelude Wire Messages CString Format Transport Peer.
From S2P Require Import AmigaFs AmigaActions AmigaMount Target.

Section Server.
Context `{HHost : Host} `{Alloc : Allocator} `{HPool : Pool}.
Context {D : Type} `{DOS : Dos D} {S : Type} `{Sock : Socket S}.
(** The null pointer to a peer, and the patience with the DOS list. *)
Context (no_peer : peer) (fuel : nat).
#[local] Existing Instance target_link.

(** ** The state the peers share

    The target's own state, AmigaDOS, and the calls of [CloseSocket]. *)
Record serve_world := ServeWorld {
  sw_target : target_world;
  sw_dos : D;
  sw_closed : list Z
}.

Definition set_target (t : target_world) (w : serve_world) : serve_world :=
  ServeWorld t (sw_dos w) (sw_closed w).
Definition close_socket (fd : Z) (w : serve_world) : serve_world :=
  ServeWorld (sw_target w) (sw_dos w) (sw_closed w ++ [fd]).

(** [userdata]: the file system of the peer at an address. *)
Definition put_fs (ptr : Z) (fs : fsys peer) (t : target_world) : target_world :=
  TargetWorld (<[ptr := fs]> (file_systems t)) (launched t) (launch_outcomes t) (clock t).

Definition serve_callbacks : PeerCallbacks serve_world := {|
  on_message p w msg :=
    '(p, t, rc) ← on_message_received p (sw_target w) msg; Some (p, set_target t w, rc);
  on_connected p w := Some (p, w, 0);
  rl_time w := (w, clock (sw_target w))
|}.
#[local] Existing Instance serve_callbacks.

(** What goes with a removed peer: its file system, which stays allocated, and
    its socket. *)
Definition release_peer (w : serve_world) (p : peer) : serve_world :=
  let w := match file_systems (sw_target w) !! self_ptr p with
           | Some fs =>
               let '(fs, d) := rl_amigafs_destroy no_peer fs (sw_dos w) in
               ServeWorld (put_fs (self_ptr p) fs (sw_target w)) d (sw_closed w)
           | None => w
           end in
  close_socket (fd p) w.

(** ** Accepting a connection *)
Record connection := Connection {
  cn_fd : Z;
  cn_address : sockaddr;
  cn_sized : bool;                 (* remote_addr_len == sizeof(struct sockaddr_in) *)
  cn_sock : S
}.

(** What the allocations of a turn give: the address of a peer, a file system
    structure and the input buffer. *)
Record memory := Memory {
  mem_peer : option Z;
  mem_fs : option (fsys peer);
  mem_input : option (list Z)
}.

Definition is_inet (a : sockaddr) : bool := match a with AF_INET _ _ => true | AF_OTHER => false end.

Definition accept_peer (w : serve_world) (count : Z) (conn : option connection) (m : memory)
  : option (serve_world * option (node (S := S)) * Z) :=
  match conn with
  | None => Some (w, None, count)
  | Some c =>
      let peer_fd := cn_fd c in
      if negb (cn_sized c && is_inet (cn_address c)) then Some (close_socket peer_fd w, None, count)
      else
        match mem_peer m, mem_fs m with
        | Some ptr, Some amifs =>
            '((p, w, rc), count) ←
              peer_init ptr peer_fd (cn_address c) PEER_INIT_TARGET w (mem_input m) count;
            if negb (rc =? 0) then Some (close_socket peer_fd w, None, count) else
            device ← device_name (peer_index p);
            '(amifs, d, rc) ← rl_amigafs_init no_peer fuel amifs (sw_dos w) p device;
            if negb (rc =? 0) then
              _ ← peer_destroy p;
              let w := close_socket peer_fd (ServeWorld (sw_target w) d (sw_closed w)) in
              Some (close_socket peer_fd w, None, count)
            else
              Some (ServeWorld (put_fs ptr amifs (sw_target w)) d (sw_closed w),
                    Some (Node p (cn_sock c) 0), count)
        | _, _ => Some (close_socket peer_fd w, None, count)
        end
  end.

(** ** One turn of the server *)

(** [wk_clients] is what the clients did to the structures they share with the
    file system of a peer, [wk_packets] the messages at the ports that
    signalled, [wk_done] the message of a finished process. *)
Record wakeup := Wakeup {
  wk_clients : Z → fsys peer → fsys peer;
  wk_packets : gmap Z (list Z);
  wk_done : option launch_msg;
  wk_break : bool;
  wk_failed : bool;
  wk_read : gset Z;
  wk_write : gset Z;
  wk_connection : option connection;
  wk_memory : memory
}.

Record server := Server {
  sv_nodes : gmap Z (node (S := S));
  sv_peers : Z;
  sv_world : serve_world;
  sv_count : Z
}.

(** The file systems that were signalled handle their packets. *)
Fixpoint process_devices (k : wakeup) (n : nat) (nodes : gmap Z (node (S := S))) (w : serve_world)
    (p : Z) : option (gmap Z (node (S := S)) * serve_world) :=
  match n with
  | O => None
  | Datatypes.S n =>
      if p =? 0 then Some (nodes, w) else
      q ← nodes !! p;
      fs ← file_systems (sw_target w) !! self_ptr (n_peer q);
      let fs := wk_clients k p fs in
      '(q, fs) ←
        match wk_packets k !! p with
        | Some queue =>
            fs ← rl_amigafs_process_device_message queue (set_peer (n_peer q) fs);
            Some (Node (fs_peer fs) (n_sock q) (n_next q), fs)
        | None => Some (q, fs)
        end;
      process_devices k n (<[p := q]> nodes)
        (set_target (put_fs (self_ptr (n_peer q)) fs (sw_target w)) w) (n_next q)
  end.

(** The result of a finished process goes to the first peer with its index. *)
Fixpoint notify_completion (n : nat) (nodes : gmap Z (node (S := S))) (p : Z) (msg : launch_msg)
  : option (gmap Z (node (S := S))) :=
  match n with
  | O => None
  | Datatypes.S n =>
      if p =? 0 then Some nodes else
      q ← nodes !! p;
      if peer_index (n_peer q) =? launch_peer_index msg then
        '(r, _) ← transmit (n_peer q)
          (RL_MSG_INIT (executable_done_request (u32 (result_code msg))) 0);
        Some (<[p := Node r (n_sock q) (n_next q)]> nodes)
      else notify_completion n nodes (n_next q) msg
  end.

(** The result says whether the loop goes on. *)
Definition serve_turn (server_fd : Z) (sv : server) (k : wakeup) : option (server * bool) :=
  let turns := Datatypes.S (size (sv_nodes sv)) in
  '(read_fds, write_fds, _) ←
    add_peers_to_fd_set turns (sv_nodes sv) (sv_peers sv) {[server_fd]} ∅ 0;
  let read_fds := wk_read k ∩ read_fds in
  let write_fds := wk_write k ∩ write_fds in
  '(nodes, w) ← process_devices k turns (sv_nodes sv) (sv_world sv) (sv_peers sv);
  nodes ← (match wk_done k with
           | Some msg => notify_completion turns nodes (sv_peers sv) msg
           | None => Some nodes
           end);
  let sv := Server nodes (sv_peers sv) w (sv_count sv) in
  if wk_break k || wk_failed k then Some (sv, false) else
  let pass nodes peers w count new_peer_socket :=
    '(nodes, w, peers) ← serve_pass release_peer new_peer_socket read_fds write_fds nodes w peers;
    Some (Server nodes peers w count, true) in
  if bool_decide (server_fd ∈ read_fds) then
    '(w, new_peer, count) ← accept_peer w (sv_count sv) (wk_connection k) (wk_memory k);
    match new_peer with
    | None => Some (Server nodes (sv_peers sv) w count, true)
    | Some (Node p sock _) =>
        pass (<[self_ptr p := Node p sock (sv_peers sv)]> nodes) (self_ptr p) w count (fd p)
    end
  else pass nodes (sv_peers sv) w (sv_count sv) (-1).

(** The peers that are left when the loop ends. *)
Fixpoint destroy_peers (n : nat) (nodes : gmap Z (node (S := S))) (w : serve_world) (ci : Z)
  : option (gmap Z (node (S := S)) * serve_world) :=
  match n with
  | O => None
  | Datatypes.S n =>
      if ci =? 0 then Some (nodes, w) else
      q ← nodes !! ci;
      w ← remove_peer release_peer w (n_peer q);
      destroy_peers n (delete ci nodes) w (n_next q)
  end.

(** The loop, for the wakeups of a run; it is still running when they end. *)
Fixpoint serve (server_fd : Z) (ks : list wakeup) (sv : server) : option (server * bool) :=
  match ks with
  | [] => Some (sv, true)
  | k :: ks =>
      '(sv, running) ← serve_turn server_fd sv k;
      if running : bool then serve server_fd ks sv else
      '(nodes, w) ← destroy_peers (Datatypes.S (size (sv_nodes sv))) (sv_nodes sv) (sv_world sv)
                      (sv_peers sv);
      Some (Server nodes 0 w (sv_count sv), false)
  end.
End Server.

(** ** Facts *)
Section Facts.
Context `{HHost : Host} `{Alloc : Allocator} `{HPool : Pool}.
Context {D : Type} `{DOS : Dos D} {S : Type} `{Sock : Socket S}.
Context (no_peer : peer) (fuel : nat).
Hypothesis list_given : ∀ d, lock_dos_list fuel d ≠ None.
Implicit Types (w : serve_world (D := D)) (c : connection (S := S)) (m : memory).
#[local] Existing Instance serve_callbacks.

(** A peer that waits for the handshake of the controller that connected. *)
Record accepted (ptr : Z) c (id : list Z) (count : Z) (p : peer) : Prop := {
  ac_state : state p = PEER_WAIT_HANDSHAKE;
  ac_mode : init_mode p = PEER_INIT_TARGET;
  ac_ptr : self_ptr p = ptr;
  ac_fd : fd p = cn_fd c;
  ac_ident : ident p = id;
  ac_index : peer_index p = Z.rem count 10
}.

Lemma init_target_spec ptr c id w block count :
  peer_ident (cn_address c) = Some id →
  ∃ p rc count', peer_init ptr (cn_fd c) (cn_address c) PEER_INIT_TARGET w block count =
      Some ((p, w, rc), count') ∧
    match block with
    | None => rc = 1 ∧ count' = count
    | Some _ => rc = 0 ∧ count' = count + 1 ∧ accepted ptr c id count p ∧
                peer_destroy p ≠ None
    end.
Proof.
  intros Hid. unfold peer_init. cbn [rl_time serve_callbacks]. unfold rl_transport_init.
  destruct block as [mem|]; cbn [rl_iobuf_init negb Z.eqb mbind option_bind].
  - rewrite Hid. cbn [mbind option_bind]. rewrite decide_False by done.
    rewrite set_state_other' by done. cbn [mbind option_bind].
    eexists _, 0, _. split; [done|]. split; [done|]. split; [done|]. by split.
  - by eexists _, 1, count.
Qed.

(** What a connection needs to become a peer with a volume. *)
Definition usable c m : bool :=
  cn_sized c && is_inet (cn_address c) && bool_decide (is_Some (mem_peer m)) &&
  bool_decide (is_Some (mem_fs m)) && bool_decide (is_Some (mem_input m)).

(** C23: accepting a connection either gives a peer that waits for the
    handshake, with a file system mounted under the device name of its index,
    or leaves the target and AmigaDOS as they were and closes the connection:
    once when it is not wanted or memory is short, but twice when only the
    device cannot be mounted. *)
Theorem accept_peer_spec w count conn m device :
  v_locked (view (sw_dos w)) = false → device_name (Z.rem count 10) = Some device →
  (∀ c, conn = Some c → is_Some (peer_ident (cn_address c))) →
  ∃ w' r count', accept_peer no_peer fuel w count conn m = Some (w', r, count') ∧
    v_locked (view (sw_dos w')) = false ∧
    match r with
    | None =>
        sw_target w' = sw_target w ∧ view (sw_dos w') = view (sw_dos w) ∧
        sw_closed w' = sw_closed w ++
          match conn with
          | None => []
          | Some c => if usable c m then [cn_fd c; cn_fd c] else [cn_fd c]
          end
    | Some n =>
        sw_closed w' = sw_closed w ∧ count' = count + 1 ∧
        ∃ c id ptr amifs amifs' port a,
          conn = Some c ∧ usable c m = true ∧ mem_peer m = Some ptr ∧ mem_fs m = Some amifs ∧
          peer_ident (cn_address c) = Some id ∧ accepted ptr c id count (n_peer n) ∧
          n_sock n = cn_sock c ∧ sw_target w' = put_fs ptr amifs' (sw_target w) ∧
          unused device (view (sw_dos w)) ∧
          view (sw_dos w') = list_volume a (device, port)
            (add_entry a (add_port port (view (sw_dos w)))) ∧
          initialised amifs amifs' (n_peer n) port a device
    end.
Proof.
  intros Hl Hdev Hids. unfold accept_peer.
  destruct conn as [c|].
  2:{ eexists w, None, count. rewrite app_nil_r. by split_and!. }
  destruct (Hids c eq_refl) as [id Hid]. unfold usable.
  destruct (cn_sized c && is_inet (cn_address c)) eqn:Eu; cbn [negb andb].
  2:{ by eexists _, None, count; split_and!. }
  destruct (mem_peer m) as [ptr|] eqn:Ep; [|by eexists _, None, count; split_and!].
  destruct (mem_fs m) as [amifs|] eqn:Ef; [|by eexists _, None, count; split_and!].
  destruct (init_target_spec ptr c id w (mem_input m) count Hid) as (p & rc & count' & -> & Hp).
  cbn [mbind option_bind].
  destruct (mem_input m) as [block|]; [|destruct Hp as [-> ->]; by eexists _, None, count; split_and!].
  destruct Hp as (-> & -> & Hacc & Hdes). cbn [Z.eqb negb]. rewrite (ac_index _ _ _ _ _ Hacc), Hdev.
  cbn [mbind option_bind].
  destruct (init_outcome no_peer fuel list_given amifs (sw_dos w) p device Hl)
    as (fs' & d' & rc & -> & Hout); [by eapply device_name_no_nul|].
  cbn [mbind option_bind].
  destruct Hout as [(-> & Hv & _)|(-> & Hun & port & a & _ & _ & _ & _ & Hv & Hini)];
    cbn [Z.eqb negb].
  - destruct (peer_destroy p) as [p'|]; [|done]. cbn [mbind option_bind].
    eexists _, None, _. split; [done|]. cbn. rewrite Hv, <- app_assoc. by split_and!.
  - eexists _, (Some _), _. split; [done|]. cbn [sw_dos sw_closed sw_target].
    split; [rewrite Hv; by destruct (view (sw_dos w))|]. split; [done|]. split; [done|].
    exists c, id, ptr, amifs, fs', port, a. rewrite Eu. by split_and!.
Qed.
End Facts.

(** ** The end of the server *)
Section Shutdown.
Context `{HHost : Host} `{Alloc : Allocator} `{HPool : Pool}.
Context {D : Type} `{DOS : Dos D} {S : Type} `{Sock : Socket S}.
Context (no_peer : peer).
Implicit Types (w : serve_world (D := D)).

(** A node as the server keeps it: the peer at its own address, its buffers
    all queued or pooled, its file system in place. *)
Record node_ok w (a : Z) (n : node (S := S)) (fs : fsys peer) : Prop := {
  nk_ptr : self_ptr (n_peer n) = a;
  nk_fs : file_systems (sw_target w) !! a = Some fs;
  nk_buffers : ∃ q f, transport_ok (transport (n_peer n)) q f ∧
    dom (heap (transport (n_peer n))) = list_to_set (q ++ f)
}.

(** What one removal does. *)
Lemma release_spec w a n fs :
  node_ok w a n fs → device_port fs ≠ 0 → dl_address (device_list fs) ≠ 0 →
  let v := view (sw_dos w) in
  ∃ w', remove_peer (release_peer no_peer) w (n_peer n) = Some w' ∧
    sw_closed w' = sw_closed w ++ [fd (n_peer n)] ∧
    file_systems (sw_target w') = <[a := set_peer no_peer fs]> (file_systems (sw_target w)) ∧
    v_ports (view (sw_dos w')) = v_ports v ∖ {[device_port fs]} ∧
    v_volumes (view (sw_dos w')) =
      if dl_Lock (device_list fs) =? 0 then delete (dl_address (device_list fs)) (v_volumes v)
      else v_volumes v.
Proof.
  intros [Hptr Hfs (q & f & Hok & Hdom)] Hport Hvol v. unfold remove_peer, peer_destroy.
  destruct (destroy_all _ q f Hok Hdom) as (t' & -> & _). cbn [mbind option_bind].
  unfold release_peer. rewrite Hptr, Hfs. unfold rl_amigafs_destroy, unmount_volume.
  rewrite !(proj2 (Z.eqb_neq _ 0)) by done. cbn [negb orb].
  eexists. split; [done|]. cbn. subst v.
  destruct (dl_Lock (device_list fs) =? 0); cbn [negb fst];
    rewrite !delete_port_view, ?free_entry_view, ?rem_entry_view; by split_and!.
Qed.

(** The peers of a list are all as the server keeps them. *)
Definition all_ok (nodes : gmap Z (node (S := S))) w (l : list Z) : Prop :=
  ∀ a, a ∈ l → ∃ n fs, nodes !! a = Some n ∧ node_ok w a n fs ∧
    device_port fs ≠ 0 ∧ dl_address (device_list fs) ≠ 0.

Definition descriptors (nodes : gmap Z (node (S := S))) (l : list Z) : list Z :=
  omap (λ a, n ← nodes !! a; Some (fd (n_peer n))) l.

Lemma descriptors_delete nodes a l :
  a ∉ l → descriptors (delete a nodes) l = descriptors nodes l.
Proof.
  unfold descriptors. induction l as [|b l IH]; [done|].
  intros [Hab Hal]%not_elem_of_cons. cbn [omap list_omap].
  rewrite lookup_delete_ne by done. destruct (nodes !! b); cbn; by rewrite IH.
Qed.

(** Nothing of the file system is left, except a volume that a client holds. *)
Definition unmounted (fs : fsys peer) (v : dos_view) : Prop :=
  device_port fs ∉ v_ports v ∧
  (dl_Lock (device_list fs) = 0 → v_volumes v !! dl_address (device_list fs) = None).

Lemma unmounted_smaller fs v v' :
  v_ports v' ⊆ v_ports v → v_volumes v' ⊆ v_volumes v → unmounted fs v → unmounted fs v'.
Proof.
  intros Hp Hv [H1 H2]. split; [set_solver|]. intros Hl.
  eapply lookup_weaken_None; [by apply H2|done].
Qed.

Lemma destroy_peers_run n nodes w p l :
  linked nodes p l → NoDup l → all_ok nodes w l → (length l < n)%nat →
  ∃ nodes' w', destroy_peers no_peer n nodes w p = Some (nodes', w') ∧
    (∀ a, nodes' !! a = if decide (a ∈ l) then None else nodes !! a) ∧
    sw_closed w' = sw_closed w ++ descriptors nodes l ∧
    v_ports (view (sw_dos w')) ⊆ v_ports (view (sw_dos w)) ∧
    v_volumes (view (sw_dos w')) ⊆ v_volumes (view (sw_dos w)) ∧
    ∀ a fs, a ∈ l → file_systems (sw_target w) !! a = Some fs → unmounted fs (view (sw_dos w')).
Proof.
  revert nodes w p l. induction n as [|n IH]; intros nodes w p l Hl Hnd Hok Hn; [lia|].
  destruct l as [|a l].
  { cbn in Hl. subst p. exists nodes, w. cbn. rewrite app_nil_r. split_and!; try done.
    intros a fs Ha. by apply not_elem_of_nil in Ha. }
  apply NoDup_cons in Hnd as [Hal Hnd]. destruct Hl as (-> & Ha & q & Hq & Hl).
  destruct (Hok a) as (q' & fs & Hq' & Hnk & Hport & Hvol); [by left|]. simplify_eq.
  destruct (release_spec w a q fs Hnk Hport Hvol) as (w1 & Hrem & Hc1 & Hf1 & Hp1 & Hv1).
  destruct (linked_frame nodes (n_next q) l a q Hal Hl) as [_ Hl1].
  destruct (IH (delete a nodes) w1 (n_next q) l Hl1 Hnd) as
    (nodes' & w' & Hrun & Hnodes & Hc & Hp & Hv & Hun); [|cbn in Hn; lia|].
  { intros b Hb. destruct (Hok b) as (r & fsb & Hr & [Hk1 Hk2 Hk3] & Hrest); [by right|].
    assert (a ≠ b) by (intros ->; done).
    exists r, fsb. rewrite lookup_delete_ne by done. split; [done|]. split; [|done].
    split; [done| |done]. by rewrite Hf1, lookup_insert_ne. }
  exists nodes', w'. cbn [destroy_peers]. rewrite (proj2 (Z.eqb_neq a 0)) by done.
  rewrite Hq. cbn [mbind option_bind]. rewrite Hrem. cbn [mbind option_bind].
  assert (Hsub : v_volumes (view (sw_dos w1)) ⊆ v_volumes (view (sw_dos w))).
  { rewrite Hv1. case_match; [apply delete_subseteq|done]. }
  split; [done|]. split_and!.
  - intros b. rewrite Hnodes. destruct (decide (b = a)) as [->|Hb].
    + rewrite decide_False, lookup_delete_eq by done. by rewrite decide_True by by left.
    + rewrite lookup_delete_ne by done. by rewrite (decide_ext (b ∈ l) (b ∈ a :: l)) by set_solver.
  - rewrite Hc, Hc1, descriptors_delete, <- app_assoc by done.
    unfold descriptors. cbn [omap list_omap app]. by rewrite Hq.
  - rewrite Hp, Hp1. set_solver.
  - by etrans.
  - intros b fsb [->|Hb]%elem_of_cons Hfsb.
    + destruct Hnk as [_ Hfs _]. simplify_eq. eapply unmounted_smaller; [exact Hp|exact Hv|].
      split; [rewrite Hp1; set_solver|]. intros H0. rewrite Hv1, H0. cbn. apply lookup_delete_eq.
    + apply (Hun b fsb Hb). rewrite Hf1, lookup_insert_ne by (intros ->; done). done.
Qed.

End Shutdown.

(** ** Concrete runs *)
Section Demo.
#[local] Existing Instance demo_host.
#[local] Existing Instance no_memory.
#[local] Existing Instance bump_pool.
#[local] Existing Instance simple_dos.
#[local] Instance the_socket : Socket (list Z * list Z) := chunk_socket 4.

Definition null_peer : peer := small_peer PEER_INITIAL.

(** A file system with its port and its volume. *)
Definition server_fs (port volume lock : Z) : fsys peer :=
  Fsys _ null_peer 0 port (Volume volume [] 0 port lock ID_DOS_DISK) [] 64 ∅ ∅ ∅ ∅ ∅ ∅ ∅ [].

Definition empty_target : target_world := TargetWorld ∅ [] [] 50.
Definition demo_server : serve_world (D := dos_view) := ServeWorld empty_target demo_dos [].
Definition demo_connection : connection (S := list Z * list Z) :=
  Connection 5 (AF_INET 167772162 7001) true ([], []).
Definition demo_memory : memory := Memory (Some 300) (Some (server_fs 0 0 0)) (Some [0; 0]).

Lemma accept_peer_spec_witness :
  let v := demo_dos in
  ∃ w' r count', accept_peer null_peer 1 demo_server 12 (Some demo_connection) demo_memory =
      Some (w', r, count') ∧ v_locked (sw_dos w') = false ∧
    match r with
    | None => sw_target w' = empty_target ∧ sw_dos w' = v ∧ sw_closed w' = [] ++ [5; 5]
    | Some n =>
        sw_closed w' = [] ∧ count' = 13 ∧
        ∃ c id ptr amifs amifs' port a,
          Some demo_connection = Some c ∧ usable c demo_memory = true ∧
          mem_peer demo_memory = Some ptr ∧ mem_fs demo_memory = Some amifs ∧
          peer_ident (cn_address c) = Some id ∧ accepted ptr c id 12 (n_peer n) ∧
          n_sock n = cn_sock c ∧ sw_target w' = put_fs ptr amifs' empty_target ∧
          unused (chars "TBL2") v ∧
          sw_dos w' = list_volume a (chars "TBL2", port) (add_entry a (add_port port v)) ∧
          initialised amifs amifs' (n_peer n) port a (chars "TBL2")
    end.
Proof.
  refine (accept_peer_spec null_peer 1 demo_list_given demo_server 12 (Some demo_connection)
    demo_memory (chars "TBL2") _ _ _).
  - done.
  - by vm_compute.
  - intros c [= <-]. by eexists.
Defined.

(** Control-C. *)
Definition break_pressed : wakeup (S := list Z * list Z) :=
  Wakeup (λ _ fs, fs) ∅ None true false {[ 3 ]} ∅ None (Memory None None None).
End Demo.
