(* ===== verification/ServeEnd.v ===== *)
(** * ServeEnd: the end of the server of the target

    Control-C or a failing [select] ends the server, whatever else has happened
    since the last turn: the packets that arrived are handled, the result of a
    finished program is sent, and then every peer is taken down. *)

From S2P Require Import Prelude Wire Messages CString Format Transport Peer.
From S2P Require Import AmigaFs AmigaActions AmigaMount AmigaSession AmigaTypes AmigaContract.
From S2P Require Import Target Serve.

Section Tidy.
Context `{HHost : Host} `{Alloc : Allocator}.
Implicit Types (p : peer) (m : rl_msg).

(** ** Peers that lose no memory *)

(** Every block of the heap is queued or pooled. *)
Definition tidy p : Prop :=
  ∃ q f, peer_ok p q f ∧ dom (heap (transport p)) = list_to_set (q ++ f).

(** What identifies a peer. *)
Record same_peer p p' : Prop := {
  sp_ptr : self_ptr p' = self_ptr p;
  sp_fd : fd p' = fd p
}.

Lemma transmit_tidy p m :
  tidy p → msg_ok m → ∃ p', peer_transmit_message p m = Some (p', 0) ∧ tidy p' ∧ same_peer p p'.
Proof.
  intros (q & f & Hok & Hd) Hm. unfold peer_transmit_message. cbn [invoke_at].
  destruct (state p) eqn:Es; cbn [state_actions peer_state_index peer_action_index lookup list_lookup
    mbind option_bind].
  3:{ unfold on_transmit_message. cbn [mbind option_bind].
      destruct (enqueue_spec p q f m Hok Hm) as (t' & rc & q' & f' & -> & Hok' & _ & _ & _ & Hd' & _).
      cbn [mbind option_bind]. assert (tidy (set_transport t' p)) as Ht by (exists q', f'; auto).
      destruct (negb (rc =? 0)); cbn [mbind option_bind]; [|by eexists].
      unfold peer_set_state. cbn [state set_transport]. rewrite Es, !decide_False by done.
      cbn [mbind option_bind]. eexists. split; [done|]. split; [|done].
      destruct Ht as (q1 & f1 & [] & ?). by exists q1, f1; split; [split|]. }
  all: unfold peer_set_state; case_decide as E; [|rewrite decide_False by done]; cbn [mbind option_bind];
    eexists; (split; [done|]); (split; [|done]); exists q, f; by destruct Hok; split; [split|].
Qed.

(** So a tidy peer keeps the promise of a link, whatever becomes of its
    connection. *)
#[refine] Definition tidy_link (p0 : peer) : PeerLink peer := {|
  transmit := peer_transmit_message;
  link_sent p _ := tidy p ∧ same_peer p0 p;
  link_down _ := False;
  transmit_zero := peer_transmit_zero
|}.
Proof.
  - intros p ms m [Ht Hs] Hm. destruct (transmit_tidy p m Ht Hm) as (p' & E & Ht' & Hs').
    exists p'. split; [done|]. left. split; [done|]. destruct Hs, Hs'. split; congruence.
  - done.
Defined.

Lemma tidy_up p0 p : link_up (Link := tidy_link p0) p → tidy p ∧ same_peer p0 p.
Proof. by intros [[ms H]|H]. Qed.
End Tidy.

Section Shutdown.
Context `{HHost : Host} `{Alloc : Allocator} `{HPool : Pool}.
Context {D : Type} `{DOS : Dos D} {S : Type} `{Sock : Socket S}.
Context (no_peer : peer).
Implicit Types (w : serve_world (D := D)) (nodes : gmap Z (node (S := S))) (k : wakeup (S := S)).

(** ** The last turn *)

(** The peer at [a], its file system [fs] as the clients have left it, and the
    packets that wait at its port. *)
Record at_work k w (a : Z) (n : node (S := S)) (fs : fsys peer) : Prop := {
  aw_ptr : self_ptr (n_peer n) = a;
  aw_fs : file_systems (sw_target w) !! a = Some fs;
  aw_working : working (Link := tidy_link (n_peer n)) (set_peer (n_peer n) (wk_clients k a fs));
  aw_queue : ∀ queue, wk_packets k !! a = Some queue →
    queue_ok (Link := target_link) queue (set_peer (n_peer n) (wk_clients k a fs));
  aw_port : device_port (wk_clients k a fs) ≠ 0;
  aw_volume : dl_address (device_list (wk_clients k a fs)) ≠ 0
}.

Definition all_at_work k nodes w (l : list Z) : Prop :=
  ∀ a, a ∈ l → ∃ n fs, nodes !! a = Some n ∧ at_work k w a n fs.

(** What the turn leaves of them. *)
Record worked k w w' (a : Z) (n n' : node (S := S)) : Prop := {
  wd_next : n_next n' = n_next n;
  wd_tidy : tidy (n_peer n');
  wd_same : same_peer (n_peer n) (n_peer n');
  wd_fs : ∀ fs, file_systems (sw_target w) !! a = Some fs →
    ∃ fs', file_systems (sw_target w') !! a = Some fs' ∧
      device_port fs' = device_port (wk_clients k a fs) ∧
      device_list fs' = device_list (wk_clients k a fs)
}.

Lemma device_worked k w a n fs :
  at_work k w a n fs →
  ∃ n' fs', (match wk_packets k !! a with
             | Some queue =>
                 fs ← rl_amigafs_process_device_message (Link := target_link) queue
                        (set_peer (n_peer n) (wk_clients k a fs));
                 Some (Node (fs_peer fs) (n_sock n) (n_next n), fs)
             | None => Some (n, wk_clients k a fs)
             end) = Some (n', fs') ∧
    n_next n' = n_next n ∧ tidy (n_peer n') ∧ same_peer (n_peer n) (n_peer n') ∧
    device_port fs' = device_port (wk_clients k a fs) ∧
    device_list fs' = device_list (wk_clients k a fs).
Proof.
  intros [Hptr Hfs Hw Hq Hport Hvol]. destruct (wk_packets k !! a) as [queue|].
  - specialize (Hq _ eq_refl).
    destruct (queue_served (Link := tidy_link (n_peer n)) queue _ Hw Hq) as (fs' & E & Hw' & Hl & Hp).
    change (rl_amigafs_process_device_message (Link := tidy_link (n_peer n)))
      with (rl_amigafs_process_device_message (Link := target_link)) in E.
    rewrite E. cbn [mbind option_bind]. eexists _, fs'. split; [done|]. split; [done|].
    destruct (tidy_up _ _ (wk_link _ Hw')) as [Ht Hs]. by split_and!.
  - exists n, (wk_clients k a fs). split; [done|]. split; [done|].
    destruct (tidy_up _ _ (wk_link _ Hw)) as [Ht Hs]. by split_and!.
Qed.

Lemma process_devices_work k m nodes w p l :
  linked nodes p l → NoDup l → all_at_work k nodes w l → (length l < m)%nat →
  ∃ nodes' w', process_devices k m nodes w p = Some (nodes', w') ∧ linked nodes' p l ∧
    sw_closed w' = sw_closed w ∧ sw_dos w' = sw_dos w ∧
    (∀ b, b ∉ l → nodes' !! b = nodes !! b ∧
      file_systems (sw_target w') !! b = file_systems (sw_target w) !! b) ∧
    ∀ a n, a ∈ l → nodes !! a = Some n → ∃ n', nodes' !! a = Some n' ∧ worked k w w' a n n'.
Proof.
  revert m nodes w p. induction l as [|a l IH]; intros m nodes w p Hl Hnd Hall Hm;
    (destruct m as [|m]; [cbn in Hm; lia|]); cbn [process_devices].
  { cbn in Hl. subst p. exists nodes, w. split_and!; try done.
    intros a n Ha. by apply not_elem_of_nil in Ha. }
  apply NoDup_cons in Hnd as [Hal Hnd]. destruct Hl as (-> & Ha & q & Hq & Hl).
  rewrite (proj2 (Z.eqb_neq a 0)), Hq by done. cbn [mbind option_bind].
  destruct (Hall a) as (q' & fs & Hq' & Hwork); [by left|]. rewrite Hq in Hq'. injection Hq' as <-.
  rewrite (aw_ptr _ _ _ _ _ Hwork), (aw_fs _ _ _ _ _ Hwork). cbn [mbind option_bind].
  destruct (device_worked _ _ _ _ _ Hwork) as (n' & fs' & -> & Hnext & Htidy & Hsame & Hport & Hlist).
  cbn [mbind option_bind]. rewrite (sp_ptr _ _ Hsame), (aw_ptr _ _ _ _ _ Hwork), Hnext.
  set (w1 := set_target _ w).
  destruct (IH m (<[a := n']> nodes) w1 (n_next q)) as
    (nodes' & w' & -> & Hl' & Hcl & Hdos & Hrest & Hdone); [by apply linked_frame|done| |cbn in Hm; lia|].
  { intros b Hb. assert (a ≠ b) by (intros ->; done).
    destruct (Hall b) as (r & fsb & Hr & [H1 H2 H3 H4 H5 H6]); [by right|].
    exists r, fsb. rewrite lookup_insert_ne by done. split; [done|]. split; try done.
    cbn. by rewrite lookup_insert_ne. }
  destruct (Hrest a Hal) as [Hna Hfa]. rewrite lookup_insert_eq in Hna. cbn in Hfa.
  rewrite lookup_insert_eq in Hfa.
  exists nodes', w'. split; [done|]. split; [|split; [done|split; [done|split]]].
  - split; [done|]. split; [done|]. exists n'. by rewrite Hnext.
  - intros b [Hb Hbl]%not_elem_of_cons. destruct (Hrest b Hbl) as [-> ->]. cbn.
    by rewrite !lookup_insert_ne.
  - intros b n [->|Hb]%elem_of_cons Hn.
    + simplify_eq. exists n'. split; [done|]. split; [done..|]. intros fs0 Hfs0.
      rewrite (aw_fs _ _ _ _ _ Hwork) in Hfs0. simplify_eq. by exists fs'.
    + assert (a ≠ b) by (intros ->; done).
      destruct (Hdone b n Hb) as (n1 & Hn1 & [W1 W2 W3 W4]); [by rewrite lookup_insert_ne|].
      exists n1. split; [done|]. split; try done. intros fs0 Hfs0. apply W4. cbn.
      by rewrite lookup_insert_ne.
Qed.

(** ** The result of a finished program *)
Lemma notify_works m nodes p l msg :
  linked nodes p l → NoDup l → (length l < m)%nat →
  (∀ a, a ∈ l → ∃ n, nodes !! a = Some n ∧ tidy (n_peer n)) →
  ∃ nodes', notify_completion m nodes p msg = Some nodes' ∧ linked nodes' p l ∧
    (∀ b, b ∉ l → nodes' !! b = nodes !! b) ∧
    ∀ a n, a ∈ l → nodes !! a = Some n → ∃ n', nodes' !! a = Some n' ∧
      tidy (n_peer n') ∧ same_peer (n_peer n) (n_peer n').
Proof.
  revert m nodes p. induction l as [|a l IH]; intros m nodes p Hl Hnd Hm Htidy;
    (destruct m as [|m]; [cbn in Hm; lia|]); cbn [notify_completion].
  { cbn in Hl. subst p. exists nodes. split_and!; try done.
    intros a n Ha. by apply not_elem_of_nil in Ha. }
  apply NoDup_cons in Hnd as [Hal Hnd]. destruct Hl as (-> & Ha & q & Hq & Hl).
  rewrite (proj2 (Z.eqb_neq a 0)), Hq by done. cbn [mbind option_bind].
  destruct (peer_index (n_peer q) =? launch_peer_index msg).
  - destruct (Htidy a) as (q' & Hq' & Ht); [by left|]. rewrite Hq in Hq'. injection Hq' as <-.
    destruct (transmit_tidy (n_peer q)
      (RL_MSG_INIT (executable_done_request (u32 (result_code msg))) 0) Ht) as (r & E & Hr & Hs).
    { split; [split; try done; apply u32_range|]. unfold wire_length. cbn [body RL_MSG_INIT body_bytes].
      rewrite length_be_split. lia. }
    cbn [transmit target_link peer_link]. rewrite E. cbn [mbind option_bind].
    exists (<[a := Node r (n_sock q) (n_next q)]> nodes). split; [done|].
    destruct (linked_frame nodes (n_next q) l a (Node r (n_sock q) (n_next q)) Hal Hl) as [Hl1 _].
    split; [|split].
    + split; [done|]. split; [done|]. eexists. by rewrite lookup_insert_eq.
    + intros b [Hb _]%not_elem_of_cons. by rewrite lookup_insert_ne.
    + intros b n Hb Hn. destruct (decide (b = a)) as [->|Hne].
      * rewrite lookup_insert_eq. simplify_eq. by eexists.
      * rewrite lookup_insert_ne by done. exists n. split; [done|].
        destruct (Htidy b Hb) as (n1 & Hn1 & Ht1). simplify_eq. by split.
  - destruct (IH m nodes (n_next q) Hl Hnd) as (nodes' & -> & Hl' & Hrest & Hdone);
      [cbn in Hm; lia|intros b Hb; apply Htidy; by right|].
    assert (nodes' !! a = Some q) as Hqa by by rewrite Hrest.
    exists nodes'. split; [done|]. split; [|split].
    + split; [done|]. split; [done|]. by exists q.
    + intros b [_ Hb]%not_elem_of_cons. by apply Hrest.
    + intros b n [->|Hb]%elem_of_cons Hn; [|by apply Hdone].
      exists q. split; [done|]. destruct (Htidy a) as (n1 & Hn1 & Ht1); [by left|]. simplify_eq. by split.
Qed.

(** ** The end *)
Lemma add_peers_total n (nodes : gmap Z (node (S := S))) p l rs ws max :
  linked nodes p l → (length l < n)%nat → is_Some (add_peers_to_fd_set n nodes p rs ws max).
Proof.
  revert p l rs ws max. induction n as [|n IH]; intros p l rs ws max Hl Hn; [lia|].
  cbn [add_peers_to_fd_set]. destruct l as [|a l]; [cbn in Hl; subst p; by eexists|].
  destruct Hl as (-> & Ha & q & Hq & Hl). rewrite (proj2 (Z.eqb_neq a 0)), Hq by done.
  cbn [mbind option_bind]. eapply IH; [done|cbn in Hn; lia].
Qed.

Lemma descriptors_same nodes nodes' (l : list Z) :
  (∀ a n, a ∈ l → nodes !! a = Some n → ∃ n', nodes' !! a = Some n' ∧ fd (n_peer n') = fd (n_peer n)) →
  (∀ a, a ∈ l → is_Some (nodes !! a)) → descriptors nodes' l = descriptors nodes l.
Proof.
  unfold descriptors. induction l as [|a l IH]; intros H Hs; [done|]. cbn [omap list_omap].
  destruct (Hs a) as [n Hn]; [by left|]. destruct (H a n) as (n' & Hn' & Hf); [by left|done|].
  rewrite Hn, Hn'. cbn [mbind option_bind]. rewrite Hf. f_equal.
  apply IH; [intros b m Hb; apply H; by right|intros b Hb; apply Hs; by right].
Qed.

(** C24: control-C or a failing [select] ends the server in the turn in which it
    comes, whatever else this turn brings: packets at the ports of the peers,
    changes of the clients to what they share with the file systems (within the
    contract of AmigaContract), the result of a finished program.  Every peer of
    the list is destroyed once, its node is freed, its socket closed in the
    order of the list, its port is gone, and so is its volume unless a client
    holds a lock on it. *)
Theorem serve_break_spec fuel server_fd k ks sv l :
  let w := sv_world sv in
  linked (sv_nodes sv) (sv_peers sv) l → NoDup l → all_at_work k (sv_nodes sv) w l →
  wk_break k || wk_failed k = true →
  ∃ nodes' w', serve no_peer fuel server_fd (k :: ks) sv =
      Some (Server nodes' 0 w' (sv_count sv), false) ∧
    (∀ a, a ∈ l → nodes' !! a = None) ∧
    sw_closed w' = sw_closed w ++ descriptors (sv_nodes sv) l ∧
    ∀ a fs, a ∈ l → file_systems (sw_target w) !! a = Some fs →
      unmounted (wk_clients k a fs) (view (sw_dos w')).
Proof.
  intros w Hl Hnd Hall Hend. pose proof (linked_size _ _ _ Hl Hnd) as Hs.
  cbn [serve]. unfold serve_turn. fold w.
  destruct (add_peers_total (Datatypes.S (size (sv_nodes sv))) (sv_nodes sv) (sv_peers sv) l
    {[server_fd]} ∅ 0 Hl) as [[[rs ws] max] ->]; [lia|]. cbn [mbind option_bind].
  destruct (process_devices_work k (Datatypes.S (size (sv_nodes sv))) (sv_nodes sv) w (sv_peers sv) l
    Hl Hnd Hall) as (nodes1 & w1 & -> & Hl1 & Hcl1 & Hdos1 & _ & Hdone1); [lia|]. cbn [mbind option_bind].
  assert (∃ nodes2, (match wk_done k with
      | Some msg => notify_completion (Datatypes.S (size (sv_nodes sv))) nodes1 (sv_peers sv) msg
      | None => Some nodes1 end) = Some nodes2 ∧ linked nodes2 (sv_peers sv) l ∧
      ∀ a n, a ∈ l → nodes1 !! a = Some n → tidy (n_peer n) →
        ∃ n', nodes2 !! a = Some n' ∧ tidy (n_peer n') ∧ same_peer (n_peer n) (n_peer n'))
    as (nodes2 & -> & Hl2 & Hdone2).
  { destruct (wk_done k) as [msg|].
    - destruct (notify_works (Datatypes.S (size (sv_nodes sv))) nodes1 (sv_peers sv) l msg Hl1 Hnd)
        as (nodes2 & E & Hl2 & _ & Hd2); [lia| |exists nodes2; by eauto].
      intros a Ha. destruct (Hall a Ha) as (n & fs & Hn & _).
      destruct (Hdone1 a n Ha Hn) as (n' & Hn' & [_ Ht _ _]). by exists n'.
    - exists nodes1. split; [done|]. split; [done|]. intros a n Ha Hn Ht. exists n. by split_and!. }
  cbn [mbind option_bind]. rewrite Hend. cbn [mbind option_bind sv_nodes sv_world sv_peers sv_count].
  assert (Hboth : ∀ a n fs, a ∈ l → sv_nodes sv !! a = Some n → at_work k w a n fs →
    ∃ n2 fs2, nodes2 !! a = Some n2 ∧ tidy (n_peer n2) ∧ same_peer (n_peer n) (n_peer n2) ∧
      file_systems (sw_target w1) !! a = Some fs2 ∧
      device_port fs2 = device_port (wk_clients k a fs) ∧
      device_list fs2 = device_list (wk_clients k a fs)).
  { intros a n fs Ha Hn Hw. destruct (Hdone1 a n Ha Hn) as (n1 & Hn1 & [_ Ht1 Hs1 Hf1]).
    destruct (Hdone2 a n1 Ha Hn1 Ht1) as (n2 & Hn2 & Ht2 & Hs2).
    destruct (Hf1 fs (aw_fs _ _ _ _ _ Hw)) as (fs2 & Hfs2 & Hp & Hd).
    exists n2, fs2. split_and!; try done. destruct Hs1, Hs2. split; congruence. }
  assert (Hok : all_ok nodes2 w1 l).
  { intros a Ha. destruct (Hall a Ha) as (n & fs & Hn & Hw).
    destruct (Hboth a n fs Ha Hn Hw) as (n2 & fs2 & Hn2 & (q & f & [Hq _] & Hd) & Hs2 & Hfs2 & Hp & Hv).
    exists n2, fs2. split; [done|]. rewrite Hp, Hv. destruct Hw. split; [|done].
    split; [by rewrite (sp_ptr _ _ Hs2)|done|by exists q, f]. }
  pose proof (linked_size _ _ _ Hl2 Hnd) as Hs2.
  destruct (destroy_peers_run no_peer (Datatypes.S (size nodes2)) nodes2 w1 (sv_peers sv) l
    Hl2 Hnd Hok) as (nodes' & w' & -> & Hn' & Hc & _ & _ & Hun); [lia|].
  cbn [mbind option_bind]. exists nodes', w'. split; [done|]. split; [|split].
  - intros a Ha. by rewrite Hn', decide_True.
  - rewrite Hc, Hcl1. f_equal. apply descriptors_same.
    + intros a n Ha Hn. destruct (Hall a Ha) as (n0 & fs & Hn0 & Hw). simplify_eq.
      destruct (Hboth a n fs Ha Hn Hw) as (n2 & fs2 & Hn2 & _ & Hsame & _). exists n2.
      split; [done|]. apply Hsame.
    + intros a Ha. destruct (Hall a Ha) as (n & fs & Hn & _). by exists n.
  - intros a fs Ha Hfs. destruct (Hall a Ha) as (n & fs0 & Hn & Hw).
    destruct (Hboth a n fs0 Ha Hn Hw) as (n2 & fs2 & _ & _ & _ & Hfs2 & Hp & Hd).
    pose proof (aw_fs _ _ _ _ _ Hw) as E. simplify_eq.
    destruct (Hun a fs2 Ha Hfs2) as [H1 H2]. unfold unmounted. by rewrite <- Hp, <- Hd.
Qed.
End Shutdown.

(** ** Two peers at work

    The system program of the first opens RL:a and its own program has ended; a
    client holds a lock on the volume of the second.  Then control-C. *)
Section Demo.
#[local] Existing Instance demo_host.
#[local] Existing Instance ample_memory.
#[local] Existing Instance bump_pool.
#[local] Existing Instance simple_dos.
#[local] Instance the_socket : Socket (list Z * list Z) := chunk_socket 4.

Definition at_address (ptr fd index : Z) : peer :=
  Peer ptr PEER_CONNECTED fd [] index (transport null_peer) 0 PEER_INIT_TARGET 100 false.
Definition demo_nodes : gmap Z (node (S := list Z * list Z)) :=
  {[ 8 := Node (at_address 8 3 7) ([], []) 16; 16 := Node (at_address 16 4 9) ([], []) 0 ]}.
Definition two_volumes : dos_view :=
  DosView {[ 100; 104 ]} {[ 200; 204 ]}
    {[ 200 := (chars "TBL0", 100); 204 := (chars "TBL1", 104) ]} false.
Definition mounted_at (port volume lock : Z) : fsys peer :=
  let s := demo_mounted in
  Fsys _ null_peer (seqno s) port (Volume volume (bstr (chars "RL")) 0 port lock ID_DOS_DISK) []
    (root_addr s) (chandles s) (locks s) ∅ (fhs s) ∅ ∅ (mem s) [].
Definition demo_running : serve_world (D := dos_view) :=
  ServeWorld (TargetWorld {[ 8 := mounted_at 100 200 0; 16 := mounted_at 104 204 77 ]} [] [] 50)
    two_volumes [].

Definition clients_ask (p : Z) (fs : fsys peer) : fsys peer :=
  if p =? 8 then set_packets {[ 500 := demo_find ]} fs else fs.
Definition busy_break : wakeup (S := list Z * list Z) :=
  Wakeup clients_ask {[ 8 := [500] ]} (Some (LaunchMsg [] [] [] [] 7 0 5)) true false {[ 3 ]} ∅ None
    (Memory None None None).

Lemma small_transport_ok : transport_ok (transport null_peer) [] [].
Proof. split; cbn; try done; [constructor|]. intros a Ha. by apply not_elem_of_nil in Ha. Qed.

Lemma tidy_at (ptr fd index : Z) : tidy (at_address ptr fd index).
Proof.
  exists [], []. split; [|done]. split; [exact small_transport_ok|]. by intros a b Hab.
Qed.

Lemma mounted_works (p0 : peer) (port volume lock : Z) ps :
  tidy p0 →
  working (Link := tidy_link p0) (set_peer p0 (set_packets ps (mounted_at port volume lock))).
Proof.
  intros Hp. destruct demo_mounted_ok. split; [by split|left; by exists []|constructor|].
  exists (chars "RL"). split; [done|cbn; lia].
Qed.

Lemma demo_at_work : all_at_work busy_break demo_nodes demo_running [8; 16].
Proof.
  intros a Ha. assert (a = 8 ∨ a = 16) as [-> | ->] by set_solver.
  - exists (Node (at_address 8 3 7) ([], []) 16), (mounted_at 100 200 0).
    split; [done|]. split; try done.
    + exact (mounted_works (at_address 8 3 7) 100 200 0 {[ 500 := demo_find ]} (tidy_at _ _ _)).
    + intros queue Hq. assert (queue = [500]) as -> by (vm_compute in Hq; congruence).
      split; [|done]. exists demo_find. split; [by vm_compute|].
      split; [by apply demo_name; vm_compute|done].
  - exists (Node (at_address 16 4 9) ([], []) 0), (mounted_at 104 204 77).
    split; [done|]. split; try done.
    exact (mounted_works (at_address 16 4 9) 104 204 77 ∅ (tidy_at _ _ _)).
Qed.

Lemma serve_break_spec_witness :
  ∃ nodes' w', serve null_peer 1 2 [busy_break] (Server demo_nodes 8 demo_running 14) =
      Some (Server nodes' 0 w' 14, false) ∧
    (∀ a, a ∈ [8; 16] → nodes' !! a = None) ∧ sw_closed w' = [] ++ [3; 4] ∧
    ∀ a fs, a ∈ [8; 16] → file_systems (sw_target demo_running) !! a = Some fs →
      unmounted (clients_ask a fs) (sw_dos w').
Proof.
  refine (serve_break_spec null_peer 1 2 busy_break [] (Server demo_nodes 8 demo_running 14)
    [8; 16] _ _ demo_at_work _).
  - split; [done|]. split; [done|]. eexists. split; [done|].
    split; [done|]. split; [done|]. by eexists.
  - apply (bool_decide_unpack _). by vm_compute.
  - done.
Defined.
End Demo.
