(* ===== verification/OneController.v ===== *)
(** * OneController: the server of the target with one controller at a time

    The walk over the peers of target.c loses track of its list when a peer
    that is not the newest is removed (Target).  As long as a controller only
    connects when no other is there, which is how the target is meant to be
    used, that cannot happen: the memory of the server holds one peer or none,
    in every state that it reaches. *)

From stdpp Require Import relations.
From S2P Require Import Prelude Wire Messages CString Format Transport Peer.
From S2P Require Import AmigaFs AmigaActions AmigaMount Target Serve.

Section OneController.
Context `{HHost : Host} `{Alloc : Allocator} `{HPool : Pool}.
Context {D : Type} `{DOS : Dos D} {S : Type} `{Sock : Socket S}.
Context (no_peer : peer) (fuel : nat) (server_fd : Z).
Implicit Types (w : serve_world (D := D)) (nodes : gmap Z (node (S := S))).
#[local] Existing Instance serve_callbacks.
#[local] Existing Instance target_link.

#[local] Abbreviation server := (server (D := D) (S := S)).

(** The list is the memory: nothing else is allocated, nothing dangles. *)
Definition lone_list nodes (p : Z) : Prop :=
  (nodes = ∅ ∧ p = 0) ∨ ∃ n, p ≠ 0 ∧ nodes = {[p := n]} ∧ n_next n = 0.
Definition lone (sv : server) : Prop := lone_list (sv_nodes sv) (sv_peers sv).

(** A turn in which a controller may only connect when no other is there; the
    allocator does not give the null pointer for a block. *)
Inductive lone_turn : server → server → Prop :=
  | a_turn sv k sv' :
      serve_turn no_peer fuel server_fd sv k = Some (sv', true) →
      wk_connection k = None ∨ sv_peers sv = 0 →
      mem_peer (wk_memory k) ≠ Some 0 →
      lone_turn sv sv'.

Lemma process_devices_lone k n nodes w p nodes' w' :
  lone_list nodes p → process_devices k n nodes w p = Some (nodes', w') → lone_list nodes' p.
Proof.
  intros [[-> ->]|(q & Hp & -> & Hq)]; (destruct n as [|n]; [done|]); cbn [process_devices].
  - intros [= <- _]. by left.
  - rewrite (proj2 (Z.eqb_neq p 0)) by done. rewrite lookup_singleton_eq. cbn [mbind option_bind].
    intros (fs & _ & H)%bind_Some. apply bind_Some in H as ([q' fs'] & Hq' & H).
    assert (n_next q' = 0) as Hn.
    { destruct (wk_packets k !! p).
      - apply bind_Some in Hq' as (fs2 & _ & E). injection E as E _. by rewrite <- E.
      - injection Hq' as E _. by rewrite <- E. }
    rewrite Hn, insert_singleton_eq in H.
    destruct n; cbn in H; [done|]. injection H as <- _. right. by exists q'.
Qed.

Lemma notify_lone n nodes p msg nodes' :
  lone_list nodes p → notify_completion n nodes p msg = Some nodes' → lone_list nodes' p.
Proof.
  intros [[-> ->]|(q & Hp & -> & Hq)]; (destruct n as [|n]; [done|]); cbn [notify_completion].
  - intros [= <-]. by left.
  - rewrite (proj2 (Z.eqb_neq p 0)) by done. rewrite lookup_singleton_eq. cbn [mbind option_bind].
    destruct (peer_index (n_peer q) =? launch_peer_index msg).
    + intros ([r rc] & _ & [= <-])%bind_Some. rewrite insert_singleton_eq. right. by eexists.
    + rewrite Hq. destruct n; cbn; [done|]. intros [= <-]. right. by exists q.
Qed.

Lemma serve_pass_lone new_fd read_fds write_fds nodes w p nodes' w' p' :
  lone_list nodes p →
  serve_pass (release_peer no_peer) new_fd read_fds write_fds nodes w p = Some (nodes', w', p') →
  lone_list nodes' p'.
Proof.
  unfold serve_pass. intros [[-> ->]|(q & Hp & -> & Hq)]; cbn [update_peers].
  - intros [= <- _ <-]. by left.
  - rewrite (proj2 (Z.eqb_neq p 0)) by done. rewrite lookup_singleton_eq. cbn [mbind option_bind].
    intros ([[[r w1] sock] st] & _ & H)%bind_Some. rewrite Hq in H.
    rewrite insert_singleton_eq, map_size_singleton in H.
    destruct (negb (Z.land PEER_STATUS_REMOVE_ME st =? 0)).
    + cbn [negb Z.eqb mbind option_bind] in H. apply bind_Some in H as (w2 & _ & H).
      rewrite delete_singleton_eq in H. cbn in H. injection H as <- _ <-. by left.
    + cbn in H. injection H as <- _ <-. right. by eexists.
Qed.

Lemma accepted_address w count (conn : option (connection (S := S))) m w' p sock next count' :
  accept_peer no_peer fuel w count conn m = Some (w', Some (Node p sock next), count') →
  mem_peer m ≠ Some 0 → conn ≠ None ∧ self_ptr p ≠ 0.
Proof.
  unfold accept_peer. destruct conn as [c|]; [|done]. intros H Hm. split; [done|].
  destruct (negb (cn_sized c && is_inet (cn_address c))); [done|].
  destruct (mem_peer m) as [ptr|]; [|done]. destruct (mem_fs m) as [amifs|]; [|done].
  apply bind_Some in H as ([[[q w1] rc] n] & Hinit & H).
  destruct (negb (rc =? 0)) eqn:Erc; [done|].
  apply bind_Some in H as (device & _ & H). apply bind_Some in H as ([[fs d] rc2] & _ & H).
  destruct (negb (rc2 =? 0)).
  { by apply bind_Some in H as (? & _ & H). }
  injection H as _ <- _ _ _.
  assert (self_ptr q = ptr) as ->; [|congruence].
  unfold peer_init in Hinit. cbn [rl_time serve_callbacks] in Hinit.
  apply bind_Some in Hinit as ([t rc3] & _ & Hinit).
  destruct (negb (rc3 =? 0)); [by injection Hinit as <- _ _ _|].
  apply bind_Some in Hinit as (id & _ & Hinit). rewrite decide_False in Hinit by done.
  apply bind_Some in Hinit as ([q' w2] & Hset & [= <- _ _ _]).
  rewrite set_state_other' in Hset by done. by injection Hset as <- _.
Qed.

Lemma lone_turn_keeps sv sv' : lone_turn sv sv' → lone sv → lone sv'.
Proof.
  intros [sv0 k sv1 Hturn Hconn Hmem] Hl. unfold lone in *. unfold serve_turn in Hturn.
  apply bind_Some in Hturn as ([[rs ws] max] & _ & Hturn).
  apply bind_Some in Hturn as ([nodes1 w1] & Hdev & Hturn).
  apply bind_Some in Hturn as (nodes2 & Hdone & Hturn).
  pose proof (process_devices_lone _ _ _ _ _ _ _ Hl Hdev) as H1.
  assert (H2 : lone_list nodes2 (sv_peers sv0)).
  { destruct (wk_done k); [by eapply notify_lone|by injection Hdone as <-]. }
  cbn [sv_nodes sv_peers sv_world sv_count] in Hturn.
  destruct (wk_break k || wk_failed k); [done|].
  destruct (bool_decide (server_fd ∈ wk_read k ∩ rs)).
  - apply bind_Some in Hturn as ([[w2 new] count] & Hacc & Hturn).
    destruct new as [[p sock next]|]; [|by injection Hturn as <-].
    destruct (accepted_address _ _ _ _ _ _ _ _ _ Hacc Hmem) as [Hc Hp].
    destruct Hconn as [?|H0]; [done|]. rewrite H0 in *.
    destruct H2 as [[-> _]|(n & ? & _)]; [|done].
    apply bind_Some in Hturn as ([[nodes3 w3] peers] & Hpass & [= <-]). cbn [sv_nodes sv_peers].
    eapply serve_pass_lone; [|exact Hpass]. right. exists (Node p sock 0).
    split; [done|]. by rewrite insert_empty.
  - apply bind_Some in Hturn as ([[nodes3 w3] peers] & Hpass & [= <-]). cbn [sv_nodes sv_peers].
    by eapply serve_pass_lone.
Qed.

(** C29: a server that is reached from the start by turns in which a controller
    only connects when no other is there keeps one peer or none, and its
    memory is exactly its list: no node is lost and no freed node is reached,
    so the defect of the walk does not show. *)
Theorem one_controller_list w count sv :
  rtc lone_turn (Server ∅ 0 w count) sv →
  lone sv ∧ ¬ dangling (sv_nodes sv) (sv_peers sv).
Proof.
  intros Hrun.
  assert (lone sv) as Hl.
  { remember (Server ∅ 0 w count) as sv0 eqn:E. assert (lone sv0) as H0 by (subst; by left).
    clear E. induction Hrun as [|x y z Hxy _ IH]; [done|]. apply IH. by eapply lone_turn_keeps. }
  split; [done|]. intros (q & Hreach & Hq0 & Hq).
  destruct Hl as [[En Ep]|(n & Hp & En & Hn)]; rewrite En in *.
  - rewrite Ep in Hreach. inversion Hreach; simplify_eq; done.
  - inversion Hreach as [|p m q' Hp' Hm Hnext]; simplify_eq.
    + by rewrite lookup_singleton_eq in Hq.
    + rewrite lookup_singleton_eq in Hm. injection Hm as <-. rewrite Hn in Hnext.
      inversion Hnext; simplify_eq; done.
Qed.
End OneController.

(** ** A concrete run: a controller connects, and the server goes on *)
Section Demo.
#[local] Existing Instance demo_host.
#[local] Existing Instance no_memory.
#[local] Existing Instance bump_pool.
#[local] Existing Instance simple_dos.
#[local] Instance the_socket : Socket (list Z * list Z) := chunk_socket 4.

Definition knock : wakeup (S := list Z * list Z) :=
  Wakeup (λ _ fs, fs) ∅ None false false {[ 2 ]} ∅ (Some demo_connection) demo_memory.
Definition no_event : wakeup (S := list Z * list Z) :=
  Wakeup (λ _ fs, fs) ∅ None false false {[ 5 ]} ∅ None demo_memory.

Definition demo_turn (k : wakeup (S := list Z * list Z)) (sv : server (D := dos_view)) :=
  from_option fst sv (serve_turn null_peer 1 2 sv k).
Definition at_start : server (D := dos_view) (S := list Z * list Z) := Server ∅ 0 demo_server 12.
Definition one_peer : server (D := dos_view) (S := list Z * list Z) :=
  demo_turn no_event (demo_turn knock at_start).

Lemma one_controller_list_witness :
  sv_peers one_peer = 300 ∧ lone one_peer ∧ ¬ dangling (sv_nodes one_peer) (sv_peers one_peer).
Proof.
  split; [by vm_compute|].
  refine (one_controller_list null_peer 1 2 demo_server 12 one_peer _).
  apply (rtc_l _ _ (demo_turn knock at_start)).
  - apply (a_turn _ _ _ _ knock); [by vm_compute|by right|done].
  - apply rtc_once. apply (a_turn _ _ _ _ no_event); [by vm_compute|by left|done].
Defined.
End Demo.
