(* ===== verification/Session.v ===== *)
(** * Session: a controller and a target over a network

    The two programs together, from their connection to the launch: both ends
    run [peer_update] in turns, and what one end sends is what the other
    receives next. *)

From S2P Require Import Prelude Wire Messages CString Format Transport Peer FileServer.
From S2P Require Import AmigaFs AmigaActions Controller Target.

(** ** One turn of one end *)
Section Turn.
Context `{HHost : Host} `{Alloc : Allocator} {W : Type} `{CB : PeerCallbacks W}.
Implicit Types (p : peer) (w : W) (m : rl_msg).

(** A network that takes whole messages and loses nothing. *)
Context (k : nat) (Hk : 8192 <= Z.of_nat k).
#[local] Instance network : Socket (list Z * list Z) := chunk_socket k.

(** One [peer_update] after [select]; the socket is readable when bytes have
    arrived.  The result is the peer, its owner, the bytes sent and the
    status. *)
Definition turn p w (arrived : list Z) (can_write : bool) : option (peer * W * list Z * Z) :=
  '(p, w, sock, status) ← peer_update p w ([], arrived) (bool_decide (arrived ≠ [])) can_write;
  Some (p, w, sock.1, status).

(** Between turns the input buffer is empty and the connection is up. *)
Record at_rest p : Prop := {
  ar_read : read_cursor (inbuf (transport p)) = 0%nat;
  ar_write : write_cursor (inbuf (transport p)) = 0%nat;
  ar_size : Z.of_nat (length (memory (inbuf (transport p)))) = 32768;
  ar_error : error (transport p) = false;
  ar_disconnect : disconnect (transport p) = false
}.

(** What an action does to a peer: it queues [extra], leaves the input side
    alone, and the update after it does nothing. *)
Definition effect p w (act : peer → W → option (peer * W)) (extra : list Z)
    (post : peer → W → Prop) : Prop :=
  ∀ t q f, peer_ok (set_transport t p) q f →
  ∃ p1 w1 w2 q1 f1, act (set_transport t p) w = Some (p1, w1) ∧
    inbuf (transport p1) = inbuf t ∧ error (transport p1) = error t ∧
    disconnect (transport p1) = disconnect t ∧ peer_ok p1 q1 f1 ∧
    peer_pending p1 q1 = peer_pending (set_transport t p) q ++ extra ∧
    (∀ t1, invoke_action (set_transport t1 p1) w1 PEER_ACTION_UPDATE None =
       Some (set_transport t1 p1, w2)) ∧
    (∀ t1 r, post (Peer.set_result r (set_transport t1 p1)) w2).

Lemma effect_post p w act extra (post post' : peer → W → Prop) :
  effect p w act extra post → (∀ p' w', post p' w' → post' p' w') → effect p w act extra post'.
Proof.
  intros Heff Himp t q f Hok.
  destruct (Heff t q f Hok) as (p1 & w1 & w2 & q1 & f1 & H1 & H2 & H3 & H4 & H5 & H6 & H7 & H8).
  exists p1, w1, w2, q1, f1. split_and!; auto.
Qed.

(** The status that a turn gives. *)
Definition status_of p (r : Z) : Prop :=
  if bool_decide (state p = PEER_ERROR) || bool_decide (state p = PEER_DISCONNECTED)
  then r = PEER_STATUS_REMOVE_ME else Z.land PEER_STATUS_REMOVE_ME r = 0.

Lemma output_keeps_input fuel t s t' s' : output_loop fuel t s = Some (t', s') → s'.2 = s.2.
Proof.
  revert t s. induction fuel as [|fuel IH]; intros t s; [done|]. cbn [output_loop].
  destruct (out_queue t) as [a|]; [|by intros [= _ <-]].
  destruct (heap t !! a) as [b|]; [|done]. cbn [mbind option_bind].
  destruct (unsent b) as [bs|]; [|done]. cbn [mbind option_bind send network chunk_socket].
  destruct (_ <? 0); [by intros [= _ <-]|]. destruct (_ =? 0); [by intros [= _ <-]|].
  destruct (_ =? 0); [|by intros ?%IH]. by intros (t1 & _ & H%IH)%bind_Some.
Qed.

Lemma flush p q f out arrived :
  peer_ok p q f →
  ∃ t f', rl_transport_on_output_possible (transport p) (out, arrived) =
      Some (t, (out ++ peer_pending p q, arrived)) ∧
    peer_ok (set_transport t p) [] f' ∧ inbuf t = inbuf (transport p) ∧
    error t = error (transport p) ∧ disconnect t = disconnect (transport p).
Proof.
  intros [Hok Hsz].
  destruct (output_all (transport p) (out, arrived) q f) as
    (t & s & f' & Hrun & Hok' & Hout & Hsz' & Hi & He & Hd); [|done..|].
  { intros s bs Hl. cbn. rewrite take_ge by lia. done. }
  assert (Hs : s.2 = arrived).
  { by apply output_keeps_input in Hrun. }
  destruct s as [o i]. cbn in Hs, Hout. subst. exists t, f'.
  split; [done|]. by split_and!.
Qed.
(** The message that arrives lies at the front of the input buffer. *)
Lemma arrives t out bytes :
  read_cursor (inbuf t) = 0%nat → write_cursor (inbuf t) = 0%nat →
  Z.of_nat (length (memory (inbuf t))) = 32768 → bytes ≠ [] → Z.of_nat (length bytes) <= 8192 →
  rl_transport_on_input_arrived t (out, bytes) =
    Some (set_inbuf (IOBuf (bytes ++ drop (length bytes) (memory (inbuf t))) 0 (length bytes)
                       (valid (inbuf t))) t, (out, [])).
Proof.
  intros Hr Hw Hm Hne Hl. unfold rl_transport_on_input_arrived.
  cbn [recv network chunk_socket fst snd]. rewrite Hr, Hw, Nat.sub_0_r, take_ge, drop_ge by lia.
  destruct bytes as [|c cs]; [done|]. cbn [length] in *. ztest. rewrite put_bytes_Some by (cbn; lia).
  cbn [mbind option_bind take app]. by rewrite Nat2Z.id.
Qed.

Lemma update_loop_end fuel t (u : peer * W) :
  read_cursor (inbuf t) = write_cursor (inbuf t) → (0 < fuel)%nat →
  update_loop peer_peek_incoming peer_deliver_incoming fuel t u = Some ((t, u), true).
Proof. intros H Hf. destruct fuel as [|fuel]; [lia|]. cbn [update_loop]. by rewrite H, Nat.ltb_irrefl. Qed.

(** It is the only one in the buffer, and [rl_transport_update] delivers it. *)
Lemma delivers t p w m rest v :
  error t = false → disconnect t = false → wf_msg m → wire_length m <= 8192 →
  Z.of_nat (length (wire_bytes m ++ rest)) = 32768 →
  inbuf t = IOBuf (wire_bytes m ++ rest) 0 (length (wire_bytes m)) v →
  ∃ m', hdr_type m' = hdr_type m ∧ hdr_seq m' = hdr_seq m ∧ body m' ≡ body m ∧
    ∀ p1 w1, invoke_action (set_transport t p) w
        (if hdr_type m =? RL_MSG_HANDSHAKE_REQUEST
         then PEER_ACTION_RECEIVE_HANDSHAKE else PEER_ACTION_RECEIVE_MESSAGE) (Some m') =
        Some (p1, w1) → inbuf (transport p1) = inbuf t →
      ∃ t' st, rl_transport_update peer_peek_incoming peer_deliver_incoming t (p, w) =
          Some (t', (p1, w1), st) ∧ (st = 0 ∨ st = RL_TRANSPORT_NEED_OUTPUT) ∧
        t' = set_inbuf (IOBuf (wire_bytes m ++ rest) 0 0 v) (transport p1).
Proof.
  intros He Hd Hwf Hl Hsz Hin.
  destruct (deliver_spec t p w m rest Hwf) as (m' & _ & Ht & Hs & Hb & Hdel); [lia|].
  exists m'. split_and!; [done..|]. intros p1 w1 Hrun Hin1.
  pose proof (wire_length_bytes m Hwf) as Hlen.
  assert (8 <= wire_length m) by (unfold wire_length; lia).
  unfold rl_transport_update. rewrite He, Hd, Hin. cbn [write_cursor].
  destruct (length (wire_bytes m)) as [|n] eqn:En; [lia|].
  remember (S n) as N eqn:EN. cbn [update_loop]. rewrite Hin.
  cbn [read_cursor write_cursor memory]. rewrite (proj2 (Nat.ltb_lt 0 N)) by lia. cbn [negb].
  rewrite drop_0, peek_wire by lia. ztest.
  rewrite Hdel, Hrun. cbn [mbind option_bind Z.eqb negb].
  rewrite Hin1, Hin. cbn [read_cursor write_cursor memory valid].
  replace (0 + Z.to_nat (wire_length m))%nat with N by lia.
  rewrite update_loop_end by (done || lia). cbn [negb mbind option_bind inbuf set_inbuf]. unfold compact. cbn [read_cursor write_cursor memory].
  rewrite (proj2 (Nat.eqb_neq N 0)) by lia. rewrite Nat.sub_diag, take_0.
  rewrite put_bytes_Some by (cbn; lia). cbn [mbind option_bind take app length drop].
  rewrite drop_0. eexists _, _. split; [done|]. split; [|done].
  by destruct (out_queue _); [right|left].
Qed.
(** A turn that sends [sent] and ends at rest. *)
Definition turned (result : option (peer * W * list Z * Z)) (sent : list Z)
    (post : peer → W → Prop) : Prop :=
  ∃ p w r f, result = Some (p, w, sent, r) ∧ at_rest p ∧ peer_ok p [] f ∧ status_of p r ∧ post p w.

(** A turn, from what its [rl_transport_update] does. *)
Lemma turn_steps p w arrived can_write t1 q f extra post :
  (if bool_decide (arrived ≠ []) then rl_transport_on_input_arrived (transport p) ([], arrived)
   else Some (transport p, ([], arrived))) = Some (t1, ([], [])) →
  peer_ok (set_transport t1 p) q f →
  (∀ t2 q2 f2, peer_ok (set_transport t2 p) q2 f2 → inbuf t2 = inbuf t1 → error t2 = error t1 →
     disconnect t2 = disconnect t1 →
     ∃ t3 p1 w1 w2 st q3 f3,
       rl_transport_update peer_peek_incoming peer_deliver_incoming t2 (p, w) =
         Some (t3, (p1, w1), st) ∧ (st = 0 ∨ st = RL_TRANSPORT_NEED_OUTPUT) ∧
       invoke_action (set_transport t3 p1) w1 PEER_ACTION_UPDATE None =
         Some (set_transport t3 p1, w2) ∧
       peer_ok (set_transport t3 p1) q3 f3 ∧ at_rest (set_transport t3 p1) ∧
       peer_pending (set_transport t3 p1) q3 = peer_pending (set_transport t2 p) q2 ++ extra ∧
       ∀ t r, post (Peer.set_result r (set_transport t p1)) w2) →
  turned (turn p w arrived can_write) (peer_pending (set_transport t1 p) q ++ extra) post.
Proof.
  intros Hin Hok Hupd. unfold turned, turn, peer_update. rewrite Hin. cbn [mbind option_bind].
  assert (Hflush : ∃ t2 o2 q2 f2,
    (if can_write then rl_transport_on_output_possible t1 ([], []) else Some (t1, ([], []))) =
      Some (t2, (o2, [])) ∧ peer_ok (set_transport t2 p) q2 f2 ∧
    o2 ++ peer_pending (set_transport t2 p) q2 = peer_pending (set_transport t1 p) q ∧
    inbuf t2 = inbuf t1 ∧ error t2 = error t1 ∧ disconnect t2 = disconnect t1).
  { destruct can_write; [|by exists t1, [], q, f].
    destruct (flush (set_transport t1 p) q f [] [] Hok) as (t2 & f2 & Hrun & Hok2 & Hi & He & Hd).
    exists t2, (peer_pending (set_transport t1 p) q), [], f2.
    split; [exact Hrun|]. split; [exact Hok2|]. split; [|done].
    unfold peer_pending at 1. cbn. apply app_nil_r. }
  destruct Hflush as (t2 & o2 & q2 & f2 & -> & Hok2 & Hs2 & Hi2 & He2 & Hd2).
  cbn [mbind option_bind].
  destruct (Hupd t2 q2 f2 Hok2 Hi2 He2 Hd2)
    as (t3 & p1 & w1 & w2 & st & q3 & f3 & -> & Hst & Hact & Hok3 & Hrest & Hp3 & Hpost).
  cbn [mbind option_bind].
  assert (negb (Z.land RL_TRANSPORT_ERROR st =? 0) = false ∧
          negb (Z.land RL_TRANSPORT_DISCONNECTED st =? 0) = false) as [-> ->]
    by by destruct Hst as [-> | ->].
  cbn [mbind option_bind]. rewrite Hact. cbn [mbind option_bind].
  destruct (flush (set_transport t3 p1) q3 f3 o2 [] Hok3) as (t4 & f4 & Hrun & Hok4 & Hi4 & He4 & Hd4).
  cbn [transport set_transport] in *. rewrite Hrun. cbn [mbind option_bind fst].
  eexists _, w2, _, f4. split; [by rewrite Hp3, app_assoc, Hs2|].
  split; [|split; [|split; [|apply Hpost]]].
  - destruct Hrest as [Hr1 Hr2 Hr3 Hr4 Hr5]. cbn [transport set_transport] in *.
    split; cbn [transport Peer.set_result set_transport]; congruence.
  - destruct Hok4 as [Ht4 Hb4]. by split.
  - unfold status_of. cbn [state Peer.set_result set_transport].
    destruct (_ || _); [done|]. by destruct (negb _).
Qed.

(** A turn in which nothing arrives. *)
Lemma turn_silent p w q f can_write post :
  at_rest p → peer_ok p q f → effect p w (λ p w, Some (p, w)) [] post →
  turned (turn p w [] can_write) (peer_pending p q) post.
Proof.
  rewrite <- (app_nil_r (peer_pending p q)).
  intros [Hr Hw Hsz He Hd] Hok Heff.
  apply (turn_steps p w [] can_write (transport p) q f); [done|by destruct Hok|].
  intros t2 q2 f2 Hok2 Hi2 He2 Hd2.
  destruct (Heff t2 q2 f2 Hok2)
    as (p1 & w1 & w2 & q1 & f1 & [= <- <-] & _ & _ & _ & Hok1 & Hp1 & Hupd & Hpost).
  exists t2, p, w, w2, (match out_queue t2 with Some _ => RL_TRANSPORT_NEED_OUTPUT | None => 0 end).
  exists q1, f1. split; [|split_and!; try done].
  - unfold rl_transport_update. rewrite He2, Hd2, He, Hd, Hi2, Hw.
    rewrite update_loop_end by (rewrite ?Hi2; lia). cbn [negb mbind option_bind].
    rewrite Hi2. unfold compact. rewrite Hr. cbn [Nat.eqb mbind option_bind].
    rewrite <- Hi2. assert (set_inbuf (inbuf t2) t2 = t2) as -> by by destruct t2.
    done.
  - by destruct (out_queue t2); [right|left].
  - apply (Hupd t2).
  - split; cbn; rewrite ?Hi2, ?He2, ?Hd2; done.
Qed.

(** A turn in which one message arrives. *)
Lemma turn_message p w q f m can_write extra post :
  at_rest p → peer_ok p q f → msg_ok m →
  (∀ m', hdr_type m' = hdr_type m → hdr_seq m' = hdr_seq m → body m' ≡ body m →
     effect p w (λ p w, invoke_action p w
       (if hdr_type m =? RL_MSG_HANDSHAKE_REQUEST
        then PEER_ACTION_RECEIVE_HANDSHAKE else PEER_ACTION_RECEIVE_MESSAGE) (Some m'))
       extra post) →
  turned (turn p w (wire_bytes m) can_write) (peer_pending p q ++ extra) post.
Proof.
  intros [Hr Hw Hsz He Hd] [Hok Hbs] [Hwf Hl] Heff.
  pose proof (wire_length_bytes m Hwf) as Hlen.
  assert (8 <= wire_length m) by (unfold wire_length; lia).
  assert (Hne : wire_bytes m ≠ []) by (intros E; rewrite E in Hlen; cbn in Hlen; lia).
  set (rest := drop (length (wire_bytes m)) (memory (inbuf (transport p)))).
  set (b := IOBuf (wire_bytes m ++ rest) 0 (length (wire_bytes m)) (valid (inbuf (transport p)))).
  apply (turn_steps p w (wire_bytes m) can_write (set_inbuf b (transport p)) q f).
  - rewrite bool_decide_true by done. apply arrives; [done..|lia].
  - split; [|done]. destruct Hok. by split.
  - intros t2 q2 f2 Hok2 Hi2 He2 Hd2. cbn [inbuf set_inbuf error disconnect] in *.
    assert (Hm : Z.of_nat (length (wire_bytes m ++ rest)) = 32768)
      by (unfold rest; rewrite length_app, length_drop; lia).
    destruct (delivers t2 p w m rest (valid (inbuf (transport p)))) as (m' & Ht & Hs & Hb & Hrun);
      [congruence|congruence|done|done|done|done|].
    destruct (Heff m' Ht Hs Hb t2 q2 f2 Hok2)
      as (p1 & w1 & w2 & q1 & f1 & Hact & Hi1 & He1 & Hd1 & Hok1 & Hp1 & Hupd & Hpost).
    destruct (Hrun p1 w1 Hact Hi1) as (t3 & st & Hu & Hst & ->).
    eexists _, p1, w1, w2, st, q1, f1. split; [exact Hu|]. split; [done|]. split; [apply Hupd|].
    split; [|split; [|split; [exact Hp1|done]]].
    + destruct Hok1 as [Ht1 Hb1]. split; [|done]. destruct Ht1. by split.
    + split; cbn [transport set_transport inbuf set_inbuf read_cursor write_cursor memory error
        disconnect]; congruence.
Qed.
End Turn.

(** ** What the actions of the session do to a peer *)
Section Effects.
Context `{HHost : Host} `{Alloc : Allocator}.
Context (memory : ∀ h, malloc h ≠ None).
Implicit Types (p : peer) (m : rl_msg).

(** The fields that a session does not change. *)
Record same_id p p' : Prop := {
  si_ptr : self_ptr p' = self_ptr p;
  si_index : peer_index p' = peer_index p;
  si_mode : init_mode p' = init_mode p
}.

Lemma transmit_live p q f m :
  state p = PEER_CONNECTED → peer_ok p q f → msg_ok m →
  ∃ p' q' f', peer_transmit_message p m = Some (p', 0) ∧ peer_ok p' q' f' ∧
    state p' = PEER_CONNECTED ∧ peer_pending p' q' = peer_pending p q ++ wire_bytes m ∧
    same_end p p'.
Proof.
  intros Hs Hok Hm.
  destruct (transmit_connected p q f m Hs Hok Hm)
    as (p' & q' & f' & Ht & Hok' & [[Hs' Hp]|(_ & _ & Hmem)]); [|by apply memory in Hmem].
  exists p', q', f'. split_and!; try done. by eapply transmit_same_end.
Qed.

Section Owner.
Context {W : Type} `{CB : PeerCallbacks W}.
Implicit Types (w : W).

Lemma update_idle p w :
  state p = PEER_CONNECTED → (rl_time w).2 - last_activity p <= RL_PING_TIMEOUT →
  invoke_action p w PEER_ACTION_UPDATE None = Some (p, (rl_time w).1).
Proof.
  intros Hs Hi. unfold invoke_action. cbn [invoke_at]. rewrite Hs.
  cbn [state_actions peer_state_index peer_action_index lookup list_lookup mbind option_bind].
  unfold on_update_connected. destruct (rl_time w) as [w' now]. cbn [fst snd] in *.
  rewrite (Z.shiftl_mul_pow2 _ 1) by lia. unfold RL_PING_TIMEOUT in *.
  destruct (decide (init_mode p = PEER_INIT_TARGET)); ztest; cbn [andb]; by rewrite andb_false_r.
Qed.

(** The target answers the handshake with its own. *)
Lemma target_handshake_effect p w msg min node pn pv pwd hm :
  (∀ p w, on_connected p w = Some (p, w, 0)) →
  state p = PEER_WAIT_HANDSHAKE → init_mode p = PEER_INIT_TARGET →
  body msg = handshake_request RLAUNCH_VER_MAJOR min node pn pv pwd →
  handshake_message = Some hm → msg_ok hm →
  (rl_time w).2 - last_activity p <= RL_PING_TIMEOUT →
  effect p w (λ p w, invoke_action p w PEER_ACTION_RECEIVE_HANDSHAKE (Some msg)) (wire_bytes hm)
    (λ p' w', state p' = PEER_CONNECTED ∧ same_id p p' ∧
       last_activity p' = last_activity p ∧ w' = (rl_time w).1).
Proof.
  intros Hcon Hs Hmode Hb Hh Hm Hi t q f Hok.
  destruct (enqueue_spec _ q f hm Hok Hm)
    as (t' & rc & q' & f' & Henq & Hok' & Hin & He & Hd & _ & [[-> Hp]|(_ & _ & Hmem)]);
    [|by apply memory in Hmem].
  exists (set_state PEER_CONNECTED (set_transport t' p)), w, (rl_time w).1, q', f'.
  split.
  { rewrite (accept_handshake (set_transport t p) w msg min node pn pv pwd hm) by done.
    cbn [init_mode set_transport]. rewrite Hmode, Henq. cbn [mbind option_bind].
    by rewrite Hcon. }
  split_and!; try done; [by destruct Hok'; split|].
  intros t1. by apply update_idle.
Qed.
End Owner.
End Effects.

(** ** The controller's turns *)
Section ControllerEffects.
Context `{HHost : Host} `{Alloc : Allocator} {O : Type} `{OS : FileServer.Posix O}.
Context (memory : ∀ h, malloc h ≠ None) (rl_log_bits : Z) (time : O → O * Z).
Implicit Types (p : peer) (m : rl_msg) (w : world (O := O)).

(** The session takes no longer than the time a silent connection is left
    alone. *)
Context (t0 : Z) (on_time : ∀ o, t0 <= (time o).2 <= t0 + RL_PING_TIMEOUT).
#[local] Instance the_controller : PeerCallbacks (world (O := O)) :=
  controller_callbacks rl_log_bits time.

Lemma controller_time w : (rl_time w).1 = (w.1, (time w.2).1) ∧ (rl_time w).2 = (time w.2).2.
Proof. unfold rl_time. cbn. by destruct (time w.2). Qed.

Lemma controller_idle p w :
  state p = PEER_CONNECTED → t0 <= last_activity p →
  invoke_action p w PEER_ACTION_UPDATE None = Some (p, (rl_time w).1).
Proof.
  intros Hs Ha. apply update_idle; [done|]. destruct (controller_time w) as [_ ->].
  pose proof (on_time w.2). lia.
Qed.

(** The target's handshake makes it ask for the launch. *)
Lemma controller_handshake_effect p w msg min node pn pv pwd hm :
  state p = PEER_WAIT_HANDSHAKE → init_mode p = PEER_INIT_CONTROLLER →
  body msg = handshake_request RLAUNCH_VER_MAJOR min node pn pv pwd →
  handshake_message = Some hm → t0 <= last_activity p →
  wf_string (executable w.1) → Forall no_nul (arguments w.1) →
  effect p w (λ p w, invoke_action p w PEER_ACTION_RECEIVE_HANDSHAKE (Some msg))
    (wire_bytes (launch_request w.1))
    (λ p' w', state p' = PEER_CONNECTED ∧ same_id p p' ∧ t0 <= last_activity p' ∧
       w' = (set_ctl_state CONTROLLER_WAIT_EXECUTABLE_LAUNCHED w.1, (time w.2).1)).
Proof.
  intros Hs Hmode Hb Hh Hact He Ha t q f Hok.
  assert (Hok' : peer_ok (set_state PEER_CONNECTED (set_transport t p)) q f)
    by by destruct Hok; split.
  destruct (transmit_live memory (set_state PEER_CONNECTED (set_transport t p)) q f
              (launch_request w.1) eq_refl Hok')
    as (p1 & q1 & f1 & Ht & Hok1 & Hs1 & Hp1 & Hse); [by apply launch_request_ok|].
  set (w1 := (set_ctl_state CONTROLLER_WAIT_EXECUTABLE_LAUNCHED w.1, w.2)).
  destruct Hse as [Hptr Hidx Hmd Hla Hi Her Hdi]. cbn in Hptr, Hidx, Hmd, Hla, Hi, Her, Hdi.
  exists p1, w1, (rl_time w1).1, q1, f1. split.
  { rewrite (accept_handshake (set_transport t p) w msg min node pn pv pwd hm) by done.
    cbn [init_mode set_transport]. rewrite Hmode. cbn [mbind option_bind].
    unfold on_connected. cbn [the_controller controller_callbacks].
    rewrite (on_connected_transmits (Link := peer_link [])) by done.
    change (transmit (PeerLink := peer_link [])) with peer_transmit_message. by rewrite Ht. }
  split_and!; try done.
  - intros t1. apply controller_idle; [done|cbn; lia].
  - intros t1 r. split_and!; [done|by split|cbn; lia|exact (proj1 (controller_time w1))].
Qed.

(** The answer to the launch starts file serving. *)
Lemma controller_launched_effect p w msg :
  state p = PEER_CONNECTED → ctl_state w.1 = CONTROLLER_WAIT_EXECUTABLE_LAUNCHED →
  hdr_type msg = RL_MSG_LAUNCH_EXECUTABLE_ANSWER →
  effect p w (λ p w, invoke_action p w PEER_ACTION_RECEIVE_MESSAGE (Some msg)) []
    (λ p' w', state p' = PEER_CONNECTED ∧ same_id p p' ∧ t0 <= last_activity p' ∧
       w' = (set_ctl_state CONTROLLER_FILE_SERVING w.1, (time (time w.2).1).1)).
Proof.
  intros Hs Hc Ht t q f Hok. set (now := (rl_time w).2).
  set (w1 := (set_ctl_state CONTROLLER_FILE_SERVING w.1, (time w.2).1)).
  exists (set_activity now (set_transport t p)), w1, (rl_time w1).1, q, f. split.
  { unfold invoke_action. rewrite receive_for_owner by (try done; unfold for_owner; by rewrite Ht).
    destruct (controller_time w) as [Hw Hn]. unfold now.
    destruct (rl_time w) as [w' n]. cbn [fst snd] in Hw, Hn |- *. subst w' n.
    unfold on_message. cbn [the_controller controller_callbacks fst snd].
    unfold on_message_received_. rewrite Hc. unfold rl_msg_kind_of. by rewrite Ht. }
  split_and!; try done; [by destruct Hok; split|by rewrite app_nil_r| |].
  - intros t1. apply controller_idle; [done|]. cbn. unfold now.
    destruct (controller_time w) as [_ ->]. apply on_time.
  - intros t1 r. split_and!; [done|by split| |exact (proj1 (controller_time w1))].
    cbn. unfold now. destruct (controller_time w) as [_ ->]. apply on_time.
Qed.
End ControllerEffects.

(** ** The target's turns *)
Section TargetEffects.
Context `{HHost : Host} `{Alloc : Allocator} `{HPool : Pool}.
Context (memory : ∀ h, malloc h ≠ None).
Implicit Types (p : peer) (m : rl_msg) (w : target_world).
#[local] Existing Instance target_link.
#[local] Existing Instance server_callbacks.

(** The target as it waits for a launch: the file system of the peer is
    mounted, and memory and processes are there. *)
Record can_launch (ptr index : Z) w (device : list Z) (fs : fsys peer) (lock : Z) : Prop := {
  cl_fs : file_systems w !! ptr = Some fs;
  cl_device : device_name index = Some device;
  cl_outcome : default (true, true) (head (launch_outcomes w)) = (true, true);
  cl_lock : pool_alloc (used fs) = Some lock
}.

(** The file system with the lock that the program is given. *)
Definition launched_fs (fs : fsys peer) (lock : Z) (p0 : peer) : fsys peer :=
  put_lock lock (Lock SHARED_LOCK (root_addr fs) (device_port fs)
                   (MKBADDR (dl_address (device_list fs)))) (set_peer p0 fs).

(** The request starts the program and is answered. *)
Lemma target_launch_effect p w msg path args device fs lock :
  state p = PEER_CONNECTED → can_launch (self_ptr p) (peer_index p) w device fs lock →
  hdr_type msg = RL_MSG_LAUNCH_EXECUTABLE_REQUEST → is_u32 (hdr_seq msg) →
  body msg = launch_executable_request path args → no_nul path → no_nul args →
  effect p w (λ p w, invoke_action p w PEER_ACTION_RECEIVE_MESSAGE (Some msg))
    (wire_bytes (RL_MSG_INIT launch_executable_answer (hdr_seq msg)))
    (λ p' w', state p' = PEER_CONNECTED ∧ same_id p p' ∧ last_activity p' = clock w' ∧
       launched w' = launched w ++ [launch_message (peer_index p) device path args lock] ∧
       ∃ p0, file_systems w' = <[self_ptr p := launched_fs fs lock p0]> (file_systems w)).
Proof.
  intros Hs [Hfs Hdev Hout Hpool] Ht Hseq Hb Hpath Hargs t q f Hok.
  set (p0 := set_activity (clock w) (set_transport t p)).
  assert (Hok0 : peer_ok p0 q f) by by destruct Hok; split.
  destruct (transmit_live memory p0 q f (RL_MSG_INIT launch_executable_answer (hdr_seq msg)) Hs Hok0)
    as (p1 & q1 & f1 & Htr & Hok1 & Hs1 & Hp1 & Hse).
  { split; [by split|]. by vm_compute. }
  destruct Hse as [Hptr Hidx Hmd Hla Hi Her Hdi]. cbn in Hptr, Hidx, Hmd, Hla, Hi, Her, Hdi.
  destruct (root_lock_spec (set_peer p0 fs) lock) as [Hroot _]; [exact Hpool|].
  eexists p1, _, _, q1, f1. split.
  { unfold invoke_action. rewrite receive_for_owner by (try done; unfold for_owner; by rewrite Ht).
    unfold rl_time. cbn [server_callbacks].
    unfold on_message. cbn [server_callbacks]. unfold on_message_received, rl_msg_kind_of.
    rewrite Ht. cbn [Z.eqb Pos.eqb RL_MSG_LAUNCH_EXECUTABLE_REQUEST].
    unfold on_launch_executable_request. rewrite Hb. cbn [self_ptr set_activity set_transport].
    rewrite Hfs. cbn [mbind option_bind]. rewrite Hout. fold p0.
    rewrite (async_spawn_texts _ _ device) by done. rewrite Hroot.
    cbn [negb mbind option_bind Z.eqb fs_peer put_lock set_locks set_peer].
    change (transmit (PeerLink := target_link)) with peer_transmit_message. rewrite Htr.
    cbn [mbind option_bind negb Z.eqb]. done. }
  split_and!; try done.
  - intros t1. apply update_idle; [done|]. cbn. rewrite Hla. unfold p0, RL_PING_TIMEOUT. cbn. lia.
  - intros t1 r. split_and!; [done|by split|exact Hla|done|]. by eexists.
Qed.
End TargetEffects.

(** ** The start of both ends *)
Lemma handshake_message_body `{HHost : Host} hm :
  handshake_message = Some hm →
  ∃ node pn pv pwd, hm = RL_MSG_INIT
    (handshake_request RLAUNCH_VER_MAJOR RLAUNCH_VER_MINOR node pn pv pwd) 0.
Proof.
  unfold handshake_message. intros ([[pn node] pv] & _ & [= <-])%bind_Some.
  by do 4 eexists.
Qed.

(** What the owner gives [peer_init]. *)
Record endpoint := Endpoint {
  ep_ptr : Z; ep_fd : Z; ep_address : sockaddr; ep_block : option (list Z); ep_count : Z
}.

Definition start `{HHost : Host} `{Alloc : Allocator} {W} `{CB : PeerCallbacks W}
    (mode : peer_init_mode) (e : endpoint) (w : W) : option (peer * W) :=
  '((p, w, rc), _) ← peer_init (ep_ptr e) (ep_fd e) (ep_address e) mode w (ep_block e) (ep_count e);
  if rc =? 0 then Some (p, w) else None.

Record endpoint_ok `{Host} (e : endpoint) : Prop := {
  eo_block : ∃ mem, ep_block e = Some mem ∧ Z.of_nat (length mem) = 32768;
  eo_address : ∃ id, peer_ident (ep_address e) = Some id
}.

(** A peer that has been initialised. *)
Record started (mode : peer_init_mode) (e : endpoint) (now : Z) (p : peer) : Prop := {
  sd_state : state p = PEER_WAIT_HANDSHAKE;
  sd_ptr : self_ptr p = ep_ptr e;
  sd_index : peer_index p = Z.rem (ep_count e) 10;
  sd_mode : init_mode p = mode;
  sd_activity : last_activity p = now;
  sd_rest : at_rest p
}.

Lemma start_spec `{HHost : Host} `{Alloc : Allocator} {W} `{CB : PeerCallbacks W} mode e (w : W) hm :
  (∀ h, malloc h ≠ None) → endpoint_ok e → handshake_message = Some hm → msg_ok hm →
  ∃ p q f, start mode e w = Some (p, (rl_time w).1) ∧ started mode e (rl_time w).2 p ∧
    peer_ok p q f ∧
    peer_pending p q =
      match mode with PEER_INIT_CONTROLLER => wire_bytes hm | PEER_INIT_TARGET => [] end.
Proof.
  intros memory [(mem & Hblock & Hmem) (id & Hid)] Hh Hm. unfold start, peer_init.
  destruct (rl_time w) as [w' now]. cbn [fst snd]. rewrite Hblock.
  unfold rl_transport_init. cbn [rl_iobuf_init negb Z.eqb mbind option_bind]. rewrite Hid.
  cbn [mbind option_bind].
  set (p0 := Peer (ep_ptr e) PEER_INITIAL _ _ _ _ _ _ _ _).
  assert (Hok : peer_ok p0 [] []).
  { split; [|apply map_Forall_empty]. split; cbn; try done; [constructor|].
    intros a Ha. by apply not_elem_of_nil in Ha. }
  assert (Hrest : ∀ t', inbuf t' = IOBuf mem 0 0 true → error t' = false → disconnect t' = false →
    ∀ i, at_rest (set_index i (set_state PEER_WAIT_HANDSHAKE (set_transport t' p0)))).
  { intros t' Hi He Hd i. split; cbn; by rewrite ?Hi, ?He, ?Hd. }
  destruct mode.
  - destruct (enqueue_spec p0 [] [] hm Hok Hm)
      as (t' & rc & q & f & Henq & Hok' & Hi & He & Hd & _ & [[-> Hp]|(_ & _ & Hno)]);
      [|by apply memory in Hno].
    exists (set_index (Z.rem (ep_count e) 10) (set_state PEER_WAIT_HANDSHAKE (set_transport t' p0))), q, f.
    split; [|split; [|split; [by destruct Hok'; split|exact Hp]]].
    + rewrite decide_True by done. unfold invoke_action. cbn [invoke_at p0 state
        state_actions peer_state_index peer_action_index lookup list_lookup mbind option_bind].
      unfold on_transmit_handshake. rewrite Hh. cbn [mbind option_bind]. fold p0. rewrite Henq.
      cbn [mbind option_bind negb Z.eqb]. by rewrite set_state_other'.
    + split; try done. by apply Hrest.
  - exists (set_index (Z.rem (ep_count e) 10) (set_state PEER_WAIT_HANDSHAKE p0)), [], [].
    split; [|split; [|split; [by destruct Hok; split|done]]].
    + rewrite decide_False by done. by rewrite set_state_other'.
    + by split.
Qed.

(** ** Turns in which nothing arrives *)
Section Silent.
Context `{HHost : Host} `{Alloc : Allocator} {W : Type} `{CB : PeerCallbacks W}.
Implicit Types (p : peer) (w : W).

Lemma waiting_effect p w :
  state p = PEER_WAIT_HANDSHAKE →
  effect p w (λ p w, Some (p, w)) []
    (λ p' w', state p' = PEER_WAIT_HANDSHAKE ∧ same_id p p' ∧
       last_activity p' = last_activity p ∧ w' = w).
Proof.
  intros Hs t q f Hok. exists (set_transport t p), w, w, q, f.
  split_and!; try done; [by rewrite app_nil_r|].
  intros t1. unfold invoke_action. cbn. by rewrite Hs.
Qed.

Lemma idle_effect p w :
  state p = PEER_CONNECTED → (rl_time w).2 - last_activity p <= RL_PING_TIMEOUT →
  effect p w (λ p w, Some (p, w)) []
    (λ p' w', state p' = PEER_CONNECTED ∧ same_id p p' ∧ last_activity p' = last_activity p ∧
       w' = (rl_time w).1).
Proof.
  intros Hs Hi t q f Hok. exists (set_transport t p), w, (rl_time w).1, q, f.
  split_and!; try done; [by rewrite app_nil_r|]. intros t1. by apply update_idle.
Qed.
End Silent.

(** ** The session *)
Section Network.
Context (HC HT : Host) (AC AT : Allocator) `{HPool : Pool} {O : Type} `{OS : FileServer.Posix O}.
Context (rl_log_bits : Z) (time : O → O * Z) (k : nat).

(** What [select] says about writing, at either end. *)
Context (can_write : nat → bool * bool).

Definition session_state : Type := (peer * world (O := O)) * (peer * target_world).

Definition controller_turn (p : peer) (w : world (O := O)) :=
  turn (HHost := HC) (Alloc := AC)
    (CB := controller_callbacks (HHost := HC) (Alloc := AC) rl_log_bits time) k p w.
Definition target_turn (p : peer) (w : target_world) :=
  turn (HHost := HT) (Alloc := AT) (CB := server_callbacks (HHost := HT) (Alloc := AT)) k p w.

(** [n] turns of both ends, until one of them is removed; the last component is
    what is under way to the controller. *)
Fixpoint session (n : nat) (st : session_state) (arrived : list Z)
  : option (session_state * list Z) :=
  match n with
  | Datatypes.O => Some (st, arrived)
  | S n =>
      let '((pc, wc), (pt, wt)) := st in
      '(pc, wc, sent, status) ← controller_turn pc wc arrived (can_write n).1;
      if negb (Z.land PEER_STATUS_REMOVE_ME status =? 0) then Some (((pc, wc), (pt, wt)), []) else
      '(pt, wt, sent, status) ← target_turn pt wt sent (can_write n).2;
      if negb (Z.land PEER_STATUS_REMOVE_ME status =? 0) then Some (((pc, wc), (pt, wt)), []) else
      session n ((pc, wc), (pt, wt)) sent
  end.

Lemma session_step n pc wc pt wt arrived pc' wc' sent1 r1 pt' wt' sent2 r2 :
  controller_turn pc wc arrived (can_write n).1 = Some (pc', wc', sent1, r1) →
  status_of pc' r1 → state pc' = PEER_WAIT_HANDSHAKE ∨ state pc' = PEER_CONNECTED →
  target_turn pt wt sent1 (can_write n).2 = Some (pt', wt', sent2, r2) →
  status_of pt' r2 → state pt' = PEER_WAIT_HANDSHAKE ∨ state pt' = PEER_CONNECTED →
  session (S n) ((pc, wc), (pt, wt)) arrived = session n ((pc', wc'), (pt', wt')) sent2.
Proof.
  intros H1 Hr1 Hs1 H2 Hr2 Hs2. cbn [session]. rewrite H1. cbn [mbind option_bind].
  assert (Hup : ∀ p r, state p = PEER_WAIT_HANDSHAKE ∨ state p = PEER_CONNECTED →
    status_of p r → negb (Z.land PEER_STATUS_REMOVE_ME r =? 0) = false)
    by (unfold status_of; by intros p r [-> | ->] ->).
  rewrite (Hup pc' r1) by done. rewrite H2. cbn [mbind option_bind].
  by rewrite (Hup pt' r2).
Qed.

Definition run_session (n : nat) (ec et : endpoint) (wc : world (O := O)) (wt : target_world)
  : option (session_state * list Z) :=
  c ← start (HHost := HC) (Alloc := AC)
        (CB := controller_callbacks (HHost := HC) (Alloc := AC) rl_log_bits time)
        PEER_INIT_CONTROLLER ec wc;
  t ← start (HHost := HT) (Alloc := AT)
        (CB := server_callbacks (HHost := HT) (Alloc := AT)) PEER_INIT_TARGET et wt;
  session n (c, t) [].

Context (memC : ∀ h, malloc (Allocator := AC) h ≠ None)
  (memT : ∀ h, malloc (Allocator := AT) h ≠ None) (Hk : 8192 <= Z.of_nat k).
Context (t0 : Z) (on_time : ∀ o, t0 <= (time o).2 <= t0 + RL_PING_TIMEOUT).

(** The turns, one by one. *)
Lemma controller_waits pc wc q f cw :
  at_rest pc → peer_ok pc q f → state pc = PEER_WAIT_HANDSHAKE →
  turned (controller_turn pc wc [] cw) (peer_pending pc q)
    (λ p w, state p = PEER_WAIT_HANDSHAKE ∧ same_id pc p ∧ last_activity p = last_activity pc ∧ w = wc).
Proof. intros. eapply turn_silent; [done..|]. by apply waiting_effect. Qed.

Lemma target_idles pt wt q f cw :
  at_rest pt → peer_ok pt q f → state pt = PEER_CONNECTED → last_activity pt = clock wt →
  turned (target_turn pt wt [] cw) (peer_pending pt q)
    (λ p w, state p = PEER_CONNECTED ∧ same_id pt p ∧ last_activity p = last_activity pt ∧ w = wt).
Proof.
  intros Hr Hok Hs Ha.
  unfold target_turn.
  apply (turn_silent (HHost := HT) (Alloc := AT) (CB := server_callbacks (HHost := HT) (Alloc := AT)) k Hk pt wt q f);
    [exact Hr|exact Hok|].
  eapply effect_post.
  - apply (idle_effect (CB := server_callbacks (HHost := HT) (Alloc := AT)) pt wt Hs).
    rewrite Ha. unfold RL_PING_TIMEOUT. cbn. lia.
  - done.
Qed.

Lemma controller_idles pc wc q f cw :
  at_rest pc → peer_ok pc q f → state pc = PEER_CONNECTED → t0 <= last_activity pc →
  turned (controller_turn pc wc [] cw) (peer_pending pc q)
    (λ p w, state p = PEER_CONNECTED ∧ same_id pc p ∧ last_activity p = last_activity pc ∧
       w = (wc.1, (time wc.2).1)).
Proof.
  intros Hr Hok Hs Ha. unfold controller_turn.
  apply (turn_silent (HHost := HC) (Alloc := AC)
    (CB := controller_callbacks (HHost := HC) (Alloc := AC) rl_log_bits time) k Hk pc wc q f);
    [exact Hr|exact Hok|].
  destruct (controller_time (HHost := HC) (Alloc := AC) rl_log_bits time wc) as [Hw Hn].
  pose proof (on_time wc.2).
  eapply effect_post.
  - apply (idle_effect (CB := controller_callbacks (HHost := HC) (Alloc := AC) rl_log_bits time)
      pc wc Hs). transitivity ((time wc.2).2 - last_activity pc); [|lia].
    by apply Z.sub_le_mono_r, Z.eq_le_incl.
  - intros p' w' (? & ? & ? & ->). split_and!; done.
Qed.

Lemma target_shakes pt wt q f cw hc ht :
  at_rest pt → peer_ok pt q f → state pt = PEER_WAIT_HANDSHAKE → init_mode pt = PEER_INIT_TARGET →
  last_activity pt = clock wt → handshake_message (HHost := HC) = Some hc → msg_ok hc →
  handshake_message (HHost := HT) = Some ht → msg_ok ht →
  turned (target_turn pt wt (wire_bytes hc) cw) (peer_pending pt q ++ wire_bytes ht)
    (λ p w, state p = PEER_CONNECTED ∧ same_id pt p ∧ last_activity p = last_activity pt ∧ w = wt).
Proof.
  intros Hr Hok Hs Hm Ha Hhc Hc Hht Ht.
  destruct (handshake_message_body (HHost := HC) hc Hhc) as (node & pn & pv & pwd & Ehc).
  unfold target_turn.
  apply (turn_message (HHost := HT) (Alloc := AT) (CB := server_callbacks (HHost := HT) (Alloc := AT)) k Hk pt wt q f);
    [exact Hr|exact Hok|exact Hc|].
  intros m' _ _ Hb. rewrite Ehc in Hb |- *. cbn [hdr_type RL_MSG_INIT body body_kind] in *.
  change (RL_MSG_HANDSHAKE_REQUEST =? RL_MSG_HANDSHAKE_REQUEST) with true. cbv iota.
  apply (target_handshake_effect (HHost := HT) (Alloc := AT) memT
    (CB := server_callbacks (HHost := HT) (Alloc := AT)) pt wt m' RLAUNCH_VER_MINOR node pn pv pwd ht);
    try done.
  - unfold equiv, body_equiv in Hb. by destruct (body m').
  - rewrite Ha. unfold RL_PING_TIMEOUT. cbn. lia.
Qed.

Lemma controller_shakes pc wc q f cw hc ht :
  at_rest pc → peer_ok pc q f → state pc = PEER_WAIT_HANDSHAKE →
  init_mode pc = PEER_INIT_CONTROLLER → t0 <= last_activity pc →
  handshake_message (HHost := HC) = Some hc →
  handshake_message (HHost := HT) = Some ht → msg_ok ht →
  wf_string (executable wc.1) → Forall no_nul (arguments wc.1) →
  turned (controller_turn pc wc (wire_bytes ht) cw)
    (peer_pending pc q ++ wire_bytes (launch_request wc.1))
    (λ p w, state p = PEER_CONNECTED ∧ same_id pc p ∧ t0 <= last_activity p ∧
       w = (set_ctl_state CONTROLLER_WAIT_EXECUTABLE_LAUNCHED wc.1, (time wc.2).1)).
Proof.
  intros Hr Hok Hs Hm Ha Hhc Hht Ht He Hargs.
  destruct (handshake_message_body (HHost := HT) ht Hht) as (node & pn & pv & pwd & Eht).
  unfold controller_turn.
  apply (turn_message (HHost := HC) (Alloc := AC) (CB := controller_callbacks (HHost := HC) (Alloc := AC) rl_log_bits time)
    k Hk pc wc q f);
    [exact Hr|exact Hok|exact Ht|].
  intros m' _ _ Hb. rewrite Eht in Hb |- *. cbn [hdr_type RL_MSG_INIT body body_kind] in *.
  change (RL_MSG_HANDSHAKE_REQUEST =? RL_MSG_HANDSHAKE_REQUEST) with true. cbv iota.
  apply (controller_handshake_effect (HHost := HC) (Alloc := AC) memC rl_log_bits time t0 on_time
    pc wc m' RLAUNCH_VER_MINOR node pn pv pwd hc); try done.
  unfold equiv, body_equiv in Hb. by destruct (body m').
Qed.

Lemma target_launches pt wt q f cw c device fs lock :
  at_rest pt → peer_ok pt q f → state pt = PEER_CONNECTED →
  can_launch (self_ptr pt) (peer_index pt) wt device fs lock →
  wf_string (executable c) → Forall no_nul (arguments c) →
  turned (target_turn pt wt (wire_bytes (launch_request c)) cw)
    (peer_pending pt q ++ wire_bytes (RL_MSG_INIT launch_executable_answer 0))
    (λ p w, state p = PEER_CONNECTED ∧ same_id pt p ∧ last_activity p = clock w ∧
       launched w = launched wt ++ [launch_message (peer_index pt) device (executable c)
         (take 254 (args_text true (arguments c))) lock] ∧
       ∃ p0, file_systems w = <[self_ptr pt := launched_fs fs lock p0]> (file_systems wt)).
Proof.
  intros Hr Hok Hs Hcan He Ha.
  unfold target_turn.
  apply (turn_message (HHost := HT) (Alloc := AT) (CB := server_callbacks (HHost := HT) (Alloc := AT)) k Hk pt wt q f);
    [exact Hr|exact Hok| |].
  { by apply launch_request_ok. }
  intros m' Ht Hseq Hb. cbn [hdr_type hdr_seq launch_request RL_MSG_INIT body body_kind] in *.
  change (RL_MSG_LAUNCH_EXECUTABLE_REQUEST =? RL_MSG_HANDSHAKE_REQUEST) with false. cbv iota.
  rewrite <- Hseq.
  apply (target_launch_effect (HHost := HT) (Alloc := AT) memT pt wt m' (executable c) _ device fs lock);
    try done.
  - by rewrite Hseq.
  - unfold equiv, body_equiv in Hb. by destruct (body m').
  - by destruct He.
  - by apply Forall_take, args_text_no_nul.
Qed.

Lemma controller_serves pc wc q f cw :
  at_rest pc → peer_ok pc q f → state pc = PEER_CONNECTED →
  ctl_state wc.1 = CONTROLLER_WAIT_EXECUTABLE_LAUNCHED →
  turned (controller_turn pc wc (wire_bytes (RL_MSG_INIT launch_executable_answer 0)) cw)
    (peer_pending pc q)
    (λ p w, state p = PEER_CONNECTED ∧ same_id pc p ∧ t0 <= last_activity p ∧
       w = (set_ctl_state CONTROLLER_FILE_SERVING wc.1, (time (time wc.2).1).1)).
Proof.
  intros Hr Hok Hs Hc. rewrite <- (app_nil_r (peer_pending pc q)).
  unfold controller_turn.
  apply (turn_message (HHost := HC) (Alloc := AC) (CB := controller_callbacks (HHost := HC) (Alloc := AC) rl_log_bits time)
    k Hk pc wc q f);
    [exact Hr|exact Hok| |].
  { split; [by split|]. by vm_compute. }
  intros m' Ht _ _.
  by apply (controller_launched_effect (HHost := HC) (Alloc := AC) rl_log_bits time t0 on_time).
Qed.
Lemma start_controller ec wc hc :
  endpoint_ok (H := HC) ec → handshake_message (HHost := HC) = Some hc → msg_ok hc →
  ∃ pc wc' q f, start (HHost := HC) (Alloc := AC)
      (CB := controller_callbacks (HHost := HC) (Alloc := AC) rl_log_bits time)
      PEER_INIT_CONTROLLER ec wc = Some (pc, wc') ∧ wc' = (wc.1, (time wc.2).1) ∧
    state pc = PEER_WAIT_HANDSHAKE ∧ init_mode pc = PEER_INIT_CONTROLLER ∧
    t0 <= last_activity pc ∧ at_rest pc ∧ peer_ok pc q f ∧ peer_pending pc q = wire_bytes hc.
Proof.
  intros He Hh Hm.
  destruct (start_spec (HHost := HC) (Alloc := AC)
    (CB := controller_callbacks (HHost := HC) (Alloc := AC) rl_log_bits time)
    PEER_INIT_CONTROLLER ec wc hc memC He Hh Hm) as (p & q & f & -> & [Hs _ _ Hmode Ha Hr] & Hok & Hp).
  destruct (controller_time (HHost := HC) (Alloc := AC) rl_log_bits time wc) as [Hw Hn].
  eexists p, _, q, f. split; [done|]. split_and!; try done.
  - rewrite Ha. pose proof (on_time wc.2). etrans; [|apply Z.eq_le_incl, eq_sym, Hn]. lia.
Qed.

Lemma start_target et wt ht :
  endpoint_ok (H := HT) et → handshake_message (HHost := HT) = Some ht → msg_ok ht →
  ∃ pt q f, start (HHost := HT) (Alloc := AT)
      (CB := server_callbacks (HHost := HT) (Alloc := AT)) PEER_INIT_TARGET et wt = Some (pt, wt) ∧
    started PEER_INIT_TARGET et (clock wt) pt ∧ peer_ok pt q f ∧ peer_pending pt q = [].
Proof.
  intros He Hh Hm.
  destruct (start_spec (HHost := HT) (Alloc := AT)
    (CB := server_callbacks (HHost := HT) (Alloc := AT)) PEER_INIT_TARGET et wt ht memT He Hh Hm)
    as (p & q & f & Hst & Hd & Hok & Hp).
  by exists p, q, f.
Qed.

(** Both ends, connected and with nothing under way. *)
Record controller_ready (pc : peer) (wc : world (O := O)) : Prop := {
  cr_rest : at_rest pc;
  cr_ok : ∃ f, peer_ok pc [] f;
  cr_state : state pc = PEER_CONNECTED;
  cr_activity : t0 <= last_activity pc;
  cr_serving : ctl_state wc.1 = CONTROLLER_FILE_SERVING
}.
Record target_ready (ptr index : Z) (pt : peer) (wt : target_world) : Prop := {
  tr_rest : at_rest pt;
  tr_ok : ∃ f, peer_ok pt [] f;
  tr_state : state pt = PEER_CONNECTED;
  tr_ptr : self_ptr pt = ptr;
  tr_index : peer_index pt = index;
  tr_activity : last_activity pt = clock wt
}.

Lemma session_serves ec et wc wt hc ht device fs lock :
  endpoint_ok (H := HC) ec → handshake_message (HHost := HC) = Some hc → msg_ok hc →
  endpoint_ok (H := HT) et → handshake_message (HHost := HT) = Some ht → msg_ok ht →
  wf_string (executable wc.1) → Forall no_nul (arguments wc.1) →
  can_launch (ep_ptr et) (Z.rem (ep_count et) 10) wt device fs lock →
  ∃ pc wc' pt wt' p0, run_session 3 ec et wc wt = Some (((pc, wc'), (pt, wt')), []) ∧
    controller_ready pc wc' ∧ target_ready (ep_ptr et) (Z.rem (ep_count et) 10) pt wt' ∧
    wc' = (set_ctl_state CONTROLLER_FILE_SERVING wc.1, Nat.iter 4 (λ o, (time o).1) wc.2) ∧
    launched wt' = launched wt ++
      [launch_message (Z.rem (ep_count et) 10) device (executable wc.1)
         (take 254 (args_text true (arguments wc.1))) lock] ∧
    file_systems wt' !! ep_ptr et = Some (launched_fs fs lock p0).
Proof.
  intros Hec Hhc Hc Het Hht Ht He Ha Hcan.
  destruct (start_controller ec wc hc Hec Hhc Hc)
    as (pc & wc0 & qc & fc & Hsc & Hwc & Hs1 & Hm1 & Ha1 & Hr1 & Hok1 & Hp1).
  destruct (start_target et wt ht Het Hht Ht)
    as (pt & qt & ft & Hst & [Hs2 Hptr Hidx Hm2 Ha2 Hr2] & Hok2 & Hp2).
  unfold run_session. rewrite Hsc. cbn [mbind option_bind]. rewrite Hst. cbn [mbind option_bind].
  destruct (controller_waits pc wc0 qc fc (can_write 2).1 Hr1 Hok1 Hs1)
    as (pc1 & wc1 & r1 & f1 & T1 & R1 & K1 & U1 & S1 & [_ _ M1] & A1 & ->).
  destruct (target_shakes pt wt qt ft (can_write 2).2 hc ht Hr2 Hok2 Hs2 Hm2 Ha2 Hhc Hc Hht Ht)
    as (pt1 & wt1 & r2 & f2 & T2 & R2 & K2 & U2 & S2 & [P2 I2 _] & A2 & ->).
  rewrite Hp1 in T1. rewrite Hp2 in T2. cbn [app] in T2.
  rewrite (session_step _ _ _ _ _ _ _ _ _ _ _ _ _ _ T1 U1 (or_introl S1) T2 U2 (or_intror S2)).
  destruct (controller_shakes pc1 wc0 [] f1 (can_write 1).1 hc ht R1 K1 S1 ltac:(congruence)
    ltac:(lia) Hhc Hht Ht ltac:(by rewrite Hwc) ltac:(by rewrite Hwc))
    as (pc3 & wc3 & r3 & f3 & T3 & R3 & K3 & U3 & S3 & _ & A3 & W3).
  destruct (target_launches pt1 wt [] f2 (can_write 1).2 wc0.1 device fs lock R2 K2 S2
    ltac:(by rewrite P2, I2, Hptr, Hidx) ltac:(by rewrite Hwc) ltac:(by rewrite Hwc))
    as (pt4 & wt4 & r4 & f4 & T4 & R4 & K4 & U4 & S4 & [P4 I4 _] & A4 & L4 & p0 & F4).
  change (peer_pending pt1 [] ++ ?x) with x in T4.
  rewrite (session_step _ _ _ _ _ _ _ _ _ _ _ _ _ _ T3 U3 (or_intror S3) T4 U4 (or_intror S4)).
  destruct (controller_serves pc3 wc3 [] f3 (can_write 0).1 R3 K3 S3 ltac:(by rewrite W3))
    as (pc5 & wc5 & r5 & f5 & T5 & R5 & K5 & U5 & S5 & _ & A5 & W5).
  destruct (target_idles pt4 wt4 [] f4 (can_write 0).2 R4 K4 S4 A4)
    as (pt6 & wt6 & r6 & f6 & T6 & R6 & K6 & U6 & S6 & [P6 I6 _] & A6 & ->).
  change (peer_pending pt4 []) with (@nil Z) in T6.
  rewrite (session_step _ _ _ _ _ _ _ _ _ _ _ _ _ _ T5 U5 (or_intror S5) T6 U6 (or_intror S6)).
  exists pc5, wc5, pt6, wt4, p0. split; [done|]. split; [|split; [|split_and!]].
  - split; [exact R5|by exists f5|exact S5|exact A5|by rewrite W5].
  - split; [exact R6|by exists f6|exact S6|congruence..].
  - by rewrite W5, W3, Hwc.
  - by rewrite L4, Hwc, I2, Hidx.
  - rewrite F4, P2, Hptr. apply lookup_insert_eq.
Qed.

(** C6: a controller and a target that connect over a network that loses
    nothing shake hands, the program named on the command line is started with
    its arguments on the device of this connection, and the controller serves
    files: three turns of each end are enough. *)
Theorem session_launches ec et wc wt hc ht device fs lock :
  endpoint_ok (H := HC) ec → handshake_message (HHost := HC) = Some hc → msg_ok hc →
  endpoint_ok (H := HT) et → handshake_message (HHost := HT) = Some ht → msg_ok ht →
  wf_string (executable wc.1) → Forall no_nul (arguments wc.1) →
  can_launch (ep_ptr et) (Z.rem (ep_count et) 10) wt device fs lock →
  ∃ pc wc' pt wt', run_session 3 ec et wc wt = Some (((pc, wc'), (pt, wt')), []) ∧
    state pc = PEER_CONNECTED ∧ state pt = PEER_CONNECTED ∧
    wc'.1 = set_ctl_state CONTROLLER_FILE_SERVING wc.1 ∧
    launched wt' = launched wt ++
      [launch_message (Z.rem (ep_count et) 10) device (executable wc.1)
         (take 254 (args_text true (arguments wc.1))) lock].
Proof.
  intros Hec Hhc Hc Het Hht Ht He Ha Hcan.
  destruct (session_serves ec et wc wt hc ht device fs lock Hec Hhc Hc Het Hht Ht He Ha Hcan)
    as (pc & wc' & pt & wt' & p0 & Hrun & [_ _ Hsc _ _] & [_ _ Hst _ _ _] & -> & Hl & _).
  by eexists pc, _, pt, wt'.
Qed.
End Network.

(** ** A concrete session: an x86 host and an Amiga *)
Definition demo_pc : Host := {|
  BIG_ENDIAN := false; word_bits := 64; buf_header_size := 48;
  plat := Peer.Posix (Some (Utsname (chars "Linux") (chars "host") (chars "6.1") (chars "#1") (chars "x86")));
  inet_ntoa _ := chars "10.0.0.2"
|}.

Definition demo_end (ptr : Z) : endpoint :=
  Endpoint ptr 5 (AF_INET 167772162 7001) (Some (replicate (Z.to_nat 32768) 0)) 12.

Definition mounted_fs : fsys peer :=
  Fsys _ (small_peer PEER_INITIAL) 1 2000 (Volume 4000 (2 :: cstr "TBL2") 0 2000 0 ID_DOS_DISK) [] 64
    {[ 64 := ClientHandle (u32 (-1)) RL_HANDLE_DEVICE 0 0 0 0 path_zero 0 0 buffer_zero ]}
    ∅ ∅ ∅ ∅ ∅ ∅ [].

Definition demo_world : target_world := TargetWorld {[ 300 := mounted_fs ]} [] [] 50.

Lemma demo_end_ok (H : Host) ptr id :
  peer_ident (AF_INET 167772162 7001) = Some id → endpoint_ok (demo_end ptr).
Proof.
  intros Hid. split; [|by eexists]. eexists. split; [done|].
  by rewrite length_replicate, Z2Nat.id.
Qed.

Definition pc_handshake : rl_msg :=
  RL_MSG_INIT (handshake_request 1 0 (chars "host") (chars "Linux") (chars "#1 6.1 (x86)")
    (chars "****")) 0.

Lemma pc_handshake_ok : msg_ok pc_handshake.
Proof. split; [|by vm_compute]. split; cbn; repeat (done || lia || constructor). Qed.
Lemma amiga_handshake_ok : msg_ok demo_handshake_reply.
Proof. split; [|by vm_compute]. split; cbn; repeat (done || lia || constructor). Qed.

Lemma session_launches_witness :
  let c := set_ctl_state CONTROLLER_INITIAL demo_controller in
  ∃ pc wc' pt wt',
    run_session demo_pc demo_host ample_memory ample_memory (HPool := bump_pool) (OS := mem_posix) 0
      (λ o, (o, 50)) (Z.to_nat 8192) (λ _, (true, false)) 3 (demo_end 100) (demo_end 300)
      (c, demo_os) demo_world = Some (((pc, wc'), (pt, wt')), []) ∧
    state pc = PEER_CONNECTED ∧ state pt = PEER_CONNECTED ∧
    wc'.1 = set_ctl_state CONTROLLER_FILE_SERVING c ∧
    launched wt' = [launch_message 2 (chars "TBL2") (chars "a") [] 68].
Proof.
  refine (session_launches demo_pc demo_host ample_memory ample_memory (HPool := bump_pool) (OS := mem_posix) 0
    (λ o, (o, 50)) (Z.to_nat 8192) (λ _, (true, false)) _ _ _ 50 _ (demo_end 100) (demo_end 300)
    (set_ctl_state CONTROLLER_INITIAL demo_controller, demo_os) demo_world pc_handshake
    demo_handshake_reply (chars "TBL2") mounted_fs 68 _ _ _ _ _ _ _ _ _).
  - done.
  - done.
  - by rewrite Z2Nat.id.
  - unfold RL_PING_TIMEOUT. cbn. lia.
  - apply (demo_end_ok _ _ (chars "10.0.0.2:7001")). by vm_compute.
  - by vm_compute.
  - exact pc_handshake_ok.
  - apply (demo_end_ok _ _ (chars "10.0.0.2:7001")). by vm_compute.
  - by vm_compute.
  - exact amiga_handshake_ok.
  - by repeat constructor.
  - by repeat constructor.
  - split; [by vm_compute..].
Defined.
