(* ===== verification/Programs.v ===== *)
(** * Programs: the two main programs

    [connect_to_target] and [main] of controller.c, [common_main] and [main] of
    target.c, around the parts that the other files model.  What the socket
    library answers is data; the sockets that are closed are results. *)

From S2P Require Import Prelude Wire Messages CString Format Transport Peer FileServer.
From S2P Require Import AmigaFs AmigaActions AmigaMount Controller Target Serve Session.

(** ** The controller *)

(** The answers to one turn of the loop over the addresses: [connect] is done,
    refuses, or has to be waited for; then [select] reports the socket or runs
    into the time limit, and the socket is switched back or not.  [ready] does
    not say that the connection was made: a refused connection makes the
    socket ready, too. *)
Inductive connect_result :=
  | connect_done
  | connect_pending (ready restored : bool)
  | connect_failed.

Record attempt := Attempt {
  at_address : sockaddr;
  at_connect : connect_result;
  at_peer : option Z;              (* the allocator: the peer *)
  at_block : option (list Z)       (* the allocator: its input buffer *)
}.

Record resolution := Resolution {
  rs_attempts : option (list attempt);   (* getaddrinfo *)
  rs_socket : option Z;
  rs_nonblocking : bool
}.

Definition connects (r : connect_result) : bool :=
  match r with
  | connect_done => true
  | connect_pending ready restored => ready && restored
  | connect_failed => false
  end.

Section ControllerMain.
Context `{HHost : Host} `{Alloc : Allocator} {O : Type} `{OS : FileServer.Posix O}
  {S : Type} `{Sock : Socket S}.
Context (time : O → O * Z).

Section Connect.
Context (rl_log_bits : Z).

(** The loop has no exit for success: it goes on with the next address.
    [lost] are the peers that [this_peer] no longer leads to. *)
Fixpoint connect_loop (sock : Z) (attempts : list attempt) (w : world (O := O)) (count : Z)
    (this_peer : option peer) (lost : list peer)
  : option (option peer * world (O := O) * Z * list peer) :=
  match attempts with
  | [] => Some (this_peer, w, count, lost)
  | a :: attempts =>
      if negb (connects (at_connect a)) then Some (this_peer, w, count, lost) else
      let lost := lost ++ option_list this_peer in
      match at_peer a with
      | None => Some (None, w, count, lost)
      | Some ptr =>
          '((p, w, rc), count) ←
            peer_init (CB := controller_callbacks rl_log_bits time) ptr sock (at_address a)
              PEER_INIT_CONTROLLER w (at_block a) count;
          if negb (rc =? 0) then Some (None, w, count, lost)
          else connect_loop sock attempts w count (Some p) lost
      end
  end.

(** The result is the peer, the owner's state, the counter of peers, the sockets
    closed and the peers lost. *)
Definition connect_to_target (rs : resolution) (w : world (O := O)) (count : Z)
  : option (option peer * world (O := O) * Z * list Z * list peer) :=
  match rs_attempts rs, rs_socket rs with
  | Some attempts, Some sock =>
      if negb (rs_nonblocking rs) then Some (None, w, count, [sock], []) else
      '(this_peer, w, count, lost) ← connect_loop sock attempts w count None [];
      let closed := match this_peer with None => [sock] | Some _ => [] end in
      Some (this_peer, w, count, closed, lost)
  | _, _ => Some (None, w, count, [], [])
  end.
End Connect.

(** [main] gives the exit status; [None] also when the run ends before the
    program does. *)
Definition main (argv : list (list Z)) (rl_log_bits : Z) (getcwd : option (list Z))
    (rs : resolution) (o : O) (sock : S) (selects : list (option (bool * bool))) : option Z :=
  parsed ← parse_options argv (default_options rl_log_bits);
  match parsed with
  | Some op =>
      match opt_hostname op, opt_executable op with
      | Some _, Some executable =>
          ctrl ← setup getcwd (opt_fsroot op) executable (opt_arguments op);
          '(peer, w, _, _, _) ← connect_to_target (opt_log_bits op) rs (ctrl, o) 0;
          match peer with
          | None => Some (FileServer.result w.1)
          | Some peer =>
              '(peer, w, _, outcome) ←
                pump_peer_state_machine (opt_log_bits op) time selects peer w sock 0 true;
              match outcome with
              | pump_running => None
              | _ => _ ← peer_destroy peer; Some (FileServer.result w.1)
              end
          end
      | _, _ => Some 0
      end
  | None => Some 0
  end.
End ControllerMain.

(** ** The target *)
Section TargetMain.
Context `{HHost : Host} `{Alloc : Allocator} `{HPool : Pool}.
Context {D : Type} `{DOS : Dos D} {S : Type} `{Sock : Socket S}.
Context (no_peer : peer) (fuel : nat).

(** What the calls for the listening socket answer. *)
Record listening := Listening {
  ls_socket : option Z;
  ls_reuse : bool;                 (* setsockopt *)
  ls_bind : bool;
  ls_listen : bool
}.

(** The wakeups of the run, the owner's state at its start, and whether a
    server ran; the last component are the closed sockets of the program. *)
Definition common_main (ls : listening) (ks : list (wakeup (S := S))) (w : serve_world (D := D))
  : option (option (server (D := D) (S := S) * bool) * list Z) :=
  let closed := option_list (ls_socket ls) in
  match ls_socket ls with
  | Some listener_fd =>
      if ls_reuse ls && ls_bind ls && ls_listen ls then
        '(sv, running) ← serve no_peer fuel listener_fd ks (Server ∅ 0 w 0);
        Some (Some (sv, running), if running : bool then [] else closed)
      else Some (None, closed)
  | None => Some (None, closed)
  end.
End TargetMain.

(** ** The command line of the controller *)

(** C33: every command line consists of options, each with the word behind it
    as its value (the empty word if there is none), in any number and order, and
    of the words from the first that is no option on.  The last -fsroot and the
    last -port count, and all values of -log together toggle the log bits,
    letter by letter.  The first of the other words is the host, the second the
    executable, the rest its arguments, taken literally also when they look like
    options.  With a host, an executable and at most sixteen arguments these are
    the settings of the program; otherwise it ends with status 0, whatever the
    system, the network and the target would have answered. *)
Theorem parse_options_spec argv bits :
  Forall no_nul argv →
  (∃ opts rest, command_line argv opts rest) ∧
  ∀ opts rest, command_line argv opts rest →
    ∃ bits', rl_toggle_log_bits (concat (values on_log opts) ++ [0]) bits = Some bits' ∧
      parse_options argv (default_options bits) =
        Some (if decide (length rest ≤ 2 + RL_MAX_ARGUMENTS)%nat
              then Some (Options (bool_decide (rest ≠ []))
                     (default [] (last (values on_fsroot opts)))
                     (default (chars "7001") (last (values on_port opts))) bits'
                     (head rest) (head (tail rest)) (drop 2 rest))
              else None) ∧
      ((length rest < 2 ∨ 2 + RL_MAX_ARGUMENTS < length rest)%nat →
       ∀ `{HHost : Host} `{Alloc : Allocator} {O} `{OS : FileServer.Posix O} {S} `{Sock : Socket S}
         (time : O → O * Z) getcwd rs o (sock : S) selects,
         main time argv bits getcwd rs o sock selects = Some 0).
Proof.
  intros Hn. split; [apply command_line_total|]. intros opts rest Hc.
  destruct (parse_command argv opts rest Hc (default_options bits)) as (bits' & Hb & E);
    [by split|done|].
  exists bits'. split; [exact Hb|]. split; [exact E|]. intros Hlen *. unfold main. rewrite E.
  cbn [mbind option_bind]. unfold parsed. case_decide; [|done]. cbn [opt_hostname opt_executable].
  destruct rest as [|host [|exe rest]]; cbn [length] in *; [done..|].
  unfold RL_MAX_ARGUMENTS in *. lia.
Qed.

(** ** Connecting *)
Section ConnectFacts.
Context `{HHost : Host} `{Alloc : Allocator} {O : Type} `{OS : FileServer.Posix O}.
Context (time : O → O * Z) (rl_log_bits : Z).
Context (hm : rl_msg) (Hhm : handshake_message = Some hm) (Hok : msg_ok hm).
Implicit Types (w : world (O := O)) (a : attempt).

(** A peer that has queued its handshake on the socket, or could not. *)
Record connecting (sock : Z) (p : peer) : Prop := {
  cg_fd : fd p = sock;
  cg_mode : init_mode p = PEER_INIT_CONTROLLER;
  cg_state : state p = PEER_WAIT_HANDSHAKE ∨ state p = PEER_ERROR
}.

Lemma init_controller_spec ptr sock address w block count :
  is_Some (peer_ident address) →
  ∃ p w' rc count',
    peer_init (CB := controller_callbacks rl_log_bits time) ptr sock address PEER_INIT_CONTROLLER w
      block count = Some ((p, w', rc), count') ∧ w'.1 = w.1 ∧
    match block with
    | Some _ => rc = 0 ∧ count' = count + 1 ∧ connecting sock p
    | None => rc = 1 ∧ count' = count
    end.
Proof.
  intros [id Hid]. unfold peer_init. cbn [rl_time controller_callbacks].
  destruct (time w.2) as [o now]. unfold rl_transport_init.
  destruct block as [mem|]; cbn [rl_iobuf_init negb Z.eqb mbind option_bind].
  2:{ by eexists _, _, 1, count. }
  rewrite Hid. cbn [mbind option_bind]. rewrite decide_True by done.
  unfold invoke_action. cbn [invoke_at state state_actions peer_state_index peer_action_index lookup
    list_lookup mbind option_bind].
  unfold on_transmit_handshake. rewrite Hhm. cbn [mbind option_bind].
  set (p0 := Peer ptr PEER_INITIAL sock id 0 _ 0 PEER_INIT_CONTROLLER now false).
  assert (Hp0 : peer_ok p0 [] []).
  { split; [|apply map_Forall_empty]. split; cbn; try done; [constructor|].
    intros b Hb. by apply not_elem_of_nil in Hb. }
  destruct (enqueue_spec p0 [] [] hm Hp0 Hok) as (t' & rc & q & f & -> & _).
  cbn [mbind option_bind].
  destruct (negb (rc =? 0)); rewrite set_state_other' by done; cbn [mbind option_bind];
    (do 4 eexists; split; [done|]; split; [done|]; split; [done|]; split; [done|]; split; [done|done|]).
  - by right.
  - by left.
Qed.

Lemma connect_loop_spec sock attempts w count this_peer lost :
  Forall (λ a, is_Some (peer_ident (at_address a))) attempts →
  (∀ p, this_peer = Some p → connecting sock p) →
  ∃ r w' count' lost', connect_loop time rl_log_bits sock attempts w count this_peer lost =
      Some (r, w', count', lost') ∧ w'.1 = w.1 ∧
    (∀ p, r = Some p → connecting sock p) ∧
    count' - Z.of_nat (length lost' + length (option_list r)) =
    count - Z.of_nat (length lost + length (option_list this_peer)).
Proof.
  intros Hids. revert w count this_peer lost.
  induction Hids as [|a attempts Hid Hids IH]; intros w count this_peer lost Hthis; cbn [connect_loop].
  { by eexists this_peer, w, count, lost. }
  destruct (connects (at_connect a)); cbn [negb]; [|by eexists this_peer, w, count, lost].
  destruct (at_peer a) as [ptr|].
  2:{ eexists None, w, count, _. split; [done|]. split_and!; try done. rewrite length_app. cbn. lia. }
  destruct (init_controller_spec ptr sock (at_address a) w (at_block a) count Hid)
    as (p & w1 & rc & count1 & -> & Hw & Hp). cbn [mbind option_bind].
  destruct (at_block a).
  - destruct Hp as (-> & -> & Hcon). cbn [Z.eqb negb].
    destruct (IH w1 (count + 1) (Some p) (lost ++ option_list this_peer)) as
      (r & w' & count' & lost' & -> & Hw' & Hr & Hc); [by intros p' [= <-]|].
    exists r, w', count', lost'. split; [done|]. split; [congruence|]. split; [done|].
    rewrite Hc, length_app. cbn. lia.
  - destruct Hp as (-> & ->). cbn [Z.eqb negb].
    eexists None, w1, count, _. split; [done|]. split_and!; try done. rewrite length_app. cbn. lia.
Qed.

(** C26: connecting gives a peer that has queued its handshake on the open
    socket, or none and then the socket is closed, once if there is one.  The
    loop goes through all addresses: of the peers it has made, all but the one
    it returns are lost. *)
Theorem connect_to_target_spec rs w count :
  (∀ attempts, rs_attempts rs = Some attempts →
     Forall (λ a, is_Some (peer_ident (at_address a))) attempts) →
  ∃ r w' count' closed lost,
    connect_to_target time rl_log_bits rs w count = Some (r, w', count', closed, lost) ∧
    w'.1 = w.1 ∧ count' = count + Z.of_nat (length lost + length (option_list r)) ∧
    match r with
    | Some p => closed = [] ∧ ∃ sock, rs_socket rs = Some sock ∧ connecting sock p
    | None => closed = match rs_attempts rs with Some _ => option_list (rs_socket rs) | None => [] end
    end.
Proof.
  intros Hids. unfold connect_to_target.
  destruct (rs_attempts rs) as [attempts|]; [|eexists None, w, count, [], []; split_and!; cbn; (done || lia)].
  destruct (rs_socket rs) as [sock|]; [|eexists None, w, count, [], []; split_and!; cbn; (done || lia)].
  destruct (rs_nonblocking rs); cbn [negb];
    [|eexists None, w, count, _, []; split_and!; cbn; (done || lia)].
  destruct (connect_loop_spec sock attempts w count None []) as
    (r & w' & count' & lost & -> & Hw & Hr & Hc); [by apply Hids|done|].
  cbn [mbind option_bind]. eexists r, w', count', _, lost. split; [done|]. split; [done|].
  cbn in Hc. split; [lia|]. destruct r as [p|]; [|done]. split; [done|]. exists sock. eauto.
Qed.
End ConnectFacts.

(** ** The exit status *)
Lemma setup_result getcwd fsroot executable arguments c :
  setup getcwd fsroot executable arguments = Some c → FileServer.result c = 0.
Proof.
  unfold setup. intros (root & _ & H)%bind_Some. apply bind_Some in H as (root' & _ & H).
  apply bind_Some in H as ([vin ?] & _ & H). by apply bind_Some in H as ([vout ?] & _ & [= <-]).
Qed.

(** The controller also succeeds when it has not come to a connection. *)
Lemma main_not_connected `{HHost : Host} `{Alloc : Allocator} {O} `{OS : FileServer.Posix O}
    {S} `{Sock : Socket S} (time : O → O * Z) argv bits getcwd rs o (sock : S) selects op host exe
    ctrl w count closed lost :
  parse_options argv (default_options bits) = Some (Some op) →
  opt_hostname op = Some host → opt_executable op = Some exe →
  setup getcwd (opt_fsroot op) exe (opt_arguments op) = Some ctrl →
  connect_to_target time (opt_log_bits op) rs (ctrl, o) 0 = Some (None, w, count, closed, lost) →
  w.1 = ctrl → main time argv bits getcwd rs o sock selects = Some 0.
Proof.
  intros Hp Hh He Hs Hc Hw. unfold main. rewrite Hp. cbn [mbind option_bind].
  rewrite Hh, He, Hs. cbn [mbind option_bind]. rewrite Hc. cbn [mbind option_bind].
  rewrite Hw. f_equal. by eapply setup_result.
Qed.

(** Two values of -log, and an argument behind the host that looks like an
    option. *)
Lemma parse_options_spec_witness :
  parse_options [chars "-log"; chars "dn"; chars "-port"; chars "80"; chars "-fsroot"; chars "/w";
      chars "-port"; chars "81"; chars "-log"; chars "d"; chars "amiga"; chars "prog";
      chars "-log"; chars "x"] (default_options 16) =
    Some (Some (Options true (chars "/w") (chars "81") 18 (Some (chars "amiga"))
                  (Some (chars "prog")) [chars "-log"; chars "x"])).
Proof.
  destruct (parse_options_spec [chars "-log"; chars "dn"; chars "-port"; chars "80"; chars "-fsroot";
      chars "/w"; chars "-port"; chars "81"; chars "-log"; chars "d"; chars "amiga"; chars "prog";
      chars "-log"; chars "x"] 16) as [_ H]; [by repeat constructor|].
  destruct (H [(on_log, chars "dn"); (on_port, chars "80"); (on_fsroot, chars "/w");
      (on_port, chars "81"); (on_log, chars "d")]
    [chars "amiga"; chars "prog"; chars "-log"; chars "x"]) as (bits' & Hb & E & _).
  - apply (cl_option on_log), (cl_option on_port), (cl_option on_fsroot), (cl_option on_port),
      (cl_option on_log), cl_host. by repeat split.
  - vm_compute in Hb. injection Hb as <-. exact E.
Defined.

(** ** A concrete connection: a name with two addresses, both of which answer *)
Definition two_addresses : resolution :=
  let a := Attempt (AF_INET 167772162 7001) (connect_pending true true) (Some 100) (Some [0; 0]) in
  Resolution (Some [a; a]) (Some 4) true.

Lemma connect_to_target_spec_witness :
  let w := (set_ctl_state CONTROLLER_INITIAL demo_controller, demo_os) in
  ∃ r w' count' closed lost,
    connect_to_target (HHost := demo_pc) (Alloc := ample_memory) (OS := mem_posix) (λ o, (o, 50)) 0
      two_addresses w 0 = Some (r, w', count', closed, lost) ∧
    w'.1 = w.1 ∧ count' = 0 + Z.of_nat (length lost + length (option_list r)) ∧
    match r with
    | Some p => closed = [] ∧ ∃ sock, Some 4 = Some sock ∧ connecting sock p
    | None => closed = [4]
    end.
Proof.
  refine (connect_to_target_spec (HHost := demo_pc) (Alloc := ample_memory) (OS := mem_posix)
    (λ o, (o, 50)) 0 pc_handshake _ _ two_addresses
    (set_ctl_state CONTROLLER_INITIAL demo_controller, demo_os) 0 _).
  - by vm_compute.
  - exact pc_handshake_ok.
  - intros attempts [= <-]. repeat constructor; by eexists.
Defined.
