(* ===== verification/Startup.v ===== *)
(** * Startup: the main program of the target

    [main] of target.c on the Amiga, with the start and the end of the memory
    pool (util.c) and of the socket library (socket_includes.c): what is
    acquired and released, in which order, and with which address, port and log
    switches [common_main] runs. *)

From S2P Require Import Prelude Wire Messages CString Format Transport Peer.
From S2P Require Import AmigaFs AmigaActions AmigaMount Target Serve Programs.

(** ** Resources *)

(** What the program has to give back, and its calls of the operating system. *)
Inductive resource :=
  | R_startup                        (* the message of Workbench *)
  | R_dos                            (* dos.library *)
  | R_args                           (* the arguments of ReadArgs *)
  | R_socket                         (* bsdsocket.library *)
  | R_pool                           (* the memory pool *)
  | R_port (p : Z).                  (* g_process_msg_port *)
#[export] Instance resource_eq_dec : EqDecision resource.
Proof. solve_decision. Defined.

Inductive os_call := Acquire (r : resource) | Release (r : resource).

(** Everything is released once, the last first; [held] is what is held. *)
Fixpoint nested (held : list resource) (calls : list os_call) : bool :=
  match calls, held with
  | [], [] => true
  | Acquire r :: calls, _ => nested (r :: held) calls
  | Release r :: calls, r' :: held => bool_decide (r = r') && nested held calls
  | _, _ => false
  end.

(** ** The two libraries *)

(** [rl_amiga_pool] and [SocketBase] are nonzero. *)
Definition rl_init_alloc (created : bool) : list os_call * Z :=
  if created then ([Acquire R_pool], 0) else ([], 1).
Definition rl_fini_alloc (rl_amiga_pool : bool) : list os_call :=
  if rl_amiga_pool then [Release R_pool] else [].
Definition rl_init_socket (opened : bool) : list os_call * Z :=
  if opened then ([Acquire R_socket], 0) else ([], 1).
Definition rl_fini_socket (SocketBase : bool) : list os_call :=
  if SocketBase then [Release R_socket] else [].

(** ** The program *)

(** The answers of the operating system: whether there is a shell, the
    libraries, the arguments ADDRESS, PORT/N and LOG, and the pool. *)
Record startup := Startup {
  st_cli : bool;
  st_dos : bool;
  st_args : option (option (list Z) * option Z * option (list Z));
  st_socket : bool;
  st_pool : bool
}.

Record settings := Settings { bind_address : list Z; bind_port : Z; log_bits : Z }.

Section Main.
Context `{HHost : Host} `{Alloc : Allocator} `{HPool : Pool}.
Context {D : Type} `{DOS : Dos D} {S : Type} `{Sock : Socket S}.
Context (no_peer : peer) (fuel : nat).

(** The arguments of the shell replace the settings. *)
Definition read_arguments (args : option (list Z) * option Z * option (list Z)) (st : settings)
  : option settings :=
  let '(address, port, log) := args in
  address ← (match address with
             | Some a => format_text 64 (cstr "%s") [VStr (a ++ [0])]
             | None => Some (bind_address st)
             end);
  bits ← (match log with
          | Some l => rl_toggle_log_bits (l ++ [0]) (log_bits st)
          | None => Some (log_bits st)
          end);
  Some (Settings address (default (bind_port st) port) bits).

(** The labels at the end of the function. *)
Definition panic (wbstartup_message DOSBase : bool) : list os_call :=
  (if DOSBase then [Release R_dos] else []) ++
  (if wbstartup_message then [Release R_startup] else []).
Definition cleanup (g_process_msg_port : Z) (pool socket wb dos : bool) : list os_call :=
  (if negb (g_process_msg_port =? 0) then [Release (R_port g_process_msg_port)] else []) ++
  rl_fini_alloc pool ++ rl_fini_socket socket ++ panic wb dos.

(** The results of [rl_init_socket] and [rl_init_alloc] are not looked at:
    without the library or the pool the calls of [common_main] go through null
    pointers.  The result has the calls, AmigaDOS at the end, and, when
    [common_main] was reached, its settings and its result. *)
Definition main (os : startup) (rl_log_bits : Z) (ls : listening) (ks : list (wakeup (S := S)))
    (w : serve_world (D := D))
  : option (list os_call * D * option (settings * option (server (D := D) (S := S) * bool))) :=
  let wb := negb (st_cli os) in
  let calls := if wb then [Acquire R_startup] else [] in
  let defaults := Settings (chars "0.0.0.0") 7001 rl_log_bits in
  if negb (st_dos os) then Some (calls ++ cleanup 0 false false wb false, sw_dos w, None) else
  let calls := calls ++ [Acquire R_dos] in
  '(read_calls, settings) ←
    (if st_cli os then
       match st_args os with
       | Some args =>
           s ← read_arguments args defaults; Some ([Acquire R_args; Release R_args], Some s)
       | None => Some ([], None)
       end
     else Some ([], Some defaults));
  match settings with
  | None => Some (calls ++ panic wb true, sw_dos w, None)
  | Some s =>
      let '(socket_calls, _) := rl_init_socket (st_socket os) in
      let '(alloc_calls, _) := rl_init_alloc (st_pool os) in
      let calls := calls ++ read_calls ++ socket_calls ++ alloc_calls in
      let '(d, port) := CreateMsgPort (sw_dos w) in
      if port =? 0
      then Some (calls ++ cleanup 0 (st_pool os) (st_socket os) wb true, d, None)
      else if negb (st_socket os && st_pool os) then None
      else
        '(served, _) ← common_main no_peer fuel ls ks (ServeWorld (sw_target w) d (sw_closed w));
        let d := match served with Some (sv, _) => sw_dos (sv_world sv) | None => d end in
        Some (calls ++ [Acquire (R_port port)] ++ cleanup port true true wb true,
              DeleteMsgPort d port, Some (s, served))
  end.

(** ** Facts *)

(** The settings that arguments without null bytes make. *)
Definition chosen (args : option (list Z) * option Z * option (list Z)) (rl_log_bits : Z)
    (s : settings) : Prop :=
  bind_address s = match args.1.1 with Some a => take 63 a | None => chars "0.0.0.0" end ∧
  bind_port s = default 7001 args.1.2 ∧
  match args.2 with
  | Some l => rl_toggle_log_bits (l ++ [0]) rl_log_bits = Some (log_bits s)
  | None => log_bits s = rl_log_bits
  end.

Lemma toggle_defined l bits : is_Some (rl_toggle_log_bits (l ++ [0]) bits).
Proof.
  revert bits. induction l as [|c l IH]; intros bits; cbn; [by eexists|].
  destruct (c =? 0); [by eexists|]. apply IH.
Qed.

Lemma read_arguments_spec args rl_log_bits :
  from_option no_nul True args.1.1 →
  ∃ s, read_arguments args (Settings (chars "0.0.0.0") 7001 rl_log_bits) = Some s ∧
    chosen args rl_log_bits s.
Proof.
  destruct args as [[address port] log]. cbn [fst snd]. intros Ha. unfold read_arguments.
  assert (∃ a, (match address with
    | Some a => format_text 64 (cstr "%s") [VStr (a ++ [0])]
    | None => Some (chars "0.0.0.0") end) = Some a ∧
    a = match address with Some a => take 63 a | None => chars "0.0.0.0" end) as (a & Ea & Ha').
  { destruct address as [a|]; [|by eexists]. eexists. split; [|done].
    apply (format_text_spec 64); [|done|lia]. apply render_s. by apply cstr_at_app. }
  cbn [bind_address bind_port log_bits]. rewrite Ea. cbn [mbind option_bind].
  destruct log as [l|].
  - destruct (toggle_defined l rl_log_bits) as [bits Hb]. rewrite Hb. cbn [mbind option_bind].
    eexists. split; [done|]. by split_and!.
  - eexists. split; [done|]. by split_and!.
Qed.

(** The settings of a start that gets as far as [common_main]. *)
Definition chosen_by (os : startup) (rl_log_bits : Z) (s : settings) : Prop :=
  if st_cli os then ∃ args, st_args os = Some args ∧ chosen args rl_log_bits s
  else chosen (None, None, None) rl_log_bits s.

Definition serves (ls : listening) (ks : list (wakeup (S := S))) (w : serve_world (D := D)) :=
  common_main no_peer fuel ls ks
    (ServeWorld (sw_target w) (CreateMsgPort (sw_dos w)).1 (sw_closed w)).

End Main.

(** ** Sockets that do not block *)

(** [rl_configure_socket_blocking] where sockets are those of POSIX: the calls
    of [fcntl] that it makes, each a command with its argument, if any. *)
Section Blocking.
Context (F_GETFL O_NONBLOCK : Z) (fcntl : Z → option Z → Z).
Definition rl_configure_socket_blocking (should_block : bool) : list (Z * option Z) * Z :=
  let flags := fcntl F_GETFL None in
  let cmd := if should_block then Z.land flags (Z.lnot O_NONBLOCK) else Z.lor flags O_NONBLOCK in
  ([(F_GETFL, None); (cmd, None)], fcntl cmd None).

(** The flags are passed as the command: [F_SETFL], which does not have the bit
    of [O_NONBLOCK] on Linux (4 and 2048), is not among the calls. *)
Lemma never_nonblocking F_SETFL :
  Z.land F_SETFL O_NONBLOCK = 0 → O_NONBLOCK ≠ 0 → F_GETFL ≠ F_SETFL →
  F_SETFL ∉ (rl_configure_socket_blocking false).1.*1.
Proof.
  intros Hs Hn Hg Hin. cbn in Hin.
  apply elem_of_cons in Hin as [H|[H|[]%not_elem_of_nil]%elem_of_cons]; [done|].
  apply Hn. rewrite <- Hs, H. apply Z.bits_inj'. intros i _.
  rewrite Z.land_spec, Z.lor_spec. by destruct (Z.testbit O_NONBLOCK i), (Z.testbit (fcntl _ _) i).
Qed.
End Blocking.

(** ** A concrete start: from a shell, with an address and log switches *)
Section Demo.
#[local] Existing Instance demo_host.
#[local] Existing Instance no_memory.
#[local] Existing Instance bump_pool.
#[local] Existing Instance simple_dos.
#[local] Instance a_socket : Socket (list Z * list Z) := chunk_socket 4.

Definition shell_start : startup :=
  Startup true true (Some (Some (chars "10.0.0.1"), None, Some (chars "dn"))) true true.
Definition shell_run :=
  main null_peer 1 shell_start 0 (Listening (Some 3) true true true) [break_pressed] demo_server.

End Demo.
