(* ===== verification/SessionEnd.v ===== *)
(** * SessionEnd: a session from the launch to the exit code

    The program that Session has launched ends: its result goes from the
    process on the Amiga through the target to the controller, which gives it
    to its caller. *)

From S2P Require Import Prelude Wire Messages CString Format Transport Peer FileServer.
From S2P Require Import AmigaFs AmigaActions Controller Target AmigaMount Serve Session.

(** ** The launcher's process *)

(** The command line. *)
Definition command_line (command arguments : list Z) : list Z :=
  take 511 (match arguments with [] => command | _ => command ++ 32 :: arguments end).

(** The result of a program; that it could not be run is 1. *)
Definition exit_code (system : Z) : Z := if system =? -1 then 1 else system.

Lemma cmd_launcher_spec `{HHost : Host} msg system :
  no_nul (command_path msg) → no_nul (launch_arguments msg) →
  ∃ msg', cmd_launcher msg system =
      Some (msg', system (command_line (command_path msg) (launch_arguments msg)) =? -1) ∧
    launch_peer_index msg' = launch_peer_index msg ∧ root_lock msg' = root_lock msg ∧
    result_code msg' =
      exit_code (system (command_line (command_path msg) (launch_arguments msg))).
Proof.
  intros Hc Ha. unfold cmd_launcher, command_line.
  assert (Hline : match launch_arguments msg with
    | _ :: _ => format_text 512 (cstr "%s %s")
        [VStr (command_path msg ++ [0]); VStr (launch_arguments msg ++ [0])]
    | [] => format_text 512 (cstr "%s") [VStr (command_path msg ++ [0])] end =
    Some (take 511 (match launch_arguments msg with [] => command_path msg
       | _ => command_path msg ++ 32 :: launch_arguments msg end))).
  { destruct (launch_arguments msg) as [|a args] eqn:E.
    - apply (format_text_spec 512); [|done|lia]. apply render_s. by apply cstr_at_app.
    - apply (format_text_spec 512); [| |lia].
      + by apply (render_s_char_s _ _ 32); try apply cstr_at_app.
      + apply Forall_app. split; [done|]. by constructor. }
  rewrite Hline. cbn [mbind option_bind]. eexists. split; [done|]. done.
Qed.

(** What the launcher reports when it has run the program of the message that
    the target has made. *)
Lemma launched_program_code `{HHost : Host} index device executable args lock system :
  device_name index = Some device → wf_string executable → Forall no_nul args →
  (∀ line, -2147483648 <= system line < 2147483648) →
  let line := command_line (launch_command device executable) (take 254 (args_text true args)) in
  ∃ msg' failed,
    cmd_launcher
      (launch_message index device executable (take 254 (args_text true args)) lock) system =
      Some (msg', failed) ∧
    launch_peer_index msg' = index ∧ s32 (u32 (result_code msg')) = exit_code (system line).
Proof.
  intros Hdev He Ha Hsys line. set (text := take 254 (args_text true args)) in *.
  set (msg := launch_message index device executable text lock).
  assert (Hargs : no_nul text) by by apply Forall_take, args_text_no_nul.
  assert (Hcmd : no_nul (launch_command device executable)).
  { apply Forall_take. destruct He. case_decide; [done|]. apply Forall_app.
    split; [by eapply device_name_no_nul|]. by constructor. }
  destruct (cmd_launcher_spec msg system) as (msg' & Hlaunch & Hidx & _ & Hcode);
    [done|by apply Forall_take|].
  change (command_path msg) with (launch_command device executable) in Hcode.
  change (launch_arguments msg) with (take 255 text) in Hcode.
  assert (take 255 text = text) as Hfull by (apply take_ge; unfold text; rewrite length_take; lia).
  rewrite Hfull in Hcode. fold line in Hcode.
  exists msg'. eexists. split; [exact Hlaunch|]. split; [done|]. rewrite Hcode.
  pose proof (Hsys line). unfold exit_code. apply s32_u32. case_match; lia.
Qed.
Section Network.
Context (HC HT : Host) (AC AT : Allocator) `{HPool : Pool} {O : Type} `{OS : FileServer.Posix O}.
Context (rl_log_bits : Z) (time : O → O * Z) (k : nat) (can_write : nat → bool * bool).
Context (memC : ∀ h, malloc (Allocator := AC) h ≠ None)
  (memT : ∀ h, malloc (Allocator := AT) h ≠ None) (Hk : 8192 <= Z.of_nat k).
Context (t0 : Z) (on_time : ∀ o, t0 <= (time o).2 <= t0 + RL_PING_TIMEOUT).

#[local] Abbreviation state_of := (session_state (O := O)).
#[local] Abbreviation run := (session HC HT AC AT rl_log_bits time k can_write).
#[local] Abbreviation ctl_ready := (controller_ready (O := O) t0).

(** The server of the target learns that the process has ended: its only peer
    is told. *)
Definition program_done (st : state_of) (msg : launch_msg) : option state_of :=
  let '(c, (pt, wt)) := st in
  nodes ← notify_completion (HHost := HT) (Alloc := AT) (S := unit) 2
            {[self_ptr pt := Node pt tt 0]} (self_ptr pt) msg;
  n ← nodes !! self_ptr pt;
  Some (c, (n_peer n, wt)).

(** The exit code makes the controller leave. *)
Lemma controller_done_effect p (w : world (O := O)) msg code :
  state p = PEER_CONNECTED → ctl_state w.1 = CONTROLLER_FILE_SERVING →
  hdr_type msg = RL_MSG_EXECUTABLE_DONE_REQUEST → body msg = executable_done_request code →
  effect (HHost := HC) (Alloc := AC)
    (CB := controller_callbacks (HHost := HC) (Alloc := AC) rl_log_bits time) p w
    (λ p w, invoke_action (HHost := HC) (Alloc := AC)
       (CB := controller_callbacks (HHost := HC) (Alloc := AC) rl_log_bits time)
       p w PEER_ACTION_RECEIVE_MESSAGE (Some msg)) []
    (λ p' w', state p' = PEER_ERROR ∧ FileServer.result w'.1 = s32 code).
Proof.
  intros Hs Hc Ht Hb t q f Hok.
  set (w1 := (Controller.set_result (s32 code) w.1, (time w.2).1)).
  exists (set_state PEER_ERROR (set_activity (time w.2).2 (set_transport t p))), w1, w1, q, f.
  split.
  { unfold invoke_action.
    rewrite (receive_for_owner (HHost := HC) (Alloc := AC)
      (CB := controller_callbacks (HHost := HC) (Alloc := AC) rl_log_bits time))
      by (try done; unfold for_owner; by rewrite Ht).
    destruct (controller_time (HHost := HC) (Alloc := AC) rl_log_bits time w) as [Hw Hn].
    destruct (rl_time w) as [w' n]. cbn [fst snd] in Hw, Hn. subst w' n.
    unfold on_message. cbn [controller_callbacks fst snd].
    unfold on_message_received_. rewrite Hc. unfold rl_msg_kind_of. rewrite Ht, Hb.
    cbn [Z.eqb Pos.eqb RL_MSG_LAUNCH_EXECUTABLE_ANSWER RL_MSG_EXECUTABLE_DONE_REQUEST mbind
      option_bind negb].
    by rewrite set_state_other'. }
  split_and!; try done; [by destruct Hok; split|by rewrite app_nil_r].
Qed.

Lemma controller_finishes pc (wc : world (O := O)) f cw code m :
  at_rest pc → peer_ok pc [] f → state pc = PEER_CONNECTED →
  ctl_state wc.1 = CONTROLLER_FILE_SERVING →
  m = RL_MSG_INIT (executable_done_request code) 0 → msg_ok m →
  turned (controller_turn HC AC rl_log_bits time k pc wc (wire_bytes m) cw) []
    (λ p w, state p = PEER_ERROR ∧ FileServer.result w.1 = s32 code).
Proof.
  intros Hr Hok Hs Hc -> Hm. unfold controller_turn.
  change (@nil Z) with (peer_pending pc [] ++ []).
  apply (turn_message (HHost := HC) (Alloc := AC)
    (CB := controller_callbacks (HHost := HC) (Alloc := AC) rl_log_bits time) k Hk pc wc [] f);
    [exact Hr|exact Hok|exact Hm|].
  intros m' Ht _ Hb. cbn [hdr_type RL_MSG_INIT body body_kind] in *.
  change (RL_MSG_EXECUTABLE_DONE_REQUEST =? RL_MSG_HANDSHAKE_REQUEST) with false. cbv iota.
  apply controller_done_effect; [done..|].
  unfold equiv, body_equiv in Hb. by destruct (body m').
Qed.

(** From any point at which nothing is under way, the end of the program takes
    two turns to end the session. *)
Lemma session_ends ptr index pc wc pt wt msg :
  ctl_ready pc wc → target_ready ptr index pt wt → ptr ≠ 0 → launch_peer_index msg = index →
  ∃ st st', program_done ((pc, wc), (pt, wt)) msg = Some st ∧ run 2 st [] = Some (st', []) ∧
    state st'.1.1 = PEER_ERROR ∧ FileServer.result st'.1.2.1 = s32 (u32 (result_code msg)).
Proof.
  intros [Hr1 [f1 Hok1] Hs1 Ha1 Hc1] [Hr2 [f2 Hok2] Hs2 Hp2 Hi2 Ha2] Hptr Hidx.
  set (m := RL_MSG_INIT (executable_done_request (u32 (result_code msg))) 0).
  assert (Hm : msg_ok m).
  { split; [split; cbn; try done; apply u32_range|].
    unfold m, wire_length. cbn [body RL_MSG_INIT body_bytes]. rewrite length_be_split. lia. }
  destruct (transmit_live (HHost := HT) (Alloc := AT) memT pt [] f2 m Hs2 Hok2 Hm)
    as (pt1 & q & f & Htr & Hok & Hs & Hpend & Hend).
  destruct Hend as [Hptr' Hidx' Hmode Hact Hin Herr Hdis].
  exists ((pc, wc), (pt1, wt)).
  assert (Hrest : at_rest pt1).
  { destruct Hr2. split; by rewrite ?Hin, ?Herr, ?Hdis. }
  destruct (controller_idles HC AC rl_log_bits time k Hk t0 on_time pc wc [] f1 (can_write 1).1
    Hr1 Hok1 Hs1 Ha1) as (pc2 & wc2 & r2 & f2' & T2 & R2 & K2 & U2 & S2 & _ & A2 & W2).
  destruct (target_idles HT AT k Hk pt1 wt q f (can_write 1).2 Hrest Hok Hs ltac:(congruence))
    as (pt3 & wt3 & r3 & f3 & T3 & R3 & K3 & U3 & S3 & _ & A3 & ->).
  change (peer_pending pc []) with (@nil Z) in T2. rewrite Hpend in T3. cbn [app] in T3.
  change (peer_pending pt [] ++ ?x) with x in T3.
  destruct (controller_finishes pc2 wc2 f2' (can_write 0).1 (u32 (result_code msg)) m R2 K2 S2
    ltac:(by rewrite W2) eq_refl Hm) as (pc4 & wc4 & r4 & f4 & T4 & R4 & K4 & U4 & S4 & Hres).
  exists ((pc4, wc4), (pt3, wt)). split; [|split; [|done]].
  - unfold program_done. cbn [notify_completion]. rewrite (proj2 (Z.eqb_neq _ 0)) by congruence.
    rewrite lookup_singleton_eq. cbn [mbind option_bind n_peer]. rewrite Hi2, Hidx, Z.eqb_refl.
    fold m. unfold transmit. cbn [target_link peer_link]. rewrite Htr. cbn [mbind option_bind]. rewrite lookup_insert_eq. done.
  - rewrite (session_step HC HT AC AT rl_log_bits time k can_write 1 pc wc pt1 wt [] _ _ _ _ _ _ _ _
      T2 U2 (or_intror S2) T3 U3 (or_intror S3)).
    cbn [session]. rewrite T4. cbn [mbind option_bind].
    assert (r4 = PEER_STATUS_REMOVE_ME) as -> by (unfold status_of in U4; by rewrite S4 in U4).
    done.
Qed.

End Network.
