(* ===== verification/Network.v ===== *)
(** * Network: file serving over the network

    The sessions of AmigaIo join the file system of the target and the file
    server of the controller by a list of messages.  Here the same two parts
    run at the ends of a connection, behind their peers, transports and sockets:
    every session over the list is one over the network, with the same
    outcome. *)

From S2P Require Import Prelude Wire Messages CString Format Transport Peer FileServer.
From S2P Require Import AmigaFs AmigaActions AmigaMount AmigaSafety AmigaIo AmigaSession AmigaTypes.
From S2P Require Import AmigaLink AmigaRequests ServerLink.
From S2P Require Import Controller Target Session.

(** ** The answers of the server are messages *)
#[refine] Definition sound_link : PeerLink (list rl_msg) := {|
  transmit p m := Some (p ++ [m], 0);
  link_sent p ms := p = ms ∧ Forall msg_ok ms;
  link_down _ := False
|}.
Proof.
  - intros p ms m [-> Hms] Hm. eexists. split; [done|]. left. split; [done|].
    apply Forall_app. split; [done|]. by constructor.
  - done.
  - by intros p m p' rc [= _ <-].
Defined.

Section Answers.
Context `{HHost : Host} {O : Type} `{OS : FileServer.Posix O} (rl_log_bits : Z).
Hypothesis log_off : FileServer.has_flag rl_log_bits RL_DEBUG = false.
Implicit Types (x : FileServer.rl_controller * O).

Lemma controller_answer_spec x req x' ans :
  FileServer.ctl_ok x.1 → wf_msg req → controller_answer rl_log_bits x req = Some (x', ans) →
  FileServer.ctl_ok x'.1 ∧ msg_ok ans ∧ FileServer.answers_to (body req) (body ans) ∧
  ctl_state x'.1 = ctl_state x.1 ∧
  ∀ {P} `{Link : PeerLink P} (p p' : P), transmit p ans = Some (p', 0) →
    FileServer.rl_file_serve rl_log_bits p x.1 x.2 req = Some (p', x'.1, x'.2, 0).
Proof.
  intros Hc Hreq. unfold controller_answer. destruct x as [c o]. cbn [fst snd].
  destruct (FileServer.request_served (Link := sound_link) rl_log_bits [] c o [] req)
    as (out & c' & o' & Hrun & Hc' & Hsent); [done..|by rewrite log_off|].
  change (FileServer.rl_file_serve (Link := sound_link) rl_log_bits [] c o req) with
    (FileServer.rl_file_serve (Link := log_link) rl_log_bits [] c o req) in Hrun.
  rewrite Hrun. cbn [mbind option_bind].
  destruct out as [|m out]; [done|]. intros [= <- <-]. cbn [fst snd].
  destruct Hsent as [H|Hsent]; [done|].
  destruct (FileServer.closes (body req)); [by destruct Hsent|destruct Hsent as (b & Hb & E & Hok)].
  cbn [link_sent sound_link app] in E, Hok.
  injection E as -> ->. rewrite Forall_singleton in Hok.
  destruct (serve_same (Link := log_link) rl_log_bits c o req _ _ _ _ Hrun) as (Hst & _).
  split; [done|]. split; [exact Hok|]. split; [done|]. split; [done|]. intros P Link p p' Ht.
  destruct (serve_same (Link := Link) rl_log_bits c o req _ _ _ _ Hrun)
    as (_ & _ & _ & [[[=] _]|(ans & [= <-] & Hserve)]).
  by apply Hserve.
Qed.
(** A message that wants no answer. *)
Definition serve_farewell x (m : rl_msg) : option (FileServer.rl_controller * O) :=
  '(out, c, o, _) ← FileServer.rl_file_serve (Link := log_link) rl_log_bits [] x.1 x.2 m;
  match out with [] => Some (c, o) | _ => None end.

Lemma serve_farewell_spec x m x' :
  FileServer.ctl_ok x.1 → wf_msg m → serve_farewell x m = Some x' →
  FileServer.ctl_ok x'.1 ∧ ctl_state x'.1 = ctl_state x.1 ∧
  ∀ {P} `{Link : PeerLink P} (p : P),
    FileServer.rl_file_serve rl_log_bits p x.1 x.2 m = Some (p, x'.1, x'.2, 0).
Proof.
  intros Hc Hm. unfold serve_farewell. destruct x as [c o]. cbn [fst snd].
  destruct (FileServer.request_served (Link := sound_link) rl_log_bits [] c o [] m)
    as (out & c' & o' & Hrun & Hc' & _); [done..|by rewrite log_off|].
  change (FileServer.rl_file_serve (Link := sound_link) rl_log_bits [] c o m) with
    (FileServer.rl_file_serve (Link := log_link) rl_log_bits [] c o m) in Hrun.
  rewrite Hrun. cbn [mbind option_bind]. destruct out; [|done]. intros [= <-].
  destruct (serve_same (Link := log_link) rl_log_bits c o m _ _ _ _ Hrun) as (Hst & _).
  split; [done|]. split; [done|]. intros P Link p.
  destruct (serve_same (Link := Link) rl_log_bits c o m _ _ _ _ Hrun)
    as (_ & _ & _ & [[_ Hserve]|(ans & [=] & _)]). apply Hserve.
Qed.
End Answers.

Section Network.
Context (HC HT : Host) (AC AT : Allocator) `{HPool : Pool} {O : Type} `{OS : FileServer.Posix O}.
Context (rl_log_bits : Z) (time : O → O * Z) (k : nat) (can_write : nat → bool * bool).
Context (memC : ∀ h, malloc (Allocator := AC) h ≠ None)
  (memT : ∀ h, malloc (Allocator := AT) h ≠ None) (Hk : 8192 <= Z.of_nat k).
Context (t0 : Z) (on_time : ∀ o, t0 <= (time o).2 <= t0 + RL_PING_TIMEOUT).
Hypothesis log_off : FileServer.has_flag rl_log_bits RL_DEBUG = false.
(** Reading the clock does not change files. *)
Hypothesis time_keeps : ∀ o, (time o).1 = o.
#[local] Existing Instance log_link.
Implicit Types (t : fsys (list rl_msg)).

#[local] Abbreviation state_of := (session_state (O := O)).
#[local] Abbreviation run := (Session.session HC HT AC AT rl_log_bits time k can_write).
#[local] Abbreviation server := (controller_answer (HHost := HC) rl_log_bits).
#[local] Abbreviation ctl_callbacks :=
  (controller_callbacks (HHost := HC) (Alloc := AC) rl_log_bits time).
#[local] Abbreviation tgt_callbacks := (server_callbacks (HHost := HT) (Alloc := AT)).

Lemma clock_only w : rl_time (PeerCallbacks := ctl_callbacks) w = (w, (time w.2).2).
Proof.
  destruct (controller_time (HHost := HC) (Alloc := AC) rl_log_bits time w) as [Hw Hn].
  destruct (rl_time w) as [w' n] eqn:E. cbn [fst snd] in *. subst n w'.
  rewrite time_keeps. by destruct w.
Qed.

Lemma request_kind m :
  file_request m = true →
  for_owner m ∧ rl_msg_kind_of m ≠ RL_MSG_LAUNCH_EXECUTABLE_ANSWER ∧
  rl_msg_kind_of m ≠ RL_MSG_EXECUTABLE_DONE_REQUEST ∧ hdr_type m ≠ RL_MSG_HANDSHAKE_REQUEST.
Proof.
  unfold file_request, for_owner, rl_msg_kind_of. intros H.
  assert (Hn : ∀ z,
    (z =? RL_MSG_OPEN_HANDLE_REQUEST) || (z =? RL_MSG_CLOSE_HANDLE_REQUEST) ||
    (z =? RL_MSG_READ_FILE_REQUEST) || (z =? RL_MSG_WRITE_FILE_REQUEST) ||
    (z =? RL_MSG_FIND_NEXT_FILE_REQUEST) = false → hdr_type m ≠ z) by (intros z Hz E; congruence).
  split_and!; apply Hn; done.
Qed.

(** A request arrives at the controller. *)
Lemma controller_request_effect p (w : world (O := O)) m req x' ans :
  state p = PEER_CONNECTED → ctl_state w.1 = CONTROLLER_FILE_SERVING →
  FileServer.ctl_ok w.1 → wf_msg req → file_request req = true →
  server w req = Some (x', ans) →
  hdr_type m = hdr_type req → hdr_seq m = hdr_seq req → body m ≡ body req →
  effect (HHost := HC) (Alloc := AC) (CB := ctl_callbacks) p w
    (λ p w, invoke_action (HHost := HC) (Alloc := AC) (CB := ctl_callbacks) p w
       PEER_ACTION_RECEIVE_MESSAGE (Some m)) (wire_bytes ans)
    (λ p' w', state p' = PEER_CONNECTED ∧ same_id p p' ∧ t0 <= last_activity p' ∧ w' = x').
Proof.
  intros Hs Hc Hok0 Hreq Hkind Hans Ht Hq Hb t q f Hok.
  destruct (controller_answer_spec (HHost := HC) rl_log_bits log_off w req x' ans Hok0 Hreq Hans)
    as (_ & Hansok & _ & _ & Hserve).
  destruct (request_kind req Hkind) as (Hfor & Hk1 & Hk2 & _).
  set (p0 := set_activity (time w.2).2 (set_transport t p)).
  destruct (transmit_live (HHost := HC) (Alloc := AC) memC p0 q f ans Hs)
    as (p1 & q1 & f1 & Htr & Hok1 & Hs1 & Hp1 & Hse); [by destruct Hok; split|done|].
  destruct Hse as [Hptr Hidx Hmd Hla Hi Her Hdi]. cbn in Hptr, Hidx, Hmd, Hla, Hi, Her, Hdi.
  exists p1, x', x', q1, f1. split.
  { unfold invoke_action.
    rewrite (receive_for_owner (HHost := HC) (Alloc := AC) (CB := ctl_callbacks))
      by (try done; unfold for_owner in *; by rewrite Ht).
    rewrite clock_only. unfold on_message. cbn [controller_callbacks].
    unfold on_message_received_. rewrite Hc. unfold rl_msg_kind_of in *. rewrite Ht.
    rewrite !(proj2 (Z.eqb_neq _ _)) by done. fold p0.
    rewrite (serve_equiv _ p0 w.1 w.2 req m) by done.
    rewrite (Hserve _ (peer_link (HHost := HC) (Alloc := AC) []) p0 p1 Htr).
    cbn [mbind option_bind Z.eqb negb]. by destruct x'. }
  split_and!; try done.
  - intros t1. unfold invoke_action.
    pose proof (update_idle (HHost := HC) (Alloc := AC) (CB := ctl_callbacks)
      (set_transport t1 p1) x' Hs1) as Hu. rewrite clock_only in Hu. cbn [fst snd] in Hu.
    apply Hu. cbn. rewrite Hla. cbn. pose proof (on_time x'.2). pose proof (on_time w.2). lia.
  - intros t1 r. split_and!; [done|by split| |done]. cbn. rewrite Hla. cbn. apply on_time.
Qed.

Lemma controller_replies pc (wc : world (O := O)) f cw req x' ans :
  at_rest pc → peer_ok pc [] f → state pc = PEER_CONNECTED →
  ctl_state wc.1 = CONTROLLER_FILE_SERVING → FileServer.ctl_ok wc.1 →
  msg_ok req → file_request req = true → server wc req = Some (x', ans) →
  turned (controller_turn HC AC rl_log_bits time k pc wc (wire_bytes req) cw) (wire_bytes ans)
    (λ p w, state p = PEER_CONNECTED ∧ same_id pc p ∧ t0 <= last_activity p ∧ w = x').
Proof.
  intros Hr Hok Hs Hc Hco Hm Hkind Hans. unfold controller_turn.
  change (wire_bytes ans) with (peer_pending pc [] ++ wire_bytes ans).
  apply (turn_message (HHost := HC) (Alloc := AC) (CB := ctl_callbacks) k Hk pc wc [] f);
    [exact Hr|exact Hok|exact Hm|].
  intros m' Ht Hq Hb.
  rewrite (proj2 (Z.eqb_neq (hdr_type req) _)) by apply (request_kind req Hkind).
  by apply (controller_request_effect pc wc m' req x' ans); try done; apply Hm.
Qed.

(** A farewell arrives. *)
Lemma controller_farewell_effect p (w : world (O := O)) m req x' :
  state p = PEER_CONNECTED → ctl_state w.1 = CONTROLLER_FILE_SERVING →
  FileServer.ctl_ok w.1 → wf_msg req → file_request req = true →
  serve_farewell (HHost := HC) rl_log_bits w req = Some x' →
  hdr_type m = hdr_type req → hdr_seq m = hdr_seq req → body m ≡ body req →
  effect (HHost := HC) (Alloc := AC) (CB := ctl_callbacks) p w
    (λ p w, invoke_action (HHost := HC) (Alloc := AC) (CB := ctl_callbacks) p w
       PEER_ACTION_RECEIVE_MESSAGE (Some m)) []
    (λ p' w', state p' = PEER_CONNECTED ∧ same_id p p' ∧ t0 <= last_activity p' ∧ w' = x').
Proof.
  intros Hs Hc Hok0 Hreq Hkind Hans Ht Hq Hb t q f Hok.
  destruct (serve_farewell_spec (HHost := HC) rl_log_bits log_off w req x' Hok0 Hreq Hans)
    as (_ & _ & Hserve).
  destruct (request_kind req Hkind) as (Hfor & Hk1 & Hk2 & _).
  set (p0 := set_activity (time w.2).2 (set_transport t p)).
  exists p0, x', x', q, f. split.
  { unfold invoke_action.
    rewrite (receive_for_owner (HHost := HC) (Alloc := AC) (CB := ctl_callbacks))
      by (try done; unfold for_owner in *; by rewrite Ht).
    rewrite clock_only. unfold on_message. cbn [controller_callbacks].
    unfold on_message_received_. rewrite Hc. unfold rl_msg_kind_of in *. rewrite Ht.
    rewrite !(proj2 (Z.eqb_neq _ _)) by done. fold p0.
    rewrite (serve_equiv _ p0 w.1 w.2 req m) by done.
    rewrite (Hserve _ (peer_link (HHost := HC) (Alloc := AC) []) p0).
    cbn [mbind option_bind Z.eqb negb]. by destruct x'. }
  split_and!; try done.
  - by destruct Hok; split.
  - by rewrite app_nil_r.
  - intros t1. unfold invoke_action.
    pose proof (update_idle (HHost := HC) (Alloc := AC) (CB := ctl_callbacks)
      (set_transport t1 p0) x' Hs) as Hu. rewrite clock_only in Hu. cbn [fst snd] in Hu.
    apply Hu. cbn. pose proof (on_time x'.2). pose proof (on_time w.2). lia.
  - intros t1 r. split_and!; [done|by split| |done]. cbn. apply on_time.
Qed.

Lemma controller_hears pc (wc : world (O := O)) f cw req x' :
  at_rest pc → peer_ok pc [] f → state pc = PEER_CONNECTED →
  ctl_state wc.1 = CONTROLLER_FILE_SERVING → FileServer.ctl_ok wc.1 →
  msg_ok req → file_request req = true → serve_farewell (HHost := HC) rl_log_bits wc req = Some x' →
  turned (controller_turn HC AC rl_log_bits time k pc wc (wire_bytes req) cw) []
    (λ p w, state p = PEER_CONNECTED ∧ same_id pc p ∧ t0 <= last_activity p ∧ w = x').
Proof.
  intros Hr Hok Hs Hc Hco Hm Hkind Hans. unfold controller_turn.
  change (@nil Z) with (peer_pending pc [] ++ []).
  apply (turn_message (HHost := HC) (Alloc := AC) (CB := ctl_callbacks) k Hk pc wc [] f);
    [exact Hr|exact Hok|exact Hm|].
  intros m' Ht Hq Hb.
  rewrite (proj2 (Z.eqb_neq (hdr_type req) _)) by apply (request_kind req Hkind).
  by apply (controller_farewell_effect pc wc m' req x'); try done; apply Hm.
Qed.

(** ** The target's side *)

(** The file system of the peer at [ptr] is [t], but for its link. *)
Definition holds (ptr : Z) (w : target_world) t : Prop :=
  ∃ p0 : peer, file_systems w !! ptr = Some (with_peer p0 t).

Lemma answer_kind req ans :
  wf_msg ans → FileServer.answers_to req (body ans) →
  for_owner ans ∧ rl_msg_kind_of ans ≠ RL_MSG_LAUNCH_EXECUTABLE_REQUEST ∧
  hdr_type ans ≠ RL_MSG_HANDSHAKE_REQUEST.
Proof.
  intros [Ht _ _ _] Ha. unfold for_owner, rl_msg_kind_of. rewrite Ht.
  destruct (body ans); cbn in Ha; try done.
Qed.

(** An answer arrives at the target: the file system goes on as it does over
    the list, and what it asks next is queued. *)
Lemma target_answer_effect p w m ans t t' (out : list rl_msg) req :
  state p = PEER_CONNECTED → holds (self_ptr p) w t →
  wf_msg ans → FileServer.answers_to req (body ans) →
  rl_amigafs_process_network_message (HHost := HT) t ans = Some (t', 0) →
  fs_peer t' = fs_peer t ++ out → Forall msg_ok out →
  hdr_type m = hdr_type ans → hdr_seq m = hdr_seq ans → body m ≡ body ans →
  effect (HHost := HT) (Alloc := AT) (CB := tgt_callbacks) p w
    (λ p w, invoke_action (HHost := HT) (Alloc := AT) (CB := tgt_callbacks) p w
       PEER_ACTION_RECEIVE_MESSAGE (Some m)) (concat (wire_bytes <$> out))
    (λ p' w', state p' = PEER_CONNECTED ∧ same_id p p' ∧ last_activity p' = clock w' ∧
       holds (self_ptr p) w' t').
Proof.
  intros Hs [pf Hfs] Hans Hto Hrun Hpeer Hmsgs Ht Hq Hb t1 q f Hok.
  destruct (answer_kind req ans Hans Hto) as (Hfor & Hk1 & _).
  set (p0 := set_activity (clock w) (set_transport t1 p)).
  assert (Hok0 : peer_ok p0 q f) by by destruct Hok; split.
  (* the run over the peer *)
  assert (Hpn : ∃ p1 q1 f1,
    rl_amigafs_process_network_message (HHost := HT)
      (Link := peer_link (HHost := HT) (Alloc := AT) []) (with_peer p0 t) m =
      Some (with_peer p1 t', 0) ∧
    peer_ok p1 q1 f1 ∧ state p1 = PEER_CONNECTED ∧ same_end p0 p1 ∧
    peer_pending p1 q1 = peer_pending p0 q ++ concat (wire_bytes <$> out)).
  { rewrite (network_message_equiv (Link := peer_link (HHost := HT) (Alloc := AT) []) _ ans m)
      by (done || apply Hans).
    destruct (network_message_free (Link := peer_link (HHost := HT) (Alloc := AT) []) t ans t' 0 Hrun)
      as [[Hp Hr]|(r & Hp & _ & Hr)]; rewrite Hp in Hpeer.
    - assert (out = []) as -> by by apply (app_inv_head (fs_peer t)); rewrite <- Hpeer, app_nil_r.
      exists p0, q, f. split; [apply Hr|]. split_and!; try done. by rewrite app_nil_r.
    - apply app_inv_head in Hpeer. subst out. rewrite Forall_singleton in Hmsgs.
      destruct (transmit_live (HHost := HT) (Alloc := AT) memT p0 q f r Hs Hok0 Hmsgs)
        as (p1 & q1 & f1 & Htr & Hok1 & Hs1 & Hp1 & Hse).
      exists p1, q1, f1. split; [by apply Hr|]. split_and!; try done.
      cbn [fmap list_fmap concat]. by rewrite app_nil_r. }
  destruct Hpn as (p1 & q1 & f1 & Hpn & Hok1 & Hs1 & Hse & Hp1).
  destruct Hse as [Hptr Hidx Hmd Hla Hi Her Hdi]. cbn in Hptr, Hidx, Hmd, Hla, Hi, Her, Hdi.
  set (w1 := TargetWorld (<[self_ptr p := with_peer p1 t']> (file_systems w)) (launched w)
               (launch_outcomes w) (clock w)).
  exists p1, w1, w1, q1, f1. split.
  { unfold invoke_action.
    rewrite (receive_for_owner (HHost := HT) (Alloc := AT) (CB := tgt_callbacks))
      by (try done; unfold for_owner in *; by rewrite Ht).
    unfold rl_time. cbn [server_callbacks]. unfold on_message. cbn [server_callbacks].
    unfold on_message_received, rl_msg_kind_of in *. rewrite Ht.
    rewrite (proj2 (Z.eqb_neq _ _)) by done. cbn [self_ptr set_activity set_transport].
    rewrite Hfs. fold p0. change (set_peer p0 (with_peer pf t)) with (with_peer p0 t).
    change (target_link (HHost := HT) (Alloc := AT)) with (peer_link (HHost := HT) (Alloc := AT) []).
    rewrite Hpn. cbn [mbind option_bind Z.eqb negb]. done. }
  split_and!; try done.
  - intros t2. apply (update_idle (CB := tgt_callbacks)); [done|].
    cbn. rewrite Hla. unfold RL_PING_TIMEOUT. cbn. lia.
  - intros t2 r. split_and!; [done|by split|exact Hla|]. exists p1. apply lookup_insert_eq.
Qed.

Lemma target_goes_on pt wt f cw ans t t' out req :
  at_rest pt → peer_ok pt [] f → state pt = PEER_CONNECTED → holds (self_ptr pt) wt t →
  msg_ok ans → FileServer.answers_to req (body ans) →
  rl_amigafs_process_network_message (HHost := HT) t ans = Some (t', 0) →
  fs_peer t' = fs_peer t ++ out → Forall msg_ok out →
  turned (target_turn HT AT k pt wt (wire_bytes ans) cw) (concat (wire_bytes <$> out))
    (λ p w, state p = PEER_CONNECTED ∧ same_id pt p ∧ last_activity p = clock w ∧
       holds (self_ptr pt) w t').
Proof.
  intros Hr Hok Hs Hfs Hans Hto Hrun Hpeer Hmsgs. unfold target_turn.
  change (concat (wire_bytes <$> out)) with (peer_pending pt [] ++ concat (wire_bytes <$> out)).
  apply (turn_message (HHost := HT) (Alloc := AT) (CB := tgt_callbacks) k Hk pt wt [] f);
    [exact Hr|exact Hok|exact Hans|].
  intros m' Ht Hq Hb. destruct Hans as [Hwf _].
  rewrite (proj2 (Z.eqb_neq (hdr_type ans) _)) by apply (answer_kind req ans Hwf Hto).
  by apply (target_answer_effect pt wt m' ans t t' out req).
Qed.

(** ** Both sides *)

(** Both ends rest, the controller is [x], and the file system is [t]. *)
Definition linked (ptr index : Z) (x : world (O := O)) t (st : state_of) : Prop :=
  controller_ready t0 st.1.1 st.1.2 ∧ st.1.2 = x ∧
  target_ready ptr index st.2.1 st.2.2 ∧ holds ptr st.2.2 t.

(** A conversation over the list of messages: [sent] is what the file system
    has sent and the controller has not seen. *)
Fixpoint talk (fuel : nat) (x : world (O := O)) t (sent : list rl_msg)
  : option (world (O := O) * fsys (list rl_msg)) :=
  match sent, pending t with
  | [], [] => Some (x, t)
  | [m], [] => x ← serve_farewell (HHost := HC) rl_log_bits x m; Some (x, t)
  | [m], _ :: _ =>
      match fuel with
      | 0%nat => None
      | S fuel =>
          '(x, ans) ← server x m;
          '(t', rc) ← rl_amigafs_process_network_message (HHost := HT) t ans;
          if rc =? 0 then talk fuel x t' (drop (length (fs_peer t)) (fs_peer t')) else None
      end
  | _, _ => None
  end.

(** What a step of the file system sends. *)
Lemma sent_next t t1 :
  single_next t t1 →
  (∀ m, fs_peer t1 = fs_peer t ++ [m] → file_request m = true) →
  ∃ out, fs_peer t1 = fs_peer t ++ out ∧ drop (length (fs_peer t)) (fs_peer t1) = out ∧
    (out = [] ∧ pending t1 = [] ∨
     ∃ m, out = [m] ∧ file_request m = true ∧ (pending t1 = [] ∨ ∃ op, pending t1 = [op])).
Proof.
  intros H Hkind.
  destruct H as [[E Hp]|[(m & op & E & Hp)|(m & E & _ & Hp)]].
  - exists []. rewrite app_nil_r, E, drop_ge by lia. split; [done|]. split; [done|by left].
  - exists [m]. split; [done|]. split; [by rewrite E, drop_app_length|]. right. exists m.
    split; [done|]. split; [by apply Hkind|]. right. by exists op.
  - exists [m]. split; [done|]. split; [by rewrite E, drop_app_length|]. right. exists m.
    split; [done|]. split; [by apply Hkind|]. by left.
Qed.

Lemma one_more t t1 (m : rl_msg) (Q : rl_msg → Prop) :
  (fs_peer t1 = fs_peer t ∨ ∃ m', fs_peer t1 = fs_peer t ++ [m'] ∧ Q m') →
  fs_peer t1 = fs_peer t ++ [m] → Q m.
Proof.
  intros [E|(m' & E & H)]; rewrite E.
  - rewrite <- (app_nil_r (fs_peer t)) at 1. by intros ?%app_inv_head.
  - intros [= ->]%app_inv_head. done.
Qed.

Lemma next_request t ans t1 op :
  pending t = [op] → rl_amigafs_process_network_message (HHost := HT) t ans = Some (t1, 0) →
  ∃ out, fs_peer t1 = fs_peer t ++ out ∧ drop (length (fs_peer t)) (fs_peer t1) = out ∧
    (out = [] ∧ pending t1 = [] ∨
     ∃ m, out = [m] ∧ file_request m = true ∧ (pending t1 = [] ∨ ∃ op, pending t1 = [op])).
Proof.
  intros Hpend Hrun. apply sent_next; [by eapply complete_single|]. intros m.
  apply (one_more t t1 m (λ m, file_request m = true)).
  destruct (network_message_free (Link := log_link) _ _ _ _ Hrun) as [[E _]|(m' & E & Hf & _)];
    [by left|right; by exists m'].
Qed.

Lemma first_request t pk t1 :
  pending t = [] → process_fs_packet (HHost := HT) t pk = Some t1 →
  ∃ out, fs_peer t1 = fs_peer t ++ out ∧ drop (length (fs_peer t)) (fs_peer t1) = out ∧
    (out = [] ∧ pending t1 = [] ∨
     ∃ m, out = [m] ∧ file_request m = true ∧ (pending t1 = [] ∨ ∃ op, pending t1 = [op])).
Proof.
  intros Hpend Hrun. apply sent_next; [by eapply process_fs_packet_single|]. intros m.
  apply (one_more t t1 m (λ m, file_request m = true)).
  destruct (process_fs_packet_free (Link := log_link) pk t t1 Hrun) as [[E _]|(m' & E & Hf & _)];
    [by left|right; by exists m'].
Qed.

(** The memory that the file system shares with its clients. *)
Record client_memory := ClientMemory {
  cm_packets : gmap Z DosPacket;
  cm_fhs : gmap Z FileHandle;
  cm_fibs : gmap Z FileInfoBlock;
  cm_infos : gmap Z InfoData;
  cm_mem : gmap Z Z
}.

Definition client_view {P} (s : fsys P) : client_memory :=
  ClientMemory (packets s) (fhs s) (fibs s) (infos s) (mem s).
Definition by_client {P} (f : client_memory → client_memory) (s : fsys P) : fsys P :=
  let m := f (client_view s) in
  set_packets (cm_packets m) (set_fhs (cm_fhs m) (set_fibs (cm_fibs m)
    (set_infos (cm_infos m) (set_mem (cm_mem m) s)))).
Definition call : Type := (client_memory → client_memory) * Z.

(** What a client sees when its packet has come back. *)
Definition observed {P} (s : fsys P) : client_memory * option (Z * Z * Z) :=
  (client_view s, last (replies s)).

Section Exchange.
Context (ptr index : Z).

(** A round in which the controller answers a request and the file system goes
    on with the answer. *)
Lemma answering_round n x t req x1 ans t1 out st :
  msg_ok req → file_request req = true → server x req = Some (x1, ans) →
  FileServer.ctl_ok x.1 → linked ptr index x t st →
  rl_amigafs_process_network_message (HHost := HT) t ans = Some (t1, 0) →
  fs_peer t1 = fs_peer t ++ out → Forall msg_ok out →
  ∃ st1, run (S n) st (wire_bytes req) = run n st1 (concat (wire_bytes <$> out)) ∧
    linked ptr index x1 t1 st1.
Proof.
  destruct st as [[pc wc] [pt wt]].
  intros Hreq Hkind Hans Hco ([Hr1 [f1 Hok1] Hs1 Ha1 Hc1] & Hx & [Hr2 [f2 Hok2] Hs2 Hp2 Hi2 Ha2] & Hfs)
    Hrun Ht1 Hout.
  cbn [fst snd] in *. subst wc. rewrite <- Hp2 in Hfs.
  destruct (controller_answer_spec (HHost := HC) rl_log_bits log_off x req x1 ans Hco
    (proj1 Hreq) Hans) as (Hco1 & Hansok & Hto & Hst & _).
  destruct (controller_replies pc x f1 (can_write n).1 req x1 ans Hr1 Hok1 Hs1 Hc1 Hco Hreq
    Hkind Hans) as (pc' & wc' & r1 & f3 & T1 & R1 & K1 & U1 & S1 & _ & A1 & ->).
  destruct (target_goes_on pt wt f2 (can_write n).2 ans t t1 out (body req) Hr2 Hok2 Hs2 Hfs
    Hansok Hto Hrun Ht1 Hout)
    as (pt' & wt' & r2 & f4 & T2 & R2 & K2 & U2 & S2 & [P2 I2 _] & A2 & F2).
  exists ((pc', x1), (pt', wt')). split.
  - apply (session_step HC HT AC AT rl_log_bits time k can_write n pc x pt wt (wire_bytes req)
      _ _ _ _ _ _ _ _ T1 U1 (or_intror S1) T2 U2 (or_intror S2)).
  - split; [|split; [done|split]].
    + split; [exact R1|by exists f3|exact S1|exact A1|]. cbn. by rewrite Hst.
    + split; [exact R2|by exists f4|exact S2|cbn; congruence..].
    + cbn. by rewrite <- Hp2.
Qed.

(** A round in which the controller hears a farewell. *)
Lemma farewell_round n x t m x1 st :
  msg_ok m → file_request m = true → serve_farewell (HHost := HC) rl_log_bits x m = Some x1 →
  FileServer.ctl_ok x.1 → linked ptr index x t st →
  ∃ st1, run (S n) st (wire_bytes m) = run n st1 [] ∧ linked ptr index x1 t st1.
Proof.
  destruct st as [[pc wc] [pt wt]].
  intros Hm Hkind Hserve Hco ([Hr1 [f1 Hok1] Hs1 Ha1 Hc1] & Hx & [Hr2 [f2 Hok2] Hs2 Hp2 Hi2 Ha2] & Hfs).
  cbn [fst snd] in *. subst wc.
  destruct (serve_farewell_spec (HHost := HC) rl_log_bits log_off x m x1 Hco (proj1 Hm) Hserve)
    as (Hco1 & Hst & _).
  destruct (controller_hears pc x f1 (can_write n).1 m x1 Hr1 Hok1 Hs1 Hc1 Hco Hm Hkind Hserve)
    as (pc' & wc' & r1 & f3 & T1 & R1 & K1 & U1 & S1 & _ & A1 & ->).
  destruct (target_idles HT AT k Hk pt wt [] f2 (can_write n).2 Hr2 Hok2 Hs2 Ha2)
    as (pt' & wt' & r2 & f4 & T2 & R2 & K2 & U2 & S2 & [P2 I2 _] & A2 & ->).
  change (peer_pending pt []) with (@nil Z) in T2.
  exists ((pc', x1), (pt', wt)). split.
  - apply (session_step HC HT AC AT rl_log_bits time k can_write n pc x pt wt (wire_bytes m)
      _ _ _ _ _ _ _ _ T1 U1 (or_intror S1) T2 U2 (or_intror S2)).
  - split; [|split; [done|split; [|exact Hfs]]].
    + split; [exact R1|by exists f3|exact S1|exact A1|]. cbn. by rewrite Hst.
    + split; [exact R2|by exists f4|exact S2|cbn; congruence..].
Qed.

Lemma talk_grows fuel x t sent x' t' :
  talk fuel x t sent = Some (x', t') → ∃ news, fs_peer t' = fs_peer t ++ news.
Proof.
  assert (Hq : ∀ t : fsys (list rl_msg), ∃ news, fs_peer t = fs_peer t ++ news)
    by (intros t0'; exists []; by rewrite app_nil_r).
  revert x t sent. induction fuel as [|fuel IH]; intros x t sent; cbn [talk];
    destruct sent as [|m [|]]; try (by destruct (pending t)); destruct (pending t); try done.
  1,3: by intros [= _ <-].
  1,2: by intros (x1 & _ & [= _ <-])%bind_Some.
  intros ([x1 ans] & _ & H)%bind_Some. apply bind_Some in H as ([t1 rc] & Hp & H).
  destruct (rc =? 0); [|done]. destruct (IH _ _ _ H) as [news ->].
  destruct (network_message_free (Link := log_link) _ _ _ _ Hp) as [[-> _]|(m' & -> & _)].
  - by exists news.
  - exists (m' :: news). by rewrite <- app_assoc.
Qed.

(** What has been sent is under way: one round for each answer, and one for a
    farewell.  The number of rounds does not depend on the network. *)
Lemma talk_over_network fuel x t sent x' t' news :
  talk fuel x t sent = Some (x', t') →
  (sent = [] ∧ pending t = [] ∨
   ∃ m, sent = [m] ∧ file_request m = true ∧ (pending t = [] ∨ ∃ op, pending t = [op])) →
  fs_peer t' = fs_peer t ++ news → Forall msg_ok (sent ++ news) → FileServer.ctl_ok x.1 →
  FileServer.ctl_ok x'.1 ∧ pending t' = [] ∧
  ∃ n, (n ≤ length (sent ++ news))%nat ∧ ∀ st, linked ptr index x t st →
    ∃ st', run n st (concat (wire_bytes <$> sent)) = Some (st', []) ∧ linked ptr index x' t' st'.
Proof.
  revert x t sent news. induction fuel as [|fuel IH]; intros x t sent news Htalk Hsent Hpeer Hmsgs Hco.
  all: destruct Hsent as [[-> Hp]|(m & -> & Hkind & [Hp|[op Hp]])]; cbn [talk] in Htalk;
    rewrite Hp in Htalk; try done.
  1,3: injection Htalk as <- <-; split; [done|]; split; [done|]; exists 0%nat;
    split; [lia|]; intros st Hl; by exists st.
  1,2: apply bind_Some in Htalk as (x1 & Hserve & [= <- <-]);
    rewrite <- (app_nil_r (fs_peer t)) in Hpeer at 1; apply app_inv_head in Hpeer; subst news;
    cbn [app] in Hmsgs; rewrite Forall_singleton in Hmsgs;
    destruct (serve_farewell_spec (HHost := HC) rl_log_bits log_off x m x1 Hco (proj1 Hmsgs) Hserve)
      as (Hco1 & _); split; [done|]; split; [done|]; exists 1%nat; split; [done|]; intros st Hl;
    destruct (farewell_round 0 x t m x1 st Hmsgs Hkind Hserve Hco Hl) as (st1 & Hgo & Hl1);
    exists st1; cbn [fmap list_fmap concat]; rewrite app_nil_r; by rewrite Hgo.
  apply bind_Some in Htalk as ([x1 ans] & Hans & Htalk).
  apply bind_Some in Htalk as ([t1 rc] & Hrun & Htalk).
  destruct (Z.eqb_spec rc 0) as [->|]; [|done].
  apply Forall_cons in Hmsgs as [Hreq Hmsgs].
  destruct (controller_answer_spec (HHost := HC) rl_log_bits log_off x m x1 ans Hco
    (proj1 Hreq) Hans) as (Hco1 & _).
  destruct (next_request t ans t1 op Hp Hrun) as (out & E & Hdrop & Hout). rewrite Hdrop in Htalk.
  destruct (talk_grows _ _ _ _ _ _ Htalk) as [news1 Hgrow].
  assert (news = out ++ news1) as -> by (rewrite Hgrow, E, <- app_assoc in Hpeer;
    by apply app_inv_head in Hpeer).
  destruct (IH x1 t1 out news1 Htalk Hout Hgrow Hmsgs Hco1) as (Hco' & Hp' & n & Hn & Hrest).
  split; [done|]. split; [done|]. exists (S n). split; [cbn; lia|]. intros st Hl.
  destruct (answering_round n x t m x1 ans t1 out st Hreq Hkind Hans Hco Hl Hrun E)
    as (st1 & Hgo & Hl1); [by apply Forall_app in Hmsgs as [? _]|].
  cbn [fmap list_fmap concat]. rewrite app_nil_r, Hgo. by apply Hrest.
Qed.

(** With a well-typed heap, what is brief can be sent. *)
Lemma talk_asks fuel x t sent x' t' news :
  talk fuel x t sent = Some (x', t') →
  (sent = [] ∧ pending t = [] ∨
   ∃ m, sent = [m] ∧ file_request m = true ∧ (pending t = [] ∨ ∃ op, pending t = [op])) →
  fs_peer t' = fs_peer t ++ news → Forall msg_ok sent → Forall brief news →
  FileServer.ctl_ok x.1 → fsys_ok t →
  Forall msg_ok news ∧ fsys_ok t'.
Proof.
  revert x t sent news.
  induction fuel as [|fuel IH]; intros x t sent news Htalk Hsent Hpeer Hmsgs Hbrief Hco Hok.
  all: destruct Hsent as [[-> Hp]|(m & -> & Hkind & [Hp|[op Hp]])]; cbn [talk] in Htalk;
    rewrite Hp in Htalk; try done.
  1,3: injection Htalk as <- <-.
  3,4: apply bind_Some in Htalk as (x1 & Hserve & [= <- <-]).
  1-4: rewrite <- (app_nil_r (fs_peer t)) in Hpeer at 1; apply app_inv_head in Hpeer; by subst news.
  apply bind_Some in Htalk as ([x1 ans] & Hans & Htalk).
  apply bind_Some in Htalk as ([t1 rc] & Hrun & Htalk).
  destruct (Z.eqb_spec rc 0) as [->|]; [|done]. rewrite Forall_singleton in Hmsgs.
  destruct (controller_answer_spec (HHost := HC) rl_log_bits log_off x m x1 ans Hco
    (proj1 Hmsgs) Hans) as (Hco1 & [[_ _ _ Hwf] _] & _).
  destruct (next_request t ans t1 op Hp Hrun) as (out & E & Hdrop & Hout). rewrite Hdrop in Htalk.
  destruct (talk_grows _ _ _ _ _ _ Htalk) as [news1 Hgrow].
  assert (news = out ++ news1) as -> by (rewrite Hgrow, E, <- app_assoc in Hpeer;
    by apply app_inv_head in Hpeer).
  apply Forall_app in Hbrief as [Hb1 Hb2].
  assert (Hm1 : Forall msg_ok out).
  { eapply asks_well_sent; [|exact E|exact Hb1]. by eapply network_message_asks. }
  destruct (IH x1 t1 out news1 Htalk Hout Hgrow Hm1 Hb2 Hco1) as (Hm2 & Hok');
    [by eapply network_message_typed|].
  split; [by apply Forall_app|done].
Qed.

(** *** A packet of a client *)

(** The clients of the device change the structures they share with it, and
    the device is sent a packet. *)
Definition client_sends (st : state_of) (clients : fsys peer → fsys peer) (pk : Z)
  : option state_of :=
  let '(c, (pt, wt)) := st in
  fs ← file_systems wt !! self_ptr pt;
  fs ← rl_amigafs_process_device_message (HHost := HT)
         (Link := peer_link (HHost := HT) (Alloc := AT) []) [pk] (set_peer pt (clients fs));
  Some (c, (fs_peer fs, TargetWorld (<[self_ptr pt := fs]> (file_systems wt)) (launched wt)
                          (launch_outcomes wt) (clock wt))).

(** What the packet makes of the target. *)
Lemma packet_over_network x t clients t1 pk t2 out st :
  linked ptr index x t st → (∀ p0 : peer, clients (with_peer p0 t) = with_peer p0 t1) →
  process_fs_packet (HHost := HT) t1 pk = Some t2 → pending t1 = [] →
  fs_peer t2 = fs_peer t1 ++ out → Forall msg_ok out →
  ∃ pc wc pt wt q f, client_sends st clients pk = Some ((pc, wc), (pt, wt)) ∧
    st.1 = (pc, wc) ∧ at_rest pt ∧ peer_ok pt q f ∧
    peer_pending pt q = concat (wire_bytes <$> out) ∧ state pt = PEER_CONNECTED ∧
    self_ptr pt = ptr ∧ peer_index pt = index ∧ last_activity pt = clock wt ∧ holds ptr wt t2.
Proof.
  destruct st as [[pc wc] [pt wt]].
  intros (Hc & Hx & [Hr2 [f2 Hok2] Hs2 Hp2 Hi2 Ha2] & [pf Hfs]) Hcl Hrun Hpend Hout Hmsgs.
  cbn [fst snd] in *.
  assert (Hpk : ∃ pt1 q f,
    process_fs_packet (HHost := HT) (Link := peer_link (HHost := HT) (Alloc := AT) [])
      (with_peer pt t1) pk = Some (with_peer pt1 t2) ∧
    peer_ok pt1 q f ∧ state pt1 = PEER_CONNECTED ∧ same_end pt pt1 ∧
    peer_pending pt1 q = concat (wire_bytes <$> out)).
  { destruct (process_fs_packet_free (Link := peer_link (HHost := HT) (Alloc := AT) []) pk t1 t2 Hrun)
      as [[Hp Hr]|(r & Hp & _ & Hr)]; rewrite Hp in Hout.
    - assert (out = []) as -> by by apply (app_inv_head (fs_peer t1)); rewrite <- Hout, app_nil_r.
      exists pt, [], f2. split; [apply Hr|]. by split_and!.
    - apply app_inv_head in Hout. subst out. rewrite Forall_singleton in Hmsgs.
      destruct (transmit_live (HHost := HT) (Alloc := AT) memT pt [] f2 r Hs2 Hok2 Hmsgs)
        as (p1 & q1 & f1 & Htr & Hok1 & Hs1 & Hp1 & Hse).
      exists p1, q1, f1. split; [by apply Hr|]. split_and!; try done.
      cbn [fmap list_fmap concat]. by rewrite app_nil_r, Hp1. }
  destruct Hpk as (pt1 & q & f & Hpk & Hok & Hs & Hse & Hp).
  destruct Hse as [Hptr Hidx Hmd Hla Hi Her Hdi].
  eexists pc, wc, pt1, _, q, f. split.
  { unfold client_sends. rewrite Hp2, Hfs. cbn [mbind option_bind]. rewrite Hcl.
    cbn [rl_amigafs_process_device_message].
    change (set_peer pt (with_peer pf t1)) with (with_peer pt t1). rewrite Hpk.
    cbn [mbind option_bind fs_peer with_peer]. done. }
  split_and!; try done; try (cbn; congruence).
  - destruct Hr2. split; by rewrite ?Hi, ?Her, ?Hdi.
  - exists pt1. cbn. apply lookup_insert_eq.
Qed.

(** ... and the round in which it goes out. *)
Lemma sending_round n x t clients t1 pk t2 out st :
  linked ptr index x t st → (∀ p0 : peer, clients (with_peer p0 t) = with_peer p0 t1) →
  process_fs_packet (HHost := HT) t1 pk = Some t2 → pending t1 = [] →
  fs_peer t2 = fs_peer t1 ++ out → Forall msg_ok out →
  ∃ st1 st2, client_sends st clients pk = Some st1 ∧
    run (S n) st1 [] = run n st2 (concat (wire_bytes <$> out)) ∧ linked ptr index x t2 st2.
Proof.
  intros Hl Hcl Hpk Hpend Hout Hmsgs.
  destruct (packet_over_network x t clients t1 pk t2 out st Hl Hcl Hpk Hpend Hout Hmsgs)
    as (pc & wc & pt & wt & q & f & Hsend & Est & Hr & Hok & Hq & Hs & Hptr & Hidx & Ha & Hfs).
  destruct Hl as ([Hr1 [f1 Hok1] Hs1 Ha1 Hc1] & Hx & _). rewrite Est in *. cbn [fst snd] in *.
  subst wc.
  destruct (controller_idles HC AC rl_log_bits time k Hk t0 on_time pc x [] f1 (can_write n).1
    Hr1 Hok1 Hs1 Ha1) as (pc' & wc' & r1 & f3 & T1 & R1 & K1 & U1 & S1 & _ & A1 & W1).
  destruct (target_idles HT AT k Hk pt wt q f (can_write n).2 Hr Hok Hs Ha)
    as (pt' & wt' & r2 & f4 & T2 & R2 & K2 & U2 & S2 & [P2 I2 _] & A2 & ->).
  rewrite time_keeps in W1. assert (wc' = x) as -> by (rewrite W1; by destruct x).
  change (peer_pending pc []) with (@nil Z) in T1. rewrite Hq in T2.
  exists ((pc, x), (pt, wt)), ((pc', x), (pt', wt)). split; [exact Hsend|]. split.
  - apply (session_step HC HT AC AT rl_log_bits time k can_write n pc x pt wt [] _ _ _ _ _ _ _ _
      T1 U1 (or_intror S1) T2 U2 (or_intror S2)).
  - split; [|split; [done|split; [|exact Hfs]]].
    + split; [exact R1|by exists f3|exact S1|cbn; lia|exact Hc1].
    + split; [exact R2|by exists f4|exact S2|cbn; congruence..].
Qed.

(** A call: the client changes the memory that it shares with the device and
    sends a packet. *)
Definition one_call (fuel : nat) (x : world (O := O)) t (c : call)
  : option (world (O := O) * fsys (list rl_msg)) :=
  let t1 := by_client c.1 t in
  t2 ← process_fs_packet (HHost := HT) t1 c.2;
  talk fuel x t2 (drop (length (fs_peer t1)) (fs_peer t2)).

Fixpoint all_calls (fuel : nat) (x : world (O := O)) t (cs : list call)
  : option (world (O := O) * fsys (list rl_msg) * list (client_memory * option (Z * Z * Z))) :=
  match cs with
  | [] => Some (x, t, [])
  | c :: cs =>
      '(x, t) ← one_call fuel x t c;
      '(x, t', seen) ← all_calls fuel x t cs;
      Some (x, t', observed t :: seen)
  end.

(** The calls of a client of the target, each followed by some rounds of the
    two programs. *)
Fixpoint calls_over_network (st : state_of) (cs : list (call * nat))
  : option (state_of * list (client_memory * option (Z * Z * Z))) :=
  match cs with
  | [] => Some (st, [])
  | (c, n) :: cs =>
      st ← client_sends st (by_client c.1) c.2;
      '(st, arrived) ← run n st [];
      fs ← file_systems st.2.2 !! self_ptr st.2.1;
      match arrived with
      | [] => '(st, seen) ← calls_over_network st cs; Some (st, observed fs :: seen)
      | _ => None
      end
  end.

Lemma one_call_grows fuel x t c x' t' :
  one_call fuel x t c = Some (x', t') → ∃ news, fs_peer t' = fs_peer t ++ news.
Proof.
  unfold one_call. intros (t2 & Hpk & Ht)%bind_Some.
  destruct (talk_grows _ _ _ _ _ _ Ht) as [news ->].
  destruct (process_fs_packet_free (Link := log_link) _ _ _ Hpk) as [[E _]|(m & E & _)]; rewrite E.
  - by exists news.
  - exists (m :: news). cbn [fs_peer by_client]. by rewrite <- app_assoc.
Qed.

Lemma all_calls_grows fuel x t cs x' t' seen :
  all_calls fuel x t cs = Some (x', t', seen) → ∃ news, fs_peer t' = fs_peer t ++ news.
Proof.
  revert x t seen. induction cs as [|c cs IH]; intros x t seen; cbn [all_calls].
  { intros [= _ <- _]. exists []. by rewrite app_nil_r. }
  intros ([x1 t1] & H1 & H)%bind_Some. apply bind_Some in H as ([[x2 t2] vs] & H & [= <- <- _]).
  destruct (one_call_grows _ _ _ _ _ _ H1) as [n1 E]. destruct (IH _ _ _ H) as [n2 ->]. exists (n1 ++ n2). by rewrite E, <- app_assoc.
Qed.

Lemma call_over_network fuel x t c x' t' news st :
  linked ptr index x t st → FileServer.ctl_ok x.1 → pending t = [] →
  one_call fuel x t c = Some (x', t') → fs_peer t' = fs_peer t ++ news → Forall msg_ok news →
  FileServer.ctl_ok x'.1 ∧ pending t' = [] ∧
  ∃ n st1 st', (n ≤ S (length news))%nat ∧ client_sends st (by_client c.1) c.2 = Some st1 ∧
    run n st1 [] = Some (st', []) ∧ linked ptr index x' t' st'.
Proof.
  intros Hl Hco Hpend Hcall Hnews Hmsgs. unfold one_call in Hcall.
  set (t1 := by_client c.1 t) in *. apply bind_Some in Hcall as (t2 & Hpk & Htalk).
  assert (Hpend1 : pending t1 = []) by done.
  destruct (first_request t1 c.2 t2 Hpend1 Hpk) as (out & E & Hdrop & Hout). rewrite Hdrop in Htalk.
  destruct (talk_grows _ _ _ _ _ _ Htalk) as [news1 Hgrow].
  assert (news = out ++ news1) as ->.
  { rewrite Hgrow, E, <- app_assoc in Hnews. by apply app_inv_head in Hnews. }
  destruct (talk_over_network fuel x t2 out x' t' news1 Htalk Hout Hgrow Hmsgs Hco)
    as (Hco' & Hp' & n & Hn & Hrest).
  destruct (sending_round n x t (by_client c.1) t1 c.2 t2 out st Hl)
    as (st1 & st2 & Hsend & Hgo & Hl2); try done; [by apply Forall_app in Hmsgs as [? _]|].
  destruct (Hrest st2 Hl2) as (st' & Hgo2 & Hl').
  split; [done|]. split; [done|]. exists (S n), st1, st'. split; [lia|]. split; [done|].
  by rewrite Hgo.
Qed.

Lemma call_asks fuel x t c x' t' news :
  one_call fuel x t c = Some (x', t') → FileServer.ctl_ok x.1 → pending t = [] → fsys_ok t →
  fs_peer t' = fs_peer t ++ news → Forall brief news → Forall msg_ok news ∧ fsys_ok t'.
Proof.
  intros Hcall Hco Hpend Hok Hnews Hbrief. unfold one_call in Hcall.
  set (t1 := by_client c.1 t) in *. apply bind_Some in Hcall as (t2 & Hpk & Htalk).
  assert (Hok1 : fsys_ok t1) by by apply (core_ok t).
  destruct (first_request t1 c.2 t2 Hpend Hpk) as (out & E & Hdrop & Hout). rewrite Hdrop in Htalk.
  destruct (talk_grows _ _ _ _ _ _ Htalk) as [news1 Hgrow].
  assert (news = out ++ news1) as ->.
  { rewrite Hgrow, E, <- app_assoc in Hnews. by apply app_inv_head in Hnews. }
  apply Forall_app in Hbrief as [Hb1 Hb2].
  assert (Hm1 : Forall msg_ok out).
  { eapply asks_well_sent; [|exact E|exact Hb1]. by eapply process_fs_packet_asks. }
  destruct (talk_asks fuel x t2 out x' t' news1 Htalk Hout Hgrow Hm1 Hb2 Hco) as (Hm2 & Hok');
    [by eapply process_fs_packet_typed|].
  split; [by apply Forall_app|done].
Qed.

Lemma networked_calls fuel cs x t x' t' seen news st :
  linked ptr index x t st → FileServer.ctl_ok x.1 → pending t = [] → fsys_ok t →
  all_calls fuel x t cs = Some (x', t', seen) → fs_peer t' = fs_peer t ++ news →
  Forall brief news →
  FileServer.ctl_ok x'.1 ∧ pending t' = [] ∧ fsys_ok t' ∧
  ∃ ns st', length ns = length cs ∧ (sum_list ns ≤ length cs + length news)%nat ∧
    calls_over_network st (zip cs ns) = Some (st', seen) ∧ linked ptr index x' t' st'.
Proof.
  revert x t seen news st.
  induction cs as [|c cs IH]; intros x t seen news st Hl Hco Hpend Hok Hall Hnews Hbrief;
    cbn [all_calls] in Hall.
  { injection Hall as <- <- <-. split_and!; [done..|]. exists [], st. split; [done|].
    split; [cbn; lia|done]. }
  apply bind_Some in Hall as ([x1 t1] & H1 & Hall).
  apply bind_Some in Hall as ([[x2 t2] vs] & Hall & [= <- <- <-]).
  destruct (one_call_grows _ _ _ _ _ _ H1) as [n1 E1].
  destruct (all_calls_grows _ _ _ _ _ _ _ Hall) as [n2 E2].
  assert (news = n1 ++ n2) as ->.
  { rewrite E2, E1, <- app_assoc in Hnews. by apply app_inv_head in Hnews. }
  apply Forall_app in Hbrief as [Hb1 Hb2].
  destruct (call_asks fuel x t c x1 t1 n1 H1 Hco Hpend Hok E1 Hb1) as [Hm1 Hok1].
  destruct (call_over_network fuel x t c x1 t1 n1 st Hl Hco Hpend H1 E1 Hm1)
    as (Hco1 & Hp1 & n & st1 & st2 & Hn & Hsend & Hgo & Hl2).
  destruct (IH x1 t1 vs n2 st2 Hl2 Hco1 Hp1 Hok1 Hall E2 Hb2)
    as (Hco2 & Hp2 & Hok2 & ns & st' & Hlen & Hsum & Hrest & Hl').
  split_and!; [done..|]. exists (n :: ns), st'. split; [cbn; lia|]. split; [|split; [|done]].
  - cbn. rewrite length_app. lia.
  - cbn [calls_over_network zip zip_with]. rewrite Hsend. cbn [mbind option_bind].
    rewrite Hgo. cbn [mbind option_bind]. destruct Hl2 as (_ & _ & [_ _ _ Hptr _ _] & [pf Hfs]).
    rewrite Hptr, Hfs. cbn [mbind option_bind]. by rewrite Hrest.
Qed.

(** C8: a refinement.  Whatever a client of the target does, call by call, what
    the file system and the file server of the controller make of it when they
    are joined by a list of messages they make of it over the network, behind
    their peers, transports and sockets: the controller, its files, the file
    system and what the client sees after each call are the same and nothing is
    left under way, after at most one round of the two programs for each call
    and one for each request, whatever [select] says about writing.  All that is
    asked is that the heap of the file system is well typed and that the paths
    and the data of the client are brief; then every message can be sent. *)
Theorem calls_are_networked fuel cs x t x' t' seen news st :
  linked ptr index x t st → FileServer.ctl_ok x.1 → pending t = [] → fsys_ok t →
  all_calls fuel x t cs = Some (x', t', seen) → fs_peer t' = fs_peer t ++ news →
  Forall brief news →
  ∃ ns st', length ns = length cs ∧ (sum_list ns ≤ length cs + length news)%nat ∧
    calls_over_network st (zip cs ns) = Some (st', seen) ∧ linked ptr index x' t' st'.
Proof. intros. by eapply networked_calls. Qed.
End Exchange.
End Network.

(** ** A concrete packet: the open of RL:a over the network *)

(** A peer that has been connected for a while. *)
Definition rested_peer (ptr : Z) (mode : peer_init_mode) : peer :=
  Peer ptr PEER_CONNECTED 3 [] 2
    (Transport (IOBuf (replicate (Z.to_nat 32768) 0) 0 0 true) ∅ None None 0 None false false) 0
    mode 50 false.

Lemma rested_at_rest ptr mode : at_rest (rested_peer ptr mode) ∧ peer_ok (rested_peer ptr mode) [] [].
Proof.
  split.
  - split; cbn [inbuf transport rested_peer read_cursor write_cursor memory error disconnect];
      done.
  - split; [|apply map_Forall_empty]. split; cbn; try done; [constructor|].
    intros a Ha. by apply not_elem_of_nil in Ha.
Qed.

(** Two such peers, a controller and a file system. *)
Definition rested_state {O} (x : world (O := O)) (t : fsys (list rl_msg)) : session_state :=
  ((rested_peer 100 PEER_INIT_CONTROLLER, x),
   (rested_peer 300 PEER_INIT_TARGET,
    TargetWorld {[ 300 := with_peer (rested_peer 300 PEER_INIT_TARGET) t ]} [] [] 50)).

Lemma rested_linked {O} (x : world (O := O)) t :
  ctl_state x.1 = CONTROLLER_FILE_SERVING → linked 50 300 2 x t (rested_state x t).
Proof.
  intros Hx. split; [|split; [done|split]].
  - destruct (rested_at_rest 100 PEER_INIT_CONTROLLER). split; try done; by exists [].
  - destruct (rested_at_rest 300 PEER_INIT_TARGET). split; try done; by exists [].
  - eexists. apply lookup_singleton_eq.
Qed.

Definition net_start : session_state := rested_state (demo_controller, demo_os) demo_mounted.

(** RL:a is opened, read beyond its end, and closed. *)
Definition net_calls : list call :=
  let packet p := λ m, ClientMemory (<[500 := p]> (cm_packets m)) (cm_fhs m) (cm_fibs m)
                         (cm_infos m) (cm_mem m) in
  [ (λ m, m, 500);
    (packet (Packet ACTION_READ 72 1000 9 0 0 0 5000), 500);
    (packet (Packet ACTION_END 72 0 0 0 0 0 5000), 500) ].

Definition net_run :=
  all_calls demo_pc demo_host (HPool := bump_pool) (OS := mem_posix) 0 9
    (demo_controller, demo_os) demo_mounted net_calls.
Definition net_outcome := default ((demo_controller, demo_os), demo_mounted, []) net_run.

Lemma net_linked : linked 50 300 2 (demo_controller, demo_os) demo_mounted net_start.
Proof. by apply rested_linked. Qed.

Definition net_news : list rl_msg :=
  [ RL_MSG_INIT (open_handle_request (chars "a") RL_OPENFLAG_READ) 0;
    RL_MSG_INIT (read_file_request 0 0 0 4096) 1;
    RL_MSG_INIT (read_file_request 0 0 5 4096) 2;
    RL_MSG_INIT (close_handle_request 0) 3 ].

Lemma calls_are_networked_witness :
  snd <$> net_outcome.2 = [Some (500, -1, 0); Some (500, 5, 0); Some (500, -1, 0)] ∧
  ∃ ns st', length ns = 3%nat ∧ (sum_list ns ≤ 3 + 4)%nat ∧
    calls_over_network demo_pc demo_host ample_memory ample_memory (HPool := bump_pool)
      (OS := mem_posix) 0 (λ o, (o, 50)) (Z.to_nat 8192) (λ _, (true, false)) net_start
      (zip net_calls ns) = Some (st', net_outcome.2) ∧
    linked 50 300 2 net_outcome.1.1 net_outcome.1.2 st'.
Proof.
  split; [by vm_compute|].
  refine (calls_are_networked demo_pc demo_host ample_memory ample_memory (HPool := bump_pool)
    (OS := mem_posix) 0 (λ o, (o, 50)) (Z.to_nat 8192) (λ _, (true, false)) _ _ _ 50 _ _ _ 300 2 9
    net_calls (demo_controller, demo_os) demo_mounted net_outcome.1.1 net_outcome.1.2 net_outcome.2
    net_news net_start net_linked _ _ _ _ _ _).
  - done.
  - done.
  - by rewrite Z2Nat.id.
  - unfold RL_PING_TIMEOUT. cbn. lia.
  - done.
  - done.
  - apply demo_controller_ok.
  - done.
  - exact demo_mounted_ok.
  - vm_compute. reflexivity.
  - by vm_compute.
  - repeat constructor; cbn; by vm_compute.
Defined.
