(* ===== verification/NetworkRead.v ===== *)
(** * NetworkRead: a file of the host, read over the network

    What AmigaSession proves of a program that opens and reads a file over a
    list of messages holds over the network: the packets of the program are
    calls in the sense of Network. *)

From S2P Require Import Prelude Wire Messages CString Format Transport Peer FileServer.
From S2P Require Import AmigaFs AmigaActions AmigaMount AmigaSafety AmigaIo AmigaSession AmigaTypes.
From S2P Require Import AmigaLink AmigaRequests ServerLink Controller Target Session Network.

Section Calls.
Context (HC HT : Host) `{HPool : Pool} {O : Type} `{OS : FileServer.Posix O} (rl_log_bits : Z).
#[local] Existing Instance log_link.
Implicit Types (t : fsys (list rl_msg)).

#[local] Abbreviation server := (controller_answer (HHost := HC) rl_log_bits).
#[local] Abbreviation talk := (Network.talk HC HT rl_log_bits).
#[local] Abbreviation one_call := (Network.one_call HC HT rl_log_bits).
#[local] Abbreviation all_calls := (Network.all_calls HC HT rl_log_bits).

(** ** Sessions are calls *)
Lemma kind_brief cb m :
  body_kind (body m) = request_of cb →
  request_of cb ≠ RL_MSG_OPEN_HANDLE_REQUEST → request_of cb ≠ RL_MSG_WRITE_FILE_REQUEST → brief m.
Proof. unfold brief. intros H H1 H2. destruct (body m); try done; by rewrite <- H in H1, H2. Qed.

(** A controller that does what the file server does, as far as it answers, and
    answers no request of the callback [cb] that is not brief. *)
Definition short_for (answer : world (O := O) → rl_msg → option (world (O := O) * rl_msg))
    (cb : completion) : Prop :=
  ∀ x m r, answer x m = Some r →
    server x m = Some r ∧ (body_kind (body m) = request_of cb → brief m).

Lemma server_short cb :
  request_of cb ≠ RL_MSG_OPEN_HANDLE_REQUEST → request_of cb ≠ RL_MSG_WRITE_FILE_REQUEST →
  short_for server cb.
Proof. intros ?? x m r Hr. split; [done|]. intros. by eapply kind_brief. Qed.

(** The file server, but for requests that are too long. *)
Definition checked (x : world (O := O)) (m : rl_msg) : option (world (O := O) * rl_msg) :=
  if decide (brief m) then server x m else None.

Lemma checked_short cb : short_for checked cb.
Proof. intros x m r. unfold checked. case_decide; [|done]. by split. Qed.

(** Every request is answered. *)
Lemma exchange_talks answer fuel x t x' t' op m cb :
  short_for answer cb →
  exchange (HHost := HT) answer fuel x t = Some (x', t') → pending t = [op] → callback op = cb →
  request_of cb ≠ RL_MSG_OPEN_HANDLE_REQUEST → body_kind (body m) = request_of cb →
  last (fs_peer t) = Some m →
  talk fuel x t [m] = Some (x', t') ∧ pending t' = [] ∧ brief m ∧
  ∃ news, fs_peer t' = fs_peer t ++ news ∧ Forall brief news.
Proof.
  intros Hshort. revert x t op m.
  induction fuel as [|fuel IH]; intros x t op m Hex Hpend Hcb Hno Hm Hlast;
    cbn [exchange] in Hex; rewrite Hpend in Hex; [done|].
  rewrite Hlast in Hex. cbn [mbind option_bind] in Hex.
  apply bind_Some in Hex as ([x1 ans] & Hans & Hex).
  apply bind_Some in Hex as ([t1 rc] & Hrun & Hex).
  destruct (Hshort _ _ _ Hans) as [Hserver Hbrief].
  destruct (Z.eqb_spec rc 0) as [->|]; [|done].
  cbn [Network.talk]. rewrite Hpend, Hserver. cbn [mbind option_bind]. rewrite Hrun.
  cbn [mbind option_bind Z.eqb].
  assert (Hgo : goes_on cb t t1).
  { subst cb. apply (complete_goes_on _ ans _ op); try done; intros E; by rewrite E in Hno. }
  destruct Hgo as [[E Hp]|(m1 & op1 & E & Hp & Hcb1 & Hkind)]; rewrite E.
  - rewrite drop_ge by lia.
    assert (x' = x1 ∧ t' = t1) as [-> ->] by (destruct fuel; cbn [exchange] in Hex; rewrite Hp in Hex;
      by injection Hex as -> ->).
    split; [destruct fuel; cbn [Network.talk]; by rewrite Hp|]. split; [done|].
    split; [by apply Hbrief|]. exists []. rewrite E, app_nil_r. split; [done|constructor].
  - rewrite drop_app_length.
    destruct (IH x1 t1 op1 m1 Hex Hp Hcb1 Hno Hkind) as (Ht & Hp' & Hm1 & news & En & Hb);
      [by rewrite E, last_snoc|].
    split; [done|]. split; [done|]. split; [by apply Hbrief|].
    exists (m1 :: news). rewrite En, E, <- app_assoc. split; [done|]. by constructor.
Qed.

Lemma session_is_call answer cb fuel x t f pk x' t' :
  short_for answer cb →
  AmigaIo.session (HHost := HT) answer fuel x (by_client f t) pk = Some (x', t') →
  (∀ t2, process_fs_packet (HHost := HT) (by_client f t) pk = Some t2 → goes_on cb (by_client f t) t2) →
  request_of cb ≠ RL_MSG_OPEN_HANDLE_REQUEST →
  one_call fuel x t (f, pk) = Some (x', t') ∧ pending t' = [] ∧
  ∃ news, fs_peer t' = fs_peer t ++ news ∧ Forall brief news.
Proof.
  unfold AmigaIo.session, Network.one_call. cbn [fst snd]. set (t1 := by_client f t).
  intros Hshort (t2 & Hpk & Hex)%bind_Some Hgo Hno. rewrite Hpk. cbn [mbind option_bind].
  destruct (Hgo t2 Hpk) as [[E Hp]|(m & op & E & Hp & Hcb & Hkind)]; rewrite E.
  - rewrite drop_ge by lia.
    assert (x' = x ∧ t' = t2) as [-> ->] by (destruct fuel; cbn [exchange] in Hex; rewrite Hp in Hex;
      by injection Hex as -> ->).
    split; [destruct fuel; cbn [Network.talk]; by rewrite Hp|]. split; [done|].
    exists []. rewrite E, app_nil_r. split; [done|constructor].
  - rewrite drop_app_length.
    destruct (exchange_talks answer fuel x t2 x' t' op m cb Hshort Hex Hp Hcb Hno Hkind)
      as (Ht & Hp' & Hm & news & En & Hb); [by rewrite E, last_snoc|].
    split; [done|]. split; [done|]. exists (m :: news). rewrite En, E, <- app_assoc.
    split; [done|]. by constructor.
Qed.

(** ** The client *)

(** The packet that reads a piece. *)
Definition read_call (fh pk port : Z) (piece : Z * Z) : call :=
  (λ m, match cm_fhs m !! fh with
        | Some f => ClientMemory (<[pk := read_packet f piece port]> (cm_packets m)) (cm_fhs m)
                      (cm_fibs m) (cm_infos m) (cm_mem m)
        | None => m
        end, pk).

(** The client takes as many bytes from its memory as the answer says. *)
Definition piece_read (piece : Z * Z) (view : client_memory * option (Z * Z * Z))
  : option (list Z) :=
  '(_, n, _) ← view.2; mem_read (cm_mem view.1) piece.1 (Z.to_nat n).
Fixpoint pieces_read (pieces : list (Z * Z)) (seen : list (client_memory * option (Z * Z * Z)))
  : option (list Z) :=
  match pieces, seen with
  | [], [] => Some []
  | piece :: pieces, view :: seen =>
      bytes ← piece_read piece view; rest ← pieces_read pieces seen; Some (bytes ++ rest)
  | _, _ => None
  end.

Lemma by_client_read fh pk port piece t f :
  fhs t !! fh = Some f →
  by_client (read_call fh pk port piece).1 t =
    set_packets (<[pk := read_packet f piece port]> (packets t)) t.
Proof. intros Hf. unfold by_client, client_view, read_call. cbn. rewrite Hf. by destruct t. Qed.

Lemma read_packet_waits fh pk port piece t f t2 :
  fhs t !! fh = Some f → pending t = [] →
  process_fs_packet (HHost := HT) (by_client (read_call fh pk port piece).1 t) pk = Some t2 →
  goes_on complete_read_cb (by_client (read_call fh pk port piece).1 t) t2.
Proof.
  intros Hf Hpend. rewrite (by_client_read _ _ _ _ _ f) by done. unfold process_fs_packet.
  cbn [packets set_packets]. rewrite lookup_insert_eq. cbn [mbind option_bind].
  change (packet_handler (dp_Type _)) with (Some (action_read (P := list rl_msg))).
  cbv iota. by apply read_waits.
Qed.

Lemma read_pieces_are_calls fuel x t fh pk port pieces x' t' bytes :
  read_pieces (HHost := HT) server fuel x t fh pk port pieces = Some (x', t', bytes) →
  pending t = [] →
  ∃ seen news, all_calls fuel x t (read_call fh pk port <$> pieces) = Some (x', t', seen) ∧
    pieces_read pieces seen = Some bytes ∧ fs_peer t' = fs_peer t ++ news ∧ Forall brief news.
Proof.
  revert x t x' t' bytes. induction pieces as [|piece pieces IH]; intros x t x' t' bytes Hread Hpend;
    cbn [read_pieces] in Hread.
  { injection Hread as <- <- <-. exists [], []. rewrite app_nil_r. by split_and!. }
  apply bind_Some in Hread as (f & Hf & Hread).
  apply bind_Some in Hread as ([x1 t1] & Hses & Hread).
  apply bind_Some in Hread as ([[a n] b] & Hlast & Hread).
  apply bind_Some in Hread as (bs & Hbs & Hread).
  apply bind_Some in Hread as ([[x2 t2] rest] & Hread & [= <- <- <-]).
  rewrite <- (by_client_read fh pk port piece t f) in Hses by done.
  destruct (session_is_call server complete_read_cb fuel x t _ pk x1 t1
    (server_short complete_read_cb ltac:(done) ltac:(done)) Hses) as (Hcall & Hp1 & n1 & E1 & B1);
    [by intros t3; apply (read_packet_waits _ _ _ _ _ f)|done..|].
  destruct (IH x1 t1 x2 t2 rest Hread Hp1) as (seen & n2 & Hcalls & Hbytes & E2 & B2).
  exists (observed t1 :: seen), (n1 ++ n2). split_and!.
  - cbn [fmap list_fmap Network.all_calls].
    change (one_call fuel x t (read_call fh pk port piece) = Some (x1, t1)) in Hcall.
    rewrite Hcall. cbn [mbind option_bind]. by rewrite Hcalls.
  - cbn [pieces_read]. unfold piece_read, observed. cbn [fst snd client_view cm_mem].
    rewrite Hlast. cbn [mbind option_bind]. rewrite Hbs. cbn [mbind option_bind]. by rewrite Hbytes.
  - by rewrite E2, E1, app_assoc.
  - by apply Forall_app.
Qed.
(** A packet with one request, whose answer ends it. *)
Lemma open_is_call fuel x t f pk x1 t' m :
  AmigaIo.session (HHost := HT) server 1 x (by_client f t) pk = Some (x1, t') → pending t = [] →
  fs_peer t' = fs_peer t ++ [m] → ¬ farewell m →
  one_call (S fuel) x t (f, pk) = Some (x1, t').
Proof.
  unfold AmigaIo.session, Network.one_call. cbn [fst snd]. set (t1 := by_client f t).
  intros (t2 & Hpk & Hex)%bind_Some Hpend Hsent Hm. rewrite Hpk. cbn [mbind option_bind].
  change (fs_peer t) with (fs_peer t1) in Hsent.
  assert (Hnil : fs_peer t1 ≠ fs_peer t1 ++ [m]).
  { intros H. rewrite <- (app_nil_r (fs_peer t1)) in H at 1. by apply app_inv_head in H. }
  cbn [exchange] in Hex.
  destruct (process_fs_packet_single (HHost := HT) pk t1 t2 Hpend Hpk)
    as [[E Hp]|[(m' & op & E & Hp)|(m' & E & Hf & Hp)]]; rewrite Hp in Hex.
  - injection Hex as -> ->. congruence.
  - rewrite E, last_snoc in Hex. cbn [mbind option_bind] in Hex.
    apply bind_Some in Hex as ([x2 ans] & Hans & Hex).
    apply bind_Some in Hex as ([t3 rc] & Hrun & Hex). destruct (Z.eqb_spec rc 0) as [->|]; [|done].
    destruct (pending t3) eqn:Hp3; [|done]. injection Hex as -> ->.
    assert (m' = m) as ->.
    { destruct (network_message_free (HHost := HT) (Link := log_link) _ _ _ _ Hrun)
        as [[E3 _]|(m3 & E3 & _)]; rewrite E3, E in Hsent.
      - by apply app_inv_head in Hsent as [= ->].
      - rewrite <- app_assoc in Hsent. by apply app_inv_head in Hsent. }
    rewrite E, drop_app_length. cbn [Network.talk]. rewrite Hp, Hans. cbn [mbind option_bind].
    rewrite Hrun. cbn [mbind option_bind Z.eqb]. rewrite Hsent, E, drop_ge by lia.
    destruct fuel; cbn [Network.talk]; by rewrite Hp3.
  - injection Hex as -> ->. rewrite E in Hsent. by apply app_inv_head in Hsent as [= ->].
Qed.

End Calls.

(** ** The whole way *)
Section NetworkRead.
Context (HC HT : Host) (AC AT : Allocator) `{HPool : Pool} {O : Type} `{OS : FileServer.Posix O}.
Context (rl_log_bits : Z) (time : O → O * Z) (k : nat) (can_write : nat → bool * bool).
Context (memC : ∀ h, malloc (Allocator := AC) h ≠ None)
  (memT : ∀ h, malloc (Allocator := AT) h ≠ None) (Hk : 8192 <= Z.of_nat k).
Context (t0 : Z) (on_time : ∀ o, t0 <= (time o).2 <= t0 + RL_PING_TIMEOUT).
Hypothesis log_off : FileServer.has_flag rl_log_bits RL_DEBUG = false.
Hypothesis time_keeps : ∀ o, (time o).1 = o.
#[local] Existing Instance log_link.
Implicit Types (t : fsys (list rl_msg)).

#[local] Abbreviation server := (controller_answer (HHost := HC) rl_log_bits).

(** C3: a program on the Amiga that opens a file of the host and reads it piece
    by piece, in pieces of any sizes at any addresses, over the network: the
    open succeeds, and the bytes that the program takes from its memory after
    each answer are together the bytes of the file, in order from the first on,
    as many as the pieces ask for or the file has; afterwards both programs are
    ready for the next packet. *)
Theorem read_file_over_network c o o' i fd d t f pk p full f0 l hh fuel pk2 port pieces ptr index st :
  let s0 := by_client f t in
  can_open c o o' (file_part full) i fd d →
  packets s0 !! pk = Some p → dp_Type p = ACTION_FINDINPUT →
  cstr_at (pointer_to (mem s0) (BCPL_CAST (dp_Arg3 p) + 1)) = Some full →
  file_part full ≠ chars "+virtual-input+" →
  fhs s0 !! BCPL_CAST (dp_Arg1 p) = Some f0 → pending t = [] → fsys_ok t →
  memory_for_open (used t) l hh →
  Forall (piece_ok (dom (mem s0)) (S fuel)) pieces →
  linked t0 ptr index (c, o) t st →
  ∃ ns x t' st' opened seen, length ns = S (length pieces) ∧
    calls_over_network HC HT AC AT rl_log_bits time k can_write st
      (zip ((f, pk) :: (read_call (BCPL_CAST (dp_Arg1 p)) pk2 port <$> pieces)) ns) =
      Some (st', opened :: seen) ∧
    opened.2 = Some (pk, DOSTRUE, 0) ∧
    pieces_read pieces seen = Some (take (Z.to_nat (total pieces)) d) ∧
    linked t0 ptr index x t' st'.
Proof.
  intros s0 Hopen Hp Ht Hfull Hv Hfh Hpend Hok Hmem Hpieces Hl.
  destruct (file_opened_and_read HT HC rl_log_bits c o o' i fd d s0 pk p full f0 l hh (S fuel) pk2
    port pieces) as (x & s1 & s2 & H1 & Hr & Hp1 & Hsent & H2); try done; [exact (fo_seqno _ Hok)|].
  pose proof (open_is_call HC HT rl_log_bits fuel (c, o) t f pk x s1 _ H1 Hpend Hsent) as Hcall.
  destruct (read_pieces_are_calls HC HT rl_log_bits (S fuel) x s1 _ pk2 port pieces x s2 _ H2 Hp1)
    as (seen & news & Hcalls & Hbytes & Hnews & Hbrief).
  set (m := RL_MSG_INIT _ _) in Hsent.
  destruct (networked_calls HC HT AC AT rl_log_bits time k can_write memC memT Hk t0 on_time log_off
    time_keeps ptr index (S fuel) ((f, pk) :: (read_call (BCPL_CAST (dp_Arg1 p)) pk2 port <$> pieces))
    (c, o) t x s2 (observed s1 :: seen) (m :: news) st Hl)
    as (_ & _ & _ & ns & st' & Hlen & _ & Hnet & Hl'); try done.
  - apply Hopen.
  - cbn [Network.all_calls]. rewrite Hcall by (intros (? & ? & [=])). cbn [mbind option_bind].
    by rewrite Hcalls.
  - rewrite Hnews, Hsent, <- app_assoc. done.
  - constructor; [apply Hopen|done].
  - cbn [length] in Hlen. rewrite length_fmap in Hlen.
    exists ns, x, s2, st', (observed s1), seen. split_and!; try done.
    unfold observed. cbn [snd]. by rewrite Hr, last_snoc.
Qed.
End NetworkRead.

(** ** A concrete read: two bytes of RL:a and then seven, of a file of five *)
Lemma read_file_over_network_witness :
  ∃ ns x t' st' opened seen, length ns = 3%nat ∧
    calls_over_network demo_pc demo_host ample_memory ample_memory (HPool := bump_pool)
      (OS := mem_posix) 0 (λ o, (o, 50)) (Z.to_nat 8192) (λ _, (true, false)) net_start
      (zip ((λ m, m, 500) :: (read_call 1200 504 5000 <$> demo_pieces)) ns) =
      Some (st', opened :: seen) ∧
    opened.2 = Some (500, DOSTRUE, 0) ∧
    pieces_read demo_pieces seen = Some [10; 20; 30; 40; 50] ∧ linked 50 300 2 x t' st'.
Proof.
  refine (read_file_over_network demo_pc demo_host ample_memory ample_memory (HPool := bump_pool)
    (OS := mem_posix) 0 (λ o, (o, 50)) (Z.to_nat 8192) (λ _, (true, false)) _ _ _ 50 _ _ _
    demo_controller demo_os demo_os 0 3 [10; 20; 30; 40; 50] demo_mounted (λ m, m) 500 demo_find
    (chars "RL:a") (DosHandle 0 0) 72 76 7 504 5000 demo_pieces 300 2 net_start demo_can_open
    _ _ _ _ _ _ demo_mounted_ok _ _ net_linked).
  - done.
  - done.
  - by rewrite Z2Nat.id.
  - unfold RL_PING_TIMEOUT. cbn. lia.
  - done.
  - done.
  - done.
  - done.
  - by vm_compute.
  - by vm_compute.
  - done.
  - done.
  - split; [|by vm_compute]. exists 68. by vm_compute.
  - exact demo_pieces_ok.
Defined.
