(* ===== verification/NetworkDir.v ===== *)
(** * NetworkDir: a directory of the host, listed over the network *)

From S2P Require Import Prelude Wire Messages CString Format Transport Peer FileServer.
From S2P Require Import AmigaFs AmigaActions AmigaMount AmigaSafety AmigaIo AmigaSession AmigaTypes.
From S2P Require Import AmigaDir AmigaLink AmigaRequests ServerLink Controller Target Session.
From S2P Require Import Network NetworkRead.

(** ** The client *)

(** The packet [p], sent again and again. *)
Definition next_call (pk : Z) (p : DosPacket) : call :=
  (λ m, ClientMemory (<[pk := p]> (cm_packets m)) (cm_fhs m) (cm_fibs m) (cm_infos m) (cm_mem m),
   pk).

(** What it finds in its FileInfoBlock after each success, and the code of the
    failure that ends the listing. *)
Fixpoint listed (fib : Z) (seen : list (client_memory * option (Z * Z * Z)))
  : option (list FileInfoBlock * Z) :=
  match seen with
  | [] => None
  | view :: seen =>
      '(_, res1, res2) ← view.2;
      if res1 =? DOSTRUE then
        f ← cm_fibs view.1 !! fib;
        '(fs, code) ← listed fib seen;
        Some (f :: fs, code)
      else match seen with [] => Some ([], res2) | _ => None end
  end.

Section NetworkDir.
Context (HC HT : Host) (AC AT : Allocator) `{HPool : Pool} {O : Type} `{OS : FileServer.Posix O}.
Context (rl_log_bits : Z) (time : O → O * Z) (k : nat) (can_write : nat → bool * bool).
Context (memC : ∀ h, malloc (Allocator := AC) h ≠ None)
  (memT : ∀ h, malloc (Allocator := AT) h ≠ None) (Hk : 8192 <= Z.of_nat k).
Context (t0 : Z) (on_time : ∀ o, t0 <= (time o).2 <= t0 + RL_PING_TIMEOUT).
Hypothesis log_off : FileServer.has_flag rl_log_bits RL_DEBUG = false.
Hypothesis time_keeps : ∀ o, (time o).1 = o.
#[local] Existing Instance log_link.
Implicit Types (t : fsys (list rl_msg)).

#[local] Abbreviation server := (controller_answer (HHost := HC) rl_log_bits).
#[local] Abbreviation all_calls := (Network.all_calls HC HT rl_log_bits).

Lemma by_client_next pk p t :
  by_client (next_call pk p).1 t = set_packets (<[pk := p]> (packets t)) t.
Proof. by destruct t. Qed.

Lemma next_packet_waits pk p t t2 :
  dp_Type p = ACTION_EXAMINE_NEXT → pending t = [] →
  process_fs_packet (HHost := HT) (by_client (next_call pk p).1 t) pk = Some t2 →
  goes_on complete_examine_next_cb (by_client (next_call pk p).1 t) t2.
Proof.
  intros Ht Hpend. rewrite by_client_next. unfold process_fs_packet.
  cbn [packets set_packets]. rewrite lookup_insert_eq. cbn [mbind option_bind]. rewrite Ht.
  change (packet_handler ACTION_EXAMINE_NEXT) with
    (Some (action_examine_next (P := list rl_msg))).
  cbv iota. by apply examine_next_waits.
Qed.

Lemma listing_is_calls fib fuel x t pk p x' t' fs code :
  list_directory (HHost := HT) server fib fuel x t pk p = Some (x', t', fs, code) →
  dp_Type p = ACTION_EXAMINE_NEXT → pending t = [] →
  ∃ seen news, all_calls 1 x t (replicate (S (length fs)) (next_call pk p)) = Some (x', t', seen) ∧
    listed fib seen = Some (fs, code) ∧ fs_peer t' = fs_peer t ++ news ∧ Forall brief news.
Proof.
  intros Hlist Ht. revert x t x' t' fs Hlist.
  induction fuel as [|fuel IH]; intros x t x' t' fs Hlist Hpend; [done|]. cbn [list_directory] in Hlist.
  apply bind_Some in Hlist as ([x1 t1] & Hses & Hlist).
  apply bind_Some in Hlist as ([[a r1] r2] & Hlast & Hlist).
  rewrite <- (by_client_next pk p t) in Hses.
  destruct (session_is_call HC HT rl_log_bits (controller_answer (HHost := HC) rl_log_bits)
    complete_examine_next_cb 1 x t _ pk x1 t1
    (server_short HC rl_log_bits complete_examine_next_cb ltac:(done) ltac:(done)) Hses)
    as (Hcall & Hp1 & n1 & E1 & B1); [by intros t3; apply next_packet_waits|done..|].
  change (one_call HC HT rl_log_bits 1 x t (next_call pk p) = Some (x1, t1)) in Hcall.
  cbn [replicate Network.all_calls]. rewrite Hcall. cbn [mbind option_bind].
  destruct (r1 =? DOSTRUE) eqn:Hr.
  - apply bind_Some in Hlist as (f & Hf & Hlist).
    apply bind_Some in Hlist as ([[[x2 t2] rest] code'] & Hlist & [= <- <- <- <-]).
    destruct (IH x1 t1 x2 t2 rest Hlist Hp1) as (seen & n2 & Hcalls & Hl & E2 & B2).
    cbn [length]. rewrite Hcalls. cbn [mbind option_bind].
    exists (observed t1 :: seen), (n1 ++ n2). split; [done|]. split; [|split].
    + cbn [listed]. change ((observed t1).2) with (last (replies t1)). rewrite Hlast. cbn [mbind option_bind].
      rewrite Hr. change (cm_fibs (observed t1).1) with (fibs t1). rewrite Hf. cbn [mbind option_bind].
      by rewrite Hl.
    + by rewrite E2, E1, app_assoc.
    + by apply Forall_app.
  - injection Hlist as <- <- <- <-. exists [observed t1], n1. split; [done|]. split; [|done].
    cbn [listed]. change ((observed t1).2) with (last (replies t1)). rewrite Hlast. cbn [mbind option_bind].
    by rewrite Hr.
Qed.

(** C4: a program on the Amiga that lists a directory of the host over the
    network, from the start or from where an earlier listing stopped, finds in
    its memory every entry that is left exactly once and in the order of the
    host, with its kind, its size and its name up to 106 characters, and then
    learns that there are no more: one packet for each entry and one more, each
    of them over after a few rounds of the two programs. *)
Theorem list_directory_over_network lock fib hd i c (o : O) dir started es t pk p ptr index st :
  FileServer.ctl_ok c → fsys_ok t → pool_alloc (used t) ≠ None →
  server_lists c o i dir started es → at_directory lock fib hd (Z.of_nat i) (used t) started t →
  lists_directory lock fib p → linked t0 ptr index (c, o) t st →
  ∃ ns x t' st' seen, length ns = S (length es) ∧
    calls_over_network HC HT AC AT rl_log_bits time k can_write st
      (zip (replicate (S (length es)) (next_call pk p)) ns) = Some (st', seen) ∧
    listed fib seen = Some (entry_fib <$> es, ERROR_NO_MORE_ENTRIES) ∧
    linked t0 ptr index x t' st'.
Proof.
  intros Hco Hok Hpool Hsrv Hat Hp Hl.
  destruct (directory_listed HT HC rl_log_bits lock fib hd i (used t) c o dir started es t pk p
    (S (length es)) Hpool Hsrv Hat Hp) as (x & t' & Hlist & _); [lia|].
  destruct (listing_is_calls fib _ (c, o) t pk p x t' _ _ Hlist)
    as (seen & news & Hcalls & Hseen & Hnews & Hbrief); [apply Hp|apply Hat|].
  rewrite length_fmap in Hcalls.
  destruct (networked_calls HC HT AC AT rl_log_bits time k can_write memC memT Hk t0 on_time log_off
    time_keeps ptr index 1 (replicate (S (length es)) (next_call pk p)) (c, o) t x t' seen news st Hl)
    as (_ & _ & _ & ns & st' & Hlen & _ & Hnet & Hl'); try done; [apply Hat|].
  rewrite length_replicate in Hlen. by exists ns, x, t', st', seen.
Qed.
End NetworkDir.

(** ** A concrete listing of a directory with a directory and a file *)
Lemma demo_dir_fs_ok : fsys_ok demo_dir_fs.
Proof.
  assert (Hz : ∃ text, cstr_at path_zero = Some text) by by eexists [].
  split; cbn.
  - done.
  - intros a h [[<- <-]|[_ [<- <-]%lookup_singleton_Some]]%lookup_insert_Some; by repeat split.
  - by eexists.
  - intros a h [[<- <-]|[_ [<- <-]%lookup_singleton_Some]]%lookup_insert_Some; done.
  - intros l lk [<- <-]%lookup_singleton_Some. by eexists.
  - intros l1 l2 lk1 lk2 [<- <-]%lookup_singleton_Some [<- <-]%lookup_singleton_Some. by left.
  - constructor.
  - unfold addresses. cbn. split; [constructor|]. rewrite dom_insert_L, !dom_singleton_L. set_solver.
Qed.

Lemma demo_dir_controller_ok : FileServer.ctl_ok demo_dir_controller.
Proof.
  apply FileServer.update_ok; [apply demo_controller_ok|].
  apply FileServer.demo_handle_ok; [by repeat constructor|cbn; lia].
Qed.

Lemma list_directory_over_network_witness :
  ∃ ns x t' st' seen, length ns = 3%nat ∧
    calls_over_network demo_pc demo_host ample_memory ample_memory (HPool := bump_pool)
      (OS := dir_posix) 0 (λ o, (o, 50)) (Z.to_nat 8192) (λ _, (true, false))
      (rested_state (demo_dir_controller, demo_dir_os) demo_dir_fs)
      (zip (replicate 3 (next_call 500 demo_examine)) ns) = Some (st', seen) ∧
    listed 1200 seen = Some ([Fib 1 1 (fib_name (chars "sub")) 5 0 0 0 (replicate 80 0);
                              Fib (-1) (-1) (fib_name (chars "a")) 5 5 5 0 (replicate 80 0)],
                             ERROR_NO_MORE_ENTRIES) ∧
    linked 50 300 2 x t' st'.
Proof.
  refine (list_directory_over_network demo_pc demo_host ample_memory ample_memory
    (HPool := bump_pool) (OS := dir_posix) 0 (λ o, (o, 50)) (Z.to_nat 8192) (λ _, (true, false))
    _ _ _ 50 _ _ _ 128 1200 256 1 demo_dir_controller demo_dir_os (chars "/w") false demo_entries
    demo_dir_fs 500 demo_examine 300 2 _ demo_dir_controller_ok demo_dir_fs_ok _ demo_dir_serves
    _ _ (rested_linked _ _ _)).
  - done.
  - done.
  - by rewrite Z2Nat.id.
  - unfold RL_PING_TIMEOUT. cbn. lia.
  - done.
  - done.
  - by vm_compute.
  - split; [done|by vm_compute| |by eexists|done]. by eexists.
  - done.
  - done.
Defined.
