(* ===== verification/NetworkPrint.v ===== *)
(** * NetworkPrint: what a program prints, over the network

    The packets of a program that prints (AmigaOutput) are calls in the sense of
    Network: its texts reach the standard output of the host over the
    network. *)

From S2P Require Import Prelude Wire Messages CString Format Transport Peer FileServer.
From S2P Require Import AmigaFs AmigaActions AmigaMount AmigaSafety AmigaIo AmigaSession AmigaTypes.
From S2P Require Import AmigaOutput AmigaLink AmigaRequests ServerLink Controller Target Session.
From S2P Require Import Network NetworkRead.

(** ** The client *)

(** It stores a text and sends the packet that writes it. *)
Definition write_call (fh pk port : Z) (piece : Z * list Z) : call :=
  (λ m, match cm_fhs m !! fh, mem_write (cm_mem m) piece.1 piece.2 with
        | Some f, Some mem =>
            let p := write_packet f piece.1 (Z.of_nat (length piece.2)) port in
            ClientMemory (<[pk := p]> (cm_packets m)) (cm_fhs m) (cm_fibs m) (cm_infos m) mem
        | _, _ => m
        end, pk).

(** It closes the file. *)
Definition close_call (fh pk port : Z) : call :=
  (λ m, match cm_fhs m !! fh with
        | Some f =>
            let p := Packet ACTION_END (fh_Arg1 f) 0 0 0 0 0 port in
            ClientMemory (<[pk := p]> (cm_packets m)) (cm_fhs m) (cm_fibs m) (cm_infos m) (cm_mem m)
        | None => m
        end, pk).

(** The first result of the packet that was answered last. *)
Definition result_seen (view : client_memory * option (Z * Z * Z)) : option Z :=
  '(_, res1, _) ← view.2; Some res1.

Section Calls.
Context (HC HT : Host) `{HPool : Pool} {O : Type} `{OS : FileServer.Posix O} (rl_log_bits : Z).
#[local] Existing Instance log_link.
Implicit Types (t : fsys (list rl_msg)).

#[local] Abbreviation checked := (NetworkRead.checked HC rl_log_bits).
#[local] Abbreviation one_call := (Network.one_call HC HT rl_log_bits).
#[local] Abbreviation all_calls := (Network.all_calls HC HT rl_log_bits).

Lemma by_client_write fh pk port a bs t f m :
  fhs t !! fh = Some f → mem_write (mem t) a bs = Some m →
  by_client (write_call fh pk port (a, bs)).1 t =
    set_packets (<[pk := write_packet f a (Z.of_nat (length bs)) port]> (packets t)) (set_mem m t).
Proof.
  intros Hf Hm. unfold by_client, client_view, write_call. cbn. rewrite Hf, Hm. by destruct t.
Qed.

Lemma write_packet_waits f a n port pk t t2 :
  pending t = [] →
  process_fs_packet (HHost := HT) (set_packets (<[pk := write_packet f a n port]> (packets t)) t) pk =
    Some t2 →
  goes_on complete_write_cb (set_packets (<[pk := write_packet f a n port]> (packets t)) t) t2.
Proof.
  intros Hpend. unfold process_fs_packet.
  cbn [packets set_packets]. rewrite lookup_insert_eq. cbn [mbind option_bind].
  change (packet_handler (dp_Type _)) with (Some (action_write (P := list rl_msg))).
  cbv iota. by apply write_waits.
Qed.

Lemma write_pieces_are_calls fuel x t fh pk port pieces x' t' ns :
  write_pieces (HHost := HT) checked fuel x t fh pk port pieces = Some (x', t', ns) →
  pending t = [] →
  ∃ seen news, all_calls fuel x t (write_call fh pk port <$> pieces) = Some (x', t', seen) ∧
    result_seen <$> seen = Some <$> ns ∧ pending t' = [] ∧
    fs_peer t' = fs_peer t ++ news ∧ Forall brief news.
Proof.
  revert x t x' t' ns. induction pieces as [|[a bs] pieces IH]; intros x t x' t' ns Hwrite Hpend;
    cbn [write_pieces] in Hwrite.
  { injection Hwrite as <- <- <-. exists [], []. rewrite app_nil_r. by split_and!. }
  apply bind_Some in Hwrite as (f & Hf & Hwrite). apply bind_Some in Hwrite as (m & Hm & Hwrite).
  cbv zeta in Hwrite.
  apply bind_Some in Hwrite as ([x1 t1] & Hses & Hwrite).
  apply bind_Some in Hwrite as ([[b n] r2] & Hlast & Hwrite).
  apply bind_Some in Hwrite as ([[x2 t2] rest] & Hwrite & [= <- <- <-]).
  pose proof (by_client_write fh pk port a bs t f m Hf Hm) as Hby.
  change (packets t) with (packets (set_mem m t)) in Hby, Hses.
  rewrite <- Hby in Hses.
  destruct (session_is_call HC HT rl_log_bits checked complete_write_cb fuel x t _ pk x1 t1
    (checked_short HC rl_log_bits _) Hses) as (Hcall & Hp1 & n1 & E1 & B1);
    [by intros t3; rewrite Hby; apply write_packet_waits|done|].
  destruct (IH x1 t1 x2 t2 rest Hwrite Hp1) as (seen & n2 & Hcalls & Hres & Hp2 & E2 & B2).
  exists (observed t1 :: seen), (n1 ++ n2). split_and!.
  - cbn [fmap list_fmap Network.all_calls].
    change (one_call fuel x t (write_call fh pk port (a, bs)) = Some (x1, t1)) in Hcall.
    rewrite Hcall. cbn [mbind option_bind]. by rewrite Hcalls.
  - cbn [fmap list_fmap]. rewrite Hres. unfold result_seen, observed. cbn [snd].
    by rewrite Hlast.
  - done.
  - by rewrite E2, E1, app_assoc.
  - by apply Forall_app.
Qed.

(** A packet with no request. *)
Lemma silent_call fuel x t f pk t' :
  process_fs_packet (HHost := HT) (by_client f t) pk = Some t' →
  fs_peer t' = fs_peer t → pending t' = [] → one_call fuel x t (f, pk) = Some (x, t').
Proof.
  intros Hpk Hpeer Hp. unfold Network.one_call. cbn [fst snd]. rewrite Hpk. cbn [mbind option_bind].
  rewrite drop_ge by (rewrite Hpeer; done). destruct fuel; cbn [Network.talk]; by rewrite Hp.
Qed.

(** The packet that closes the output. *)
Lemma close_is_call fuel c (o : O) t fh pk port t' q :
  close_file (HHost := HT) t fh pk port = Some t' → pending t' = [] →
  fs_peer t' = fs_peer t ++ [RL_MSG_INIT (close_handle_request RL_FILEHANDLE_VIRTUAL_OUTPUT) q] →
  one_call fuel (c, o) t (close_call fh pk port) = Some ((c, o), t').
Proof.
  unfold close_file. intros (f & Hf & Hpk)%bind_Some Hp Hpeer. unfold Network.one_call.
  assert (by_client (close_call fh pk port).1 t =
    set_packets (<[pk := Packet ACTION_END (fh_Arg1 f) 0 0 0 0 0 port]> (packets t)) t) as ->.
  { unfold by_client, client_view, close_call. cbn. rewrite Hf. by destruct t. }
  cbn [close_call snd]. rewrite Hpk. cbn [mbind option_bind]. rewrite Hpeer.
  change (fs_peer (set_packets _ t)) with (fs_peer t). rewrite drop_app_length.
  destruct fuel; cbn [Network.talk]; rewrite Hp; unfold serve_farewell;
    by rewrite controller_keeps_output.
Qed.

Lemma all_calls_app fuel x t cs1 cs2 :
  all_calls fuel x t (cs1 ++ cs2) =
    '(x1, t1, seen1) ← all_calls fuel x t cs1;
    '(x2, t2, seen2) ← all_calls fuel x1 t1 cs2;
    Some (x2, t2, seen1 ++ seen2).
Proof.
  revert x t. induction cs1 as [|c cs1 IH]; intros x t; cbn [app Network.all_calls].
  { cbn [mbind option_bind]. by destruct (all_calls fuel x t cs2) as [[[]]|]. }
  destruct (one_call fuel x t c) as [[x1 t1]|]; [|done]. cbn [mbind option_bind]. rewrite IH.
  destruct (all_calls fuel x1 t1 cs1) as [[[x2 t2] seen]|]; [|done]. cbn [mbind option_bind].
  by destruct (all_calls fuel x2 t2 cs2) as [[[]]|].
Qed.

(** The file server prints what fits its buffer. *)
Lemma checked_prints (stdout : O → list Z) c :
  (∀ o bs, stdout (FileServer.fwrite_stdout o bs) = stdout o ++ bs) →
  takes_writes checked (printed stdout c) RL_FILEHANDLE_VIRTUAL_OUTPUT.
Proof.
  intros Hlaw x out a q bs Hx Ha Hlen. unfold NetworkRead.checked. rewrite decide_True.
  - by apply controller_prints.
  - unfold na_bytes in Ha. case_decide; [|done]. repeat split; cbn; lia.
Qed.
End Calls.

(** ** The whole way *)
Section NetworkPrint.
Context (HC HT : Host) (AC AT : Allocator) `{HPool : Pool} {O : Type} `{OS : FileServer.Posix O}.
Context (rl_log_bits : Z) (time : O → O * Z) (k : nat) (can_write : nat → bool * bool).
Context (memC : ∀ h, malloc (Allocator := AC) h ≠ None)
  (memT : ∀ h, malloc (Allocator := AT) h ≠ None) (Hk : 8192 <= Z.of_nat k).
Context (t0 : Z) (on_time : ∀ o, t0 <= (time o).2 <= t0 + RL_PING_TIMEOUT).
Context (stdout : O → list Z).
Hypothesis stdout_fwrite : ∀ o bs, stdout (FileServer.fwrite_stdout o bs) = stdout o ++ bs.
Hypothesis log_off : FileServer.has_flag rl_log_bits RL_DEBUG = false.
Hypothesis time_keeps : ∀ o, (time o).1 = o.
#[local] Existing Instance log_link.
Implicit Types (t : fsys (list rl_msg)).

(** C5: a program on the Amiga that opens its output, writes texts of any
    sizes and closes it, over the network, prints on the standard output of the
    host: the texts appear there once, whole and in order, each write is
    answered with its length, the open and the close succeed, the heap of the
    target is afterwards what it was, and both programs are ready for the next
    packet. *)
Theorem print_over_network c o t f pk p full f0 l hh fuel pk2 pk3 port pieces ptr index st :
  let s0 := by_client f t in
  let fh := BCPL_CAST (dp_Arg1 p) in
  FileServer.ctl_ok c → fsys_ok t →
  packets s0 !! pk = Some p → dp_Type p = ACTION_FINDOUTPUT →
  cstr_at (pointer_to (mem s0) (BCPL_CAST (dp_Arg3 p) + 1)) = Some full →
  file_part full = chars "+virtual-output+" →
  fhs s0 !! fh = Some f0 → pending t = [] →
  pool_alloc (used t) = Some l → pool_alloc ({[l]} ∪ used t) = Some hh →
  pool_alloc ({[l; hh]} ∪ used t) ≠ None →
  Forall (text_ok (dom (mem s0)) fuel) pieces →
  linked t0 ptr index (c, o) t st →
  ∃ ns o' t' st' opened seen closed, length ns = S (S (length pieces)) ∧
    calls_over_network HC HT AC AT rl_log_bits time k can_write st
      (zip ((f, pk) :: (write_call fh pk2 port <$> pieces) ++ [close_call fh pk3 port]) ns) =
      Some (st', opened :: seen ++ [closed]) ∧
    opened.2 = Some (pk, DOSTRUE, 0) ∧
    result_seen <$> seen = Some ∘ Z.of_nat ∘ length <$> pieces.*2 ∧
    closed.2 = Some (pk3, DOSTRUE, 0) ∧
    stdout o' = stdout o ++ concat pieces.*2 ∧
    locks t' = locks t ∧ chandles t' = chandles t ∧
    linked t0 ptr index (c, o') t' st'.
Proof.
  intros s0 fh Hco Hok Hp Ht Hfull Hname Hfh Hpend Hl Hhh Hpool Hpieces Hst.
  destruct (text_printed (HHost := HT) (NetworkRead.checked HC rl_log_bits) (printed stdout c)
    (c, o) (stdout o) s0 pk p full f0 l hh fuel pk2 pk3 port pieces
    (checked_prints HC rl_log_bits stdout c stdout_fwrite) (conj eq_refl eq_refl)
    Hp Ht Hfull Hname Hfh Hpend Hl Hhh Hpool Hpieces)
    as (s1 & [c' o'] & s2 & s3 & q & Hopen & Hr1 & Hp1 & E1 & Hwrite & [Hc Hout] & Hp2 & Hclose &
        Hr3 & Hp3 & Hl3 & Hc3 & E3). cbn [fst snd] in Hc, Hout. subst c'.
  destruct (write_pieces_are_calls HC HT rl_log_bits fuel (c, o) s1 fh pk2 port pieces _ s2 _ Hwrite Hp1)
    as (seen & news & Hcalls & Hseen & _ & E2 & Hbrief).
  destruct (networked_calls HC HT AC AT rl_log_bits time k can_write memC memT Hk t0 on_time log_off
    time_keeps ptr index fuel
    ((f, pk) :: (write_call fh pk2 port <$> pieces) ++ [close_call fh pk3 port])
    (c, o) t (c, o') s3 (observed s1 :: seen ++ [observed s3])
    (news ++ [RL_MSG_INIT (close_handle_request RL_FILEHANDLE_VIRTUAL_OUTPUT) q]) st Hst)
    as (_ & _ & _ & ns & st' & Hlen & _ & Hnet & Hst'); try done.
  - cbn [Network.all_calls].
    rewrite (silent_call HC HT rl_log_bits fuel (c, o) t f pk s1 Hopen E1 Hp1).
    cbn [mbind option_bind].
    rewrite (all_calls_app HC HT), Hcalls. cbn [mbind option_bind Network.all_calls].
    by rewrite (close_is_call HC HT rl_log_bits fuel c o' s2 fh pk3 port s3 q Hclose Hp3 E3).
  - by rewrite E3, E2, E1, <- app_assoc.
  - apply Forall_app. split; [done|]. by constructor.
  - cbn [length] in Hlen. rewrite length_app, length_fmap, Nat.add_1_r in Hlen.
    exists ns, o', s3, st', (observed s1), seen, (observed s3).
    split; [done|]. split; [exact Hnet|].
    unfold observed. cbn [snd]. rewrite Hr1, Hr3, !last_snoc. split; [done|].
    split; [by rewrite Hseen, <- list_fmap_compose|]. by split_and!.
Qed.
End NetworkPrint.

(** ** A concrete run: two texts *)

(** The packet that opens RL:+virtual-output+, whose name is at 3000. *)
Definition demo_print : DosPacket := Packet ACTION_FINDOUTPUT 300 0 750 0 0 0 5000.
Definition demo_texts : list (Z * list Z) := [(1000, chars "Hello, "); (1001, chars "Amiga")].

(** A client with a file handle, the name and some room for its texts. *)
Definition demo_printer (m : client_memory) : client_memory :=
  ClientMemory {[ 500 := demo_print ]} {[ 1200 := DosHandle 0 0 ]} (cm_fibs m) (cm_infos m)
    (list_to_map (zip (seqZ 1000 8 ++ seqZ 3000 21)
                      (replicate 8 0 ++ 19 :: cstr "RL:+virtual-output+"))).

Lemma print_over_network_witness :
  ∃ ns o' t' st' opened seen closed, length ns = 4%nat ∧
    calls_over_network demo_pc demo_host ample_memory ample_memory (HPool := bump_pool)
      (OS := mem_posix) 0 (λ o, (o, 50)) (Z.to_nat 8192) (λ _, (true, false)) net_start
      (zip [(demo_printer, 500); write_call 1200 504 5000 (1000, chars "Hello, ");
            write_call 1200 504 5000 (1001, chars "Amiga"); close_call 1200 508 5000] ns) =
      Some (st', opened :: seen ++ [closed]) ∧
    opened.2 = Some (500, DOSTRUE, 0) ∧ result_seen <$> seen = [Some 7; Some 5] ∧
    closed.2 = Some (508, DOSTRUE, 0) ∧ mo_stdout o' = chars "Hello, Amiga" ∧
    locks t' = locks demo_mounted ∧ chandles t' = chandles demo_mounted ∧
    linked 50 300 2 (demo_controller, o') t' st'.
Proof.
  refine (print_over_network demo_pc demo_host ample_memory ample_memory (HPool := bump_pool)
    (OS := mem_posix) 0 (λ o, (o, 50)) (Z.to_nat 8192) (λ _, (true, false)) _ _ _ 50 _
    mo_stdout _ _ _ demo_controller demo_os demo_mounted demo_printer 500 demo_print
    (chars "RL:+virtual-output+") (DosHandle 0 0) 68 72 8 504 508 5000 demo_texts 300 2 net_start
    demo_controller_ok demo_mounted_ok _ _ _ _ _ _ _ _ _ _ net_linked).
  - done.
  - done.
  - by rewrite Z2Nat.id.
  - unfold RL_PING_TIMEOUT. cbn. lia.
  - done.
  - done.
  - done.
  - done.
  - done.
  - by vm_compute.
  - by vm_compute.
  - done.
  - done.
  - by vm_compute.
  - by vm_compute.
  - by vm_compute.
  - pose proof (range_in_dom (mem (by_client demo_printer demo_mounted)) 1000 8 ltac:(by vm_compute))
      as Hm.
    repeat constructor; cbn; try lia; intros; apply Hm; lia.
Defined.
