(* ===== verification/WholeSession.v ===== *)
(** * WholeSession: from the connection to the exit code

    The controller and the target connect, the program is started, works with
    files of the host through the file system, and ends; all of it between two
    programs that only have a connection in common. *)

From S2P Require Import Prelude Wire Messages CString Format Transport Peer FileServer.
From S2P Require Import AmigaFs AmigaActions AmigaMount AmigaSafety AmigaIo AmigaSession AmigaTypes.
From S2P Require Import AmigaLink AmigaRequests ServerLink Controller Target Serve Session SessionEnd.
From S2P Require Import Network.

Section WholeSession.
Context (HC HT : Host) (AC AT : Allocator) `{HPool : Pool} {O : Type} `{OS : FileServer.Posix O}.
Context (rl_log_bits : Z) (time : O → O * Z) (k : nat) (can_write : nat → bool * bool).
Context (memC : ∀ h, malloc (Allocator := AC) h ≠ None)
  (memT : ∀ h, malloc (Allocator := AT) h ≠ None) (Hk : 8192 <= Z.of_nat k).
Context (t0 : Z) (on_time : ∀ o, t0 <= (time o).2 <= t0 + RL_PING_TIMEOUT).
Hypothesis log_off : FileServer.has_flag rl_log_bits RL_DEBUG = false.
Hypothesis time_keeps : ∀ o, (time o).1 = o.

#[local] Abbreviation run := (Session.session HC HT AC AT rl_log_bits time k can_write).

(** The file system of a program that has just been started, with the list of
    messages for a link. *)
Definition program_fs (fs : fsys peer) (lock : Z) : fsys (list rl_msg) :=
  with_peer [] (launched_fs fs lock (fs_peer fs)).

Lemma program_fs_ok fs lock :
  fsys_ok fs → pool_alloc (used fs) = Some lock → fsys_ok (program_fs fs lock).
Proof.
  intros Hok Hpool. destruct (root_lock_spec fs lock Hpool) as [Hroot _].
  apply root_lock_typed in Hroot; [|done]. destruct fs. by destruct Hroot.
Qed.

Lemma program_fs_held fs lock p0 : launched_fs fs lock p0 = with_peer p0 (program_fs fs lock).
Proof. by destruct fs. Qed.

(** C7: a whole session.  A controller and a target that connect shake hands and
    start the program named on the command line of the controller, with its
    arguments.  Whatever the program then does with the files of the host, call
    by call, it sees over the network what it would see if the file system and
    the file server were one program.  When it ends, what AmigaDOS gives as the
    result of its command line becomes the result of the controller, which leaves
    its loop; 1 stands for a program that could not be run. *)
Theorem whole_session ec et wc wt hc ht device fs lock system fuel cs x' t' seen :
  endpoint_ok (H := HC) ec → handshake_message (HHost := HC) = Some hc → msg_ok hc →
  endpoint_ok (H := HT) et → handshake_message (HHost := HT) = Some ht → msg_ok ht →
  wf_string (executable wc.1) → Forall no_nul (arguments wc.1) → ep_ptr et ≠ 0 →
  can_launch (ep_ptr et) (Z.rem (ep_count et) 10) wt device fs lock →
  FileServer.ctl_ok wc.1 → fsys_ok fs → pending fs = [] →
  let serving := (set_ctl_state CONTROLLER_FILE_SERVING wc.1, wc.2) in
  all_calls HC HT rl_log_bits fuel serving (program_fs fs lock) cs = Some (x', t', seen) →
  Forall brief (fs_peer t') →
  (∀ line, -2147483648 <= system line < 2147483648) →
  let line := command_line (launch_command device (executable wc.1))
                (take 254 (args_text true (arguments wc.1))) in
  ∃ st msg ns st1 msg' failed st2 st3,
    run_session HC HT AC AT rl_log_bits time k can_write 3 ec et wc wt = Some (st, []) ∧
    launched st.2.2 = launched wt ++ [msg] ∧
    length ns = length cs ∧
    calls_over_network HC HT AC AT rl_log_bits time k can_write st (zip cs ns) =
      Some (st1, seen) ∧ st1.1.2 = x' ∧
    cmd_launcher (HHost := HT) msg system = Some (msg', failed) ∧
    program_done HT AT st1 msg' = Some st2 ∧ run 2 st2 [] = Some (st3, []) ∧
    state st3.1.1 = PEER_ERROR ∧ FileServer.result st3.1.2.1 = exit_code (system line).
Proof.
  intros Hec Hhc Hc Het Hht Ht He Ha Hptr Hcan Hco Hok Hpend serving Hcalls Hbrief Hsys line.
  destruct (session_serves HC HT AC AT rl_log_bits time k can_write memC memT Hk t0 on_time
    ec et wc wt hc ht device fs lock Hec Hhc Hc Het Hht Ht He Ha Hcan)
    as (pc & wc' & pt & wt' & p0 & Hrun & Hcr & Htr & -> & Hl & Hfs).
  cbn [Nat.iter nat_rect] in Hrun, Hcr. rewrite !time_keeps in Hrun, Hcr. fold serving in Hrun, Hcr.
  assert (Hdev : device_name (Z.rem (ep_count et) 10) = Some device) by apply Hcan.
  destruct (launched_program_code (HHost := HT) _ device (executable wc.1) (arguments wc.1) lock system
    Hdev He Ha Hsys) as (msg' & failed & Hlaunch & Hidx & Hcode).
  assert (Hlinked : linked t0 (ep_ptr et) (Z.rem (ep_count et) 10) serving (program_fs fs lock)
    ((pc, serving), (pt, wt'))).
  { split; [exact Hcr|]. split; [done|]. split; [exact Htr|]. exists p0. by rewrite <- program_fs_held. }
  destruct (networked_calls HC HT AC AT rl_log_bits time k can_write memC memT Hk t0 on_time log_off
    time_keeps (ep_ptr et) (Z.rem (ep_count et) 10) fuel cs serving (program_fs fs lock) x' t' seen
    (fs_peer t') _ Hlinked)
    as (_ & _ & _ & ns & [[pc1 wc1] [pt1 wt1]] & Hlen & _ & Hnet & Hcr1 & <- & Htr1 & _); try done.
  { by destruct Hco. }
  { apply program_fs_ok; [done|apply Hcan]. }
  destruct (session_ends HC HT AC AT rl_log_bits time k can_write memT Hk t0 on_time
    (ep_ptr et) _ pc1 wc1 pt1 wt1 msg' Hcr1 Htr1 Hptr Hidx) as (st2 & st3 & Hdone & Hend & Herr & Hres).
  eexists _, _, ns, ((pc1, wc1), (pt1, wt1)), msg', failed, st2, st3.
  split_and!; [exact Hrun|exact Hl|exact Hlen|exact Hnet|done|exact Hlaunch|exact Hdone|exact Hend
    |exact Herr|by rewrite Hres].
Qed.
End WholeSession.

(** ** A concrete session: the program reads RL:a and gives 20 *)
Lemma mounted_fs_ok : fsys_ok mounted_fs.
Proof.
  assert (Hz : ∃ text, cstr_at path_zero = Some text) by by eexists [].
  split; cbn.
  - done.
  - intros a h [<- <-]%lookup_singleton_Some. by split.
  - by eexists.
  - intros a h [<- <-]%lookup_singleton_Some. done.
  - by intros l lk ?%lookup_empty_Some.
  - by intros l1 l2 lk1 lk2 ?%lookup_empty_Some.
  - constructor.
  - unfold addresses. cbn. split; [constructor|]. rewrite dom_empty_L. set_solver.
Qed.

Definition program_memory : client_memory :=
  ClientMemory {[ 500 := demo_find ]} {[ 1200 := DosHandle 0 0 ]} ∅ ∅ (mem demo_open_fs).
Definition program_packet (p : DosPacket) (m : client_memory) : client_memory :=
  ClientMemory (<[500 := p]> (cm_packets m)) (cm_fhs m) (cm_fibs m) (cm_infos m) (cm_mem m).
Definition program_calls : list call :=
  [ (λ _, program_memory, 500);
    (program_packet (Packet ACTION_READ 76 1000 9 0 0 0 5000), 500);
    (program_packet (Packet ACTION_END 76 0 0 0 0 0 5000), 500) ].
Definition program_run :=
  all_calls demo_pc demo_host (HPool := bump_pool) (OS := mem_posix) 0 9
    (demo_controller, demo_os) (program_fs mounted_fs 68) program_calls.
Definition program_outcome :=
  default ((demo_controller, demo_os), program_fs mounted_fs 68, []) program_run.
Definition program_bytes : option (list Z) :=
  view ← program_outcome.2 !! 1%nat; mem_read (cm_mem view.1) 1000 5.

Lemma whole_session_witness :
  let c := set_ctl_state CONTROLLER_INITIAL demo_controller in
  (program_bytes = Some [10; 20; 30; 40; 50] ∧
   snd <$> program_outcome.2 = [Some (500, -1, 0); Some (500, 5, 0); Some (500, -1, 0)]) ∧
  ∃ st msg ns st1 msg' failed st2 st3,
    run_session demo_pc demo_host ample_memory ample_memory (HPool := bump_pool) (OS := mem_posix) 0
      (λ o, (o, 50)) (Z.to_nat 8192) (λ _, (true, false)) 3 (demo_end 100) (demo_end 300)
      (c, demo_os) demo_world = Some (st, []) ∧
    launched st.2.2 = [] ++ [msg] ∧ length ns = 3%nat ∧
    calls_over_network demo_pc demo_host ample_memory ample_memory (HPool := bump_pool)
      (OS := mem_posix) 0 (λ o, (o, 50)) (Z.to_nat 8192) (λ _, (true, false)) st
      (zip program_calls ns) = Some (st1, program_outcome.2) ∧ st1.1.2 = program_outcome.1.1 ∧
    cmd_launcher (HHost := demo_host) msg (λ _, 20) = Some (msg', failed) ∧
    program_done demo_host ample_memory st1 msg' = Some st2 ∧
    session demo_pc demo_host ample_memory ample_memory (HPool := bump_pool) (OS := mem_posix) 0
      (λ o, (o, 50)) (Z.to_nat 8192) (λ _, (true, false)) 2 st2 [] = Some (st3, []) ∧
    state st3.1.1 = PEER_ERROR ∧ FileServer.result st3.1.2.1 = exit_code 20.
Proof.
  split; [split; by vm_compute|].
  refine (whole_session demo_pc demo_host ample_memory ample_memory (HPool := bump_pool)
    (OS := mem_posix) 0 (λ o, (o, 50)) (Z.to_nat 8192) (λ _, (true, false)) _ _ _ 50 _ _ _
    (demo_end 100) (demo_end 300) (set_ctl_state CONTROLLER_INITIAL demo_controller, demo_os)
    demo_world pc_handshake demo_handshake_reply (chars "TBL2") mounted_fs 68 (λ _, 20) 9
    program_calls program_outcome.1.1 program_outcome.1.2 program_outcome.2
    _ _ _ _ _ _ _ _ _ _ _ _ _ _ _ _).
  - done.
  - done.
  - by rewrite Z2Nat.id.
  - unfold RL_PING_TIMEOUT. cbn. lia.
  - done.
  - done.
  - apply (demo_end_ok _ _ (chars "10.0.0.2:7001")). by vm_compute.
  - by vm_compute.
  - exact pc_handshake_ok.
  - apply (demo_end_ok _ _ (chars "10.0.0.2:7001")). by vm_compute.
  - by vm_compute.
  - exact amiga_handshake_ok.
  - by repeat constructor.
  - by repeat constructor.
  - done.
  - split; [by vm_compute..].
  - destruct demo_controller_ok. by split.
  - exact mounted_fs_ok.
  - done.
  - vm_compute. reflexivity.
  - assert (Forall brief (fs_peer program_outcome.1.2)) as H; [|exact H].
    apply Forall_fold_right. vm_compute. repeat split; repeat constructor; done.
  - lia.
Defined.
